(* ===== verification/_CoqProject ===== *)
-Q . S2P
Prelude.v
GoStrings.v
GoNet.v
IpFamily.v
Api.v
Ipam.v
Frr.v
Vtysh.v
CopyTool.v
Ns.v
NsWorld.v
DeepCopy.v
GoTime.v
HostParams.v
Conversion.v
Netlink.v
Troubles.v
NetLogic.v
HostLinks.v
HostNetwork.v
LinkSpecs.v
Progress.v
Held.v
Faults.v
Origins.v
LinkProgress.v
VethSpecs.v
SimKernel.v
SimProgress.v
Refusals.v
Twins.v
Detour.v
HostSpecs.v
VniSpecs.v
VniProgress.v
Underlay.v
UnderlayProgress.v
Reload.v
Pods.v
Cluster.v
Controller.v
Watched.v
Outcome.v
Fleet.v
Again.v
Live.v
Steady.v
Settles.v
Lasting.v
Recovery.v
Setup.v
Machine.v
Retry.v
