(* ===== verification/Prelude.v ===== *)
(** * OpenPE router: a verification library

    The program (Go) turns the nodes of a Kubernetes cluster into provider edge
    routers.  On every node a controller watches two resources, the [Underlay] and
    the [VNI]s, and (a) writes the configuration of FRR, the routing daemon that runs
    in the router's pod, and makes it reload, (b) configures the node's network and
    the network namespace of that pod: the underlay interface and the VTEP address,
    and per VNI a veth pair, a VRF, a bridge and a VXLAN.

    ** The parts and where they are modelled

    - [internal/ipam]: Ipam.v.  [VTEPIp] and [VethIPs] give a node, known by its
      index, its addresses out of a pool.
    - [internal/ipfamily]: IpFamily.v.
    - [internal/frr] (config.go, frr.go, the templates): Frr.v.  The templates are
      functions from a [Config.t] to lines; the tests' golden files are reproduced
      by computation.  parse.go, which reads what vtysh prints: Vtysh.v.
    - [internal/conversion]: Conversion.v.  [APItoFRR] and [APItoHostConfig] convert
      the resources (Api.v) to FRR's configuration and to the parameters of the host
      network (HostParams.v).
    - [internal/hostnetwork]: HostLinks.v (namespace.go, properties.go, bridge.go,
      vrf.go, vxlan.go, veth.go) and HostNetwork.v (vni.go, underlay.go).  The code
      is a program in a state and error monad over the interface [Netlink] of
      Netlink.v.  What it establishes is in HostSpecs.v, VniSpecs.v and Underlay.v.
    - [internal/frrconfig], [cmd/reloader], [internal/logging]: Reload.v.
    - [internal/pods]: Pods.v.
    - [internal/controller]: Cluster.v (node index, router pod, readiness, event
      filters), Controller.v ([reloadFRRConfig], [configureInterfaces], [Reconcile])
      and Setup.v ([SetupWithManager], with the mains of [cmd/hostcontroller] and
      [cmd/reloader]).
    - [api/v1alpha1/zz_generated.deepcopy.go]: DeepCopy.v, over a heap of cells.
    - [internal/ns]: Ns.v, over a heap of objects and the runtime's threads.
    - [cmd/cp-tool]: CopyTool.v.

    ** How code is represented

    A Go function that returns a value and an error returns a [res]: [Ok], [Err] or
    [Panic] (a run-time panic: a nil dereference, a failed type assertion).  An
    [error] keeps its format string, its string and integer arguments and the error
    it wraps.  Functions with effects are [go W A := W → res A * W] over a world [W]
    the sections leave open; [deferring] is a [defer], [attempt] an error the code
    looks at.  Integers are [Z]; where Go computes in a width, the wrap-around is
    written out ([wrap_int64], [to_uint64], [to_int32]).  Go structs are records of
    the same field names, in a module when the names clash.

    The parts of Go's library the code relies on are definitions, not assumptions:
    GoStrings.v ([strconv.Itoa] and [Atoi], prefixes, [path.Split]), GoNet.v
    ([net.ParseIP], [ParseCIDR], masks and their printed forms), GoTime.v
    ([Duration.Seconds] with its floating point rounding); [sort.Slice] is a class
    with its documented laws and Go's insertion sort as an instance.

    Code outside the repository is a class of operations with laws on what it
    documents: [Netlink] and [NetlinkLaws] (kernel devices, addresses, routes,
    namespaces and the thread's namespace), [GoCidr] (the go-cidr library),
    [Outside] and [OutsideLaws] (commands, files, HTTP), the CRI client, the cluster's
    API ([client], [PodLaws]), [ControllerRuntime] (the manager and its event filters),
    [NsOs] and [NsLaws] (threads, goroutines, descriptors of namespaces), [MetaTypes]
    and [MetaLaws] (the metadata of Kubernetes objects).  Each has a concrete instance
    that satisfies the laws: SimKernel.v is a small kernel, NsWorld.v a process with
    threads, Machine.v a whole node with a cluster, on which [Reconcile] runs, Retry.v the
    same node under kernels that refuse; the witnesses of the theorems run on them.

    NetLogic.v is the program logic for the host network: [wp] and [wpo] (total and
    success-only weakest preconditions, instances of the [wpv] of this file), [sat] for
    every run, [quiet] for programs that leave the thread alone.  LinkSpecs.v and
    VethSpecs.v have the specifications of the functions that set single devices and the
    veth pair up.  Held.v says which sets of devices survive what is done to others (the
    peer of a veth and what a VXLAN runs over go along).  Origins.v keeps accounts of what
    the calls of a program add up to (an [account] is a relation with its sums, [obeys b R k m]
    that [m] adds at most [k] to it, in the runs that succeed or in all of them): where the
    devices come from, how many they are, which stay where they were, and in Settles.v their
    types and which of them are marked.  With these VniSpecs.v composes the
    calls for all VNIs, and Outcome.v the whole reconciliation.

    Progress.v is the other half: [fine m s] is that [m] ends without error from [s], by
    the class [NetlinkProgress] of the conditions under which the calls of the kernel are
    documented to succeed (a name of at most 15 characters that is free, a VNI of 24 bits, a
    device that is there and of a kind that can be moved, room for one more), which
    SimProgress.v proves of the small kernel.  LinkProgress.v, VniProgress.v and
    UnderlayProgress.v follow the setup functions with it, and Live.v the reconciliation.

    The laws leave open what a call that fails leaves behind.  Faults.v is the class
    [FailStop] of kernels whose calls fail as a whole (the one exception is a device that is
    to have a master: it may be made and not be enslaved).  With it Lasting.v follows the
    setup functions through every outcome, and Recovery.v the reconciliation.  Refusals.v has
    kernels that refuse calls.

    ** Troubles

    Linux numbers the devices of each namespace on its own, setns can refuse the way back
    into a namespace, and a device can be looked up without success for other reasons than
    that it is not there.  In these three places the code goes on as if nothing had happened,
    and no law excludes them.  So the theorems about what the host looks like afterwards are
    about runs in which none of them happens, and say so: [troubles f w = []], for a whole
    reconciliation [Reconcile_troubles ... = []] (Troubles.v, Watched.v: somebody watches the
    kernel's calls and writes down [IndexClash] when a router's leg shares its index with
    another device, [NotEntered] when entering the namespace of an open handle fails,
    [LoopbackUnknown] when looking the loopback up fails with any other error than that it is
    not there).  That the run before it starts from devices whose router's legs have indexes
    of their own ([legs_apart]) is a condition on the state.  What happens otherwise is shown
    in HostSpecs.v ([SetupVNI_index_clash], [inNamespace_strands]).

    The lemmas on the way are proved for kernels that never trouble ([Untroubled]).  Twins.v
    shows, one rule per construct of the code and one lemma per function, that the code
    cannot tell two kernels apart whose calls answer alike; Detour.v builds from any kernel
    one that is never in trouble - it follows the kernel up to the first trouble and goes on
    with the small kernel of SimKernel.v from there - and so carries the lemmas over to all
    runs without troubles, of any kernel.

    ** What the theorems show

    - From end to end (Outcome.v, Again.v, Controller.v): the state of the node after a
      successful reconciliation, underlay and all VNIs at once, next to what FRR was
      given; that the VNIs of earlier reconciliations stay, also when the underlay moves to
      another interface, as long as that is none of their devices; and that the host is
      touched only after FRR accepted the configuration.
    - That it gets there (Live.v, Settles.v, Steady.v): a reconciliation succeeds whenever
      nothing outside refuses ([answers]) and the node can be configured
      ([node_startable]: fresh, half configured, or configured); where at most the underlay's
      interface is marked it leads to a [node_steady], and on such a node a further
      reconciliation succeeds and leaves every device as it is ([untouched]): [Reconcile] is
      idempotent.
    - That it recovers (Recovery.v): [node_ready] is the state of a node that can be given any
      part of a plan (the underlay's interface and the VNIs that may be asked for, now or
      later).  Every run of [Reconcile] keeps it, whatever the run returns and wherever it
      stopped; and after any number of attempts, under any kernels that fail as a whole, one
      more attempt succeeds when nothing refuses, and leads to a [node_steady]; all of it
      without troubles.  The router's
      pod is the same throughout: a new sandbox is a new namespace, and what was moved to the
      old one is gone with it.
    - The cluster (Fleet.v): the nodes' controllers as a state machine; while nodes only
      join, in the order of their creation times and no two in the same second, no two ever
      announce the same VTEP, whatever the order of the runs.
    - Conversion.v, Ipam.v, Frr.v: exactly which resources are accepted; that the two
      conversions agree; the arithmetic of the pools with its bounds; that the text
      FRR gets reads back as the configuration.
    - HostSpecs.v, VniSpecs.v, Underlay.v, HostLinks.v: what [SetupVNI],
      [SetupUnderlay] and [RemoveNonConfiguredVNIs] establish and leave alone; that the
      thread returns to its namespace unless the kernel refuses; the routing tables; the
      names of the devices.
    - Reload.v, Pods.v, Cluster.v, Setup.v: the order of test and reload and what is in
      the file then; which namespace is found, and when the lookup panics; the index of a
      node; the router's pod; which events wake the controller.
    - Ns.v: however [Do] and [TempNetNS] end, no thread is left in a wrong namespace, and
      the function ran where it was meant to.
    - DeepCopy.v: a deep copy has the content of the original and shares no memory with it.
    - Vtysh.v, CopyTool.v: which outputs are accepted and what they are read as; what the
      copied file and its mode are.

    Where the code does less than it means to, a theorem says so
    ([Reconcile_keeps_vnis], [replaced_node_clash], [SetupVNI_index_clash],
    [inNamespace_strands], [same_second_clash], [nodeIndex_ties], [SetupVNI_leaks_handle],
    [vrf_takes_leg], [parseTimers_negative_keepalive], [VethIPs_v6_prints_nil],
    [NetworkNamespace_panics], [ParseRoutes_loses], [CopyFile_same_file]).  That the names of VRFs and the numbers of VNIs are not bounded
    by the API shows in the conditions of the success of [SetupVNI] ([vni_valid]).  What an
    attempt that failed leaves for good is shown by computation: the addresses of an interface
    that was moved and not restored ([retry_loses_addresses]), a bridge outside its VRF
    ([retry_leaves_bridge]).

    ** Bounds and fuel

    The only loops that are not structural are the search for a free routing table,
    whose fuel is one more than the number of links ([findFreeRoutingTableID_least]
    proves it enough), and the groups of an IPv6 address, eight rounds, one per group
    ([v6_loop 8]).  Everything else recurs on a list or a string.  The kernel has room for
    [cap] devices, fewer than 2^31, so there is a free routing table; 18 per VNI and 2 for
    the underlay bound what one reconciliation makes, counting a device that is deleted
    and made again each time.

    ** Not modelled

    Logging and contexts; [flag.Parse] (the mains start from its result); the
    registration of the resources with the scheme (groupversion_info.go and the [init]
    functions); the helpers of the end to end tests (test/utils).  The daemon FRR, the
    kernel, the Go runtime and the cluster are only known by what the code relies on.
*)

From stdpp Require Export base list strings gmap pretty numbers.
From Stdlib Require Export ZArith Lia ssreflect.
From Stdlib Require Ascii.
Export Stdlib.Strings.Ascii (ascii(..)).
Export (notations) Stdlib.Strings.Ascii.
#[global] Open Scope general_if_scope.
#[export] Set SsrOldRewriteGoalsOrder.

(** ** Go errors

    A Go [error] value is modelled by the way it was built.  [Errorf format args
    cause] is [fmt.Errorf]: the format string, the string and integer arguments
    and, when the format has a [%w] verb, the error it wraps.  Struct arguments
    of [%v] verbs are not kept.  [LinkNotFoundError] is netlink's error type the
    code tests with [errors.As]; [ErrExist] stands for an error [os.IsExist]
    accepts; [NSPathNotExistErr] and [NSPathNotNSErr] are the types of package
    [internal/ns]; [ExtErr] is any other error that code outside the repository
    returns. *)
Inductive error :=
  | Errorf (format : string) (args : list string) (cause : option error)
  | FRRConversionError (msg : string)
  | LinkNotFoundError (name : string)
  | ErrExist (msg : string)
  | NSPathNotExistErr (msg : string)
  | NSPathNotNSErr (msg : string)
  | ExtErr (msg : string).

Definition errorf (format : string) (args : list string) : error :=
  Errorf format args None.
Definition errorw (format : string) (args : list string) (cause : error) : error :=
  Errorf format args (Some cause).

(** [errors.As(err, &netlink.LinkNotFoundError{})]: walks the [%w] chain. *)
Fixpoint is_link_not_found (e : error) : bool :=
  match e with
  | LinkNotFoundError _ => true
  | Errorf _ _ (Some c) => is_link_not_found c
  | _ => false
  end.

(** [os.IsExist(err)] looks at the error itself, not at a wrapped one. *)
Definition os_IsExist (e : error) : bool :=
  match e with ErrExist _ => true | _ => false end.

(** ** Outcomes of Go functions

    A function that returns [(A, error)] ends with a value, with an error (its
    callers ignore the value then) or in a run-time panic. *)
Inductive res (A : Type) :=
  | Ok (a : A)
  | Err (e : error)
  | Panic.
Arguments Ok {_} _.
Arguments Err {_} _.
Arguments Panic {_}.

#[export] Instance res_ret : MRet res := @Ok.
#[export] Instance res_bind : MBind res := λ A B f m,
  match m with Ok a => f a | Err e => Err e | Panic => Panic end.

(** [if err != nil { return fmt.Errorf(..) }]: replaces the error. *)
Definition on_err {A} (f : error → error) (m : res A) : res A :=
  match m with Ok a => Ok a | Err e => Err (f e) | Panic => Panic end.

(** [for _, x := range l { y, err := f(x); if err != nil { return err };
    out = append(out, y) }] *)
Fixpoint traverse {A B} (f : A → res B) (l : list A) : res (list B) :=
  match l with
  | [] => Ok []
  | x :: l => y ← f x; ys ← traverse f l; Ok (y :: ys)
  end.

(** ** Effectful Go functions: a state and error monad over a world [W] *)
Definition go (W A : Type) : Type := W → res A * W.

#[export] Instance go_ret {W} : MRet (go W) := λ A a w, (Ok a, w).
#[export] Instance go_bind {W} : MBind (go W) := λ A B f m w,
  match m w with
  | (Ok a, w) => f a w
  | (Err e, w) => (Err e, w)
  | (Panic, w) => (Panic, w)
  end.

(** Lifts a pure result. *)
Definition lift {W A} (r : res A) : go W A := λ w, (r, w).
Definition fail {W A} (e : error) : go W A := λ w, (Err e, w).
Definition on_errM {W A} (f : error → error) (m : go W A) : go W A := λ w,
  let '(r, w) := m w in (on_err f r, w).

(** [x, err := m]: the error becomes a value the code looks at. *)
Definition attempt {W A} (m : go W A) : go W (A + error) := λ w,
  match m w with
  | (Ok a, w) => (Ok (inl a), w)
  | (Err e, w) => (Ok (inr e), w)
  | (Panic, w) => (Panic, w)
  end.

(** [defer d(); m]: [d] runs however [m] ends and its error is dropped. *)
Definition deferring {W A} (d : W → W) (m : go W A) : go W A := λ w,
  let '(r, w) := m w in (r, d w).

Fixpoint forM_ {W A} (f : A → go W unit) (l : list A) : go W unit :=
  match l with
  | [] => mret tt
  | x :: l => _ ← f x; forM_ f l
  end.

(** ** Machine integers *)
Definition int64_min : Z := - 2 ^ 63.
Definition int64_max : Z := 2 ^ 63 - 1.
Definition in_int64 (z : Z) : Prop := (int64_min ≤ z ≤ int64_max)%Z.
(** [uint64(x)] for an [int64] value. *)
Definition to_uint64 (z : Z) : Z := z mod 2 ^ 64.
(** The value an [int64] operation leaves. *)
Definition wrap_int64 (z : Z) : Z := (z + 2 ^ 63) mod 2 ^ 64 - 2 ^ 63.

(** ** Shared automation *)
Create HintDb pierre.

Lemma Ok_inj {A} (a b : A) : Ok a = Ok b → a = b.
Proof. by intros [=]. Qed.

(** Takes an equation between outcomes apart and substitutes. *)
Ltac simpl_res :=
  repeat match goal with
  | H : Ok _ = Ok _ |- _ => apply Ok_inj in H; subst
  | H : Err _ = Err _ |- _ => injection H as H; subst
  | H : (_, _) = (_, _) |- _ => injection H as ??; subst
  | H : Ok _ = Err _ |- _ => discriminate H
  | H : Err _ = Ok _ |- _ => discriminate H
  | H : Ok _ = Panic |- _ => discriminate H
  | H : Panic = Ok _ |- _ => discriminate H
  | H : Err _ = Panic |- _ => discriminate H
  | H : Panic = Err _ |- _ => discriminate H
  end.

Section res_lemmas.
Context {A B : Type}.
Implicit Types (m : res A) (f : A → res B) (e : error).

Lemma res_bind_Ok m f b : m ≫= f = Ok b ↔ ∃ a, m = Ok a ∧ f a = Ok b.
Proof. destruct m; simpl; naive_solver. Qed.

Lemma res_bind_Err m f e :
  m ≫= f = Err e ↔ m = Err e ∨ ∃ a, m = Ok a ∧ f a = Err e.
Proof. destruct m; simpl; naive_solver. Qed.

Lemma on_err_Ok (g : error → error) m a : on_err g m = Ok a ↔ m = Ok a.
Proof. destruct m; simpl; naive_solver. Qed.

End res_lemmas.

Section traverse_lemmas.
Context {A B : Type}.
Implicit Types (f : A → res B) (e : error).

(** The loop succeeds exactly when every element does. *)
Lemma traverse_Ok f l k :
  traverse f l = Ok k ↔ Forall2 (λ x y, f x = Ok y) l k.
Proof.
  revert k; induction l as [|x l IH]; intros k; simpl.
  - split; [naive_solver | by inversion 1].
  - split.
    + intros (y & Hy & (ys & Hys & [= <-])%res_bind_Ok)%res_bind_Ok.
      constructor; [done | by apply IH].
    + inversion 1 as [|? y ? ys Hy Hys]; subst. rewrite Hy /=.
      apply IH in Hys. by rewrite Hys.
Qed.

Lemma traverse_length f l k : traverse f l = Ok k → length k = length l.
Proof. intros Hk%traverse_Ok. exact (eq_sym (Forall2_length Hk)). Qed.

End traverse_lemmas.

Section go_lemmas.
Context {W A B : Type}.
Implicit Types (m : go W A) (f : A → go W B).

Lemma go_bind_Ok m f b w w'' :
  (m ≫= f) w = (Ok b, w'') ↔ ∃ a w', m w = (Ok a, w') ∧ f a w' = (Ok b, w'').
Proof. rewrite /mbind /go_bind. destruct (m w) as [[] ?]; naive_solver. Qed.

Lemma on_errM_Ok (g : error → error) m a w w' :
  on_errM g m w = (Ok a, w') ↔ m w = (Ok a, w').
Proof. rewrite /on_errM. destruct (m w) as [[] ?]; simpl; naive_solver. Qed.

Lemma deferring_Ok (d : W → W) m a w w' :
  deferring d m w = (Ok a, w') ↔ ∃ w1, m w = (Ok a, w1) ∧ w' = d w1.
Proof. rewrite /deferring. destruct (m w) as [[] ?]; naive_solver. Qed.

Lemma lift_Ok (r : res A) a (w w' : W) :
  lift (W:=W) r w = (Ok a, w') ↔ r = Ok a ∧ w' = w.
Proof. rewrite /lift. naive_solver. Qed.

Lemma attempt_Ok m r w w' :
  attempt m w = (Ok r, w') ↔
  match r with inl a => m w = (Ok a, w') | inr e => m w = (Err e, w') end.
Proof. rewrite /attempt. destruct (m w) as [[] ?], r; naive_solver. Qed.
End go_lemmas.

#[export] Hint Rewrite @res_bind_Ok @on_err_Ok @go_bind_Ok @on_errM_Ok @lift_Ok
  : pierre.

(** Decomposes a successful run into the runs of its steps. *)
Ltac inv_ok_step :=
  match goal with
  | H : context [_ ≫= _] |- _ =>
      first [apply res_bind_Ok in H as (? & ? & H)
            | apply go_bind_Ok in H as (? & ? & ? & H)]
  | H : on_err _ _ = Ok _ |- _ => apply on_err_Ok in H
  | H : on_errM _ _ _ = (Ok _, _) |- _ => apply on_errM_Ok in H
  | H : lift _ _ = (Ok _, _) |- _ => apply lift_Ok in H as [H ->]
  | H : mret _ = Ok _ |- _ => injection H as H; subst
  | H : mret _ _ = (Ok _, _) |- _ => injection H as ? ?; subst
  | H : fail _ _ = (Ok _, _) |- _ => discriminate H
  end.
Ltac inv_ok := repeat (progress (simpl_res || inv_ok_step)).

(** ** Finite case analysis by computation *)
Lemma forall_range (P : Z → Prop) `{∀ z, Decision (P z)} (lo n : Z) :
  forallb (λ z, bool_decide (P z)) (seqZ lo n) = true →
  ∀ z, (lo ≤ z < lo + n)%Z → P z.
Proof.
  intros Hf z Hz. apply (bool_decide_eq_true_1 (P z)).
  apply (proj1 (List.forallb_forall _ _) Hf).
  apply list_elem_of_In, elem_of_seqZ; lia.
Qed.

(** ** Lists *)

Lemma traverse_total {A B} (f : A → res B) (g : A → B) (l : list A) :
  Forall (λ x, f x = Ok (g x)) l → traverse f l = Ok (g <$> l).
Proof. induction 1 as [|x l Hx _ IH]; [done|]. by rewrite /= Hx /= IH. Qed.

(** The set of the elements is not bigger than the list, and smaller when an element
    comes twice. *)
Lemma size_list_le {A} `{Countable A} (l : list A) : (size (list_to_set (C:=gset A) l) ≤ length l)%nat.
Proof.
  induction l as [|x l IH]; [done|]. cbn [list_to_set length].
  destruct (decide (x ∈ (list_to_set l : gset A))) as [Hx|Hx].
  - assert ({[x]} ∪ list_to_set l = (list_to_set l : gset A)) as -> by set_solver. lia.
  - rewrite size_union; [|set_solver]. rewrite size_singleton. lia.
Qed.

Lemma size_list_lt {A} `{Countable A} (l : list A) :
  ¬ NoDup l → (size (list_to_set (C:=gset A) l) < length l)%nat.
Proof.
  induction l as [|x l IH]; intros Hnd; [by destruct Hnd; constructor|].
  cbn [list_to_set length]. destruct (decide (x ∈ l)) as [Hx|Hx].
  - assert ({[x]} ∪ list_to_set l = (list_to_set l : gset A)) as -> by set_solver.
    pose proof (size_list_le l). lia.
  - rewrite size_union; [|set_solver]. rewrite size_singleton.
    assert (¬ NoDup l) as Hl by (intros ?; apply Hnd; by constructor). specialize (IH Hl). lia.
Qed.

(** ** What every run of a computation preserves

    [preserves R m]: however [m] ends, the worlds before and after are related. *)
Definition preserves {W A} (R : W → W → Prop) (m : go W A) : Prop :=
  ∀ w r w', m w = (r, w') → R w w'.

Section preserves_lemmas.
Context {W : Type} (R : W → W → Prop) `{!PreOrder R}.

Lemma preserves_ret {A} (a : A) : preserves R (mret a).
Proof. intros w r w' Hr. injection Hr as _ <-. reflexivity. Qed.
Lemma preserves_fail {A} e : preserves R (@fail W A e).
Proof. intros w r w' Hr. injection Hr as _ <-. reflexivity. Qed.
Lemma preserves_lift {A} (x : res A) : preserves R (lift x).
Proof. intros w r w' Hr. injection Hr as _ <-. reflexivity. Qed.
Lemma preserves_on_err {A} g (m : go W A) : preserves R m → preserves R (on_errM g m).
Proof.
  intros Hm w r w'. unfold on_errM. destruct (m w) as [x w1] eqn:E. intros Hr. injection Hr as _ <-.
  exact (Hm _ _ _ E).
Qed.
Lemma preserves_attempt {A} (m : go W A) : preserves R m → preserves R (attempt m).
Proof.
  intros Hm w r w'. unfold attempt. destruct (m w) as [x w1] eqn:E. apply Hm in E.
  by destruct x; intros Hr; injection Hr as _ <-.
Qed.
Lemma preserves_bind {A B} (m : go W A) (f : A → go W B) :
  preserves R m → (∀ a, preserves R (f a)) → preserves R (m ≫= f).
Proof.
  intros Hm Hf w r w'. unfold mbind, go_bind. destruct (m w) as [x w1] eqn:E. apply Hm in E.
  destruct x; [|by intros Hr; injection Hr as _ <-..]. intros Hr%Hf. exact (transitivity E Hr).
Qed.
End preserves_lemmas.
#[export] Hint Resolve preserves_ret preserves_fail preserves_lift preserves_on_err
  preserves_attempt preserves_bind : pierre.

(** ** Runs from what can be seen of a world

    [wpv view m v Q]: run from a world that shows [v], [m] ends with an outcome and a
    world that shows a value in [Q].  One rule per construct of the code. *)
Definition wpv {W V A} (view : W → V) (m : go W A) (v : V) (Q : res A → V → Prop) : Prop :=
  ∀ w r w', view w = v → m w = (r, w') → Q r (view w').

Section wpv_rules.
Context {W V : Type} (view : W → V).

Lemma wpv_mono {A} (m : go W A) v (Q Q' : res A → V → Prop) :
  wpv view m v Q → (∀ r v', Q r v' → Q' r v') → wpv view m v Q'.
Proof. intros Hm HQ w r w' Hw Hr. exact (HQ _ _ (Hm w r w' Hw Hr)). Qed.

Lemma wpv_bind {A B} (m : go W A) (f : A → go W B) v Q :
  wpv view m v (λ r v', match r with
                        | Ok a => wpv view (f a) v' Q
                        | Err e => Q (Err e) v'
                        | Panic => Q Panic v'
                        end) → wpv view (m ≫= f) v Q.
Proof.
  intros Hm w r w' Hw. rewrite /mbind /go_bind. destruct (m w) as [r1 w1] eqn:E.
  pose proof (Hm w r1 w1 Hw E) as Hrun. destruct r1 as [a|e|].
  - exact (Hrun w1 r w' eq_refl).
  - by intros [= <- <-].
  - by intros [= <- <-].
Qed.

Lemma wpv_ret {A} (a : A) v Q : Q (Ok a) v → wpv view (mret a) v Q.
Proof. by intros HQ w r w' <- [= <- <-]. Qed.

Lemma wpv_fail {A} e v (Q : res A → V → Prop) : Q (Err e) v → wpv view (fail e) v Q.
Proof. by intros HQ w r w' <- [= <- <-]. Qed.

Lemma wpv_lift {A} (x : res A) v Q : Q x v → wpv view (lift x) v Q.
Proof. by intros HQ w r w' <- [= <- <-]. Qed.

Lemma wpv_on_err {A} g (m : go W A) v Q :
  wpv view m v (λ r v', Q (on_err g r) v') → wpv view (on_errM g m) v Q.
Proof.
  intros Hm w r w' Hw. rewrite /on_errM. destruct (m w) as [r1 w1] eqn:E.
  intros [= <- <-]. exact (Hm w r1 w1 Hw E).
Qed.

Lemma wpv_attempt {A} (m : go W A) v Q :
  wpv view m v (λ r v', match r with
                        | Ok a => Q (Ok (inl a)) v'
                        | Err e => Q (Ok (inr e)) v'
                        | Panic => Q Panic v'
                        end) → wpv view (attempt m) v Q.
Proof.
  intros Hm w r w' Hw. rewrite /attempt. destruct (m w) as [r1 w1] eqn:E.
  pose proof (Hm w r1 w1 Hw E) as Hrun. destruct r1; by intros [= <- <-].
Qed.

(** [d] runs on what [m] leaves. *)
Lemma wpv_deferring {A B} (d : go W B) (m : go W A) v Q :
  wpv view m v (λ r v1, wpv view d v1 (λ _ v2, Q r v2)) →
  wpv view (deferring (λ w, (d w).2) m) v Q.
Proof.
  intros Hm w r w' Hw. rewrite /deferring. destruct (m w) as [r1 w1] eqn:E.
  pose proof (Hm w r1 w1 Hw E) as Hrun. intros [= <- <-].
  destruct (d w1) as [r2 w2] eqn:E2. exact (Hrun w1 r2 w2 eq_refl E2).
Qed.
End wpv_rules.
