(* ===== verification/GoStrings.v ===== *)
(** * The parts of Go's [strings], [strconv], [fmt] and [path] the program uses

    Byte strings are [string]s.  [Itoa] is the decimal form [strconv.Itoa] and
    the [%d] verb print; [Atoi] is [strconv.Atoi] on 64-bit [int]s; [cut_at] and
    [path_Split] find the first, respectively last, occurrence of a byte. *)

From S2P Require Import Prelude.
Local Open Scope Z_scope.

Definition char_val (c : ascii) : Z := Z.of_nat (Ascii.nat_of_ascii c).

(** ** Prefixes *)

(** The rest of [s] after the prefix [p]. *)
Fixpoint cut_prefix (p s : string) : option string :=
  match p, s with
  | EmptyString, _ => Some s
  | String a p, String b s => if Ascii.eqb a b then cut_prefix p s else None
  | String _ _, EmptyString => None
  end.

Definition HasPrefix (s p : string) : bool :=
  match cut_prefix p s with Some _ => true | None => false end.
Definition TrimPrefix (s p : string) : string := default s (cut_prefix p s).

(** ** Searching for a byte *)

(** [i := strings.IndexByte(s, c)]: [s[:i]] and [s[i+1:]], or nothing. *)
Fixpoint cut_at (c : ascii) (s : string) : option (string * string) :=
  match s with
  | EmptyString => None
  | String a s =>
      if Ascii.eqb a c then Some (EmptyString, s)
      else '(x, y) ← cut_at c s; Some (String a x, y)
  end.

(** [path.Split]: the text up to and with the last slash, and the rest. *)
Fixpoint path_Split (s : string) : string * string :=
  match s with
  | EmptyString => (EmptyString, EmptyString)
  | String a s =>
      let '(dir, file) := path_Split s in
      match dir with
      | EmptyString =>
          if Ascii.eqb a "/"%char then (String a EmptyString, file)
          else (EmptyString, String a file)
      | _ => (String a dir, file)
      end
  end.

(** ** Decimal integers *)
Definition Itoa (z : Z) : string := pretty z.

Definition digit_val (c : ascii) : option Z :=
  let v := char_val c in
  if (48 <=? v) && (v <=? 57) then Some (v - 48) else None.

Fixpoint parse_digits (acc : Z) (s : string) : option Z :=
  match s with
  | EmptyString => Some acc
  | String c s => d ← digit_val c; parse_digits (10 * acc + d) s
  end.

Definition ErrSyntax : error := ExtErr "invalid syntax".
Definition ErrRange : error := ExtErr "value out of range".

(** The number behind the sign, in the range of a 64-bit [int]. *)
Definition Atoi_digits (neg : bool) (ds : string) : res Z :=
  match ds with
  | EmptyString => Err ErrSyntax
  | _ =>
      match parse_digits 0 ds with
      | None => Err ErrSyntax
      | Some n =>
          let z := if neg then - n else n in
          if (int64_min <=? z) && (z <=? int64_max) then Ok z else Err ErrRange
      end
  end.

(** [strconv.Atoi]: an optional sign and at least one decimal digit. *)
Definition Atoi (s : string) : res Z :=
  match s with
  | String c r =>
      if Ascii.eqb c "-"%char then Atoi_digits true r
      else if Ascii.eqb c "+"%char then Atoi_digits false r
      else Atoi_digits false s
  | EmptyString => Err ErrSyntax
  end.

(** ** Lemmas *)
Lemma string_app_cons c (p s : string) : String c p +:+ s = String c (p +:+ s).
Proof. done. Qed.
Lemma string_app_nil (s : string) : "" +:+ s = s.
Proof. done. Qed.
#[export] Hint Rewrite string_app_cons string_app_nil : pierre.

Lemma cut_prefix_app p s : cut_prefix p (p +:+ s) = Some s.
Proof.
  induction p as [|c p IH]; [done|]. by rewrite string_app_cons /= Ascii.eqb_refl.
Qed.

Lemma cut_prefix_Some p s r : cut_prefix p s = Some r ↔ s = p +:+ r.
Proof.
  split; [|intros ->; apply cut_prefix_app].
  revert s; induction p as [|c p IH]; intros [|d s] H; simplify_eq/=; try done.
  destruct (Ascii.eqb_spec c d); [subst|done]. rewrite string_app_cons. f_equal; eauto.
Qed.

Lemma HasPrefix_app p s : HasPrefix (p +:+ s) p = true.
Proof. by rewrite /HasPrefix cut_prefix_app. Qed.

Lemma HasPrefix_iff p s : HasPrefix s p = true ↔ ∃ r, s = p +:+ r.
Proof.
  rewrite /HasPrefix; split.
  - destruct (cut_prefix p s) as [r|] eqn:E; [|done].
    intros _; exists r. by apply cut_prefix_Some.
  - intros [r ->]. by rewrite cut_prefix_app.
Qed.

Lemma TrimPrefix_app p s : TrimPrefix (p +:+ s) p = s.
Proof. by rewrite /TrimPrefix cut_prefix_app. Qed.

Lemma string_app_inj_r (p s1 s2 : string) : p +:+ s1 = p +:+ s2 → s1 = s2.
Proof.
  induction p; intros H; [done|]. rewrite !string_app_cons in H. simplify_eq. auto.
Qed.

Lemma string_length_app (a b : string) :
  String.length (a +:+ b) = (String.length a + String.length b)%nat.
Proof. induction a as [|c a IH]; [done|]. rewrite string_app_cons /= IH. lia. Qed.

Lemma string_app_inj_l (s s1 s2 : string) : s1 +:+ s = s2 +:+ s → s1 = s2.
Proof.
  revert s2; induction s1 as [|c s1 IH]; intros [|d s2] H; [done|..];
    rewrite ?string_app_cons ?string_app_nil in H.
  1,2: apply (f_equal String.length) in H; simpl in H;
    rewrite string_length_app in H; lia.
  injection H as -> H. f_equal. by apply IH.
Qed.

Lemma string_app_nil_r (s : string) : s +:+ "" = s.
Proof. induction s as [|x s IH]; [done|]. by rewrite string_app_cons IH. Qed.

Lemma string_app_assoc (a b c : string) : (a +:+ b) +:+ c = a +:+ (b +:+ c).
Proof. induction a as [|x a IH]; [done|]. by rewrite !string_app_cons IH. Qed.

(** A string of decimal digits. *)
Fixpoint all_digits (s : string) : bool :=
  match s with
  | EmptyString => true
  | String c s => match digit_val c with Some _ => all_digits s | None => false end
  end.

(** A string without the byte [c]. *)
Fixpoint no_char (c : ascii) (s : string) : bool :=
  match s with
  | EmptyString => true
  | String a s => negb (Ascii.eqb a c) && no_char c s
  end.

Lemma no_char_cons c a s :
  no_char c (String a s) = negb (Ascii.eqb a c) && no_char c s.
Proof. done. Qed.

Lemma no_char_app c x y : no_char c (x +:+ y) = no_char c x && no_char c y.
Proof.
  induction x as [|a x IH]; [done|]. by rewrite string_app_cons /= IH andb_assoc.
Qed.

Lemma no_char_digits c x :
  digit_val c = None → all_digits x = true → no_char c x = true.
Proof.
  intros Hc; induction x as [|a x IH]; simpl; [done|].
  destruct (Ascii.eqb_spec a c) as [->|]; [by rewrite Hc|]. by destruct (digit_val a).
Qed.

Lemma cut_at_app c x y : no_char c x = true → cut_at c (x +:+ String c y) = Some (x, y).
Proof.
  intros Hx; induction x as [|a x IH].
  - by rewrite string_app_nil /= Ascii.eqb_refl.
  - rewrite string_app_cons; simpl in *. destruct (Ascii.eqb a c); [done|].
    by rewrite IH.
Qed.

Lemma digit_val_N_char n :
  (n < 10)%N → digit_val (pretty_N_char n) = Some (Z.of_N n).
Proof.
  intros Hn.
  assert (n ∈ [0;1;2;3;4;5;6;7;8;9]%N) as H.
  { assert (n = 0 ∨ n = 1 ∨ n = 2 ∨ n = 3 ∨ n = 4 ∨ n = 5 ∨ n = 6 ∨ n = 7
      ∨ n = 8 ∨ n = 9)%N by lia. set_solver. }
  set_unfold in H. by repeat destruct H as [->|H]; [..|done].
Qed.

Lemma parse_pretty_N_go n s :
  parse_digits 0 (pretty_N_go n s) = parse_digits (Z.of_N n) s.
Proof.
  revert s; induction (N.lt_wf_0 n) as [n _ IH]; intros s.
  destruct (decide (n = 0)%N) as [->|Hn]; [done|].
  rewrite pretty_N_go_step; [|lia].
  rewrite IH; [|apply N.div_lt; lia].
  simpl. rewrite digit_val_N_char; [|by apply N.mod_lt]. simpl. f_equal.
  pose proof (N.div_mod n 10 ltac:(done)). lia.
Qed.

Lemma parse_digits_Npretty n :
  parse_digits 0 (pretty (n : N)) = Some (Z.of_N n).
Proof.
  rewrite /pretty /pretty_N. case_decide; subst; [done|]. by rewrite parse_pretty_N_go.
Qed.

Lemma parse_digits_all acc s : parse_digits acc s ≠ None ↔ all_digits s = true.
Proof.
  revert acc; induction s as [|c s IH]; intros acc; simpl; [naive_solver|].
  destruct (digit_val c); simpl; [apply IH|naive_solver].
Qed.

Lemma all_digits_Npretty (n : N) : all_digits (pretty n) = true.
Proof. eapply (parse_digits_all 0). by rewrite parse_digits_Npretty. Qed.

(** A non-negative number prints as digits that parse back to it. *)
Lemma Itoa_nonneg z :
  0 ≤ z → parse_digits 0 (Itoa z) = Some z ∧ all_digits (Itoa z) = true
    ∧ Itoa z ≠ "".
Proof.
  intros Hz. assert (Itoa z = pretty (Z.to_N z)) as ->.
  { destruct z; [done|done|lia]. }
  rewrite parse_digits_Npretty. rewrite Z2N.id; [|done].
  split_and!; [done|apply all_digits_Npretty|].
  intros E. pose proof (parse_digits_Npretty (Z.to_N z)) as H.
  rewrite E /= in H. assert (z = 0) as -> by (injection H; lia). done.
Qed.

Lemma Atoi_digits_Ok neg ds n :
  ds ≠ "" → parse_digits 0 ds = Some n → in_int64 (if neg : bool then - n else n) →
  Atoi_digits neg ds = Ok (if neg : bool then - n else n).
Proof.
  intros Hne Hp [Hlo Hhi]. rewrite /Atoi_digits. destruct ds as [|c r]; [done|].
  rewrite Hp. by rewrite !(proj2 (Z.leb_le _ _)).
Qed.

(** Printing a 64-bit integer and parsing it again gives it back. *)
Lemma Atoi_Itoa z : in_int64 z → Atoi (Itoa z) = Ok z.
Proof.
  intros Hr. destruct z as [|p|p].
  1,2: match goal with |- Atoi (Itoa ?z) = _ =>
      destruct (Itoa_nonneg z) as (Hp & Hd & Hne); [lia|];
      rewrite /Atoi; destruct (Itoa z) as [|c r] eqn:E; [done|];
      assert (Ascii.eqb c "-" = false ∧ Ascii.eqb c "+" = false) as [-> ->]
        by (simpl in Hd; split; apply Ascii.eqb_neq; intros ->; done);
      by rewrite (Atoi_digits_Ok false _ z)
    end.
  assert (Itoa (Zneg p) = String "-" (Itoa (Zpos p))) as -> by done.
  destruct (Itoa_nonneg (Zpos p)) as (Hp & _ & Hne); [lia|].
  by rewrite /Atoi /= (Atoi_digits_Ok true _ (Zpos p)).
Qed.

Lemma Itoa_inj a b : Itoa a = Itoa b → a = b.
Proof. apply (inj pretty). Qed.
#[export] Hint Resolve Itoa_inj : pierre.

Lemma no_char_Itoa c z :
  digit_val c = None → Ascii.eqb "-" c = false → no_char c (Itoa z) = true.
Proof.
  intros Hc Hm. destruct (decide (0 ≤ z)).
  - apply no_char_digits; [done|]. by apply Itoa_nonneg.
  - destruct z as [|p|p]; [lia|lia|].
    assert (Itoa (Zneg p) = String "-" (Itoa (Zpos p))) as -> by done.
    rewrite no_char_cons Hm. apply no_char_digits; [done|]. by apply Itoa_nonneg.
Qed.
