(* ===== verification/GoNet.v ===== *)
(** * The parts of Go's [net] and [net/netip] packages the program uses

    An [IP] is its bytes, most significant first; the nil [IP] is the empty
    list.  [ParseAddr] is [netip.ParseAddr] with its IPv4 and IPv6 scanners;
    [ParseIP], [ParseCIDR], [To4], [Equal], [CIDRMask], [Mask_Size] and the
    [String] methods are those of package [net] (Go 1.22). *)

From S2P Require Import Prelude GoStrings.
Local Open Scope Z_scope.

Notation IP := (list Z).
Notation IPMask := (list Z).
Record IPNet := mkIPNet { IPNet_IP : IP; IPNet_Mask : IPMask }.

Definition nilIP : IP := [].
Definition IPv4len : nat := 4.
Definition IPv6len : nat := 16.
Definition v4InV6Prefix : list Z := replicate 10 0 ++ [255; 255].

#[export] Instance IPNet_eq_dec : EqDecision IPNet.
Proof. solve_decision. Defined.

(** ** Addresses *)
Definition To4 (ip : IP) : IP :=
  if decide (length ip = IPv4len) then ip
  else if decide (length ip = IPv6len ∧ take 12 ip = v4InV6Prefix)
  then drop 12 ip else nilIP.

Definition Equal (ip x : IP) : bool :=
  if decide (length ip = length x) then bool_decide (ip = x)
  else if decide (length ip = IPv4len ∧ length x = IPv6len)
  then bool_decide (take 12 x = v4InV6Prefix ∧ drop 12 x = ip)
  else if decide (length ip = IPv6len ∧ length x = IPv4len)
  then bool_decide (take 12 ip = v4InV6Prefix ∧ drop 12 ip = x)
  else false.

(** ** Masks *)

(** The byte that covers the bits [8*i .. 8*i+7] of a mask of [n] ones. *)
Definition mask_byte (n : Z) (i : nat) : Z :=
  let k := Z.min 8 (Z.max 0 (n - 8 * Z.of_nat i)) in 256 - 2 ^ (8 - k).

Definition CIDRMask (ones bits : Z) : IPMask :=
  if ((bits =? 32) || (bits =? 128)) && (0 <=? ones) && (ones <=? bits)
  then mask_byte ones <$> seq 0 (Z.to_nat (bits / 8))
  else [].

Definition IP_Mask (ip : IP) (mask : IPMask) : IP :=
  let mask := if decide (length mask = IPv6len ∧ length ip = IPv4len
                         ∧ take 12 mask = replicate 12 255)
              then drop 12 mask else mask in
  let ip := if decide (length mask = IPv4len ∧ length ip = IPv6len
                       ∧ take 12 ip = v4InV6Prefix)
            then drop 12 ip else ip in
  if decide (length ip = length mask) then zip_with Z.land ip mask else nilIP.

(** [simpleMaskLength]: the number of leading ones, or -1 when a one follows a
    zero. *)
Fixpoint simpleMaskLength (m : IPMask) : Z :=
  match m with
  | [] => 0
  | b :: m =>
      if b =? 255 then
        let r := simpleMaskLength m in if r =? -1 then -1 else 8 + r
      else
        match list_find (λ k, b = mask_byte (Z.of_nat k) 0) (seq 0 8) with
        | Some (_, k) =>
            if decide (Forall (λ x, x = 0) m) then Z.of_nat k else -1
        | None => -1
        end
  end.

(** [IPMask.Size]: ones and bits. *)
Definition Mask_Size (m : IPMask) : Z * Z :=
  let ones := simpleMaskLength m in
  if ones =? -1 then (0, 0) else (ones, 8 * Z.of_nat (length m)).

(** ** Printing *)
Definition hex_char (v : Z) : ascii :=
  Ascii.ascii_of_nat (Z.to_nat (if v <? 10 then 48 + v else 87 + v)).
Definition hex_byte (b : Z) : string :=
  String (hex_char (b / 16)) (String (hex_char (b mod 16)) "").
Definition hexString (l : list Z) : string :=
  foldr (λ b s, hex_byte b +:+ s) "" l.
Definition Mask_String (m : IPMask) : string :=
  match m with [] => "<nil>" | _ => hexString m end.

Definition dotted (a b c d : Z) : string :=
  Itoa a +:+ String "." (Itoa b +:+ String "." (Itoa c +:+ String "." (Itoa d))).

(** [appendHex]: lower case, no leading zeros. *)
Definition hex_u16 (v : Z) : string :=
  let s := hexString [v / 256; v mod 256] in
  let fix strip (n : nat) (s : string) :=
    match n, s with
    | S n, String c r => if Ascii.eqb c "0"%char then strip n r else s
    | _, _ => s
    end in
  strip 3%nat s.

Fixpoint u16s (l : list Z) : list Z :=
  match l with h :: l :: r => (256 * h + l) :: u16s r | _ => [] end.

(** The length of the run of zeros [l] starts with. *)
Fixpoint zero_run (l : list Z) : nat :=
  match l with 0 :: l => S (zero_run l) | _ => 0 end.

(** The first longest run of at least two zero groups: where it starts and how
    long it is (0 when there is none). *)
Fixpoint longest_run (i : nat) (l : list Z) (best : nat * nat) : nat * nat :=
  match l with
  | [] => best
  | _ :: r =>
      let n := zero_run l in
      longest_run (S i) r
        (if (2 <=? n)%nat && (snd best <? n)%nat then (i, n) else best)
  end.

Definition join_colon (l : list Z) : string :=
  match l with
  | [] => ""
  | x :: l => foldl (λ s g, s +:+ String ":" (hex_u16 g)) (hex_u16 x) l
  end.

Definition v6_String (ip : list Z) : string :=
  let g := u16s ip in
  let '(start, n) := longest_run 0 g (0%nat, 0%nat) in
  if (n =? 0)%nat then join_colon g
  else join_colon (take start g) +:+ "::" +:+ join_colon (drop (start + n) g).

Definition IP_String (ip : IP) : string :=
  if decide (ip = nilIP) then "<nil>"
  else if negb (bool_decide (length ip = IPv4len)) &&
          negb (bool_decide (length ip = IPv6len)) then String "?" (hexString ip)
  else match To4 ip with
       | [a; b; c; d] => dotted a b c d
       | _ => v6_String ip
       end.

Definition IPNet_String (n : IPNet) : string :=
  let ip := match To4 (IPNet_IP n) with [] => IPNet_IP n | p4 => p4 end in
  let m := IPNet_Mask n in
  let m := if decide (length ip = IPv4len ∧ length m = IPv6len)
           then drop 12 m else m in
  if decide (length ip = length m ∧ (length ip = IPv4len ∨ length ip = IPv6len))
  then
    let l := simpleMaskLength m in
    if l =? -1 then IP_String ip +:+ String "/" (Mask_String m)
    else IP_String ip +:+ String "/" (Itoa l)
  else "<nil>".

(** ** Parsing *)

(** The IPv4 scanner [parseIPv4Fields]: [start] says whether the scan is at the
    first byte or just after a dot. *)
Fixpoint parseIPv4Fields (s : string) (start : bool) (val digLen : Z)
    (fields : list Z) : option (list Z) :=
  match s with
  | EmptyString => if (length fields <? 3)%nat then None else Some (fields ++ [val])
  | String c r =>
      match digit_val c with
      | Some d =>
          if (digLen =? 1) && (val =? 0) then None
          else
            let val := val * 10 + d in
            if 255 <? val then None
            else parseIPv4Fields r false val (digLen + 1) fields
      | None =>
          if Ascii.eqb c "."%char then
            if start || bool_decide (r = "") then None
            else if (length fields =? 3)%nat then None
            else parseIPv4Fields r true 0 0 (fields ++ [val])
          else None
      end
  end.

Definition hex_val (c : ascii) : option Z :=
  let v := char_val c in
  if (48 <=? v) && (v <=? 57) then Some (v - 48)
  else if (97 <=? v) && (v <=? 102) then Some (v - 87)
  else if (65 <=? v) && (v <=? 70) then Some (v - 55)
  else None.

(** The digits of one group: its value, how many there were, and the rest. *)
Fixpoint hex_group (s : string) (off : Z) (acc : Z) : option (Z * Z * string) :=
  match s with
  | EmptyString => Some (acc, off, s)
  | String c r =>
      match hex_val c with
      | Some d =>
          if 3 <? off then None
          else
            let acc := 16 * acc + d in
            if 65535 <? acc then None else hex_group r (off + 1) acc
      | None => Some (acc, off, s)
      end
  end.

(** The loop over the groups of an IPv6 address.  [ip] holds the bytes read so
    far and [ellipsis] where the double colon stood; [fuel] counts down the
    eight rounds the bound [i < 16] allows. *)
Fixpoint v6_loop (fuel : nat) (s : string) (ip : list Z) (ellipsis : option nat)
    : option (string * list Z * option nat) :=
  match fuel with
  | O => Some (s, ip, ellipsis)
  | S fuel =>
      '(acc, off, rest) ← hex_group s 0 0;
      if off =? 0 then None
      else
        let i := length ip in
        match rest with
        | String "."%char _ =>
            if bool_decide (ellipsis = None) && negb (i =? 12)%nat then None
            else if (16 <? i + 4)%nat then None
            else (fs ← parseIPv4Fields s true 0 0 []; Some ("", ip ++ fs, ellipsis))
        | EmptyString => Some ("", ip ++ [acc / 256; acc mod 256], ellipsis)
        | String c r =>
            let ip := ip ++ [acc / 256; acc mod 256] in
            if negb (Ascii.eqb c ":"%char) then None
            else
              match r with
              | EmptyString => None
              | String c' r' =>
                  if Ascii.eqb c' ":"%char then
                    match ellipsis with
                    | Some _ => None
                    | None =>
                        if bool_decide (r' = "") then Some ("", ip, Some (length ip))
                        else v6_loop fuel r' ip (Some (length ip))
                    end
                  else v6_loop fuel r ip ellipsis
              end
        end
  end.

(** A [netip.Addr]: its 16 bytes, whether it is a 4-byte address, its zone. *)
Record Addr := mkAddr { addr16 : list Z; addr_is4 : bool; addr_zone : string }.
Definition BitLen (a : Addr) : Z := if addr_is4 a then 32 else 128.

Definition parseIPv4 (s : string) : option Addr :=
  fs ← parseIPv4Fields s true 0 0 [];
  Some (mkAddr (v4InV6Prefix ++ fs) true "").

Definition parseIPv6 (s : string) : option Addr :=
  '(s, zone) ←
    match cut_at "%"%char s with
    | Some (s, zone) => if bool_decide (zone = "") then None else Some (s, zone)
    | None => Some (s, "")
    end;
  let '(s, ellipsis) :=
    match s with
    | String ":"%char (String ":"%char r) => (r, Some 0%nat)
    | _ => (s, None)
    end in
  if bool_decide (ellipsis ≠ None ∧ s = "") then Some (mkAddr (replicate 16 0) false zone)
  else
    '(s, ip, ellipsis) ← v6_loop 8 s [] ellipsis;
    if bool_decide (s ≠ "") then None
    else if (length ip <? 16)%nat then
      e ← ellipsis;
      Some (mkAddr (take e ip ++ replicate (16 - length ip) 0 ++ drop e ip) false zone)
    else
      match ellipsis with
      | Some _ => None
      | None => Some (mkAddr ip false zone)
      end.

(** [netip.ParseAddr]: the first of a dot, a colon and a percent sign decides. *)
Fixpoint ParseAddr_scan (s t : string) : option Addr :=
  match t with
  | EmptyString => None
  | String c t =>
      if Ascii.eqb c "."%char then parseIPv4 s
      else if Ascii.eqb c ":"%char then parseIPv6 s
      else if Ascii.eqb c "%"%char then None
      else ParseAddr_scan s t
  end.
Definition ParseAddr (s : string) : option Addr := ParseAddr_scan s s.

(** [net.ParseIP]: nil, or 16 bytes. *)
Definition ParseIP (s : string) : IP :=
  match ParseAddr s with
  | Some a => if bool_decide (addr_zone a = "") then addr16 a else nilIP
  | None => nilIP
  end.

(** [dtoi] on a whole string: a decimal below [0xFFFFFF]. *)
Definition dtoi_big : Z := 16777215.
Fixpoint dtoi (n : Z) (s : string) : option Z :=
  match s with
  | EmptyString => Some n
  | String c r =>
      d ← digit_val c;
      let n := n * 10 + d in if dtoi_big <=? n then None else dtoi n r
  end.

(** [net.ParseCIDR]: the address and the network it lies in. *)
Definition ParseCIDR (s : string) : res (IP * IPNet) :=
  let bad := Err (ExtErr "invalid CIDR address") in
  match cut_at "/"%char s with
  | None => bad
  | Some (addr, mask) =>
      match ParseAddr addr with
      | None => bad
      | Some a =>
          if negb (bool_decide (addr_zone a = "")) then bad
          else
            match (if bool_decide (mask = "") then None else dtoi 0 mask) with
            | None => bad
            | Some n =>
                if BitLen a <? n then bad
                else
                  let m := CIDRMask n (BitLen a) in
                  Ok (addr16 a, mkIPNet (IP_Mask (addr16 a) m) m)
            end
      end
  end.

Example ParseIP_v4 : ParseIP "192.168.1.7" = v4InV6Prefix ++ [192; 168; 1; 7].
Proof. reflexivity. Qed.
Example ParseIP_v4_leading_zero : ParseIP "192.168.01.7" = nilIP.
Proof. reflexivity. Qed.
Example ParseIP_v6 : ParseIP "2001:db8::68" =
  [32; 1; 13; 184; 0; 0; 0; 0; 0; 0; 0; 0; 0; 0; 0; 104].
Proof. reflexivity. Qed.
Example ParseIP_mapped :
  ParseIP "::ffff:10.0.0.1" = v4InV6Prefix ++ [10; 0; 0; 1].
Proof. reflexivity. Qed.
Example ParseIP_zone : ParseIP "fe80::1%eth0" = nilIP.
Proof. reflexivity. Qed.
Example v6_String_compressed : IP_String (ParseIP "2001:db8:0:0:1:0:0:1") = "2001:db8::1:0:0:1".
Proof. reflexivity. Qed.
Example ParseCIDR_v4 : ParseCIDR "192.168.1.7/24" =
  Ok (v4InV6Prefix ++ [192; 168; 1; 7], mkIPNet [192; 168; 1; 0] [255; 255; 255; 0]).
Proof. reflexivity. Qed.
Example IPNet_String_v4 :
  IPNet_String (mkIPNet [192; 168; 1; 0] [255; 255; 255; 0]) = "192.168.1.0/24".
Proof. reflexivity. Qed.

(** ** The number an address stands for *)
Definition is_byte (b : Z) : Prop := 0 ≤ b < 256.
#[export] Instance is_byte_dec b : Decision (is_byte b).
Proof. unfold is_byte. apply _. Defined.

Definition ip_val (ip : IP) : Z := foldl (λ v b, 256 * v + b) 0 ip.
Fixpoint ip_of_val (n : nat) (v : Z) : IP :=
  match n with O => [] | S n => ip_of_val n (v / 256) ++ [v mod 256] end.

Lemma ip_val_snoc l b : ip_val (l ++ [b]) = 256 * ip_val l + b.
Proof. by rewrite /ip_val foldl_app. Qed.

Lemma ip_val_of_val n v : ip_val (ip_of_val n v) = v mod 256 ^ Z.of_nat n.
Proof.
  revert v; induction n as [|n IH]; intros v; simpl; [by rewrite Z.mod_1_r|].
  rewrite ip_val_snoc IH Nat2Z.inj_succ Z.pow_succ_r; [|lia].
  rewrite Z.rem_mul_r; lia.
Qed.

Lemma ip_val_app l k :
  ip_val (l ++ k) = ip_val l * 256 ^ Z.of_nat (length k) + ip_val k.
Proof.
  revert l; induction k as [|b k IH] using rev_ind; intros l.
  { rewrite app_nil_r. change (ip_val []) with 0. cbn. lia. }
  rewrite app_assoc !ip_val_snoc IH length_app Nat2Z.inj_add Z.pow_add_r; [|lia..].
  change (Z.of_nat (length [b])) with 1. rewrite Z.pow_1_r. ring.
Qed.

Lemma ip_val_byte_bound l :
  Forall is_byte l → 0 ≤ ip_val l < 256 ^ Z.of_nat (length l).
Proof.
  induction l as [|b l IH] using rev_ind; [done|]. intros [Hl Hb]%Forall_app.
  apply Forall_cons_1 in Hb as [Hb _]. specialize (IH Hl). unfold is_byte in Hb.
  rewrite ip_val_snoc length_app Nat2Z.inj_add Z.pow_add_r; [|lia..].
  change (Z.of_nat (length [b])) with 1. rewrite Z.pow_1_r. lia.
Qed.

(** An IPv4-mapped address is a small number. *)
Lemma To4_mapped_bound ip :
  length ip = 16%nat → Forall is_byte ip → To4 ip ≠ nilIP → ip_val ip < 2 ^ 48.
Proof.
  intros Hl Hb. rewrite /To4 decide_False; [|rewrite Hl; done].
  case_decide as Hm; [|done]. destruct Hm as [_ Hp]. intros _.
  rewrite -(take_drop 12 ip) ip_val_app Hp length_drop Hl.
  assert (ip_val (drop 12 ip) < 256 ^ 4) as Hd.
  { apply (Forall_drop _ 12) in Hb. apply ip_val_byte_bound in Hb.
    rewrite length_drop Hl in Hb. apply Hb. }
  change (ip_val v4InV6Prefix) with 65535.
  change (256 ^ Z.of_nat (16 - 12)) with (256 ^ 4). lia.
Qed.

Lemma aligned_bound v k n :
  0 ≤ v < 2 ^ n → 0 ≤ k ≤ n → (2 ^ k | v) → v + 2 ^ k ≤ 2 ^ n.
Proof.
  intros Hv Hk [q ->].
  assert (2 ^ n = 2 ^ (n - k) * 2 ^ k) as E.
  { rewrite -Z.pow_add_r; [|lia..]. f_equal; lia. }
  rewrite E in Hv |- *. set (m := 2 ^ k) in *.
  assert (0 < m) by (apply Z.pow_pos_nonneg; lia).
  assert (q < 2 ^ (n - k)) by nia. nia.
Qed.

Lemma length_ip_of_val n v : length (ip_of_val n v) = n.
Proof. revert v; induction n; intros; simpl; rewrite ?length_app /=; [done|]. rewrite IHn; lia. Qed.

Lemma ip_of_val_bytes n v : Forall is_byte (ip_of_val n v).
Proof.
  revert v; induction n as [|n IH]; intros v; simpl; [done|].
  apply Forall_app; split; [done|]. constructor; [|done].
  apply Z.mod_pos_bound; lia.
Qed.

(** ** Masks *)
Lemma land_mask_byte b j :
  is_byte b → 0 ≤ j < 9 → Z.land b (256 - 2 ^ j) = b / 2 ^ j * 2 ^ j.
Proof.
  intros Hb Hj.
  apply (forall_range
    (λ b, Forall (λ j, Z.land b (256 - 2 ^ j) = b / 2 ^ j * 2 ^ j) (seqZ 0 9)) 0 256)
    in Hb; [|by vm_compute].
  rewrite Forall_forall in Hb. apply Hb, list_elem_of_In, elem_of_seqZ; lia.
Qed.

Lemma land_byte b m : is_byte b → is_byte (Z.land b m).
Proof.
  intros Hb. assert (Z.land b m = Z.land b m mod 256) as ->.
  - change 256 with (2 ^ 8). rewrite -Z.land_ones // -Z.land_assoc (Z.land_comm m).
    by rewrite Z.land_assoc Z.land_ones // Z.mod_small.
  - apply Z.mod_pos_bound. lia.
Qed.
#[export] Hint Resolve land_byte : pierre.

Lemma CIDRMask_v4 p :
  0 ≤ p ≤ 32 → CIDRMask p 32 = [mask_byte p 0; mask_byte p 1; mask_byte p 2; mask_byte p 3].
Proof.
  intros Hp. rewrite /CIDRMask.
  rewrite (proj2 (Z.leb_le 0 p)) ?(proj2 (Z.leb_le p 32)) //=; lia.
Qed.

Lemma simpleMaskLength_CIDRMask p :
  0 ≤ p ≤ 32 → simpleMaskLength (CIDRMask p 32) = p.
Proof.
  intros Hp. apply (forall_range (λ p, simpleMaskLength (CIDRMask p 32) = p) 0 33);
    [by vm_compute|lia].
Qed.

Lemma Mask_Size_CIDRMask p : 0 ≤ p ≤ 32 → Mask_Size (CIDRMask p 32) = (p, 32).
Proof.
  intros Hp. rewrite /Mask_Size simpleMaskLength_CIDRMask // CIDRMask_v4 //=.
  by destruct (Z.eqb_spec p (-1)); [lia|].
Qed.

(** Clearing the low [j] bits of a number acts on its last byte and on the rest. *)
Lemma clear_low_bits x b j :
  is_byte b → 0 ≤ j →
  (256 * x + b) / 2 ^ j * 2 ^ j
    = 256 * (x / 2 ^ Z.max 0 (j - 8) * 2 ^ Z.max 0 (j - 8))
      + b / 2 ^ Z.min 8 j * 2 ^ Z.min 8 j.
Proof.
  unfold is_byte; intros Hb Hj. destruct (decide (j ≤ 8)).
  - rewrite Z.max_l ?Z.min_r; [|lia..]. rewrite Z.pow_0_r Z.div_1_r Z.mul_1_r.
    assert (256 = 2 ^ (8 - j) * 2 ^ j) as ->.
    { rewrite -Z.pow_add_r; [|lia..]. by replace (8 - j + j) with 8 by lia. }
    replace (2 ^ (8 - j) * 2 ^ j * x + b) with (b + 2 ^ (8 - j) * x * 2 ^ j) by lia.
    rewrite Z.div_add; lia.
  - rewrite Z.max_r ?Z.min_l; [|lia..].
    replace (2 ^ j) with (256 * 2 ^ (j - 8)).
    2:{ change 256 with (2 ^ 8). rewrite -Z.pow_add_r; [|lia..]. f_equal; lia. }
    rewrite -Z.div_div; [|lia|apply Z.pow_pos_nonneg; lia].
    replace (256 * x + b) with (b + x * 256) by lia.
    rewrite Z.div_add // (Z.div_small b 256) //=. rewrite Z.add_0_l. ring.
Qed.

(** Masking an IPv4 address clears its host bits. *)
Lemma ip_val_masked a b c d p :
  is_byte a → is_byte b → is_byte c → is_byte d → 0 ≤ p ≤ 32 →
  ip_val (zip_with Z.land [a; b; c; d] (CIDRMask p 32))
    = ip_val [a; b; c; d] / 2 ^ (32 - p) * 2 ^ (32 - p).
Proof.
  intros Ha Hb Hc Hd Hp. rewrite CIDRMask_v4 //= /ip_val.
  cbn [foldl zip_with]. rewrite /mask_byte.
  rewrite !land_mask_byte; [|done || lia..].
  rewrite !clear_low_bits; [|done || lia..]. rewrite !Z.mul_0_r !Z.add_0_l.
  congr (256 * (256 * (256 * (a / 2 ^ _ * 2 ^ _) + b / 2 ^ _ * 2 ^ _)
    + c / 2 ^ _ * 2 ^ _) + d / 2 ^ _ * 2 ^ _); lia.
Qed.

(** ** IPv4 addresses print and parse back *)
Lemma parse_octet b : is_byte b → ∃ n, ∀ r fields,
  parseIPv4Fields (Itoa b +:+ r) true 0 0 fields = parseIPv4Fields r false b n fields.
Proof.
  intros Hb. assert (b ∈ seqZ 0 256) as Hin by (apply elem_of_seqZ; unfold is_byte in *; lia).
  clear Hb. vm_compute in Hin.
  repeat (apply elem_of_cons in Hin as [->|Hin]; [eexists; intros; reflexivity|]).
  by apply not_elem_of_nil in Hin.
Qed.

Lemma parse_dotted a b c d :
  is_byte a → is_byte b → is_byte c → is_byte d →
  parseIPv4Fields (dotted a b c d) true 0 0 [] = Some [a; b; c; d].
Proof.
  intros Ha Hb Hc Hd.
  assert (∀ x, is_byte x → Itoa x ≠ "") as Hne
    by (intros x Hx; apply Itoa_nonneg; apply Hx).
  assert (∀ x r, is_byte x → Itoa x +:+ r ≠ "") as Hne'.
  { intros x r Hx. specialize (Hne x Hx). by destruct (Itoa x). }
  destruct (parse_octet a Ha) as [na Ea], (parse_octet b Hb) as [nb Eb],
    (parse_octet c Hc) as [nc Ec], (parse_octet d Hd) as [nd Ed].
  rewrite /dotted Ea. cbn -[Itoa String.append].
  rewrite bool_decide_false; [|by auto].
  rewrite Eb. cbn -[Itoa String.append]. rewrite bool_decide_false; [|by auto].
  rewrite Ec. cbn -[Itoa String.append]. rewrite bool_decide_false; [|by auto].
  by rewrite -(string_app_nil_r (Itoa d)) Ed.
Qed.

Lemma ParseAddr_scan_digits s x y :
  all_digits x = true → ParseAddr_scan s (x +:+ String "." y) = parseIPv4 s.
Proof.
  induction x as [|a x IH]; [done|]. rewrite string_app_cons /=.
  destruct (digit_val a) as [n|] eqn:E; [|done]. intros Hx.
  assert (∀ c, digit_val c = None → Ascii.eqb a c = false) as Hc
    by (intros c Hc; apply Ascii.eqb_neq; intros ->; congruence).
  rewrite !Hc //. by apply IH.
Qed.

Lemma all_digits_byte b : is_byte b → all_digits (Itoa b) = true.
Proof. intros Hb. apply Itoa_nonneg, Hb. Qed.

Lemma ParseAddr_dotted a b c d :
  is_byte a → is_byte b → is_byte c → is_byte d →
  ParseAddr (dotted a b c d) = Some (mkAddr (v4InV6Prefix ++ [a; b; c; d]) true "").
Proof.
  intros. rewrite /ParseAddr {2}/dotted ParseAddr_scan_digits; [|by apply all_digits_byte].
  by rewrite /parseIPv4 parse_dotted.
Qed.

(** [net.ParseIP] reads what [IP.String] prints for an IPv4 address. *)
Lemma ParseIP_dotted a b c d :
  is_byte a → is_byte b → is_byte c → is_byte d →
  ParseIP (dotted a b c d) = v4InV6Prefix ++ [a; b; c; d].
Proof. intros. by rewrite /ParseIP ParseAddr_dotted. Qed.

Lemma no_char_dotted a b c d ch :
  digit_val ch = None → Ascii.eqb "." ch = false →
  is_byte a → is_byte b → is_byte c → is_byte d → no_char ch (dotted a b c d) = true.
Proof.
  intros Hch Hdot Ha Hb Hc Hd.
  rewrite /dotted !(no_char_app, no_char_cons) Hdot.
  by rewrite !no_char_digits // all_digits_byte.
Qed.

Lemma dtoi_prefix p : 0 ≤ p ≤ 32 → dtoi 0 (Itoa p) = Some p.
Proof.
  intros Hp. apply (forall_range (λ p, dtoi 0 (Itoa p) = Some p) 0 33);
    [by vm_compute|lia].
Qed.

(** [net.ParseCIDR] on a printed IPv4 address and prefix length. *)
Lemma ParseCIDR_dotted a b c d p :
  is_byte a → is_byte b → is_byte c → is_byte d → 0 ≤ p ≤ 32 →
  ParseCIDR (dotted a b c d +:+ String "/" (Itoa p)) =
    Ok (v4InV6Prefix ++ [a; b; c; d],
        mkIPNet (zip_with Z.land [a; b; c; d] (CIDRMask p 32)) (CIDRMask p 32)).
Proof.
  intros Ha Hb Hc Hd Hp. rewrite /ParseCIDR cut_at_app; [|by apply no_char_dotted].
  rewrite ParseAddr_dotted //=.
  rewrite bool_decide_false; [|apply Itoa_nonneg; lia]. rewrite dtoi_prefix //.
  rewrite /BitLen /=. destruct (Z.ltb_spec 32 p); [lia|].
  rewrite CIDRMask_v4 //.
Qed.

(** ** IPv4 addresses *)
Definition is_v4 (ip : IP) : Prop := length ip = 4%nat ∧ Forall is_byte ip.

Lemma is_v4_inv ip : is_v4 ip → ∃ a b c d,
  ip = [a; b; c; d] ∧ is_byte a ∧ is_byte b ∧ is_byte c ∧ is_byte d.
Proof.
  intros [Hl Hb]. destruct ip as [|a [|b [|c [|d [|]]]]]; try done.
  decompose_Forall_hyps. eauto 12.
Qed.

Lemma is_v4_of_val v : is_v4 (ip_of_val 4 v).
Proof. split; [apply length_ip_of_val|apply ip_of_val_bytes]. Qed.
#[export] Hint Resolve is_v4_of_val : pierre.

Lemma IP_String_v4 a b c d : IP_String [a; b; c; d] = dotted a b c d.
Proof. done. Qed.

Lemma IPNet_String_v4_mask a b c d p :
  0 ≤ p ≤ 32 →
  IPNet_String (mkIPNet [a; b; c; d] (CIDRMask p 32))
    = dotted a b c d +:+ String "/" (Itoa p).
Proof.
  intros Hp.
  assert (length (CIDRMask p 32) = 4%nat) as Hl by by rewrite CIDRMask_v4.
  pose proof (simpleMaskLength_CIDRMask p Hp) as Hs.
  revert Hl Hs. generalize (CIDRMask p 32) as m. intros m Hl Hs.
  rewrite /IPNet_String /= Hl /= Hs. destruct (Z.eqb_spec p (-1)); [lia|].
  rewrite decide_True; [done|]. rewrite Hl. by split; [|left].
Qed.

Lemma dotted_inj a b c d a' b' c' d' :
  is_byte a → is_byte b → is_byte c → is_byte d →
  is_byte a' → is_byte b' → is_byte c' → is_byte d' →
  dotted a b c d = dotted a' b' c' d' → [a; b; c; d] = [a'; b'; c'; d'].
Proof.
  intros ???????? H. apply (f_equal ParseIP) in H.
  rewrite !ParseIP_dotted // in H. by simplify_eq/=.
Qed.

(** The dotted form determines the address. *)
Lemma IP_String_v4_inj ip1 ip2 :
  is_v4 ip1 → is_v4 ip2 → IP_String ip1 = IP_String ip2 → ip1 = ip2.
Proof.
  intros (a & b & c & d & -> & ?)%is_v4_inv (a' & b' & c' & d' & -> & ?)%is_v4_inv.
  destruct_and!. by apply dotted_inj.
Qed.

Lemma ip_val_bound ip : is_v4 ip → 0 ≤ ip_val ip < 2 ^ 32.
Proof.
  intros (a & b & c & d & -> & ? & ? & ? & ?)%is_v4_inv.
  unfold ip_val, is_byte in *; simpl. lia.
Qed.

(** Consecutive numbers below 2^32 give different addresses. *)
Lemma ip_of_val_inj v i j :
  0 ≤ i < 2 ^ 32 → 0 ≤ j < 2 ^ 32 → ip_of_val 4 (v + i) = ip_of_val 4 (v + j) → i = j.
Proof.
  intros Hi Hj H. apply (f_equal ip_val) in H. rewrite !ip_val_of_val in H.
  change (256 ^ Z.of_nat 4) with (2 ^ 32) in H.
  Z.to_euclidean_division_equations; lia.
Qed.
