(* ===== verification/IpFamily.v ===== *)
(** * Package [internal/ipfamily]

    The classification of addresses as IPv4, IPv6 or dual stack.  A Go function
    that returns [(Family, error)] returns here the family and the error, if
    any. *)

From S2P Require Import Prelude GoStrings GoNet.

(** [type Family string] and its constants. *)
Notation Family := string.
Definition IPv4 : Family := "ipv4".
Definition IPv6 : Family := "ipv6".
Definition DualStack : Family := "dual".
Definition Unknown : Family := "unknown".

(** [ip.To4() == nil] *)
Definition not4 (ip : IP) : bool := bool_decide (To4 ip = nilIP).

Definition ForAddress (ip : IP) : Family := if not4 ip then IPv6 else IPv4.

Definition ForCIDR (cidr : IPNet) : Family :=
  if not4 (IPNet_IP cidr) then IPv6 else IPv4.

Definition ForAddresses (ips : list string) : Family * option error :=
  match ips with
  | [a] =>
      let ip := ParseIP a in
      if bool_decide (ip = nilIP)
      then (Unknown, Some (errorf "IPFamilyForAddresses: Invalid address %q" ips))
      else (ForAddress ip, None)
  | [a1; a2] =>
      let ip1 := ParseIP a1 in
      let ip2 := ParseIP a2 in
      if bool_decide (ip1 = nilIP) || bool_decide (ip2 = nilIP)
      then (Unknown, Some (errorf "IPFamilyForAddresses: Invalid address %q" ips))
      else if Bool.eqb (not4 ip1) (not4 ip2)
      then (Unknown, Some (errorf "IPFamilyForAddresses: same address family %q" ips))
      else (DualStack, None)
  | _ =>
      (Unknown, Some (errorf "IPFamilyForAddresses: invalid ips length %d %q"
                        (Itoa (Z.of_nat (length ips)) :: ips)))
  end.

Definition ForAddressesIPs (ips : list IP) : Family * option error :=
  ForAddresses (IP_String <$> ips).

Definition ForCIDRString (cidr : string) : Family :=
  match ParseCIDR cidr with
  | Ok (ip, _) => if not4 ip then IPv6 else IPv4
  | _ => Unknown
  end.

(** The two fields of [v1.Service] the function reads. *)
Record ServiceSpec := { ClusterIP : string; ClusterIPs : list string }.

Definition ForService (svc : ServiceSpec) : Family * option error :=
  match ClusterIPs svc with
  | _ :: _ => ForAddresses (ClusterIPs svc)
  | [] => ForAddresses [ClusterIP svc]
  end.

(** ** What a family means

    [is_family ips f]: the reference reading of the package comment, a single
    address of one family, or two of different ones. *)
Definition parses (a : string) : Prop := ParseIP a ≠ nilIP.
Definition v4_string (a : string) : Prop := parses a ∧ To4 (ParseIP a) ≠ nilIP.
Definition v6_string (a : string) : Prop := parses a ∧ To4 (ParseIP a) = nilIP.

Inductive is_family : list string → Family → Prop :=
  | is_v4_family a : v4_string a → is_family [a] IPv4
  | is_v6_family a : v6_string a → is_family [a] IPv6
  | is_dual_46 a b : v4_string a → v6_string b → is_family [a; b] DualStack
  | is_dual_64 a b : v6_string a → v4_string b → is_family [a; b] DualStack.

Lemma not4_true ip : not4 ip = true ↔ To4 ip = nilIP.
Proof. apply bool_decide_eq_true. Qed.
Lemma not4_false ip : not4 ip = false ↔ To4 ip ≠ nilIP.
Proof. apply bool_decide_eq_false. Qed.

(** ForAddresses succeeds with a family exactly when the list has that family,
    and every failure reports [Unknown]. *)
Lemma ForAddresses_spec ips f :
  ForAddresses ips = (f, None) ↔ is_family ips f.
Proof.
  split.
  - destruct ips as [|a [|b [|]]]; simpl; try done.
    + case_bool_decide as Ha; [done|]. unfold ForAddress. intros [= <-].
      destruct (not4 _) eqn:E; constructor; split; try done;
        [by apply not4_true|by apply not4_false].
    + repeat case_bool_decide; try done. simpl.
      destruct (not4 (ParseIP a)) eqn:Ea, (not4 (ParseIP b)) eqn:Eb; simpl; try done;
        intros [= <-]; [apply is_dual_64|apply is_dual_46]; split; try done;
        by (apply not4_true || apply not4_false).
  - unfold ForAddresses, ForAddress.
    destruct 1 as [a [??]|a [??]|a b [??] [? E]|a b [? E] [??]];
      rewrite !bool_decide_false //; unfold not4; rewrite ?E;
      repeat case_bool_decide; try done.
Qed.

Lemma ForAddresses_error ips f e : ForAddresses ips = (f, Some e) → f = Unknown.
Proof.
  unfold ForAddresses, ForAddress. repeat case_match; intros; simplify_eq; done.
Qed.

Lemma ForAddresses_no_error ips f : ForAddresses ips = (f, None) → f ≠ Unknown.
Proof. rewrite ForAddresses_spec. by inversion 1. Qed.

Lemma ForAddresses_Unknown_iff ips :
  fst (ForAddresses ips) = Unknown ↔ snd (ForAddresses ips) ≠ None.
Proof.
  destruct (ForAddresses ips) as [f [e|]] eqn:E; simpl.
  - split; [done|]. intros _. exact (ForAddresses_error _ _ _ E).
  - split; [|done]. intros ->. by apply ForAddresses_no_error in E.
Qed.

(** The family of a printed IPv4 address. *)
Lemma ForAddresses_v4 ip : is_v4 ip → ForAddresses [IP_String ip] = (IPv4, None).
Proof.
  intros (a & b & c & d & -> & ? & ? & ? & ?)%is_v4_inv.
  by rewrite /ForAddresses IP_String_v4 ParseIP_dotted.
Qed.
