(* ===== verification/Api.v ===== *)
(** * Package [api/v1alpha1]: the Kubernetes resources the operator reads

    One module per Go struct; a field keeps its Go name and a pointer is an
    [option].  [uint32], [uint16] and the nanoseconds of a [metav1.Duration]
    are [Z].  The embedded type and object metadata are reduced to the object's
    name, the only part the code reads; the status structs have no field. *)

From S2P Require Import Prelude.

(** [metav1.Duration]: nanoseconds in an [int64]. *)
Notation Duration := Z.
Definition Second : Z := 1000000000.

Module Neighbor.
Record t := mk {
  ASN : Z;
  Address : string;
  Port : option Z;
  Password : string;
  PasswordSecret : string;
  HoldTime : option Duration;
  KeepaliveTime : option Duration;
  ConnectTime : option Duration;
  EBGPMultiHop : bool;
  BFDProfile : string }.
End Neighbor.

Module UnderlaySpec.
Record t := mk {
  ASN : Z;
  VTEPCIDR : string;
  Neighbors : list Neighbor.t;
  Nic : string }.
End UnderlaySpec.

Module Underlay.
Record t := mk { Name : string; Spec : UnderlaySpec.t }.
End Underlay.

Module VNISpec.
Record t := mk {
  ASN : Z;
  VRF : string;
  LocalASN : Z;
  VNI : Z;
  LocalCIDR : string;
  VXLanPort : Z }.
End VNISpec.

Module VNI.
Record t := mk { Name : string; Spec : VNISpec.t }.
End VNI.
