(* ===== verification/Ipam.v ===== *)
(** * Package [internal/ipam]: the addresses given to a node

    Every node has an index; its VTEP address and the two ends of each veth pair
    are drawn from the configured pools by that index.  The host arithmetic
    itself is the third-party [go-cidr] package, the class [GoCidr]; what the
    theorems need of its documentation is [GoCidrLaws]. *)

From S2P Require Import Prelude GoStrings GoNet.
Local Open Scope Z_scope.

(** ** The interface of [github.com/apparentlymart/go-cidr/cidr] *)
Class GoCidr := {
  (** The address with the given host number in the network. *)
  Host : IPNet → Z → res IP;
  (** How many addresses the network has. *)
  AddressCount : IPNet → res Z }.

(** [network ip p]: [ip/p] is an IPv4 network, its host bits are zero. *)
Definition v4_network (ip : IP) (p : Z) : Prop :=
  is_v4 ip ∧ 0 ≤ p ≤ 32 ∧ (2 ^ (32 - p) | ip_val ip).

(** The documented behaviour of [Host] ("takes a parent CIDR range and turns it
    into a host IP address with the given host number", an error when the prefix
    does not accommodate it) and of [AddressCount], for IPv4 networks, and of
    [Host] for IPv6 networks. *)
Class GoCidrLaws `{GoCidr} : Prop := {
  Host_v4 ip p n :
    v4_network ip p → 0 ≤ n < 2 ^ (32 - p) →
    Host (mkIPNet ip (CIDRMask p 32)) n = Ok (ip_of_val 4 (ip_val ip + n));
  Host_v4_out ip p n :
    v4_network ip p → 2 ^ (32 - p) ≤ n →
    ∃ e, Host (mkIPNet ip (CIDRMask p 32)) n = Err e;
  Host_v6 ip p n :
    length ip = 16%nat → Forall is_byte ip → To4 ip = nilIP →
    0 ≤ p ≤ 128 → (2 ^ (128 - p) | ip_val ip) → 0 ≤ n < 2 ^ (128 - p) →
    Host (mkIPNet ip (CIDRMask p 128)) n = Ok (ip_of_val 16 (ip_val ip + n));
  AddressCount_v4 ip p :
    v4_network ip p → AddressCount (mkIPNet ip (CIDRMask p 32)) = Ok (2 ^ (32 - p)) }.

(** ** The package *)
Record Veths := mkVeths { HostSide : IPNet; ContainerSide : IPNet }.

Section ipam.
Context `{GoCidr}.

Definition cidrElem (pool : string) (mask index : Z) : res IPNet :=
  '(_, ipNet) ← on_err (errorw "failed to parse cidr %s: %w" [pool]) (ParseCIDR pool);
  ip ← on_err (errorw "failed to get %d address from %s: %w" [Itoa index; pool])
         (Host ipNet index);
  Ok (mkIPNet ip (CIDRMask mask 32)).

Definition sliceCIDR (pool : string) (index size : Z) : res (list IPNet) :=
  '(_, ipNet) ← on_err (errorw "failed to parse cidr %s: %w" [pool]) (ParseCIDR pool);
  traverse (λ i,
    let ipIndex := wrap_int64 (size * index + i) in
    ip ← on_err (errorw "failed to get %d address from %s: %w" [Itoa ipIndex; pool])
           (Host ipNet ipIndex);
    Ok (mkIPNet ip (CIDRMask 31 32)))
    (seqZ 0 size).

Definition VethIPs (pool : string) (index : Z) : res Veths :=
  '(_, cidr) ← on_err (errorw "failed to parse pool %s: %w" [pool]) (ParseCIDR pool);
  let '(ones, _) := Mask_Size (IPNet_Mask cidr) in
  peSide ← cidrElem pool ones 0;
  hostSide ← cidrElem pool ones (wrap_int64 (index + 1));
  Ok (mkVeths hostSide peSide).

Definition VTEPIp (pool : string) (index : Z) : res string :=
  ips ← sliceCIDR pool index 1;
  match ips with
  | [ip] => Ok (IP_String (IPNet_IP ip) +:+ "/32")
  | _ => Err (errorf "vtepIP, expecting 1 ip, got %v" [])
  end.

Definition IPsInCIDR (pool : string) : res Z :=
  '(_, ipNet) ← on_err (errorw "failed to parse cidr %s: %w" [pool]) (ParseCIDR pool);
  AddressCount ipNet.
End ipam.

(** ** IPv4 pools *)

(** [v4_pool pool base p]: the string denotes an IPv4 network of prefix length
    [p] whose first address is the number [base]. *)
Definition v4_pool (pool : string) (base p : Z) : Prop :=
  ∃ ip net, ParseCIDR pool = Ok (ip, mkIPNet net (CIDRMask p 32))
    ∧ v4_network net p ∧ ip_val net = base.

(** The strings a user writes are such pools. *)
Lemma v4_pool_dotted a b c d p :
  is_byte a → is_byte b → is_byte c → is_byte d → 0 ≤ p ≤ 32 →
  v4_pool (dotted a b c d +:+ String "/" (Itoa p))
    (ip_val [a; b; c; d] / 2 ^ (32 - p) * 2 ^ (32 - p)) p.
Proof.
  intros Ha Hb Hc Hd Hp. rewrite /v4_pool ParseCIDR_dotted //.
  eexists _, _; split; [done|]. split; [|by rewrite ip_val_masked].
  split_and!; [|lia..|].
  - split; [by rewrite CIDRMask_v4|]. rewrite CIDRMask_v4 //=.
    repeat (apply Forall_cons_2; [auto with pierre|]). by apply Forall_nil_2.
  - rewrite ip_val_masked //. by apply Z.divide_factor_r.
Qed.

Lemma v4_network_bounds ip p :
  v4_network ip p → 0 ≤ ip_val ip ∧ ip_val ip + 2 ^ (32 - p) ≤ 2 ^ 32.
Proof.
  intros (Hv & Hp & Hk). pose proof (ip_val_bound ip Hv) as Hb.
  split; [lia|]. apply aligned_bound; [done|lia|done].
Qed.

Lemma pow_32_le p : 0 ≤ p ≤ 32 → 0 < 2 ^ (32 - p) ≤ 2 ^ 32.
Proof.
  intros Hp. split; [apply Z.pow_pos_nonneg; lia|].
  apply Z.pow_le_mono_r; lia.
Qed.

Lemma wrap_int64_id z : in_int64 z → wrap_int64 z = z.
Proof.
  unfold in_int64, wrap_int64, int64_min, int64_max; intros.
  rewrite Z.mod_small; lia.
Qed.

Section laws.
Context `{GoCidrLaws}.

Lemma cidrElem_v4 pool base p mask i :
  v4_pool pool base p → 0 ≤ i < 2 ^ (32 - p) →
  cidrElem pool mask i = Ok (mkIPNet (ip_of_val 4 (base + i)) (CIDRMask mask 32)).
Proof.
  intros (ip & net & Hpool & Hnet & <-) Hi.
  by rewrite /cidrElem Hpool /= Host_v4.
Qed.

Lemma cidrElem_v4_out pool base p mask i :
  v4_pool pool base p → 2 ^ (32 - p) ≤ i →
  ∃ e, cidrElem pool mask i = Err e.
Proof.
  intros (ip & net & Hpool & Hnet & <-) Hi. rewrite /cidrElem Hpool /=.
  destruct (Host_v4_out net p i Hnet Hi) as [e ->]. by eexists.
Qed.

(** The [size] consecutive addresses of the [index]-th block of a pool. *)
Lemma sliceCIDR_v4 pool base p index size :
  v4_pool pool base p → 0 ≤ index → 0 ≤ size →
  size * index + size ≤ 2 ^ (32 - p) →
  sliceCIDR pool index size = Ok
    ((λ i, mkIPNet (ip_of_val 4 (base + (size * index + i))) (CIDRMask 31 32))
       <$> seqZ 0 size).
Proof.
  intros (ip & net & Hpool & Hnet & <-) Hi Hs Hle.
  rewrite /sliceCIDR Hpool /=. apply traverse_Ok.
  apply Forall2_fmap_r, Forall_Forall2_diag, Forall_forall.
  intros i Hin%list_elem_of_In%elem_of_seqZ.
  pose proof (pow_32_le p ltac:(apply Hnet)).
  rewrite wrap_int64_id.
  - by rewrite Host_v4 //; nia.
  - unfold in_int64, int64_min, int64_max. nia.
Qed.

Lemma VTEPIp_v4 pool base p index :
  v4_pool pool base p → 0 ≤ index < 2 ^ (32 - p) →
  VTEPIp pool index = Ok (IP_String (ip_of_val 4 (base + index)) +:+ "/32").
Proof.
  intros Hpool Hi. rewrite /VTEPIp (sliceCIDR_v4 _ base p) //; [|lia..].
  assert (seqZ 0 1 = [0]) as -> by done. cbn -[ip_of_val IP_String].
  do 4 f_equal. lia.
Qed.

Lemma VTEPIp_v4_out pool base p index :
  v4_pool pool base p → 2 ^ (32 - p) ≤ index ≤ int64_max →
  ∃ e, VTEPIp pool index = Err e.
Proof.
  intros (ip & net & Hpool & Hnet & <-) Hi.
  pose proof (pow_32_le p ltac:(apply Hnet)).
  rewrite /VTEPIp /sliceCIDR Hpool. simpl.
  rewrite wrap_int64_id; [|unfold in_int64, int64_min, int64_max in *; lia].
  destruct (Host_v4_out net p (1 * index + 0) Hnet ltac:(lia)) as [e He].
  rewrite He. by eexists.
Qed.
End laws.

(** ** A reference implementation of the interface, for the witnesses *)
Definition ref_Host (n : IPNet) (num : Z) : res IP :=
  let '(ones, bits) := Mask_Size (IPNet_Mask n) in
  if num <? 2 ^ (bits - ones)
  then Ok (ip_of_val (length (IPNet_IP n)) (ip_val (IPNet_IP n) + num))
  else Err (ExtErr "prefix does not accommodate the host number").

Definition ref_AddressCount (n : IPNet) : res Z :=
  let '(ones, bits) := Mask_Size (IPNet_Mask n) in Ok (2 ^ (bits - ones)).

#[export] Instance ref_cidr : GoCidr :=
  {| Host := ref_Host; AddressCount := ref_AddressCount |}.

Lemma Mask_Size_CIDRMask_v6 p : 0 ≤ p ≤ 128 → Mask_Size (CIDRMask p 128) = (p, 128).
Proof.
  intros Hp. apply (forall_range (λ p, Mask_Size (CIDRMask p 128) = (p, 128)) 0 129);
    [by vm_compute|lia].
Qed.

#[export] Instance ref_cidr_laws : GoCidrLaws.
Proof.
  split.
  - intros ip p n Hn Hr. rewrite /Host /= /ref_Host Mask_Size_CIDRMask; [|apply Hn].
    rewrite (proj2 (Z.ltb_lt _ _)); [|lia]. cbn [IPNet_IP].
    by rewrite (proj1 (proj1 Hn)).
  - intros ip p n Hn Hr. rewrite /Host /= /ref_Host Mask_Size_CIDRMask; [|apply Hn].
    destruct (Z.ltb_spec n (2 ^ (32 - p))); [lia|]. by eexists.
  - intros ip p n Hl _ _ Hp _ Hn. rewrite /Host /= /ref_Host Mask_Size_CIDRMask_v6 //.
    rewrite (proj2 (Z.ltb_lt _ _)); [|lia]. cbn [IPNet_IP]. by rewrite Hl.
  - intros ip p Hn. rewrite /AddressCount /= /ref_AddressCount Mask_Size_CIDRMask //.
    apply Hn.
Qed.

(** ** Properties *)
Section properties.
Context `{GoCidrLaws}.

Lemma VTEPIp_Ok_inv pool base p index s :
  v4_pool pool base p → 0 ≤ index ≤ int64_max → VTEPIp pool index = Ok s →
  index < 2 ^ (32 - p) ∧ s = IP_String (ip_of_val 4 (base + index)) +:+ "/32".
Proof.
  intros Hpool Hi Hs. destruct (decide (index < 2 ^ (32 - p))) as [Hlt|Hge].
  - split; [done|]. rewrite (VTEPIp_v4 _ base p) // in Hs; [by simplify_eq|lia].
  - destruct (VTEPIp_v4_out pool base p index) as [e He]; [done|lia|congruence].
Qed.

(** Within the pool the printed address determines the offset. *)
Lemma pool_address_inj pool base p i j :
  v4_pool pool base p → 0 ≤ i < 2 ^ (32 - p) → 0 ≤ j < 2 ^ (32 - p) →
  IP_String (ip_of_val 4 (base + i)) +:+ "/32" = IP_String (ip_of_val 4 (base + j)) +:+ "/32" →
  i = j.
Proof.
  intros (ip & net & _ & (_ & Hp & _) & _) Hi Hj Heq. pose proof (pow_32_le p Hp).
  apply string_app_inj_l, IP_String_v4_inj in Heq; [|auto with pierre..].
  apply ip_of_val_inj in Heq; lia.
Qed.

(** Two nodes with different indexes never get the same VTEP address: for
    an IPv4 pool, the string [VTEPIp] returns determines the node index. *)
Theorem VTEPIp_injective pool base p i j s :
  v4_pool pool base p → 0 ≤ i ≤ int64_max → 0 ≤ j ≤ int64_max →
  VTEPIp pool i = Ok s → VTEPIp pool j = Ok s → i = j.
Proof.
  intros Hpool Hi Hj Hs1 Hs2.
  destruct (VTEPIp_Ok_inv _ _ _ _ _ Hpool Hi Hs1) as [Hi' ->].
  destruct (VTEPIp_Ok_inv _ _ _ _ _ Hpool Hj Hs2) as [Hj' Heq].
  exact (pool_address_inj _ _ _ _ _ Hpool (conj (proj1 Hi) Hi') (conj (proj1 Hj) Hj') Heq).
Qed.

(** C18. What [VTEPIp] computes on an IPv4 pool: the address whose number is the
    pool's first address plus the node index, printed with [/32], so that
    [net.ParseCIDR] reads that address and a full mask back; the address lies
    in the pool; and an index the pool has no address for is an error. *)
Theorem VTEPIp_spec pool base p index :
  v4_pool pool base p → 0 ≤ index ≤ int64_max →
  if decide (index < 2 ^ (32 - p)) then
    ∃ s ip, VTEPIp pool index = Ok s
      ∧ ParseCIDR s = Ok (v4InV6Prefix ++ ip, mkIPNet ip (CIDRMask 32 32))
      ∧ ip_val ip = base + index
      ∧ ip_val ip / 2 ^ (32 - p) = base / 2 ^ (32 - p)
  else ∃ e, VTEPIp pool index = Err e.
Proof.
  intros Hpool Hi. case_decide as Hlt; [|apply (VTEPIp_v4_out pool base p); lia || done].
  pose proof Hpool as (ip0 & net & _ & Hnet & Hbase).
  pose proof (v4_network_bounds _ _ Hnet) as [Hlo Hhi].
  destruct (is_v4_inv _ (is_v4_of_val (base + index)))
    as (a & b & c & d & Eip & Ha & Hb & Hc & Hd).
  exists (IP_String (ip_of_val 4 (base + index)) +:+ "/32"), (ip_of_val 4 (base + index)).
  assert (ip_val (ip_of_val 4 (base + index)) = base + index) as Hval.
  { rewrite ip_val_of_val Z.mod_small //. change (256 ^ Z.of_nat 4) with (2 ^ 32). lia. }
  split_and!; [apply (VTEPIp_v4 _ base p); [done|lia]| |done|].
  - rewrite Eip IP_String_v4 -[("/32")]/(String "/" (Itoa 32)) ParseCIDR_dotted //.
    do 3 f_equal. rewrite CIDRMask_v4 //. cbn [zip_with].
    unfold mask_byte. by rewrite !land_mask_byte // /= !Z.div_1_r !Z.mul_1_r.
  - destruct Hnet as (_ & Hp & [k Hk]). rewrite Hval -Hbase Hk Z.add_comm.
    assert (2 ^ (32 - p) ≠ 0) by (pose proof (pow_32_le p Hp); lia).
    rewrite Z.div_add // Z.div_mul // Z.div_small; lia.
Qed.
End properties.

(** Two pools for the witnesses, the ones of the README. *)
Lemma readme_vtep_pool : v4_pool "100.65.0.0/24" 1681981440 24.
Proof.
  exact (v4_pool_dotted 100 65 0 0 24 ltac:(done) ltac:(done) ltac:(done) ltac:(done)
           ltac:(done)).
Qed.
Lemma readme_local_pool : v4_pool "192.169.10.0/24" 3232303616 24.
Proof.
  exact (v4_pool_dotted 192 169 10 0 24 ltac:(done) ltac:(done) ltac:(done) ltac:(done)
           ltac:(done)).
Qed.

Lemma VTEPIp_injective_witness :
  VTEPIp "100.65.0.0/24" 7 = Ok "100.65.0.7/32" ∧ 7 = 7.
Proof.
  split; [vm_compute; reflexivity|].
  apply (VTEPIp_injective _ _ _ 7 7 "100.65.0.7/32" readme_vtep_pool);
    (vm_compute; reflexivity) || (unfold int64_max; lia).
Defined.

Lemma VTEPIp_spec_witness :
  (∃ e, VTEPIp "100.65.0.0/24" 256 = Err e) ∧
  ∃ s ip, VTEPIp "100.65.0.0/24" 255 = Ok s
    ∧ ParseCIDR s = Ok (v4InV6Prefix ++ ip, mkIPNet ip (CIDRMask 32 32))
    ∧ ip_val ip = 1681981440 + 255
    ∧ ip_val ip / 2 ^ (32 - 24) = 1681981440 / 2 ^ (32 - 24).
Proof.
  split.
  - apply (VTEPIp_spec _ _ _ 256 readme_vtep_pool). unfold int64_max; lia.
  - apply (VTEPIp_spec _ _ _ 255 readme_vtep_pool). unfold int64_max; lia.
Defined.

Section veth_properties.
Context `{GoCidrLaws}.

Lemma VethIPs_v4 pool base p index :
  v4_pool pool base p → 0 ≤ index → index + 1 < 2 ^ (32 - p) →
  VethIPs pool index = Ok (mkVeths
    (mkIPNet (ip_of_val 4 (base + (index + 1))) (CIDRMask p 32))
    (mkIPNet (ip_of_val 4 (base + 0)) (CIDRMask p 32))).
Proof.
  intros Hpool Hi Hlt. pose proof Hpool as (ip & net & Hparse & (_ & Hp & _) & _).
  pose proof (pow_32_le p Hp).
  rewrite /VethIPs Hparse. cbn [on_err mbind res_bind IPNet_Mask].
  rewrite Mask_Size_CIDRMask //.
  rewrite (cidrElem_v4 _ base p _ 0) //; [|lia]. cbn [mbind res_bind].
  rewrite wrap_int64_id; [|unfold in_int64, int64_min, int64_max; lia].
  by rewrite (cidrElem_v4 _ base p) //; lia.
Qed.

Lemma VethIPs_v4_out pool base p index :
  v4_pool pool base p → 2 ^ (32 - p) ≤ index + 1 ≤ int64_max →
  ∃ e, VethIPs pool index = Err e.
Proof.
  intros Hpool Hle. pose proof Hpool as (ip & net & Hparse & (_ & Hp & _) & _).
  pose proof (pow_32_le p Hp).
  rewrite /VethIPs Hparse. cbn [on_err mbind res_bind IPNet_Mask].
  rewrite Mask_Size_CIDRMask //.
  rewrite (cidrElem_v4 _ base p _ 0) //; [|lia]. cbn [mbind res_bind].
  rewrite wrap_int64_id; [|unfold in_int64, int64_min, int64_max in *; lia].
  destruct (cidrElem_v4_out pool base p p (index + 1)) as [e ->]; [done|lia|].
  by eexists.
Qed.

(** C19. What [VethIPs] computes on an IPv4 pool: the router's end is the first
    address of the pool on every node, the host's end is that address plus the
    node index plus one, both carry the prefix length of the pool (not a /32)
    and both print as address and prefix length; the two ends differ; an index
    the pool has no address for is an error. *)
Theorem VethIPs_spec pool base p index :
  v4_pool pool base p → 0 ≤ index < int64_max →
  if decide (index + 1 < 2 ^ (32 - p)) then
    ∃ v pe host, VethIPs pool index = Ok v
      ∧ IPNet_String (ContainerSide v) = IP_String pe +:+ String "/" (Itoa p)
      ∧ IPNet_String (HostSide v) = IP_String host +:+ String "/" (Itoa p)
      ∧ IPNet_IP (ContainerSide v) = pe ∧ IPNet_IP (HostSide v) = host
      ∧ is_v4 pe ∧ is_v4 host
      ∧ ip_val pe = base ∧ ip_val host = base + index + 1
  else ∃ e, VethIPs pool index = Err e.
Proof.
  intros Hpool Hi. case_decide as Hlt; [|apply (VethIPs_v4_out pool base p); [done|lia]].
  pose proof Hpool as (ip & net & _ & Hnet & Hbase).
  pose proof (v4_network_bounds _ _ Hnet) as [Hlo Hhi].
  destruct Hnet as (_ & Hp & _).
  eexists _, (ip_of_val 4 (base + 0)), (ip_of_val 4 (base + (index + 1))).
  split; [by apply (VethIPs_v4 pool base p); [done|lia|]|].
  cbn [ContainerSide HostSide IPNet_IP].
  assert (∀ v, IPNet_String (mkIPNet (ip_of_val 4 v) (CIDRMask p 32))
    = IP_String (ip_of_val 4 v) +:+ String "/" (Itoa p)) as Hstr.
  { intros v. destruct (is_v4_inv _ (is_v4_of_val v)) as (a & b & c & d & -> & _).
    by rewrite IPNet_String_v4_mask. }
  rewrite !Hstr !ip_val_of_val. change (256 ^ Z.of_nat 4) with (2 ^ 32).
  split_and!; auto with pierre; rewrite Z.mod_small; lia.
Qed.

(** The host ends of the veth pairs of two nodes differ, and the router's
    end is the same address everywhere. *)
Theorem VethIPs_injective pool base p i j vi vj :
  v4_pool pool base p → 0 ≤ i < int64_max → 0 ≤ j < int64_max →
  VethIPs pool i = Ok vi → VethIPs pool j = Ok vj →
  ContainerSide vi = ContainerSide vj ∧ (HostSide vi = HostSide vj → i = j).
Proof.
  intros Hpool Hi Hj Hvi Hvj.
  assert (∀ k v, 0 ≤ k < int64_max → VethIPs pool k = Ok v →
    k + 1 < 2 ^ (32 - p)) as Hbound.
  { intros k v Hk Hv. destruct (decide (k + 1 < 2 ^ (32 - p))); [done|].
    destruct (VethIPs_v4_out pool base p k) as [e He]; [done|lia|congruence]. }
  pose proof (Hbound i vi Hi Hvi). pose proof (Hbound j vj Hj Hvj).
  pose proof Hpool as (ip & net & _ & (_ & Hp & _) & _). pose proof (pow_32_le p Hp).
  rewrite (VethIPs_v4 _ base p) // in Hvi; [|lia].
  rewrite (VethIPs_v4 _ base p) // in Hvj; [|lia].
  injection Hvi as <-. injection Hvj as <-. cbn [ContainerSide HostSide].
  split; [done|]. intros Heq%(f_equal IPNet_IP). cbn [IPNet_IP] in Heq.
  apply (ip_of_val_inj base (i + 1) (j + 1)) in Heq; lia.
Qed.
End veth_properties.

Lemma VethIPs_spec_witness :
  VethIPs "192.169.10.0/24" 0 = Ok (mkVeths
    (mkIPNet [192; 169; 10; 1] [255; 255; 255; 0])
    (mkIPNet [192; 169; 10; 0] [255; 255; 255; 0])) ∧
  ∃ e, VethIPs "192.169.10.0/24" 255 = Err e.
Proof.
  split; [vm_compute; reflexivity|].
  apply (VethIPs_spec _ _ _ 255 readme_local_pool). unfold int64_max; lia.
Defined.

Lemma VethIPs_injective_witness :
  ∃ v, VethIPs "192.169.10.0/24" 3 = Ok v ∧ ContainerSide v = ContainerSide v ∧ 3 = 3.
Proof.
  eexists. split; [vm_compute; reflexivity|].
  match goal with |- ContainerSide ?v = _ ∧ _ =>
    destruct (VethIPs_injective _ _ _ 3 3 v v readme_local_pool) as [H1 H2] end;
    [unfold int64_max; lia..|vm_compute; reflexivity|vm_compute; reflexivity|].
  split; [exact H1|exact (H2 eq_refl)].
Defined.

(** ** IPv6 pools *)

(** [v6_pool pool base p]: the string denotes an IPv6 network that does not
    overlap the IPv4-mapped block. *)
Definition v6_pool (pool : string) (base p : Z) : Prop :=
  ∃ ip net, ParseCIDR pool = Ok (ip, mkIPNet net (CIDRMask p 128))
    ∧ length net = 16%nat ∧ Forall is_byte net ∧ 0 ≤ p ≤ 128
    ∧ ip_val net = base ∧ 2 ^ 48 ≤ base ∧ (2 ^ (128 - p) | base).

Lemma CIDRMask_32_length p : length (CIDRMask p 32) = 4%nat ∨ CIDRMask p 32 = [].
Proof.
  rewrite /CIDRMask. destruct (_ && _); [left|by right].
  by rewrite length_fmap length_seq.
Qed.

Lemma IPNet_String_v6_v4mask ip p :
  length ip = 16%nat → To4 ip = nilIP → IPNet_String (mkIPNet ip (CIDRMask p 32)) = "<nil>".
Proof.
  intros Hl H4. rewrite /IPNet_String. cbn [IPNet_IP IPNet_Mask]. rewrite H4 /=.
  destruct (CIDRMask_32_length p) as [Hm|Hm];
    (rewrite decide_False; [|rewrite Hl ?Hm; naive_solver]);
    done.
Qed.

Section v6_properties.
Context `{GoCidrLaws}.

Lemma cidrElem_v6 pool base p mask i :
  v6_pool pool base p → 0 ≤ i < 2 ^ (128 - p) →
  ∃ ip, cidrElem pool mask i = Ok (mkIPNet ip (CIDRMask mask 32))
    ∧ length ip = 16%nat ∧ To4 ip = nilIP.
Proof.
  intros (ip & net & Hparse & Hl & Hb & Hp & Hbase & Hbig & Hdiv) Hi.
  assert (To4 net = nilIP) as H4.
  { destruct (decide (To4 net = nilIP)) as [|Hne]; [done|].
    pose proof (To4_mapped_bound _ Hl Hb Hne). lia. }
  exists (ip_of_val 16 (base + i)).
  rewrite /cidrElem Hparse. cbn [on_err mbind res_bind].
  rewrite Host_v6 // Hbase //; cbn [on_err mbind res_bind].
  split_and!; [done|apply length_ip_of_val|].
  destruct (decide (To4 (ip_of_val 16 (base + i)) = nilIP)) as [|Hne]; [done|exfalso].
  apply To4_mapped_bound in Hne; [|apply length_ip_of_val|apply ip_of_val_bytes].
  pose proof (ip_val_byte_bound _ Hb) as Hv. rewrite Hl Hbase in Hv.
  change (256 ^ Z.of_nat 16) with (2 ^ 128) in Hv.
  pose proof (aligned_bound base (128 - p) 128 Hv ltac:(lia) Hdiv).
  rewrite ip_val_of_val in Hne. change (256 ^ Z.of_nat 16) with (2 ^ 128) in Hne.
  rewrite Z.mod_small in Hne; lia.
Qed.

(** An IPv6 pool is accepted but gives unusable addresses: [VethIPs]
    succeeds and both ends print as [<nil>], because [cidrElem] builds the
    mask for a 32-bit address. *)
Theorem VethIPs_v6_prints_nil pool base p index :
  v6_pool pool base p → 0 ≤ index < int64_max → index + 1 < 2 ^ (128 - p) →
  ∃ v, VethIPs pool index = Ok v
    ∧ IPNet_String (HostSide v) = "<nil>" ∧ IPNet_String (ContainerSide v) = "<nil>".
Proof.
  intros Hpool Hi Hlt. pose proof Hpool as (ip & net & Hparse & _ & _ & Hp & _).
  rewrite /VethIPs Hparse. cbn [on_err mbind res_bind IPNet_Mask].
  rewrite Mask_Size_CIDRMask_v6 //.
  destruct (cidrElem_v6 pool base p p 0) as (pe & -> & Hpl & Hp4); [done|lia|].
  rewrite wrap_int64_id; [|unfold in_int64, int64_min, int64_max in *; lia].
  destruct (cidrElem_v6 pool base p p (index + 1)) as (h & Eh & Hhl & Hh4); [done|lia|].
  cbn [mbind res_bind]. rewrite Eh. cbn [mbind res_bind].
  eexists; split; [done|]. cbn [HostSide ContainerSide].
  by rewrite !IPNet_String_v6_v4mask.
Qed.
End v6_properties.

Lemma VethIPs_v6_prints_nil_witness :
  ∃ v, VethIPs "2001:db8::/64" 0 = Ok v
    ∧ IPNet_String (HostSide v) = "<nil>" ∧ IPNet_String (ContainerSide v) = "<nil>".
Proof.
  apply (VethIPs_v6_prints_nil "2001:db8::/64"
    (ip_val [32; 1; 13; 184; 0; 0; 0; 0; 0; 0; 0; 0; 0; 0; 0; 0]) 64 0).
  - eexists _, _. split; [vm_compute; reflexivity|].
    split_and!; try (vm_compute; congruence); [|exists 2306139568115548160; reflexivity].
    repeat (apply Forall_cons_2; [split; [apply Z.leb_le|apply Z.ltb_lt]; reflexivity|]).
    apply Forall_nil_2.
  - unfold int64_max; lia.
  - reflexivity.
Defined.
