(* ===== verification/Frr.v ===== *)
(** * Package [internal/frr]: the FRR configuration and its template

    The [Config] tree of config.go, the functions its template calls, and
    [templateConfig], the text that executing [templates/frr.tmpl] on a [Config]
    gives.  The text is kept as its list of lines, one list per template
    ([neighborsession.tmpl], [neighboripfamily.tmpl], [frr.tmpl]); the trim
    markers of the templates are resolved, so that a line of a template that
    produces only blanks is here a line of blanks.  The two golden files of the
    package's tests are checked by evaluation. *)

From S2P Require Import Prelude GoStrings GoNet IpFamily.
Local Open Scope Z_scope.

(** ** config.go: data *)
Module NeighborConfig.
Record t := mk {
  Name : string;
  ASN : Z;
  Addr : string;
  Port : option Z;
  HoldTime : option Z;
  KeepaliveTime : option Z;
  ConnectTime : option Z;
  Password : string;
  BFDProfile : string;
  EBGPMultiHop : bool;
  IPFamily : Family }.
(** The method [ID]. *)
Definition ID (n : t) : string := Addr n.
End NeighborConfig.

Module UnderlayConfig.
Record t := mk {
  MyASN : Z;
  VTEP : string;
  Neighbors : list NeighborConfig.t }.
End UnderlayConfig.

Module VNIConfig.
Record t := mk {
  ASN : Z;
  ToAdvertise : list string;
  LocalNeighbor : option NeighborConfig.t;
  VRF : string;
  VNI : Z }.
End VNIConfig.

Module Config.
Record t := mk {
  Loglevel : string;
  Hostname : string;
  Underlay : UnderlayConfig.t;
  VNIs : list VNIConfig.t }.
End Config.

(** ** config.go: template functions *)

(** The values the templates hand to [dict]. *)
Inductive tvalue :=
  | TString (s : string)
  | TUint32 (n : Z)
  | TNeighbor (n : NeighborConfig.t).

Fixpoint dict_pairs (values : list tvalue) (d : gmap string tvalue)
    : res (gmap string tvalue) :=
  match values with
  | [] => Ok d
  | TString key :: v :: values => dict_pairs values (<[key := v]> d)
  | _ => Err (errorf "dict keys must be strings, got %v %T" [])
  end.

Definition dict (values : list tvalue) : res (gmap string tvalue) :=
  if Nat.odd (length values)
  then Err (errorf "invalid dict call, expecting even number of args" [])
  else dict_pairs values ∅.

Definition mustDisableConnectedCheck (ipFamily : Family) (myASN asn : Z)
    (eBGPMultiHop : bool) : bool :=
  if bool_decide (ipFamily = IPv6) && negb (myASN =? asn) && negb eBGPMultiHop
  then true else false.

Definition activateNeighborFor (ipFamily : string) (neighbourFamily : Family) : bool :=
  bool_decide (neighbourFamily = ipFamily).

(** ** The templates *)
Definition cat (l : list string) : string := foldr String.append "" l.

(** A line that is there when the condition holds. *)
Definition line_if (b : bool) (l : string) : list string := if b then [l] else [].
(** [{{ if .P }}]: a pointer is true when it is not nil and prints its target. *)
Definition line_for (p : option Z) (f : string → string) : list string :=
  match p with Some v => [f (Itoa v)] | None => [] end.

(** templates/neighborsession.tmpl *)
Definition neighborsession_lines (n : NeighborConfig.t) (routerASN : Z) : list string :=
  let addr := NeighborConfig.Addr n in
  [cat ["  neighbor "; addr; " remote-as "; Itoa (NeighborConfig.ASN n)]]
  ++ line_if (NeighborConfig.EBGPMultiHop n) (cat ["  neighbor "; addr; " ebgp-multihop"])
  ++ [cat ("  " :: match NeighborConfig.Port n with
                   | Some p => ["neighbor "; addr; " port "; Itoa p]
                   | None => []
                   end)]
  ++ ["  "]
  ++ (match NeighborConfig.KeepaliveTime n, NeighborConfig.HoldTime n with
      | Some k, Some h => [cat ["  neighbor "; addr; " timers "; Itoa k; " "; Itoa h]]
      | _, _ => []
      end)
  ++ line_for (NeighborConfig.ConnectTime n)
       (λ c, cat ["  neighbor "; addr; " timers connect "; c])
  ++ [cat ("  " :: if bool_decide (NeighborConfig.Password n = "") then []
                   else ["neighbor "; addr; " password "; NeighborConfig.Password n])]
  ++ line_if (negb (bool_decide (NeighborConfig.BFDProfile n = "")))
       (cat ["  neighbor "; addr; " bfd profile "; NeighborConfig.BFDProfile n])
  ++ line_if (mustDisableConnectedCheck (NeighborConfig.IPFamily n) routerASN
                (NeighborConfig.ASN n) (NeighborConfig.EBGPMultiHop n))
       (cat ["  neighbor "; addr; " disable-connected-check"]).

(** The template reads its arguments from the map [dict] built. *)
Definition neighborsession (d : gmap string tvalue) : res (list string) :=
  match d !! "neighbor", d !! "routerASN" with
  | Some (TNeighbor n), Some (TUint32 asn) => Ok (neighborsession_lines n asn)
  | _, _ => Err (ExtErr "template: nil data; no entry for key")
  end.

(** templates/neighboripfamily.tmpl *)
Definition neighborenableipfamily (n : NeighborConfig.t) : list string :=
  let family (f : string) :=
    if activateNeighborFor f (NeighborConfig.IPFamily n) then
      [cat ["  address-family "; f; " unicast"];
       cat ["    neighbor "; NeighborConfig.Addr n; " activate"];
       "  exit-address-family"]
    else [] in
  [""] ++ family "ipv4" ++ family "ipv6".

(** templates/frr.tmpl, the part inside [if .Underlay.MyASN]. *)
Definition underlay_block (u : UnderlayConfig.t) : res (list string) :=
  let ns := UnderlayConfig.Neighbors u in
  sessions ← traverse (λ n,
    d ← dict [TString "neighbor"; TNeighbor n;
              TString "routerASN"; TUint32 (UnderlayConfig.MyASN u)];
    neighborsession d) ns;
  Ok ([cat ["router bgp "; Itoa (UnderlayConfig.MyASN u)];
       "  no bgp ebgp-requires-policy";
       "  no bgp network import-check";
       "  no bgp default ipv4-unicast"]
      ++ concat sessions
      ++ concat (neighborenableipfamily <$> ns)
      ++ ["  address-family ipv4 unicast";
          cat ["    network "; UnderlayConfig.VTEP u];
          "  exit-address-family";
          "";
          "  address-family l2vpn evpn"]
      ++ concat ((λ n,
           [cat ["    neighbor "; NeighborConfig.Addr n; " activate"];
            cat ["    neighbor "; NeighborConfig.Addr n; " allowas-in origin"]]) <$> ns)
      ++ ["    advertise-all-vni";
          "    advertise-svi-ip";
          "  exit-address-family"]).

(** [range .VNIs], the vrf definitions. *)
Definition vrf_block (v : VNIConfig.t) : list string :=
  [cat ["vrf "; VNIConfig.VRF v];
   cat ["  vni "; Itoa (VNIConfig.VNI v)];
   "exit-vrf"].

(** [range .VNIs], the BGP instances.  A nil [LocalNeighbor] stops the template
    with an error. *)
Definition vni_block (v : VNIConfig.t) : res (list string) :=
  match VNIConfig.LocalNeighbor v with
  | None => Err (ExtErr "template: nil pointer evaluating *frr.NeighborConfig.Addr")
  | Some ln =>
      let addr := NeighborConfig.Addr ln in
      Ok (["";
           cat ["router bgp "; Itoa (VNIConfig.ASN v); " vrf "; VNIConfig.VRF v];
           "  no bgp ebgp-requires-policy";
           "  no bgp network import-check";
           "  no bgp default ipv4-unicast";
           "";
           cat ["  neighbor "; addr; " remote-as "; Itoa (NeighborConfig.ASN ln)];
           "";
           "  address-family ipv4 unicast"]
          ++ ((λ net, cat ["    network "; net]) <$> VNIConfig.ToAdvertise v)
          ++ [cat ["    neighbor "; addr; " activate"];
              cat ["    neighbor "; addr; " route-map allowall in"];
              cat ["    neighbor "; addr; " route-map allowall out"];
              cat ["    neighbor "; addr; " allowas-in origin"];
              "  exit-address-family";
              "";
              "  address-family l2vpn evpn";
              "    advertise ipv4 unicast";
              "    advertise ipv6 unicast";
              "  exit-address-family";
              "exit"])
  end.

Definition debug_lines : list string :=
  ["debug zebra events"; "debug zebra nht"; "debug zebra kernel"; "debug zebra rib";
   "debug zebra nexthop"; "debug bgp neighbor-events"; "debug bgp updates";
   "debug bgp keepalives"; "debug bgp nht"; "debug bgp zebra"; "debug bfd network";
   "debug bfd peer"; "debug bfd zebra"].

(** templates/frr.tmpl *)
Definition frr_tmpl (c : Config.t) : res (list string) :=
  underlay ←
    (if UnderlayConfig.MyASN (Config.Underlay c) =? 0 then Ok []
     else underlay_block (Config.Underlay c));
  vnis ← traverse vni_block (Config.VNIs c);
  Ok ([cat ["log file /etc/frr/frr.log "; Config.Loglevel c];
       "log timestamp precision 3"]
      ++ (if bool_decide (Config.Loglevel c = "debug") then debug_lines else [])
      ++ [cat ["hostname "; Config.Hostname c];
          "ip nht resolve-via-default";
          "ipv6 nht resolve-via-default"]
      ++ concat (vrf_block <$> Config.VNIs c)
      ++ ["";
          "route-map allowall permit 1"]
      ++ underlay
      ++ concat vnis).

Definition NL : ascii := "010"%char.
Definition unlines (l : list string) : string :=
  foldr (λ x s, x +:+ String NL s) "" l.

(** config.go [templateConfig]: the rendered text. *)
Definition templateConfig (data : Config.t) : res string :=
  lines ← frr_tmpl data; Ok (unlines lines).

(** ** config.go and frr.go: applying a configuration *)
Section apply.
Context {W : Type}.
(** [ConfigUpdater]: what is done with the text; [osHostname] reads the
    machine's name. *)
Definition ConfigUpdater : Type := string → go W unit.
Variable osHostname : go W string.

Definition generateAndReloadConfigFile (config : Config.t) (updater : ConfigUpdater)
    : go W unit :=
  configString ← lift (templateConfig config);
  updater configString.

Definition ApplyConfig (config : Config.t) (updater : ConfigUpdater) : go W unit :=
  hostname ← osHostname;
  generateAndReloadConfigFile
    (Config.mk (Config.Loglevel config) hostname (Config.Underlay config)
       (Config.VNIs config)) updater.
End apply.

(** ** The golden files of the package's tests *)
Definition test_neighbor (addr : string) : NeighborConfig.t :=
  NeighborConfig.mk "" 64512 addr None None None None "" "" false IPv4.

(** [TestBasic]; the golden file fixes the host name of the machine it was
    made on. *)
Definition basic_config : Config.t :=
  Config.mk "" "cnfdc8.t5g-dev.eng.rdu2.dc.redhat.com"
    (UnderlayConfig.mk 64512 "100.64.0.1/32" [test_neighbor "192.168.1.2"])
    [VNIConfig.mk 64512 ["192.169.10.2/24"] (Some (test_neighbor "192.168.1.2")) "red" 100].

Example TestBasic_golden : templateConfig basic_config = Ok
"log file /etc/frr/frr.log 
log timestamp precision 3
hostname cnfdc8.t5g-dev.eng.rdu2.dc.redhat.com
ip nht resolve-via-default
ipv6 nht resolve-via-default
vrf red
  vni 100
exit-vrf

route-map allowall permit 1
router bgp 64512
  no bgp ebgp-requires-policy
  no bgp network import-check
  no bgp default ipv4-unicast
  neighbor 192.168.1.2 remote-as 64512
  
  
  

  address-family ipv4 unicast
    neighbor 192.168.1.2 activate
  exit-address-family
  address-family ipv4 unicast
    network 100.64.0.1/32
  exit-address-family

  address-family l2vpn evpn
    neighbor 192.168.1.2 activate
    neighbor 192.168.1.2 allowas-in origin
    advertise-all-vni
    advertise-svi-ip
  exit-address-family

router bgp 64512 vrf red
  no bgp ebgp-requires-policy
  no bgp network import-check
  no bgp default ipv4-unicast

  neighbor 192.168.1.2 remote-as 64512

  address-family ipv4 unicast
    network 192.169.10.2/24
    neighbor 192.168.1.2 activate
    neighbor 192.168.1.2 route-map allowall in
    neighbor 192.168.1.2 route-map allowall out
    neighbor 192.168.1.2 allowas-in origin
  exit-address-family

  address-family l2vpn evpn
    advertise ipv4 unicast
    advertise ipv6 unicast
  exit-address-family
exit
".
Proof. vm_compute. reflexivity. Qed.

Example TestEmpty_golden :
  templateConfig (Config.mk "" "cnfdc8.t5g-dev.eng.rdu2.dc.redhat.com"
                    (UnderlayConfig.mk 0 "" []) []) = Ok
"log file /etc/frr/frr.log 
log timestamp precision 3
hostname cnfdc8.t5g-dev.eng.rdu2.dc.redhat.com
ip nht resolve-via-default
ipv6 nht resolve-via-default

route-map allowall permit 1
".
Proof. vm_compute. reflexivity. Qed.

(** ** Reading the generated text back

    FRR reads the text line by line.  [read_stmt] recognises the statements that
    set the router up: the VRFs and their VNIs, the BGP instances, the remote AS
    of their neighbors and the networks they announce. *)
Inductive stmt :=
  | SVrf (name : string)
  | SVni (vni : Z)
  | SRouter (asn : Z) (vrf : option string)
  | SRemoteAs (addr : string) (asn : Z)
  | SNetwork (net : string).

Fixpoint split_lines (s : string) : list string :=
  match s with
  | EmptyString => []
  | String c r =>
      if Ascii.eqb c NL then "" :: split_lines r
      else match split_lines r with
           | [] => [String c ""]
           | l :: ls => String c l :: ls
           end
  end.

Definition num (s : string) : option Z :=
  match Atoi s with Ok n => Some n | _ => None end.

Definition read_router (r : string) : option stmt :=
  match cut_at " "%char r with
  | None => asn ← num r; Some (SRouter asn None)
  | Some (a, rest) =>
      asn ← num a; vrf ← cut_prefix "vrf " rest; Some (SRouter asn (Some vrf))
  end.

Definition read_neighbor (r : string) : option stmt :=
  '(a, rest) ← cut_at " "%char r;
  n ← cut_prefix "remote-as " rest;
  asn ← num n; Some (SRemoteAs a asn).

Definition read_stmt (l : string) : option stmt :=
  match cut_prefix "vrf " l, cut_prefix "  vni " l, cut_prefix "router bgp " l,
        cut_prefix "  neighbor " l, cut_prefix "    network " l with
  | Some v, _, _, _, _ => Some (SVrf v)
  | _, Some n, _, _, _ => SVni <$> num n
  | _, _, Some r, _, _ => read_router r
  | _, _, _, Some r, _ => read_neighbor r
  | _, _, _, _, Some n => Some (SNetwork n)
  | _, _, _, _, _ => None
  end.

(** The statements a configuration means. *)
Definition vrf_stmts (v : VNIConfig.t) : list stmt :=
  [SVrf (VNIConfig.VRF v); SVni (VNIConfig.VNI v)].
Definition remote_as (n : NeighborConfig.t) : stmt :=
  SRemoteAs (NeighborConfig.Addr n) (NeighborConfig.ASN n).
Definition underlay_stmts (u : UnderlayConfig.t) : list stmt :=
  SRouter (UnderlayConfig.MyASN u) None
  :: (remote_as <$> UnderlayConfig.Neighbors u) ++ [SNetwork (UnderlayConfig.VTEP u)].
Definition vni_stmts (v : VNIConfig.t) : list stmt :=
  SRouter (VNIConfig.ASN v) (Some (VNIConfig.VRF v))
  :: (match VNIConfig.LocalNeighbor v with Some n => [remote_as n] | None => [] end)
  ++ (SNetwork <$> VNIConfig.ToAdvertise v).
Definition config_stmts (c : Config.t) : list stmt :=
  concat (vrf_stmts <$> Config.VNIs c)
  ++ (if UnderlayConfig.MyASN (Config.Underlay c) =? 0 then []
      else underlay_stmts (Config.Underlay c))
  ++ concat (vni_stmts <$> Config.VNIs c).

(** No field breaks a line, and no address has a blank in it. *)
Definition one_line (s : string) : Prop := no_char NL s = true.
Definition word (s : string) : Prop := one_line s ∧ no_char " " s = true.
Definition clean_neighbor (n : NeighborConfig.t) : Prop :=
  word (NeighborConfig.Addr n) ∧ in_int64 (NeighborConfig.ASN n)
  ∧ one_line (NeighborConfig.Password n) ∧ one_line (NeighborConfig.BFDProfile n).
Definition clean_vni (v : VNIConfig.t) : Prop :=
  one_line (VNIConfig.VRF v) ∧ in_int64 (VNIConfig.VNI v) ∧ in_int64 (VNIConfig.ASN v)
  ∧ Forall one_line (VNIConfig.ToAdvertise v)
  ∧ ∃ n, VNIConfig.LocalNeighbor v = Some n ∧ clean_neighbor n.
Definition clean (c : Config.t) : Prop :=
  one_line (Config.Loglevel c) ∧ one_line (Config.Hostname c)
  ∧ in_int64 (UnderlayConfig.MyASN (Config.Underlay c))
  ∧ one_line (UnderlayConfig.VTEP (Config.Underlay c))
  ∧ Forall clean_neighbor (UnderlayConfig.Neighbors (Config.Underlay c))
  ∧ Forall clean_vni (Config.VNIs c).

(** *** Lines *)
Lemma split_lines_NL x s :
  one_line x → split_lines (x +:+ String NL s) = x :: split_lines s.
Proof.
  unfold one_line. induction x as [|c x IH]; intros Hx.
  - by rewrite string_app_nil.
  - rewrite no_char_cons in Hx. apply andb_true_iff in Hx as [Hc Hx].
    rewrite string_app_cons. cbn [split_lines].
    destruct (Ascii.eqb c NL); [done|]. by rewrite IH.
Qed.

Lemma split_lines_unlines l : Forall one_line l → split_lines (unlines l) = l.
Proof.
  induction 1 as [|x l Hx _ IH]; [done|].
  cbn [unlines foldr]. rewrite split_lines_NL //. by f_equal.
Qed.

Lemma one_line_app x y : one_line (x +:+ y) ↔ one_line x ∧ one_line y.
Proof. by rewrite /one_line no_char_app andb_true_iff. Qed.
Lemma one_line_Itoa z : one_line (Itoa z).
Proof. by apply no_char_Itoa. Qed.
Lemma one_line_cat l : Forall one_line l → one_line (cat l).
Proof. induction 1; [done|]. by apply one_line_app. Qed.

(** Lines made of constants and clean fields. *)
Ltac solve_line :=
  match goal with
  | |- one_line (cat _) => apply one_line_cat; solve_line
  | |- Forall one_line (_ :: _) => apply Forall_cons_2; solve_line
  | |- Forall one_line [] => apply Forall_nil_2
  | |- one_line (Itoa _) => apply one_line_Itoa
  | |- one_line ?s => assumption || (unfold one_line; reflexivity)
  end.

(** *** Reading one line *)
Lemma num_Itoa z : in_int64 z → num (Itoa z) = Some z.
Proof. intros. by rewrite /num Atoi_Itoa. Qed.

Lemma read_neighbor_line a r : word a →
  read_stmt ("  neighbor " +:+ (a +:+ String " " r))
    = (n ← cut_prefix "remote-as " r; asn ← num n; Some (SRemoteAs a asn)).
Proof.
  intros [_ Ha].
  change (read_stmt ("  neighbor " +:+ (a +:+ String " " r)))
    with (read_neighbor (a +:+ String " " r)).
  by rewrite /read_neighbor cut_at_app.
Qed.

Lemma read_remote_as a asn : word a → in_int64 asn →
  read_stmt (cat ["  neighbor "; a; " remote-as "; Itoa asn]) = Some (SRemoteAs a asn).
Proof.
  intros Ha Hn. cbn [cat foldr]. rewrite string_app_nil_r.
  change (" remote-as " +:+ Itoa asn) with (String " " ("remote-as " +:+ Itoa asn)).
  rewrite read_neighbor_line // cut_prefix_app. cbn [mbind option_bind].
  by rewrite num_Itoa.
Qed.

(** A neighbor line that sets something else than the remote AS. *)
Lemma read_neighbor_other a k l : word a → cut_prefix "remote-as " (cat (k :: l)) = None →
  read_stmt (cat ("  neighbor " :: a :: String " " k :: l)) = None.
Proof.
  intros Ha Hk. cbn [cat foldr] in *. rewrite string_app_cons read_neighbor_line //.
  by rewrite Hk.
Qed.

Lemma read_vni n : in_int64 n → read_stmt (cat ["  vni "; Itoa n]) = Some (SVni n).
Proof.
  intros Hn. cbn [cat foldr]. rewrite string_app_nil_r.
  change (read_stmt ("  vni " +:+ Itoa n)) with (SVni <$> num (Itoa n)).
  by rewrite num_Itoa.
Qed.

Lemma read_vrf v : read_stmt (cat ["vrf "; v]) = Some (SVrf v).
Proof.
  cbn [cat foldr]. rewrite string_app_nil_r.
  by change (read_stmt ("vrf " +:+ v)) with (Some (SVrf v)).
Qed.

Lemma read_network v : read_stmt (cat ["    network "; v]) = Some (SNetwork v).
Proof.
  cbn [cat foldr]. rewrite string_app_nil_r.
  by change (read_stmt ("    network " +:+ v)) with (Some (SNetwork v)).
Qed.

Lemma no_space_Itoa z : no_char " " (Itoa z) = true.
Proof. by apply no_char_Itoa. Qed.

Lemma cut_at_none c s : no_char c s = true → cut_at c s = None.
Proof.
  induction s as [|a s IH]; [done|]. rewrite no_char_cons. cbn [cut_at].
  intros [Ha Hs]%andb_true_iff. destruct (Ascii.eqb a c); [done|]. by rewrite IH.
Qed.

Lemma read_router_underlay n : in_int64 n →
  read_stmt (cat ["router bgp "; Itoa n]) = Some (SRouter n None).
Proof.
  intros Hn. cbn [cat foldr]. rewrite string_app_nil_r.
  change (read_stmt ("router bgp " +:+ Itoa n)) with (read_router (Itoa n)).
  rewrite /read_router cut_at_none; [|apply no_space_Itoa]. by rewrite num_Itoa.
Qed.

Lemma read_router_vrf n v : in_int64 n →
  read_stmt (cat ["router bgp "; Itoa n; " vrf "; v]) = Some (SRouter n (Some v)).
Proof.
  intros Hn. cbn [cat foldr]. rewrite string_app_nil_r.
  change (read_stmt ("router bgp " +:+ (Itoa n +:+ (" vrf " +:+ v))))
    with (read_router (Itoa n +:+ String " " ("vrf " +:+ v))).
  rewrite /read_router cut_at_app; [|apply no_space_Itoa].
  by rewrite num_Itoa.
Qed.

(** *** Reading the templates *)
Lemma read_line l r ls : read_stmt l = r →
  omap read_stmt (l :: ls) = match r with Some x => [x] | None => [] end ++ omap read_stmt ls.
Proof. intros <-. cbn. by destruct (read_stmt l). Qed.

Lemma read_line_if b l : read_stmt l = None → omap read_stmt (line_if b l) = [].
Proof. intros Hl. destruct b; [|done]. by rewrite /line_if (read_line _ _ _ Hl). Qed.

Lemma read_neighborsession n asn : clean_neighbor n →
  omap read_stmt (neighborsession_lines n asn) = [remote_as n].
Proof.
  intros (Ha & Hasn & _ & _). unfold neighborsession_lines.
  set (a := NeighborConfig.Addr n) in *.
  cbn [app]. rewrite (read_line _ _ _ (read_remote_as a _ Ha Hasn)).
  rewrite !omap_app (read_line_if (NeighborConfig.EBGPMultiHop n));
    [|by apply (read_neighbor_other a "ebgp-multihop" [])].
  rewrite (read_line _ None); [|destruct (NeighborConfig.Port n); [|done];
    by apply (read_neighbor_other a "port " [_])].
  rewrite (read_line _ None) // !omap_app.
  rewrite (read_line _ None); [|case_bool_decide; [done|];
    by apply (read_neighbor_other a "password " [_])].
  rewrite !omap_app (read_line_if (mustDisableConnectedCheck _ _ _ _));
    [|by apply (read_neighbor_other a "disable-connected-check" [])].
  rewrite (read_line_if (negb _)); [|by apply (read_neighbor_other a "bfd profile " [_])].
  assert (∀ k h, omap read_stmt
    [cat ["  neighbor "; a; " timers "; Itoa k; " "; Itoa h]] = []) as Ht.
  { intros k h. by rewrite (read_line _ _ _ (read_neighbor_other a "timers " [_; _; _] Ha eq_refl)). }
  assert (∀ c, omap read_stmt [cat ["  neighbor "; a; " timers connect "; c]] = []) as Hc.
  { intros c. by rewrite (read_line _ _ _ (read_neighbor_other a "timers connect " [_] Ha eq_refl)). }
  destruct (NeighborConfig.KeepaliveTime n), (NeighborConfig.HoldTime n),
    (NeighborConfig.ConnectTime n); rewrite ?Ht ?Hc //.
Qed.

Lemma read_neighborenableipfamily n : omap read_stmt (neighborenableipfamily n) = [].
Proof. unfold neighborenableipfamily. by destruct (activateNeighborFor _ _), (activateNeighborFor _ _). Qed.

Lemma omap_concat_map {A} (g : A → list string) (h : A → list stmt) (l : list A) :
  Forall (λ x, omap read_stmt (g x) = h x) l →
  omap read_stmt (concat (g <$> l)) = concat (h <$> l).
Proof. induction 1 as [|x l Hx _ IH]; [done|]. by rewrite /= omap_app Hx IH. Qed.

Lemma concat_nil_map {A B} (l : list A) : concat ((λ _, [] : list B) <$> l) = [].
Proof. by induction l. Qed.
Lemma concat_singletons {A B} (f : A → B) (l : list A) :
  concat ((λ x, [f x]) <$> l) = f <$> l.
Proof. induction l as [|x l IH]; [done|]. by rewrite !fmap_cons /= IH. Qed.

(** [dict] hands the template its two arguments. *)
Lemma neighborsession_dict n asn :
  (d ← dict [TString "neighbor"; TNeighbor n; TString "routerASN"; TUint32 asn];
   neighborsession d) = Ok (neighborsession_lines n asn).
Proof. reflexivity. Qed.

Lemma underlay_block_Ok u : ∃ ls, underlay_block u = Ok ls.
Proof.
  unfold underlay_block. rewrite (traverse_total _ (λ n, neighborsession_lines n (UnderlayConfig.MyASN u))).
  - by eexists.
  - apply Forall_forall. intros n _. apply neighborsession_dict.
Qed.

Lemma read_underlay_block u ls :
  Forall clean_neighbor (UnderlayConfig.Neighbors u) → in_int64 (UnderlayConfig.MyASN u) →
  underlay_block u = Ok ls → omap read_stmt ls = underlay_stmts u.
Proof.
  intros Hn Hasn. unfold underlay_block.
  rewrite (traverse_total _ (λ n, neighborsession_lines n (UnderlayConfig.MyASN u)));
    [|apply Forall_forall; intros; apply neighborsession_dict].
  cbn [mbind res_bind]. intros <-%Ok_inj. cbn [app].
  rewrite (read_line _ _ _ (read_router_underlay _ Hasn)).
  do 3 rewrite (read_line _ None) //. rewrite !omap_app.
  rewrite (omap_concat_map _ (λ n, [remote_as n]));
    [|eapply Forall_impl; [|exact Hn]; intros; by apply read_neighborsession].
  rewrite (omap_concat_map _ (λ _, []));
    [|apply Forall_forall; intros; apply read_neighborenableipfamily].
  rewrite !concat_nil_map concat_singletons (read_line _ None) //.
  rewrite (read_line _ _ _ (read_network _)).
  do 3 rewrite (read_line _ None) //. rewrite omap_app.
  rewrite (omap_concat_map _ (λ _, [])); [|by apply Forall_forall].
  by rewrite concat_nil_map.
Qed.

Lemma read_vrf_block v : in_int64 (VNIConfig.VNI v) → omap read_stmt (vrf_block v) = vrf_stmts v.
Proof.
  intros Hv. unfold vrf_block.
  by rewrite (read_line _ _ _ (read_vrf _)) (read_line _ _ _ (read_vni _ Hv)).
Qed.

Lemma vni_block_Ok v : clean_vni v → ∃ ls, vni_block v = Ok ls ∧ omap read_stmt ls = vni_stmts v.
Proof.
  intros (_ & _ & Hasn & _ & n & Hn & Ha & Hlasn & _). unfold vni_block, vni_stmts.
  rewrite Hn. eexists; split; [done|]. cbn [app].
  rewrite (read_line _ None) // (read_line _ _ _ (read_router_vrf _ _ Hasn)).
  do 4 rewrite (read_line _ None) //.
  rewrite (read_line _ _ _ (read_remote_as _ _ Ha Hlasn)).
  do 2 rewrite (read_line _ None) //. rewrite omap_app.
  assert (∀ l, omap read_stmt ((λ net, cat ["    network "; net]) <$> l) = SNetwork <$> l) as ->.
  { induction l as [|x l IH]; [done|]. cbn [fmap list_fmap].
    rewrite (read_line _ _ _ (read_network _)). by rewrite IH. }
  do 4 (rewrite (read_line _ None) //). by rewrite !app_nil_r.
Qed.

(** *** The lines hold no line break *)
Lemma one_line_if b l : one_line l → Forall one_line (line_if b l).
Proof. by destruct b; [intros; apply Forall_singleton|]. Qed.

Lemma one_line_session n asn : clean_neighbor n →
  Forall one_line (neighborsession_lines n asn).
Proof.
  intros ([Ha _] & _ & Hp & Hb). unfold neighborsession_lines.
  set (a := NeighborConfig.Addr n) in *.
  repeat (apply Forall_app; split); try (apply one_line_if); try solve_line.
  - destruct (NeighborConfig.Port n); solve_line.
  - destruct (NeighborConfig.KeepaliveTime n), (NeighborConfig.HoldTime n); solve_line.
  - destruct (NeighborConfig.ConnectTime n); cbn [line_for]; solve_line.
  - case_bool_decide; solve_line.
Qed.

Lemma one_line_ipfamily n : clean_neighbor n → Forall one_line (neighborenableipfamily n).
Proof.
  intros ([Ha _] & _). unfold neighborenableipfamily.
  destruct (activateNeighborFor _ _), (activateNeighborFor _ _); cbn [app]; solve_line.
Qed.

Lemma Forall_concat_map {A} (P : string → Prop) (g : A → list string) (l : list A) :
  Forall (λ x, Forall P (g x)) l → Forall P (concat (g <$> l)).
Proof. induction 1; [done|]. by apply Forall_app. Qed.

Lemma one_line_underlay u ls :
  Forall clean_neighbor (UnderlayConfig.Neighbors u) → one_line (UnderlayConfig.VTEP u) →
  underlay_block u = Ok ls → Forall one_line ls.
Proof.
  intros Hn Hv. unfold underlay_block.
  rewrite (traverse_total _ (λ n, neighborsession_lines n (UnderlayConfig.MyASN u)));
    [|apply Forall_forall; intros; apply neighborsession_dict].
  cbn [mbind res_bind]. intros <-%Ok_inj.
  repeat (apply Forall_app; split); try solve_line;
    apply Forall_concat_map; eapply Forall_impl; try exact Hn; intros n Hc.
  - by apply one_line_session.
  - by apply one_line_ipfamily.
  - destruct Hc as ([Ha _] & _). solve_line.
Qed.

Lemma one_line_vrf_block v : clean_vni v → Forall one_line (vrf_block v).
Proof. intros (Hv & _). unfold vrf_block. solve_line. Qed.

Lemma one_line_vni_block v ls : clean_vni v → vni_block v = Ok ls → Forall one_line ls.
Proof.
  intros (Hv & _ & _ & Hadv & n & Hn & [Ha _] & _). unfold vni_block.
  rewrite Hn. intros <-%Ok_inj.
  repeat (apply Forall_app; split); try solve_line.
  apply Forall_fmap. eapply Forall_impl; [|exact Hadv]. intros net Hnet.
  change (one_line (cat ["    network "; net])). solve_line.
Qed.

Lemma traverse_vni_blocks vs : Forall clean_vni vs →
  ∃ lss, traverse vni_block vs = Ok lss ∧ Forall (Forall one_line) lss
    ∧ omap read_stmt (concat lss) = concat (vni_stmts <$> vs).
Proof.
  induction 1 as [|v vs Hv _ (lss & Hlss & Hone & Hread)]; [by exists []|].
  destruct (vni_block_Ok v Hv) as (ls & Hls & Hr).
  exists (ls :: lss). split; [by rewrite /= Hls /= Hlss|]. split.
  - constructor; [exact (one_line_vni_block _ _ Hv Hls)|done].
  - by rewrite fmap_cons /= omap_app Hr Hread.
Qed.

Lemma frr_tmpl_clean c : clean c → ∃ ls, frr_tmpl c = Ok ls
  ∧ Forall one_line ls ∧ omap read_stmt ls = config_stmts c.
Proof.
  intros (Hlog & Hhost & Hasn & Hvtep & Hn & Hv). unfold frr_tmpl, config_stmts.
  assert (∃ us, (if UnderlayConfig.MyASN (Config.Underlay c) =? 0 then Ok []
      else underlay_block (Config.Underlay c)) = Ok us ∧ Forall one_line us
    ∧ omap read_stmt us = if UnderlayConfig.MyASN (Config.Underlay c) =? 0 then []
      else underlay_stmts (Config.Underlay c)) as (us & -> & Hus & Hur).
  { destruct (_ =? 0); [by exists []|].
    destruct (underlay_block_Ok (Config.Underlay c)) as [us Hu]. exists us.
    split_and!; [done|exact (one_line_underlay _ _ Hn Hvtep Hu)|by apply read_underlay_block]. }
  destruct (traverse_vni_blocks _ Hv) as (lss & Hlss & Hone & Hread).
  cbn [mbind res_bind]. rewrite Hlss. cbn [mbind res_bind].
  eexists; split; [done|]. split.
  - repeat (apply Forall_app; split); try solve_line; try done.
    + case_bool_decide; [|done]. unfold debug_lines; solve_line.
    + apply Forall_concat_map. eapply Forall_impl; [|exact Hv]. apply one_line_vrf_block.
    + by apply Forall_concat.
  - cbn [app]. do 2 rewrite (read_line _ None) //. rewrite omap_app.
    assert (omap read_stmt (if bool_decide (Config.Loglevel c = "debug")
      then debug_lines else []) = []) as -> by by case_bool_decide.
    do 3 rewrite (read_line _ None) //. rewrite !omap_app.
    rewrite (omap_concat_map _ vrf_stmts);
      [|eapply Forall_impl; [|exact Hv]; intros v Hc; by apply read_vrf_block, Hc].
    do 2 rewrite (read_line _ None) //. by rewrite omap_app Hur Hread.
Qed.

(** ** Properties *)

(** C14. The generated text carries exactly what the configuration says: reading
    it line by line gives, in order, the VRF and VNI of every VNI, the underlay
    router with its neighbors and its VTEP network when it has an ASN, and the
    BGP instance, local neighbor and networks of every VNI. *)
Theorem templateConfig_reads_back c :
  clean c → ∃ s, templateConfig c = Ok s ∧ omap read_stmt (split_lines s) = config_stmts c.
Proof.
  intros Hc. destruct (frr_tmpl_clean c Hc) as (ls & Hls & Hone & Hread).
  exists (unlines ls). rewrite /templateConfig Hls split_lines_unlines //.
Qed.

Lemma templateConfig_reads_back_witness :
  ∃ s, templateConfig basic_config = Ok s ∧
    omap read_stmt (split_lines s) =
      [SVrf "red"; SVni 100;
       SRouter 64512 None; SRemoteAs "192.168.1.2" 64512; SNetwork "100.64.0.1/32";
       SRouter 64512 (Some "red"); SRemoteAs "192.168.1.2" 64512;
       SNetwork "192.169.10.2/24"].
Proof.
  apply (templateConfig_reads_back basic_config).
  assert (clean_neighbor (test_neighbor "192.168.1.2")) as Hn.
  { split_and!; [split; reflexivity|split; by apply Z.leb_le|reflexivity..]. }
  split_and!; try reflexivity; try (split; by apply Z.leb_le).
  - apply Forall_cons_2; [exact Hn|apply Forall_nil_2].
  - apply Forall_cons_2; [|apply Forall_nil_2].
    split_and!; try reflexivity; try (split; by apply Z.leb_le).
    + apply Forall_cons_2; [reflexivity|apply Forall_nil_2].
    + exists (test_neighbor "192.168.1.2"). split; [reflexivity|exact Hn].
Defined.

Lemma vni_block_Ok_iff v :
  (∃ ls, vni_block v = Ok ls) ↔ VNIConfig.LocalNeighbor v ≠ None.
Proof. unfold vni_block. destruct (VNIConfig.LocalNeighbor v); naive_solver. Qed.

(** Rendering fails exactly when a VNI has no local neighbor. *)
Lemma templateConfig_Ok_iff c :
  (∃ s, templateConfig c = Ok s) ↔
  Forall (λ v, VNIConfig.LocalNeighbor v ≠ None) (Config.VNIs c).
Proof.
  unfold templateConfig, frr_tmpl.
  assert (∃ us, (if UnderlayConfig.MyASN (Config.Underlay c) =? 0 then Ok []
      else underlay_block (Config.Underlay c)) = Ok us) as [us ->].
  { destruct (_ =? 0); [by exists []|]. apply underlay_block_Ok. }
  cbn [mbind res_bind]. split.
  - intros [s Hs]. inv_ok. match goal with H : traverse _ _ = Ok _ |- _ =>
      apply traverse_Ok in H; revert H end.
    generalize (Config.VNIs c) as vs. intros vs Hall.
    eapply Forall2_Forall_l; [exact Hall|]. apply Forall_forall.
    intros ls _ v Hv. apply vni_block_Ok_iff. by exists ls.
  - intros Hall. assert (∃ lss, traverse vni_block (Config.VNIs c) = Ok lss) as [lss ->].
    { induction Hall as [|v vs Hv _ [lss IH]]; [by exists []|].
      apply vni_block_Ok_iff in Hv as [ls Hls]. exists (ls :: lss).
      by rewrite /= Hls /= IH. }
    by eexists.
Qed.
