(* ===== verification/Vtysh.v ===== *)
(** * Package [internal/frr]: reading what vtysh prints (parse.go)

    The JSON text is decoded by [encoding/json], a parameter here; what the code
    makes of the decoded value is modelled.  Ranging over a map visits its entries in
    an order Go leaves open: the class [MapRange], of which only the order is free. *)

From stdpp Require sorting.
From Stdlib Require Sorted.
From S2P Require Import Prelude GoStrings GoNet.
Local Open Scope Z_scope.

(** [errors.Join(err, errors.New(msg))]: its text is the two texts on a line each,
    and it unwraps to [err]. *)
Definition errors_Join (msg : string) (err : error) : error :=
  Errorf ("%w" +:+ String "010"%char "%s") [msg] (Some err).

(** [for k, v := range m] *)
Class MapRange := range_map : ∀ {A : Type}, gmap string A → list (string * A).
Class MapRangeLaws `{MapRange} : Prop :=
  range_perm : ∀ {A} (m : gmap string A), range_map m ≡ₚ map_to_list m.

(** ** Data *)
Module MessageStats.
Record t := mk {
  OpensSent : Z; OpensReceived : Z; NotificationsSent : Z; UpdatesSent : Z;
  UpdatesReceived : Z; KeepalivesSent : Z; KeepalivesReceived : Z; RouteRefreshSent : Z;
  TotalSent : Z; TotalReceived : Z }.
End MessageStats.

Module Neighbor.
Record t := mk {
  IP : GoNet.IP;
  VRF : string;
  Connected : bool;
  LocalAS : string;
  RemoteAS : string;
  PrefixSent : Z;
  PrefixReceived : Z;
  Port : Z;
  RemoteRouterID : string;
  MsgStats : MessageStats.t }.
End Neighbor.

Module Route.
Record t := mk {
  Destination : IPNet;
  NextHops : list IP;
  LocalPref : Z;
  Origin : string }.
End Route.

(** The entries of [AddressFamilyInfo]. *)
Module AddressFamily.
Record t := mk { SentPrefixCounter : Z; AcceptedPrefixCounter : Z }.
End AddressFamily.

Module FRRNeighbor.
Record t := mk {
  RemoteAs : Z;
  LocalAs : Z;
  RemoteRouterID : string;
  BgpVersion : Z;
  BgpState : string;
  PortForeign : Z;
  MsgStats : MessageStats.t;
  VRFName : string;
  AddressFamilyInfo : gmap string AddressFamily.t }.
End FRRNeighbor.

(** The entries of [Nexthops]. *)
Module Nexthop.
Record t := mk { IP : string; Scope : string }.
End Nexthop.

Module FRRRoute.
Record t := mk {
  Valid : bool;
  PeerID : string;
  LocalPref : Z;
  Origin : string;
  Nexthops : list Nexthop.t }.
End FRRRoute.

Module IPInfo.
Record t := mk { Routes : gmap string (list FRRRoute.t) }.
End IPInfo.

Module BFDPeer.
Record t := mk {
  Multihop : bool; Peer : string; Local : string; Vrf : string; Interface : string;
  ID : Z; RemoteID : Z; PassiveMode : bool; Status : string; Uptime : Z;
  Diagnostic : string; RemoteDiagnostic : string; ReceiveInterval : Z;
  TransmitInterval : Z; EchoReceiveInterval : Z; EchoTransmitInterval : Z;
  DetectMultiplier : Z; RemoteReceiveInterval : Z; RemoteTransmitInterval : Z;
  RemoteEchoInterval : Z; RemoteEchoReceiveInterval : Z; RemoteDetectMultiplier : Z }.
End BFDPeer.

Definition bgpConnected : string := "Established".

(** ** The operations *)

(** [sum += x] on an [int] *)
Definition add_int (a b : Z) : Z := wrap_int64 (a + b).

(** The body of the loop over the next hops of one route: the hops so far, or the
    text that is no address. *)
Fixpoint addNexthops (hops : list IP) (l : list Nexthop.t) : res (list IP) :=
  match l with
  | [] => Ok hops
  | h :: l =>
      let ip := ParseIP (Nexthop.IP h) in
      if bool_decide (ip = nilIP) then Err (errorf "failed to parse ip %s" [Nexthop.IP h])
      else if bool_decide (To4 ip = nilIP) && bool_decide (Nexthop.Scope h = "link-local")
      then addNexthops hops l
      else if existsb (Equal ip) hops then addNexthops hops l
      else addNexthops (hops ++ [ip]) l
  end.

(** The loop over the routes of one destination. *)
Fixpoint addRoutes (r : Route.t) (l : list FRRRoute.t) : res Route.t :=
  match l with
  | [] => Ok r
  | n :: l =>
      hops ← addNexthops (Route.NextHops r) (FRRRoute.Nexthops n);
      addRoutes (Route.mk (Route.Destination r) hops (FRRRoute.LocalPref n) (FRRRoute.Origin n)) l
  end.

(** One round of the loop over the destinations: the key and the route. *)
Definition parseRoute (k : string) (frrRoutes : list FRRRoute.t) : res (string * Route.t) :=
  '(destIP, dest) ← on_err (errors_Join ("failed to parse cidr for " +:+ k)) (ParseCIDR k);
  r ← addRoutes (Route.mk dest [] 0 "") frrRoutes;
  Ok (IP_String destIP, r).

(** The order of [sort.Strings]: by bytes. *)
Definition string_le (s t : string) : Prop := Strings.String.leb s t = true.
#[export] Instance string_le_dec : RelDecision string_le.
Proof. intros s t. unfold string_le. apply _. Defined.

Section parse.
Context `{MapRange}.
(** [json.Unmarshal] into the type the code gives it. *)
Variable unmarshal_neighbors : string → res (gmap string FRRNeighbor.t).
Variable unmarshal_routes : string → res IPInfo.t.
Variable unmarshal_bfd : string → res (list BFDPeer.t).
Variable unmarshal_vrfs : string → res (gmap string unit).

(** One round of the loops of [ParseNeighbour] and [ParseNeighbours]. *)
Definition parseNeighbor (k : string) (n : FRRNeighbor.t) : res Neighbor.t :=
  let ip := ParseIP k in
  if bool_decide (ip = nilIP) then Err (errorf "failed to parse %s as ip" [IP_String ip])
  else
    let connected := bool_decide (FRRNeighbor.BgpState n = bgpConnected) in
    let families := (range_map (FRRNeighbor.AddressFamilyInfo n)).*2 in
    let prefixSent := foldl add_int 0 (AddressFamily.SentPrefixCounter <$> families) in
    let prefixReceived := foldl add_int 0 (AddressFamily.AcceptedPrefixCounter <$> families) in
    Ok (Neighbor.mk ip "" connected (Itoa (FRRNeighbor.LocalAs n)) (Itoa (FRRNeighbor.RemoteAs n))
          prefixSent prefixReceived (FRRNeighbor.PortForeign n) (FRRNeighbor.RemoteRouterID n)
          (FRRNeighbor.MsgStats n)).

Definition ParseNeighbour (vtyshRes : string) : res Neighbor.t :=
  res ← on_err (errors_Join "failed to parse vtysh response") (unmarshal_neighbors vtyshRes);
  if (1 <? size res)%nat then Err (errorf "more than one peer were returned" [])
  else if (size res =? 0)%nat then Err (errorf "no peers were returned" [])
  else match range_map res with
       | (k, n) :: _ => parseNeighbor k n
       | [] => Err (errorf "no peers were returned" [])
       end.

Definition ParseNeighbours (vtyshRes : string) : res (list Neighbor.t) :=
  toParse ← on_err (errors_Join "failed to parse vtysh response") (unmarshal_neighbors vtyshRes);
  traverse (λ e : string * FRRNeighbor.t, parseNeighbor e.1 e.2) (range_map toParse).

Definition ParseRoutes (vtyshRes : string) : res (gmap string Route.t) :=
  toParse ← on_err (errors_Join "failed to parse vtysh response") (unmarshal_routes vtyshRes);
  parsed ← traverse (λ e : string * list FRRRoute.t, parseRoute e.1 e.2)
             (range_map (IPInfo.Routes toParse));
  Ok (foldl (λ res e, <[e.1 := e.2]> res) ∅ parsed).

Definition ParseBFDPeers (vtyshRes : string) : res (list BFDPeer.t) :=
  on_err (errors_Join "failed to parse vtysh response") (unmarshal_bfd vtyshRes).

Definition ParseVRFs (vtyshRes : string) : res (list string) :=
  vrfs ← on_err (errors_Join "parseVRFs: failed to parse vtysh response") (unmarshal_vrfs vtyshRes);
  Ok (stdpp.sorting.merge_sort string_le (range_map vrfs).*1).
End parse.

(** ** Orders do not matter *)

(** What an entry means, without an order: counters add up in 64 bits. *)
Definition total (l : list Z) : Z := wrap_int64 (foldr Z.add 0 l).
Definition neighbor_of (ip : IP) (n : FRRNeighbor.t) : Neighbor.t :=
  let families := (map_to_list (FRRNeighbor.AddressFamilyInfo n)).*2 in
  Neighbor.mk ip "" (bool_decide (FRRNeighbor.BgpState n = "Established"))
    (Itoa (FRRNeighbor.LocalAs n)) (Itoa (FRRNeighbor.RemoteAs n))
    (total (AddressFamily.SentPrefixCounter <$> families))
    (total (AddressFamily.AcceptedPrefixCounter <$> families))
    (FRRNeighbor.PortForeign n) (FRRNeighbor.RemoteRouterID n) (FRRNeighbor.MsgStats n).

Lemma add_int_wrap a b : add_int (wrap_int64 a) b = wrap_int64 (a + b).
Proof.
  unfold add_int, wrap_int64. f_equal.
  replace ((a + 2 ^ 63) mod 2 ^ 64 - 2 ^ 63 + b + 2 ^ 63) with ((a + 2 ^ 63) mod 2 ^ 64 + b) by lia.
  rewrite Zplus_mod_idemp_l. f_equal. lia.
Qed.

Lemma foldl_add_int l : foldl add_int 0 l = total l.
Proof.
  assert (∀ a, foldl add_int (wrap_int64 a) l = wrap_int64 (a + foldr Z.add 0 l)) as Hl.
  { induction l as [|x l IH]; intros a; cbn; [by rewrite Z.add_0_r|].
    rewrite add_int_wrap IH. f_equal. lia. }
  exact (Hl 0).
Qed.

Lemma total_perm l l' : l ≡ₚ l' → total l = total l'.
Proof.
  intros Hp. unfold total. f_equal.
  induction Hp; cbn; lia.
Qed.

Section neighbors.
Context `{MapRangeLaws}.
Variable unmarshal : string → res (gmap string FRRNeighbor.t).

Lemma range_total {A} (f : A → Z) (m : gmap string A) :
  foldl add_int 0 (f <$> (range_map m).*2) = total (f <$> (map_to_list m).*2).
Proof. rewrite foldl_add_int. apply total_perm. by rewrite range_perm. Qed.

Lemma parseNeighbor_Ok k n r :
  parseNeighbor k n = Ok r ↔ ParseIP k ≠ nilIP ∧ r = neighbor_of (ParseIP k) n.
Proof.
  unfold parseNeighbor, neighbor_of. rewrite !range_total.
  case_bool_decide; split; [done|naive_solver|by intros [= <-]|by intros [_ ->]].
Qed.

Lemma traverse_neighbors_Ok (l : list (string * FRRNeighbor.t)) rs :
  traverse (λ e, parseNeighbor e.1 e.2) l = Ok rs ↔
  Forall (λ e, ParseIP e.1 ≠ nilIP) l ∧ rs = (λ e, neighbor_of (ParseIP e.1) e.2) <$> l.
Proof.
  rewrite traverse_Ok. split.
  - induction 1 as [|e r l rs [Hip ->]%parseNeighbor_Ok _ [Hall ->]]; [by split|].
    split; [by constructor|done].
  - intros [Hall ->]. induction Hall as [|e l Hip _ IH]; cbn; constructor; [|exact IH].
    by apply parseNeighbor_Ok.
Qed.

(** C35. Reading all the neighbors: it succeeds exactly when the document decodes and
    every key is an IP address, and then gives one neighbor per entry, the same ones
    whatever order the map is visited in: up exactly when the session is
    established, with the counters of the address families added up. *)
Theorem ParseNeighbours_spec s rs :
  (∃ l, ParseNeighbours unmarshal s = Ok l ∧ l ≡ₚ rs) ↔
  ∃ m, unmarshal s = Ok m ∧ map_Forall (λ k _, ParseIP k ≠ nilIP) m
    ∧ rs ≡ₚ (λ e : string * FRRNeighbor.t, neighbor_of (ParseIP e.1) e.2) <$> map_to_list m.
Proof.
  unfold ParseNeighbours. split.
  - intros (l & Hl & Hp). inv_ok. rename x into m. exists m.
    match goal with H : traverse _ _ = _ |- _ => apply traverse_neighbors_Ok in H as [Hall ->] end.
    split; [done|]. rewrite -Hp range_perm. split; [|done].
    rewrite range_perm in Hall. rewrite map_Forall_to_list. eapply Forall_impl; [|exact Hall].
    by intros [k n].
  - intros (m & Hm & Hall & Hp). rewrite Hm. cbn.
    exists ((λ e : string * FRRNeighbor.t, neighbor_of (ParseIP e.1) e.2) <$> range_map m).
    split; [|by rewrite Hp range_perm]. apply traverse_neighbors_Ok. split; [|done].
    rewrite range_perm. rewrite map_Forall_to_list in Hall. eapply Forall_impl; [|exact Hall].
    by intros [k n].
Qed.

(** Reading one neighbor is reading all of them when there is exactly one. *)
Theorem ParseNeighbour_agrees s n :
  ParseNeighbour unmarshal s = Ok n ↔ ParseNeighbours unmarshal s = Ok [n].
Proof.
  unfold ParseNeighbour, ParseNeighbours. destruct (unmarshal s) as [m|e|]; cbn; [|by split..].
  assert (length (range_map m) = size m) as Hlen by (rewrite range_perm; apply length_map_to_list).
  destruct (range_map m) as [|[k f] [|e l]]; cbn in Hlen; rewrite -Hlen /=; [by split|..].
  - destruct (parseNeighbor k f); cbn; naive_solver.
  - destruct (Nat.ltb_spec 1 (S (S (length l)))); [|lia]. split; [done|].
    intros Hl. apply (traverse_length (λ e : string * FRRNeighbor.t, parseNeighbor e.1 e.2)
      ((k, f) :: e :: l)) in Hl. cbn in Hl. lia.
Qed.
End neighbors.

(** ** Next hops *)

(** No next hop is equal to an earlier one. *)
Definition distinct (l : list IP) : Prop :=
  ∀ i j a b, (i < j)%nat → l !! i = Some a → l !! j = Some b → Equal b a = false.

(** The next hops that count: not the link-local ones of IPv6. *)
Definition counts (h : Nexthop.t) : Prop :=
  ¬ (To4 (ParseIP (Nexthop.IP h)) = nilIP ∧ Nexthop.Scope h = "link-local").

#[export] Instance counts_dec h : Decision (counts h).
Proof. unfold counts. apply _. Defined.
Definition counted (l : list Nexthop.t) : list IP := (λ h, ParseIP (Nexthop.IP h)) <$> filter counts l.

(** [hops] are the addresses [ips], in their order, without those that are equal to one
    taken before: [places] says where in [ips] they are. *)
Definition taken_at (ips : list IP) (places : list nat) (hops : list IP) : Prop :=
  Stdlib.Sorting.Sorted.StronglySorted lt places
  ∧ Forall2 (λ i ip, ips !! i = Some ip) places hops
  ∧ ∀ i ip, ips !! i = Some ip →
      i ∈ places ↔ ∀ j a, j ∈ places → (j < i)%nat → ips !! j = Some a → Equal ip a = false.
Definition first_seen (ips hops : list IP) : Prop := ∃ places, taken_at ips places hops.

(** The loop, over addresses. *)
Definition add_hop (hops : list IP) (ip : IP) : list IP :=
  if existsb (Equal ip) hops then hops else hops ++ [ip].

Lemma existsb_Equal ip hops : existsb (Equal ip) hops = false ↔ ∀ a, a ∈ hops → Equal ip a = false.
Proof.
  rewrite -Bool.not_true_iff_false List.existsb_exists. split.
  - intros Hno a Ha. apply Bool.not_true_iff_false. intros He. apply Hno. exists a. by rewrite -list_elem_of_In.
  - intros Hall (a & Ha%list_elem_of_In & He). by rewrite Hall in He.
Qed.

Lemma taken_bound ips places hops i : taken_at ips places hops → i ∈ places → (i < length ips)%nat.
Proof.
  intros (_ & Hl & _) [k Hk]%list_elem_of_lookup. destruct (Forall2_lookup_l _ _ _ _ _ Hl Hk) as (ip & _ & Hip).
  by apply lookup_lt_Some in Hip.
Qed.
Lemma taken_elem ips places hops a :
  taken_at ips places hops → a ∈ hops ↔ ∃ j, j ∈ places ∧ ips !! j = Some a.
Proof.
  intros (_ & Hl & _). split.
  - intros [k Hk]%list_elem_of_lookup. destruct (Forall2_lookup_r _ _ _ _ _ Hl Hk) as (j & Hj & Ha).
    exists j. split; [exact (list_elem_of_lookup_2 _ _ _ Hj)|done].
  - intros (j & [k Hk]%list_elem_of_lookup & Ha). destruct (Forall2_lookup_l _ _ _ _ _ Hl Hk) as (b & Hb & Hj).
    assert (b = a) as -> by congruence. exact (list_elem_of_lookup_2 _ _ _ Hb).
Qed.

(** One more address: the places taken so far stay as they are. *)
Lemma taken_old ips ip places hops j a :
  taken_at ips places hops → j ∈ places → (ips ++ [ip]) !! j = Some a ↔ ips !! j = Some a.
Proof. intros Ht Hj. by rewrite lookup_app_l; [|exact (taken_bound _ _ _ _ Ht Hj)]. Qed.
Lemma taken_more ips ip places hops :
  taken_at ips places hops → Forall2 (λ i x, (ips ++ [ip]) !! i = Some x) places hops.
Proof. intros (_ & Hl & _). eapply Forall2_impl; [|exact Hl]. intros i x. apply lookup_app_l_Some. Qed.
Lemma taken_new ips ip places hops :
  taken_at ips places hops →
  (∀ j a, j ∈ places → (ips ++ [ip]) !! j = Some a → Equal ip a = false) ↔ existsb (Equal ip) hops = false.
Proof.
  intros Ht. rewrite existsb_Equal. split.
  - intros Hall a (j & Hj & Ha)%(taken_elem _ _ _ _ Ht). apply (Hall j a Hj). by rewrite (taken_old _ _ _ _ _ _ Ht Hj).
  - intros Hall j a Hj Ha. rewrite (taken_old _ _ _ _ _ _ Ht Hj) in Ha. apply Hall, (taken_elem _ _ _ _ Ht). by exists j.
Qed.
Lemma taken_last ips (ip : IP) i x :
  (ips ++ [ip]) !! i = Some x → ips !! i = Some x ∨ i = length ips ∧ x = ip.
Proof.
  intros [Hi|[Hge Hi]]%lookup_app_Some; [by left|right].
  apply list_lookup_singleton_Some in Hi as [Hi0 <-]. split; [lia|done].
Qed.

(** The next address is taken when none that was taken is equal. *)
Lemma taken_skip ips ip places hops :
  taken_at ips places hops → existsb (Equal ip) hops = true → taken_at (ips ++ [ip]) places hops.
Proof.
  intros Ht Hex. pose proof Ht as (Hs & _ & Hc). split_and!; [done|by apply taken_more|].
  intros i x [Hi|[-> ->]]%taken_last.
  - rewrite (Hc i x Hi). split; intros Hall j a Hj Hlt Ha; apply (Hall j a Hj Hlt);
      by (rewrite (taken_old _ _ _ _ _ _ Ht Hj) || rewrite (taken_old _ _ _ _ _ _ Ht Hj) in Ha).
  - split; [intros Hin%(taken_bound _ _ _ _ Ht); lia|]. intros Hall. exfalso.
    cut (existsb (Equal ip) hops = false); [by rewrite Hex|]. apply (taken_new ips ip places hops Ht).
    intros j a Hj. apply Hall; [done|exact (taken_bound _ _ _ _ Ht Hj)].
Qed.
Lemma taken_snoc ips ip places hops :
  taken_at ips places hops → existsb (Equal ip) hops = false →
  taken_at (ips ++ [ip]) (places ++ [length ips]) (hops ++ [ip]).
Proof.
  intros Ht Hex. pose proof Ht as (Hs & _ & Hc). rewrite -(taken_new ips ip places hops Ht) in Hex. split_and!.
  - apply stdpp.sorting.StronglySorted_app_2; [|done|repeat constructor].
    intros i j Hi ->%list_elem_of_singleton. exact (taken_bound _ _ _ _ Ht Hi).
  - apply Forall2_app; [by apply taken_more|]. constructor; [by rewrite list_lookup_middle|done].
  - assert (∀ j, j ∈ places ++ [length ips] → (j < length ips)%nat → j ∈ places) as Hin.
    { intros j [Hj| ->%list_elem_of_singleton]%elem_of_app; [done|lia]. }
    intros i x [Hi|[-> ->]]%taken_last.
    + pose proof (lookup_lt_Some _ _ _ Hi) as Hlt. transitivity (i ∈ places).
      { split; [intros ?; by apply Hin|intros ?; apply elem_of_app; by left]. }
      rewrite (Hc i x Hi). split; intros Hall j a Hj Hji Ha.
      * apply Hin in Hj; [|lia]. apply (Hall j a Hj Hji). exact (proj1 (taken_old _ _ _ _ _ _ Ht Hj) Ha).
      * apply (Hall j a); [apply elem_of_app; by left|done|by rewrite (taken_old _ _ _ _ _ _ Ht Hj)].
    + split; [|intros _; apply elem_of_app; right; by left]. intros _ j a Hj Hji Ha.
      exact (Hex j a (Hin j Hj Hji) Ha).
Qed.
Lemma foldl_add_hop ips : first_seen ips (foldl add_hop [] ips).
Proof.
  induction ips as [|ip ips IH] using rev_ind.
  - exists []. split_and!; [constructor..|]. by intros i ip ?%list_elem_of_lookup_2%elem_of_nil.
  - rewrite foldl_app. cbn [foldl]. generalize dependent (foldl add_hop [] ips). intros hops [places Ht]. unfold add_hop.
    destruct (existsb _ _) eqn:Hex; eexists; [exact (taken_skip _ _ _ _ Ht Hex)|exact (taken_snoc _ _ _ _ Ht Hex)].
Qed.

(** No two of them are equal. *)
Lemma first_seen_distinct ips hops : first_seen ips hops → distinct hops.
Proof.
  intros (places & Hs & Hl & Hc) i j a b Hij Ha Hb.
  destruct (Forall2_lookup_r _ _ _ _ _ Hl Ha) as (p & Hp & Hpa), (Forall2_lookup_r _ _ _ _ _ Hl Hb) as (q & Hq & Hqb).
  apply (proj1 (Hc q b Hqb) (list_elem_of_lookup_2 _ _ _ Hq) p a (list_elem_of_lookup_2 _ _ _ Hp)); [|done].
  clear -Hs Hij Hp Hq. revert i j Hij Hp Hq. induction Hs as [|x l _ IH Hx]; intros i j Hij Hp Hq; [done|].
  destruct j as [|j]; [lia|]. cbn in Hq. destruct i as [|i]; [|apply (IH i j); [lia|done..]].
  injection Hp as ->. rewrite list.Forall_forall in Hx. exact (Hx q (list_elem_of_lookup_2 _ _ _ Hq)).
Qed.

(** The loop accepts addresses only, and takes those that count. *)
Lemma addNexthops_Ok hops l hops' :
  addNexthops hops l = Ok hops' ↔
  Forall (λ h, ParseIP (Nexthop.IP h) ≠ nilIP) l ∧ hops' = foldl add_hop hops (counted l).
Proof.
  unfold counted. revert hops. induction l as [|h l IH]; intros hops; cbn [addNexthops]; cbv zeta.
  { split; [by intros [= <-]|by intros [_ ->]]. }
  rewrite list.Forall_cons. case_bool_decide as Hip; [by split; [|intros [[? _] _]]|].
  destruct (_ && _) eqn:Hlocal.
  - rewrite andb_true_iff !bool_decide_eq_true in Hlocal. rewrite filter_cons_False; [|by unfold counts; tauto].
    rewrite IH. tauto.
  - rewrite filter_cons_True; [|intros Hc; rewrite -Bool.not_true_iff_false andb_true_iff !bool_decide_eq_true in Hlocal; tauto].
    rewrite fmap_cons. cbn [foldl]. unfold add_hop at 2. destruct (existsb _ hops); rewrite IH; tauto.
Qed.

(** What a route of the result says of the routes of its key: all their next hops are
    addresses, and those that count are in the route, in the order they appear, each once. *)
Definition route_of (dest : IPNet) (frrRoutes : list FRRRoute.t) (r : Route.t) : Prop :=
  Route.Destination r = dest
  ∧ Forall (λ h, ParseIP (Nexthop.IP h) ≠ nilIP) (concat (FRRRoute.Nexthops <$> frrRoutes))
  ∧ first_seen (counted (concat (FRRRoute.Nexthops <$> frrRoutes))) (Route.NextHops r)
  ∧ Route.LocalPref r = default 0 (FRRRoute.LocalPref <$> list.last frrRoutes)
  ∧ Route.Origin r = default "" (FRRRoute.Origin <$> list.last frrRoutes).

Lemma addNexthops_app hops l1 l2 :
  addNexthops hops (l1 ++ l2) = (hops' ← addNexthops hops l1; addNexthops hops' l2).
Proof.
  revert hops. induction l1 as [|h l1 IH]; intros hops; cbn; [done|].
  repeat case_match; auto.
Qed.

Lemma addRoutes_spec r l r' :
  addRoutes r l = Ok r' →
  Route.Destination r' = Route.Destination r
  ∧ addNexthops (Route.NextHops r) (concat (FRRRoute.Nexthops <$> l)) = Ok (Route.NextHops r')
  ∧ Route.LocalPref r' = default (Route.LocalPref r) (FRRRoute.LocalPref <$> list.last l)
  ∧ Route.Origin r' = default (Route.Origin r) (FRRRoute.Origin <$> list.last l).
Proof.
  revert r. induction l as [|n l IH]; intros r; cbn [addRoutes].
  { intros [= <-]. done. }
  intros (hops & Hh & (Hd & Hn & Hl & Ho)%IH)%res_bind_Ok. rewrite Hd Hl Ho.
  split; [done|]. split; [by rewrite /= addNexthops_app Hh|].
  rewrite list.last_cons. by destruct (list.last l).
Qed.

Lemma parseRoute_Ok k l key r :
  parseRoute k l = Ok (key, r) →
  ∃ ip dest, ParseCIDR k = Ok (ip, dest) ∧ key = IP_String ip ∧ route_of dest l r.
Proof.
  unfold parseRoute. intros Hr. inv_ok. destruct x as [ip dest]. inv_ok.
  match goal with H : addRoutes _ _ = _ |- _ => apply addRoutes_spec in H as (? & ? & ? & ?) end.
  match goal with H : addNexthops _ _ = _ |- _ => apply addNexthops_Ok in H as [? Hhops] end.
  exists ip, dest. split; [done|]. split; [done|]. split_and!; [done..| |done|done].
  rewrite Hhops. apply foldl_add_hop.
Qed.

(** Later pairs replace earlier ones with their key. *)
Lemma foldl_insert_lookup {A} (l : list (string * A)) (m : gmap string A) k x :
  foldl (λ res e, <[e.1 := e.2]> res) m l !! k = Some x →
  (k, x) ∈ l ∨ (m !! k = Some x ∧ k ∉ l.*1).
Proof.
  revert m. induction l as [|[k' y] l IH]; intros m; cbn; [set_solver|].
  intros [?|[Hk Hl]]%IH; [by left; right|]. rewrite lookup_insert_Some in Hk.
  destruct Hk as [[-> ->]|[Hne Hk]]; [by left; left|right; set_solver].
Qed.

Lemma foldl_insert_is_Some {A} (l : list (string * A)) (m : gmap string A) k :
  k ∈ l.*1 ∨ is_Some (m !! k) → is_Some (foldl (λ res e, <[e.1 := e.2]> res) m l !! k).
Proof.
  revert m. induction l as [|[k' y] l IH]; intros m; cbn; [set_solver|].
  rewrite elem_of_cons. intros Hk. apply IH. destruct (decide (k' = k)) as [->|Hne].
  - right. by rewrite lookup_insert_eq.
  - destruct Hk as [[->|Hk]|Hk]; [done|by left|]. right. by rewrite lookup_insert_ne.
Qed.

Section routes.
Context `{MapRangeLaws}.
Variable unmarshal : string → res IPInfo.t.

Lemma ParseRoutes_inv s res :
  ParseRoutes unmarshal s = Ok res →
  ∃ info parsed, unmarshal s = Ok info
    ∧ Forall2 (λ (e : string * list FRRRoute.t) p, parseRoute e.1 e.2 = Ok p)
        (range_map (IPInfo.Routes info)) parsed
    ∧ res = foldl (λ res e, <[e.1 := e.2]> res) ∅ parsed.
Proof.
  unfold ParseRoutes. intros Hr. inv_ok.
  match goal with H : traverse _ _ = Ok ?p |- _ => apply traverse_Ok in H; by exists x, p end.
Qed.

Lemma range_In {A} (m : gmap string A) k x : (k, x) ∈ range_map m ↔ m !! k = Some x.
Proof. by rewrite range_perm elem_of_map_to_list. Qed.

(** C36. Reading the routes: every route of the result comes from a destination of the
    document under the address written there; its next hops are the addresses of
    that destination's entries, in the order they appear, each once - an address is left
    out exactly when an equal one was taken before it -, without the link-local ones of
    IPv6; preference and origin are those of the last entry.
    Every destination is a network and its address is a key of the result. *)
Theorem ParseRoutes_spec s res :
  ParseRoutes unmarshal s = Ok res →
  ∃ info, unmarshal s = Ok info
    ∧ (∀ key r, res !! key = Some r →
         ∃ k l ip dest, IPInfo.Routes info !! k = Some l ∧ ParseCIDR k = Ok (ip, dest)
           ∧ key = IP_String ip ∧ route_of dest l r ∧ distinct (Route.NextHops r))
    ∧ (∀ k l, IPInfo.Routes info !! k = Some l →
         ∃ ip dest, ParseCIDR k = Ok (ip, dest) ∧ is_Some (res !! IP_String ip)).
Proof.
  intros (info & parsed & Hinfo & Hall & ->)%ParseRoutes_inv. exists info. split; [done|]. split.
  - intros key r [Hin|[? _]]%foldl_insert_lookup; [|done].
    apply list_elem_of_lookup in Hin as [i Hi].
    destruct (Forall2_lookup_r _ _ _ _ _ Hall Hi) as ([k l] & Hk & Hp).
    apply list_elem_of_lookup_2, range_In in Hk.
    apply parseRoute_Ok in Hp as (ip & dest & Hc & -> & Hr).
    exists k, l, ip, dest. split_and!; [done..|]. destruct Hr as (_ & _ & Ha & _).
    exact (first_seen_distinct _ _ Ha).
  - intros k l Hk%range_In. apply list_elem_of_lookup in Hk as [i Hi].
    destruct (Forall2_lookup_l _ _ _ _ _ Hall Hi) as ([key r] & Hj & Hp).
    apply parseRoute_Ok in Hp as (ip & dest & Hc & -> & _). exists ip, dest. split; [done|].
    apply foldl_insert_is_Some. left. apply list_elem_of_fmap. eexists (_, r). split; [done|].
    exact (list_elem_of_lookup_2 _ _ _ Hj).
Qed.

(** Two destinations with the same address and different masks are one key of the
    result: one of the two is lost, which one depends on the order of the map. *)
Theorem ParseRoutes_loses s info res k1 k2 l1 l2 ip d1 d2 :
  unmarshal s = Ok info → ParseRoutes unmarshal s = Ok res →
  IPInfo.Routes info !! k1 = Some l1 → IPInfo.Routes info !! k2 = Some l2 → k1 ≠ k2 →
  ParseCIDR k1 = Ok (ip, d1) → ParseCIDR k2 = Ok (ip, d2) →
  (size res < size (IPInfo.Routes info))%nat.
Proof.
  intros Hinfo (info' & parsed & Hinfo' & Hall & ->)%ParseRoutes_inv Hk1 Hk2 Hne Hp1 Hp2.
  assert (info' = info) as -> by congruence.
  assert (dom (foldl (λ res e, <[e.1 := e.2]> res) (∅ : gmap string Route.t) parsed)
          ⊆ list_to_set (C:=gset string) parsed.*1) as Hdom.
  { intros key [r Hr]%elem_of_dom. rewrite elem_of_list_to_set.
    apply foldl_insert_lookup in Hr as [Hin|[? _]]; [|done].
    apply list_elem_of_fmap. by exists (key, r). }
  apply subseteq_size in Hdom. rewrite size_dom in Hdom.
  assert (¬ NoDup parsed.*1) as Hdup.
  { intros Hnd. apply range_In, list_elem_of_lookup in Hk1 as [i Hi], Hk2 as [j Hj].
    destruct (Forall2_lookup_l _ _ _ _ _ Hall Hi) as ([key1 r1] & Hi' & Hr1).
    destruct (Forall2_lookup_l _ _ _ _ _ Hall Hj) as ([key2 r2] & Hj' & Hr2).
    apply parseRoute_Ok in Hr1 as (? & ? & Hc1 & -> & _), Hr2 as (? & ? & Hc2 & -> & _).
    cbn in Hc1, Hc2. rewrite Hp1 in Hc1. rewrite Hp2 in Hc2. injection Hc1 as <- <-. injection Hc2 as <- <-.
    assert (i = j) as ->; [|congruence].
    eapply (NoDup_lookup parsed.*1); [done|rewrite list_lookup_fmap Hi' //|rewrite list_lookup_fmap Hj' //]. }
  assert (length parsed = size (IPInfo.Routes info)) as Hlen.
  { rewrite -(Forall2_length Hall) range_perm. apply length_map_to_list. }
  assert (size (list_to_set (C:=gset string) parsed.*1) < length parsed)%nat; [|lia].
  rewrite -(length_fmap fst). by apply size_list_lt.
Qed.
End routes.

(** ** VRFs *)
Lemma string_le_cons a s b t :
  string_le (String a s) (String b t) ↔
  (Ascii.N_of_ascii a < Ascii.N_of_ascii b)%N ∨ a = b ∧ string_le s t.
Proof.
  unfold string_le, Strings.String.leb. cbn [Strings.String.compare]. unfold Ascii.compare.
  destruct (N.compare_spec (Ascii.N_of_ascii a) (Ascii.N_of_ascii b)) as [Heq|Hlt|Hgt].
  - assert (a = b) as ->.
    { rewrite -(Ascii.ascii_N_embedding a) -(Ascii.ascii_N_embedding b). by rewrite Heq. }
    split; [by right|]. intros [?|[_ ?]]; [lia|done].
  - split; [by left|done].
  - split; [done|]. intros [?|[-> _]]; lia.
Qed.

#[export] Instance string_le_trans : Transitive string_le.
Proof.
  intros s. induction s as [|a s IH]; intros [|b t] [|c u]; try done.
  rewrite !string_le_cons. intros [?|[-> H1]] [?|[-> H2]]; [left; lia|by left|by left|right].
  split; [done|exact (IH _ _ H1 H2)].
Qed.
#[export] Instance string_le_total : Total string_le.
Proof. intros s t. apply Strings.String.leb_total. Qed.
#[export] Instance string_le_antisymm : AntiSymm eq string_le.
Proof. intros s t. apply Strings.String.leb_antisym. Qed.

Section vrfs.
Context `{MapRangeLaws}.
Variable unmarshal : string → res (gmap string unit).

(** Reading the VRFs gives the keys of the document, each once, in the order of
    their bytes: one list, whatever order the map is visited in. *)
Theorem ParseVRFs_spec s l :
  ParseVRFs unmarshal s = Ok l ↔
  ∃ m, unmarshal s = Ok m ∧ l ≡ₚ (map_to_list m).*1
    ∧ Stdlib.Sorting.Sorted.StronglySorted string_le l.
Proof.
  unfold ParseVRFs. destruct (unmarshal s) as [m|e|]; cbn; [|by split; [|intros (? & ? & _)]..].
  assert (stdpp.sorting.merge_sort string_le (range_map m).*1 ≡ₚ (map_to_list m).*1) as Hp.
  { rewrite stdpp.sorting.merge_sort_Permutation. by rewrite range_perm. }
  pose proof (stdpp.sorting.StronglySorted_merge_sort string_le (range_map m).*1) as Hs.
  split.
  - intros [= <-]. by exists m.
  - intros (m' & [= <-] & Hl & Hsl). f_equal.
    apply (stdpp.sorting.StronglySorted_unique string_le); [done..|]. rewrite Hp. by symmetry.
Qed.
End vrfs.

(** ** Witnesses: maps are visited in the order of their representation *)
#[export] Instance range_in_order : MapRange := λ A, map_to_list.
#[export] Instance range_in_order_laws : MapRangeLaws.
Proof. by intros A m. Qed.

Definition sample_stats : MessageStats.t := MessageStats.mk 1 2 3 4 5 6 7 8 9 10.
Definition sample_peer : FRRNeighbor.t :=
  FRRNeighbor.mk 64512 64513 "0.0.0.0" 4 "Established" 179 sample_stats "default"
    {[ "ipv4Unicast" := AddressFamily.mk 3 2; "ipv6Unicast" := AddressFamily.mk 5 1 ]}.
Definition sample_peers (_ : string) : res (gmap string FRRNeighbor.t) :=
  Ok {[ "192.168.1.2" := sample_peer ]}.

Definition sample_hop (ip : string) : Nexthop.t := Nexthop.mk ip "global".
Definition sample_routes (_ : string) : res IPInfo.t :=
  Ok (IPInfo.mk
    {[ "10.0.0.0/24" := [FRRRoute.mk true "p" 100 "IGP" [sample_hop "192.168.1.2"; sample_hop "192.168.1.2"]];
       "10.0.0.0/16" := [FRRRoute.mk true "q" 200 "EGP" [sample_hop "192.168.1.3"]] ]}).

Lemma ParseNeighbours_spec_witness :
  ∃ l, ParseNeighbours sample_peers "" = Ok l
    ∧ l ≡ₚ [Neighbor.mk (ParseIP "192.168.1.2") "" true "64513" "64512" 8 3 179 "0.0.0.0" sample_stats].
Proof.
  apply (ParseNeighbours_spec sample_peers ""). eexists. split; [reflexivity|]. split.
  - apply map_Forall_singleton. vm_compute. discriminate.
  - vm_compute. reflexivity.
Defined.

Lemma ParseNeighbour_agrees_witness :
  ParseNeighbour sample_peers ""
  = Ok (Neighbor.mk (ParseIP "192.168.1.2") "" true "64513" "64512" 8 3 179 "0.0.0.0" sample_stats).
Proof. apply (ParseNeighbour_agrees sample_peers ""). vm_compute. reflexivity. Defined.

Lemma sample_routes_parse : ∃ res, ParseRoutes sample_routes "" = Ok res.
Proof. eexists. vm_compute. reflexivity. Qed.

Lemma ParseRoutes_spec_witness :
  ∃ res, ParseRoutes sample_routes "" = Ok res ∧ is_Some (res !! "10.0.0.0").
Proof.
  destruct sample_routes_parse as [res Hres]. exists res. split; [exact Hres|].
  destruct (ParseRoutes_spec sample_routes "" res Hres) as (info & Hinfo & _ & Hall).
  assert (is_Some (IPInfo.Routes info !! "10.0.0.0/24")) as [l Hl].
  { injection Hinfo as <-. eexists. vm_compute. reflexivity. }
  apply Hall in Hl as (ip & dest & Hc & Hsome).
  assert (ip = v4InV6Prefix ++ [10; 0; 0; 0]) as ->; [|exact Hsome].
  clear -Hc. apply (f_equal (λ r, match r with Ok (i, _) => i | _ => [] end)) in Hc.
  rewrite -Hc. vm_compute. reflexivity.
Defined.

Lemma ParseRoutes_loses_witness :
  ∃ res info, ParseRoutes sample_routes "" = Ok res ∧ sample_routes "" = Ok info
    ∧ (size res < size (IPInfo.Routes info))%nat.
Proof.
  destruct sample_routes_parse as [res Hres].
  destruct (sample_routes "") as [info|e|] eqn:Hinfo; [|discriminate..].
  exists res, info. split; [exact Hres|]. split; [reflexivity|].
  assert (IPInfo.Routes info = match sample_routes "" with Ok i => IPInfo.Routes i | _ => ∅ end)
    as Hr by (by rewrite Hinfo).
  eapply (ParseRoutes_loses sample_routes "" info res "10.0.0.0/24" "10.0.0.0/16" _ _
    (v4InV6Prefix ++ [10; 0; 0; 0])); [exact Hinfo|exact Hres|..].
  - rewrite Hr. vm_compute. reflexivity.
  - rewrite Hr. vm_compute. reflexivity.
  - discriminate.
  - vm_compute. reflexivity.
  - vm_compute. reflexivity.
Defined.

Lemma ParseVRFs_spec_witness :
  ParseVRFs (λ _, Ok {[ "red" := tt; "blue" := tt; "default" := tt ]}) "" = Ok ["blue"; "default"; "red"].
Proof.
  apply ParseVRFs_spec. eexists. split; [reflexivity|]. split.
  - apply NoDup_Permutation; [apply (bool_decide_unpack _); vm_compute; exact I..|].
    intros x. vm_compute. set_solver.
  - repeat constructor.
Defined.
