(* ===== verification/CopyTool.v ===== *)
(** * The copy tool (cmd/cp-tool)

    [CopyFile] copies a file over another one and gives it the same mode.  A path
    names a file (an inode), and two paths can name the same one: the calls of
    package [os] are a class whose laws say what they do to names and files. *)

From S2P Require Import Prelude GoStrings.
Local Open Scope Z_scope.

(** ** [filepath.Clean] *)
Fixpoint split_slash (s : string) : list string :=
  match s with
  | EmptyString => [""]
  | String c s =>
      if Ascii.eqb c "/"%char then "" :: split_slash s
      else match split_slash s with
           | x :: l => String c x :: l
           | [] => [String c ""]
           end
  end.

(** The elements kept so far, the last one first; [..] takes one away, is kept at
    the start of a relative path and dropped at the root. *)
Fixpoint clean_elements (rooted : bool) (kept : list string) (l : list string) : list string :=
  match l with
  | [] => reverse kept
  | x :: l =>
      if bool_decide (x = "") || bool_decide (x = ".") then clean_elements rooted kept l
      else if bool_decide (x = "..") then
        match kept with
        | y :: kept' =>
            if bool_decide (y = "..") then clean_elements rooted (".." :: kept) l
            else clean_elements rooted kept' l
        | [] => clean_elements rooted (if rooted then [] else [".."]) l
        end
      else clean_elements rooted (x :: kept) l
  end.

Fixpoint join_slash (l : list string) : string :=
  match l with
  | [] => ""
  | [x] => x
  | x :: l => x +:+ String "/" (join_slash l)
  end.

Definition Clean (path : string) : string :=
  let rooted := HasPrefix path "/" in
  let s := join_slash (clean_elements rooted [] (split_slash path)) in
  if rooted then String "/" s else if bool_decide (s = "") then "." else s.

Example Clean_examples :
  Clean <$> ["/bin//cp-tool"; "a/../../b/./c"; "/../x"; ""; "a/.."] =
  ["/bin/cp-tool"; "../b/c"; "/x"; "."; "."].
Proof. vm_compute. reflexivity. Qed.

(** ** The calls of package [os] *)
Class Os (W : Type) := {
  os_Open : string → go W Z;
  os_Stat : string → go W Z;
  os_Create : string → go W Z;
  io_Copy : Z → Z → go W Z;
  os_Chmod : string → Z → go W unit;
  os_Close : Z → go W unit }.

Section copy.
Context {W : Type} `{Os W}.

Definition CopyFile (src dst : string) : go W unit :=
  let srcFile := Clean src in
  let destFile := Clean dst in
  source ← on_errM (errorw "failed to open source file %s: %w" [srcFile]) (os_Open srcFile);
  deferring (λ w, (os_Close source w).2) (
    srcStat ← on_errM (errorw "failed to check stats for %s: %w" [srcFile]) (os_Stat srcFile);
    destination ← on_errM (errorw "failed to create destination file: %s: %w" [destFile])
      (os_Create destFile);
    deferring (λ w, (os_Close destination w).2) (
      _ ← on_errM (errorw "failed to copy %s to %s: %w" [srcFile; destFile])
            (io_Copy destination source);
      on_errM (λ _, errorf "failed to apply permission on %s" [destFile])
        (os_Chmod destFile srcStat))).

(** What [main] prints; it ends normally whatever happens. *)
Definition main (Args : list string) : go W (option error) :=
  match Args with
  | [_; sourceFile; destinationFile] =>
      r ← attempt (CopyFile sourceFile destinationFile);
      mret (match r with inl _ => None | inr err => Some err end)
  | _ => mret (Some (errorf "Please provide two command line arguments." []))
  end.
End copy.

(** ** What the calls promise

    A file has a content and permission bits; a path names a file by its inode
    number, an open handle is on a file at an offset. *)
Record File := mkFile { content : string; mode : Z }.
Record Disk := mkDisk {
  names : gmap string Z;
  inodes : gmap Z File;
  opened : gmap Z (Z * Z) }.

Definition set_inode (i : Z) (f : File) (d : Disk) : Disk :=
  mkDisk (names d) (<[i := f]> (inodes d)) (opened d).
Definition set_opened (o : gmap Z (Z * Z)) (d : Disk) : Disk := mkDisk (names d) (inodes d) o.
Definition open_handle (h i : Z) (d : Disk) : Disk := set_opened (<[h := (i, 0)]> (opened d)) d.
Definition named (d : Disk) (path : string) (i : Z) (f : File) : Prop :=
  names d !! path = Some i ∧ inodes d !! i = Some f.

Definition os_sat {W A} (disk : W → Disk) (m : go W A) (R : Disk → A → Disk → Prop) : Prop :=
  ∀ w a w', m w = (Ok a, w') → R (disk w) a (disk w').

(** [os.Create] empties a file that exists and makes one otherwise; nothing is said
    of calls that fail. *)
Inductive created (p : string) (d : Disk) (h : Z) : Disk → Prop :=
  | created_over i f :
      named d p i f →
      created p d h (open_handle h i (set_inode i (mkFile "" (mode f)) d))
  | created_new i m :
      names d !! p = None → inodes d !! i = None →
      created p d h (mkDisk (<[p := i]> (names d)) (<[i := mkFile "" m]> (inodes d))
                            (<[h := (i, 0)]> (opened d))).

Class OsLaws (W : Type) `{Os W} := {
  disk : W → Disk;
  Open_law p : os_sat disk (os_Open p) (λ d h d', ∃ i f,
    named d p i f ∧ opened d !! h = None ∧ d' = open_handle h i d);
  Stat_law p : os_sat disk (os_Stat p) (λ d m d', ∃ i f, named d p i f ∧ m = mode f ∧ d' = d);
  Create_law p : os_sat disk (os_Create p) (λ d h d', opened d !! h = None ∧ created p d h d');
  Copy_law to from : os_sat disk (io_Copy to from) (λ d n d', ∀ i j f g,
    opened d !! to = Some (i, 0) → opened d !! from = Some (j, 0) →
    inodes d !! i = Some f → inodes d !! j = Some g → content f = "" →
    ∃ o, d' = set_opened o (set_inode i (mkFile (content g) (mode f)) d));
  Chmod_law p m : os_sat disk (os_Chmod p m) (λ d _ d', ∃ i f, named d p i f
    ∧ d' = set_inode i (mkFile (content f) m) d);
  Close_law h w : ∃ o, disk (os_Close h w).2 = set_opened o (disk w) }.

Section copy_properties.
Context {W : Type} `{OsLaws W}.

(** The file at the destination, made or emptied, is the only one that changes. *)
Definition target (d : Disk) (p : string) (i : Z) : Prop :=
  (∃ f, named d p i f) ∨ (names d !! p = None ∧ inodes d !! i = None).

Lemma created_inv p d h d' :
  created p d h d' →
  ∃ i m, target d p i ∧ names d' = <[p := i]> (names d)
    ∧ inodes d' = <[i := mkFile "" m]> (inodes d) ∧ opened d' = <[h := (i, 0)]> (opened d).
Proof.
  intros [i f [Hn Hf]|i m Hn Hi].
  - exists i, (mode f). split_and!; [left; by exists f| |done..]. by rewrite insert_id.
  - exists i, m. split_and!; [by right|done..].
Qed.

Lemma CopyFile_run src dst w w' :
  CopyFile src dst w = (Ok tt, w') →
  ∃ i fs id, named (disk w) (Clean src) i fs ∧ target (disk w) (Clean dst) id
    ∧ names (disk w') = <[Clean dst := id]> (names (disk w))
    ∧ inodes (disk w') =
        <[id := mkFile (if decide (id = i) then "" else content fs)
                       (mode fs)]> (inodes (disk w)).
Proof.
  unfold CopyFile. intros Hr. inv_ok.
  apply deferring_Ok in Hr as (w1 & Hr & ->). inv_ok.
  apply deferring_Ok in Hr as (w2 & Hr & ->). inv_ok.
  rename x into hs, x1 into m, x3 into hd.
  repeat match goal with
  | E : os_Open _ _ = _ |- _ => apply Open_law in E as (i & fs & [Hi Hfs] & Hhs & E0)
  | E : os_Stat _ _ = _ |- _ => apply Stat_law in E as (i' & f' & [Hi' Hf'] & -> & E1)
  | E : os_Create _ _ = _ |- _ => apply Create_law in E as (Hhd & E2)
  | E : os_Chmod _ _ _ = _ |- _ => apply Chmod_law in E as (k & fk & [Hk Hfk] & E4)
  end.
  apply created_inv in E2 as (id & md & Htgt & En & Ei & Eo).
  rewrite E1 E0 /= in Hi' Hf' Hhd En Ei Eo Htgt. rewrite Hi in Hi'. injection Hi' as <-.
  rewrite Hfs in Hf'. injection Hf' as <-.
  set (g := if decide (id = i) then mkFile "" md else fs).
  assert (inodes (disk x4) !! i = Some g) as Hg.
  { rewrite Ei /g. destruct (decide (id = i)) as [->|Hne]; [by rewrite lookup_insert_eq|].
    by rewrite lookup_insert_ne. }
  assert (opened (disk x4) !! hs = Some (i, 0)) as Hs.
  { rewrite Eo lookup_insert_ne; [|intros ->; by rewrite lookup_insert_eq in Hhd].
    by rewrite lookup_insert_eq. }
  destruct (Copy_law hd hs _ _ _ H4 id i (mkFile "" md) g) as (o & E3);
    [by rewrite Eo lookup_insert_eq|done|by rewrite Ei lookup_insert_eq|done|done|].
  rewrite E3 /= En lookup_insert_eq in Hk. injection Hk as <-.
  rewrite E3 /= lookup_insert_eq in Hfk. injection Hfk as <-.
  destruct (Close_law hd w2) as (o1 & C1), (Close_law hs (os_Close hd w2).2) as (o2 & C2).
  exists i, fs, id. split_and!; [done|exact Htgt|..]; rewrite C2 C1 E4 E3 /=; [exact En|].
  rewrite Ei !insert_insert_eq /g. by destruct (decide (id = i)).
Qed.

(** C37. A copy that succeeds leaves the content and the mode of the source at the
    destination, whether the destination existed or not, provided they are not names
    of the same file; no other file and no other name changes, and the source keeps
    its content. *)
Theorem CopyFile_copies src dst w w' :
  CopyFile src dst w = (Ok tt, w') →
  names (disk w) !! Clean src ≠ names (disk w) !! Clean dst →
  ∃ i fs id, named (disk w) (Clean src) i fs ∧ id ≠ i
    ∧ named (disk w') (Clean dst) id (mkFile (content fs) (mode fs))
    ∧ inodes (disk w') !! i = Some fs
    ∧ (∀ p, p ≠ Clean dst → names (disk w') !! p = names (disk w) !! p)
    ∧ (∀ j, j ≠ id → inodes (disk w') !! j = inodes (disk w) !! j).
Proof.
  intros (i & fs & id & [Hi Hfs] & Htgt & En & Ei)%CopyFile_run Hne.
  assert (id ≠ i) as Hid.
  { intros ->. destruct Htgt as [(f & Hd & _)|[_ Hno]]; [by rewrite Hi Hd in Hne|].
    by rewrite Hfs in Hno. }
  exists i, fs, id. unfold named. rewrite En Ei. rewrite (decide_False _ _ Hid).
  split_and!; try done; try (by rewrite !lookup_insert_eq).
  - by rewrite lookup_insert_ne.
  - intros p Hp. rewrite lookup_insert_ne; congruence.
  - intros j Hj. rewrite lookup_insert_ne; congruence.
Qed.

(** When source and destination name one file, a run that succeeds has emptied it:
    creating the destination truncates the file before it is read. *)
Theorem CopyFile_same_file src dst w w' i fs :
  CopyFile src dst w = (Ok tt, w') →
  named (disk w) (Clean src) i fs →
  names (disk w) !! Clean dst = Some i →
  named (disk w') (Clean src) i (mkFile "" (mode fs)).
Proof.
  intros (i' & fs' & id & [Hi Hfs] & Htgt & En & Ei)%CopyFile_run [Hi' Hfs'] Hd.
  rewrite Hi in Hi'. injection Hi' as <-. rewrite Hfs in Hfs'. injection Hfs' as <-.
  assert (id = i') as -> by (destruct Htgt as [(f & Hd' & _)|[Hno _]]; congruence).
  unfold named. rewrite En Ei lookup_insert_eq decide_True //. split; [|done].
  destruct (decide (Clean src = Clean dst)) as [->|Hn]; [by rewrite lookup_insert_eq|].
  rewrite lookup_insert_ne; congruence.
Qed.
End copy_properties.

(** ** A world of files, in which the laws hold

    Handles are numbered upwards; the permissions of the process are not modelled. *)
Section disk_world.
Definition lookup_file (p : string) (d : Disk) : option (Z * File) :=
  i ← names d !! p; f ← inodes d !! i; Some (i, f).
Definition unused {A} (m : gmap Z A) : Z := fresh (dom m).

Definition disk_open (p : string) : go Disk Z := λ d,
  match lookup_file p d with
  | Some (i, _) => let h := unused (opened d) in (Ok h, open_handle h i d)
  | None => (Err (ExtErr "no such file or directory"), d)
  end.
Definition disk_create (p : string) : go Disk Z := λ d,
  let h := unused (opened d) in
  match names d !! p with
  | Some i =>
      match inodes d !! i with
      | Some f => (Ok h, open_handle h i (set_inode i (mkFile "" (mode f)) d))
      | None => (Err (ExtErr "stale file handle"), d)
      end
  | None =>
      let i := unused (inodes d) in
      (Ok h, mkDisk (<[p := i]> (names d)) (<[i := mkFile "" 420]> (inodes d))
                    (<[h := (i, 0)]> (opened d)))
  end.
Definition disk_copy (to from : Z) : go Disk Z := λ d,
  match opened d !! to, opened d !! from with
  | Some (i, oi), Some (j, oj) =>
      match inodes d !! i, inodes d !! j with
      | Some f, Some g =>
          let tail := Strings.String.substring (Z.to_nat oj) (Strings.String.length (content g)) (content g) in
          let n := Z.of_nat (Strings.String.length tail) in
          (Ok n, set_opened (<[from := (j, oj + n)]> (<[to := (i, oi + n)]> (opened d)))
                   (set_inode i (mkFile (Strings.String.substring 0 (Z.to_nat oi) (content f) +:+ tail)
                                        (mode f)) d))
      | _, _ => (Err (ExtErr "stale file handle"), d)
      end
  | _, _ => (Err (ExtErr "file already closed"), d)
  end.

#[export] Instance disk_os : Os Disk := {
  os_Open := disk_open;
  os_Stat p d := match lookup_file p d with
                 | Some (_, f) => (Ok (mode f), d)
                 | None => (Err (ExtErr "no such file or directory"), d)
                 end;
  os_Create := disk_create;
  io_Copy := disk_copy;
  os_Chmod p m d := match lookup_file p d with
                    | Some (i, f) => (Ok tt, set_inode i (mkFile (content f) m) d)
                    | None => (Err (ExtErr "no such file or directory"), d)
                    end;
  os_Close h d := (Ok tt, set_opened (delete h (opened d)) d) }.

Lemma lookup_file_named p d i f : lookup_file p d = Some (i, f) ↔ named d p i f.
Proof.
  unfold lookup_file, named. destruct (names d !! p) as [j|]; cbn; [|by split; [|intros []]].
  destruct (inodes d !! j) as [g|] eqn:Hj; cbn; split; intros Hr;
    [by injection Hr as <- <-| |done|]; destruct Hr as [[= ->] Hf]; congruence.
Qed.
Lemma unused_free {A} (m : gmap Z A) : m !! unused m = None.
Proof. apply not_elem_of_dom, is_fresh. Qed.
Lemma substring_all s : Strings.String.substring 0 (Strings.String.length s) s = s.
Proof. induction s as [|c s IH]; [done|]. by rewrite /= IH. Qed.

#[export] Instance disk_laws : OsLaws Disk.
Proof.
  refine {| disk := id |}.
  - intros p d h d'. cbn. unfold disk_open. destruct (lookup_file p d) as [[i f]|] eqn:E; [|done].
    intros Hr. injection Hr as <- <-. apply lookup_file_named in E. exists i, f.
    split_and!; [done|apply unused_free|done].
  - intros p d m d'. cbn. destruct (lookup_file p d) as [[i f]|] eqn:E; [|done].
    intros Hr. injection Hr as <- <-. apply lookup_file_named in E. by exists i, f.
  - intros p d h d'. cbn. unfold disk_create. destruct (names d !! p) as [i|] eqn:Ep.
    + destruct (inodes d !! i) as [f|] eqn:Ei; [|done]. intros Hr. injection Hr as <- <-.
      split; [apply unused_free|]. by constructor.
    + intros Hr. injection Hr as <- <-. split; [apply unused_free|].
      constructor; [done|apply unused_free].
  - intros to from d n d'. cbn. unfold disk_copy. intros Hr i j f g Ht Hf Hi Hj Hc.
    rewrite Ht Hf Hi Hj in Hr. injection Hr as _ <-. eexists.
    change (Z.to_nat 0) with 0%nat. rewrite substring_all Hc. done.
  - intros p m d [] d'. cbn. destruct (lookup_file p d) as [[i f]|] eqn:E; [|done].
    intros Hr. injection Hr as <-. apply lookup_file_named in E. by exists i, f.
  - intros h d. by eexists.
Defined.
End disk_world.

(** *** Witnesses *)
Definition sample_disk : Disk :=
  mkDisk {["/bin/cp-tool" := 1; "/out/tool" := 2; "/out/link" := 1]}
         {[1 := mkFile "ELF" 493; 2 := mkFile "old version" 420]} ∅.
Definition copied (dst : string) : Disk := (CopyFile "/bin//cp-tool" dst sample_disk).2.
Lemma copied_ok dst :
  dst = "/out/./tool" ∨ dst = "/out/link" →
  CopyFile "/bin//cp-tool" dst sample_disk = (Ok tt, copied dst).
Proof. by intros [-> | ->]; vm_compute. Qed.

Lemma CopyFile_copies_witness :
  CopyFile "/bin//cp-tool" "/out/./tool" sample_disk = (Ok tt, copied "/out/./tool")
  ∧ ∃ i fs id, named sample_disk (Clean "/bin//cp-tool") i fs ∧ id ≠ i
    ∧ named (copied "/out/./tool") (Clean "/out/./tool") id (mkFile (content fs) (mode fs))
    ∧ inodes (copied "/out/./tool") !! i = Some fs
    ∧ (∀ p, p ≠ Clean "/out/./tool" → names (copied "/out/./tool") !! p = names sample_disk !! p)
    ∧ (∀ j, j ≠ id → inodes (copied "/out/./tool") !! j = inodes sample_disk !! j).
Proof.
  assert (CopyFile "/bin//cp-tool" "/out/./tool" sample_disk = (Ok tt, copied "/out/./tool")) as Hr
    by (apply copied_ok; by left).
  split; [exact Hr|]. refine (CopyFile_copies _ _ _ _ Hr _). by vm_compute.
Defined.

Lemma CopyFile_same_file_witness :
  CopyFile "/bin//cp-tool" "/out/link" sample_disk = (Ok tt, copied "/out/link")
  ∧ named (copied "/out/link") (Clean "/bin//cp-tool") 1 (mkFile "" 493).
Proof.
  assert (CopyFile "/bin//cp-tool" "/out/link" sample_disk = (Ok tt, copied "/out/link")) as Hr
    by (apply copied_ok; by right).
  split; [exact Hr|].
  refine (CopyFile_same_file _ _ _ _ 1 (mkFile "ELF" 493) Hr _ _); [split; reflexivity|reflexivity].
Defined.
