(* ===== verification/Ns.v ===== *)
(** * Network namespaces and threads (internal/ns/ns_linux.go)

    The package hands out objects that stand for network namespaces and runs functions
    inside of one.  A namespace belongs to a thread, and the runtime moves goroutines
    between threads; what the package is about is that no thread is left behind in a
    wrong namespace.  The objects are in a heap (they are shared and mutable), the
    calls of the kernel are a class with laws on the threads, and the runtime's
    threads are part of what can be seen of the world. *)

From S2P Require Import Prelude GoStrings.
Local Open Scope Z_scope.

(** ** Objects *)

(** [os.File]: the descriptor and the name it was opened with. *)
Record File := mkFile { FileFd : Z; FileName : string }.
Module netNS.
Record t := mk { file : File; closed : bool }.
End netNS.

(** A [NetNS] is a pointer to such an object. *)
Notation NetNS := positive.
Notation Heap := (gmap positive netNS.t).

(** ** The kernel and the runtime *)
Class NsOs (W : Type) := {
  Statfs : string → go W Z;
  IsNotExist : error → bool;
  Open : string → go W Z;
  File_Close : Z → go W unit;
  Getpid : go W Z;
  Gettid : go W Z;
  Setns : Z → Z → go W unit;
  Unshare : Z → go W unit;
  LockOSThread : go W unit;
  UnlockOSThread : go W unit;
  (** A new goroutine gets a thread; it ends, and the one that waits for it resumes
      (on the thread given, if it is locked to it). *)
  goroutine_start : W → W;
  goroutine_end : Z → W → W;
  (** The thread the calling goroutine is on. *)
  on_thread : W → Z }.

Definition NSFS_MAGIC : Z := 1853056627.
Definition PROCFS_MAGIC : Z := 40864.
Definition CLONE_NEWNET : Z := 1073741824.

Section ns.
Context {W : Type} `{NsOs W}.
Notation State := (Heap * W)%type.

Definition os {A} (m : go W A) : go State A := λ s, let '(r, w) := m s.2 in (r, (s.1, w)).
Definition new_object (o : netNS.t) : go State NetNS := λ s,
  let l := fresh (dom s.1) in (Ok l, (<[l := o]> s.1, s.2)).
Definition object (ns : NetNS) : go State netNS.t := λ s,
  match s.1 !! ns with Some o => (Ok o, s) | None => (Panic, s) end.
Definition store (ns : NetNS) (o : netNS.t) : go State unit := λ s, (Ok tt, (<[ns := o]> s.1, s.2)).

(** [go func() { defer wg.Done(); .. }(); wg.Wait()] *)
Definition go_and_wait {A} (body : go State A) : go State A := λ s,
  let '(r, s') := body (s.1, goroutine_start s.2) in
  (r, (s'.1, goroutine_end (on_thread s.2) s'.2)).

(** ** The functions

    Of the messages of the two error types only the path is kept, and a panic in a
    goroutine (which ends the process) is the result of the whole. *)
Definition errorIfClosed (ns : NetNS) : go State unit :=
  o ← object ns;
  if netNS.closed o then fail (errorf "%q has already been closed" [FileName (netNS.file o)])
  else mret tt.

Definition Path (ns : NetNS) : go State string :=
  o ← object ns; mret (FileName (netNS.file o)).
Definition Fd (ns : NetNS) : go State Z :=
  o ← object ns; mret (FileFd (netNS.file o)).

Definition Close (ns : NetNS) : go State unit :=
  _ ← errorIfClosed ns;
  o ← object ns;
  _ ← on_errM (λ _, errorf "Failed to close %q: %v" [FileName (netNS.file o)])
        (os (File_Close (FileFd (netNS.file o))));
  store ns (netNS.mk (netNS.file o) true).

Definition Set_ (ns : NetNS) : go State unit :=
  _ ← errorIfClosed ns;
  fd ← Fd ns;
  o ← object ns;
  on_errM (λ _, errorf "Error switching to ns %v: %v" [FileName (netNS.file o)])
    (os (Setns fd CLONE_NEWNET)).

Definition IsNSorErr (nspath : string) : go State unit :=
  stat ← attempt (os (Statfs nspath));
  match stat with
  | inr err =>
      if IsNotExist err then fail (NSPathNotExistErr ("failed to Statfs " +:+ nspath))
      else fail (errorf "failed to Statfs %q: %v" [nspath])
  | inl type =>
      if (type =? PROCFS_MAGIC) || (type =? NSFS_MAGIC) then mret tt
      else fail (NSPathNotNSErr ("unknown FS magic on " +:+ nspath))
  end.

Definition GetNS (nspath : string) : go State NetNS :=
  _ ← IsNSorErr nspath;
  fd ← os (Open nspath);
  new_object (netNS.mk (mkFile fd nspath) false).

Definition thread_path (pid tid : Z) : string :=
  "/proc/" +:+ Itoa pid +:+ "/task/" +:+ Itoa tid +:+ "/ns/net".
Definition getCurrentThreadNetNSPath : go State string :=
  pid ← os Getpid;
  tid ← os Gettid;
  mret (thread_path pid tid).

Definition getCurrentNSNoLock : go State NetNS :=
  path ← getCurrentThreadNetNSPath;
  GetNS path.

Definition GetCurrentNS : go State NetNS :=
  _ ← os LockOSThread;
  deferring (λ s, (os UnlockOSThread s).2) getCurrentNSNoLock.

(** Switching back: the thread is only unlocked when that succeeds. *)
Definition switchBack (threadNS : NetNS) : go State unit :=
  _ ← Set_ threadNS; os UnlockOSThread.

Definition containedCall (ns : NetNS) (toRun : NetNS → go State unit) (hostNS : NetNS)
    : go State unit :=
  threadNS ← on_errM (λ _, errorf "failed to open current netns: %v" []) getCurrentNSNoLock;
  deferring (λ s, (Close threadNS s).2) (
    name ← Path ns;
    _ ← on_errM (λ _, errorf "error switching to ns %v: %v" [name]) (Set_ ns);
    deferring (λ s, (switchBack threadNS s).2) (toRun hostNS)).

Definition Do (ns : NetNS) (toRun : NetNS → go State unit) : go State unit :=
  _ ← errorIfClosed ns;
  hostNS ← on_errM (λ _, errorf "Failed to open current namespace: %v" []) GetCurrentNS;
  deferring (λ s, (Close hostNS s).2) (
    go_and_wait (_ ← os LockOSThread; containedCall ns toRun hostNS)).

Definition TempNetNS : go State NetNS :=
  go_and_wait (
    _ ← os LockOSThread;
    threadNS ← on_errM (λ _, errorf "failed to open current namespace: %v" []) getCurrentNSNoLock;
    deferring (λ s, (Close threadNS s).2) (
      _ ← os (Unshare CLONE_NEWNET);
      tempNS ← attempt getCurrentNSNoLock;
      _ ← attempt (switchBack threadNS);
      match tempNS with inl ns => mret ns | inr err => fail err end)).

Definition WithNetNSPath (nspath : string) (toRun : NetNS → go State unit) : go State unit :=
  ns ← GetNS nspath;
  deferring (λ s, (Close ns s).2) (Do ns toRun).
End ns.

(** ** What can be seen of the process *)
Record OsThread := mkThread { t_ns : Z; t_locks : Z }.

(** [home] is the namespace new threads start in; [open_ns] are the namespaces of the
    open descriptors. *)
Record Proc := mkProc {
  pid : Z;
  home : Z;
  threads : gmap Z OsThread;
  running : Z;
  open_ns : gmap Z Z }.

Definition set_threads (m : gmap Z OsThread) (p : Proc) : Proc :=
  mkProc (pid p) (home p) m (running p) (open_ns p).
Definition set_open (m : gmap Z Z) (p : Proc) : Proc :=
  mkProc (pid p) (home p) (threads p) (running p) m.
(** The running thread changes. *)
Definition on_running (f : OsThread → OsThread) (p : Proc) : Proc :=
  set_threads (alter f (running p) (threads p)) p.
Definition enter_ns (n : Z) (th : OsThread) : OsThread := mkThread n (t_locks th).
Definition lock (th : OsThread) : OsThread := mkThread (t_ns th) (t_locks th + 1).
Definition unlock (th : OsThread) : OsThread := mkThread (t_ns th) (Z.max 0 (t_locks th - 1)).

(** A goroutine starts on a thread that nothing is locked to, or on a new one. *)
Inductive started (p : Proc) : Proc → Prop :=
  | started_idle t n :
      threads p !! t = Some (mkThread n 0) →
      started p (mkProc (pid p) (home p) (threads p) t (open_ns p))
  | started_new t :
      threads p !! t = None →
      started p (mkProc (pid p) (home p) (<[t := mkThread (home p) 0]> (threads p)) t (open_ns p)).

(** A thread whose goroutine ends while locked to it dies.  The waiting goroutine is
    on its own thread, if locked to it, or on any idle or new one. *)
Definition without_locked (p : Proc) : gmap Z OsThread :=
  match threads p !! running p with
  | Some th => if t_locks th =? 0 then threads p else delete (running p) (threads p)
  | None => threads p
  end.
Inductive resumed (waiting : Z) (p : Proc) : Proc → Prop :=
  | resumed_locked th :
      without_locked p !! waiting = Some th → 0 < t_locks th →
      resumed waiting p (mkProc (pid p) (home p) (without_locked p) waiting (open_ns p))
  | resumed_idle t n :
      (∀ th, without_locked p !! waiting = Some th → t_locks th = 0) →
      without_locked p !! t = Some (mkThread n 0) →
      resumed waiting p (mkProc (pid p) (home p) (without_locked p) t (open_ns p))
  | resumed_new t :
      (∀ th, without_locked p !! waiting = Some th → t_locks th = 0) →
      without_locked p !! t = None →
      resumed waiting p (mkProc (pid p) (home p)
        (<[t := mkThread (home p) 0]> (without_locked p)) t (open_ns p)).

Definition psat {W A} (proc : W → Proc) (m : go W A) (R : Proc → res A → Proc → Prop) : Prop :=
  ∀ w r w', m w = (r, w') → R (proc w) r (proc w').

Class NsLaws (W : Type) `{NsOs W} := {
  proc : W → Proc;
  on_thread_law w : on_thread w = running (proc w);
  proc_running w : is_Some (threads (proc w) !! running (proc w));
  proc_locks w t th : threads (proc w) !! t = Some th → 0 ≤ t_locks th;
  Statfs_law path : psat proc (Statfs path) (λ p _ p', p' = p);
  Getpid_law : psat proc Getpid (λ p r p', r = Ok (pid p) ∧ p' = p);
  Gettid_law : psat proc Gettid (λ p r p', r = Ok (running p) ∧ p' = p);
  (** A thread's path leads to the namespace it is in. *)
  Open_law path : psat proc (Open path) (λ p r p',
    match r with
    | Ok fd => open_ns p !! fd = None ∧ ∃ n, p' = set_open (<[fd := n]> (open_ns p)) p
        ∧ ∀ t th, path = thread_path (pid p) t → threads p !! t = Some th → n = t_ns th
    | _ => p' = p
    end);
  File_Close_law fd : psat proc (File_Close fd) (λ p _ p',
    p' = p ∨ p' = set_open (delete fd (open_ns p)) p);
  Setns_law fd flags : psat proc (Setns fd flags) (λ p r p',
    match r with
    | Ok _ => ∃ n, open_ns p !! fd = Some n ∧ p' = on_running (enter_ns n) p
    | _ => p' = p
    end);
  Unshare_law flags : psat proc (Unshare flags) (λ p r p',
    match r with
    | Ok _ => ∃ n, (∀ t th, threads p !! t = Some th → t_ns th ≠ n)
        ∧ p' = on_running (enter_ns n) p
    | _ => p' = p
    end);
  Lock_law : psat proc LockOSThread (λ p r p', r = Ok tt ∧ p' = on_running lock p);
  Unlock_law : psat proc UnlockOSThread (λ p r p', r = Ok tt ∧ p' = on_running unlock p);
  start_law w : started (proc w) (proc (goroutine_start w));
  end_law waiting w : resumed waiting (proc w) (proc (goroutine_end waiting w)) }.

(** ** Runs *)
Section ns_specs.
Context {W : Type} `{NsLaws W}.
Notation State := (Heap * W)%type.

Definition see (s : State) : Heap * Proc := (s.1, proc s.2).
Definition wps {A} (m : go State A) (h : Heap) (p : Proc) (Q : res A → Heap → Proc → Prop) : Prop :=
  wpv see m (h, p) (λ r v, Q r v.1 v.2).

Lemma wps_os {A} (m : go W A) R h p Q :
  psat proc m R → (∀ r p', R p r p' → Q r h p') → wps (os m) h p Q.
Proof.
  intros Hm HQ [h0 w] r s' Hs. unfold os. destruct (m (h0, w).2) as [x w'] eqn:E.
  intros [= <- <-]. injection Hs as -> <-. apply HQ. exact (Hm _ _ _ E).
Qed.

Lemma wps_object ns h p (Q : res netNS.t → Heap → Proc → Prop) :
  (∀ o, h !! ns = Some o → Q (Ok o) h p) → (h !! ns = None → Q Panic h p) →
  wps (object ns) h p Q.
Proof.
  intros HS HN [h0 w] r s' Hs. injection Hs as -> <-. unfold object. cbn.
  destruct (h !! ns) eqn:E; intros [= <- <-]; [by apply HS|by apply HN].
Qed.

Lemma wps_ret {A} (a : A) h p (Q : res A → Heap → Proc → Prop) : Q (Ok a) h p → wps (mret a) h p Q.
Proof. intros HQ. by apply wpv_ret. Qed.
Lemma wps_fail {A} e h p (Q : res A → Heap → Proc → Prop) : Q (Err e) h p → wps (fail e) h p Q.
Proof. intros HQ. by apply wpv_fail. Qed.
Lemma wps_mono {A} (m : go State A) h p (Q Q' : res A → Heap → Proc → Prop) :
  wps m h p Q → (∀ r h' p', Q r h' p' → Q' r h' p') → wps m h p Q'.
Proof. intros Hm HQ. eapply wpv_mono; [exact Hm|]. intros r [h' p']. apply HQ. Qed.
Lemma wps_bind {A B} (m : go State A) (f : A → go State B) h p Q :
  wps m h p (λ r h' p', match r with
                        | Ok a => wps (f a) h' p' Q
                        | Err e => Q (Err e) h' p'
                        | Panic => Q Panic h' p'
                        end) → wps (m ≫= f) h p Q.
Proof. intros Hm. apply wpv_bind. eapply wpv_mono; [exact Hm|]. by intros [] [h' p']. Qed.
Lemma wps_on_err {A} g (m : go State A) h p Q :
  wps m h p (λ r, Q (on_err g r)) → wps (on_errM g m) h p Q.
Proof. intros Hm. by apply wpv_on_err. Qed.
Lemma wps_attempt {A} (m : go State A) h p Q :
  wps m h p (λ r h' p', match r with
                        | Ok a => Q (Ok (inl a)) h' p'
                        | Err e => Q (Ok (inr e)) h' p'
                        | Panic => Q Panic h' p'
                        end) → wps (attempt m) h p Q.
Proof. intros Hm. apply wpv_attempt. eapply wpv_mono; [exact Hm|]. by intros [] [h' p']. Qed.
Lemma wps_deferring {A B} (d : go State B) (m : go State A) h p Q :
  wps m h p (λ r h1 p1, wps d h1 p1 (λ _ h2 p2, Q r h2 p2)) →
  wps (deferring (λ s, (d s).2) m) h p Q.
Proof. intros Hm. apply wpv_deferring. eapply wpv_mono; [exact Hm|]. by intros r [h' p']. Qed.

(** ** Opening the namespace of the thread *)
Definition same_threads (p p' : Proc) : Prop :=
  pid p' = pid p ∧ home p' = home p ∧ threads p' = threads p ∧ running p' = running p.

Lemma wps_IsNSorErr path h p (Q : res unit → Heap → Proc → Prop) :
  (∀ r, Q r h p) → wps (IsNSorErr path) h p Q.
Proof.
  intros HQ. unfold IsNSorErr. apply wps_bind, wps_attempt. eapply wps_os; [apply Statfs_law|].
  intros [ty|e|] p' ->; [| |apply HQ].
  - destruct (_ || _); [apply wps_ret|apply wps_fail]; apply HQ.
  - destruct (IsNotExist e); apply wps_fail; apply HQ.
Qed.

(** The object that stands for the thread's namespace: a new one, open. *)
Definition opened_current (n : Z) (h : Heap) (p : Proc) (r : res NetNS) (h' : Heap) (p' : Proc) : Prop :=
  match r with
  | Ok l => ∃ fd name, h !! l = None ∧ open_ns p !! fd = None
      ∧ h' = <[l := netNS.mk (mkFile fd name) false]> h ∧ p' = set_open (<[fd := n]> (open_ns p)) p
  | _ => h' = h ∧ p' = p
  end.

Lemma wps_current h p th Q :
  threads p !! running p = Some th →
  (∀ r h' p', opened_current (t_ns th) h p r h' p' → Q r h' p') →
  wps getCurrentNSNoLock h p Q.
Proof.
  intros Hth HQ. unfold getCurrentNSNoLock, getCurrentThreadNetNSPath, GetNS.
  apply wps_bind, wps_bind. eapply wps_os; [apply Getpid_law|]. intros ? ? [-> ->].
  apply wps_bind. eapply wps_os; [apply Gettid_law|]. intros ? ? [-> ->]. apply wps_ret.
  apply wps_bind, wps_IsNSorErr. intros [u|e|]; [|by apply HQ..].
  apply wps_bind. eapply wps_os; [apply Open_law|]. intros [fd|e|] p' Hopen; [|subst; by apply HQ..].
  destruct Hopen as (Hfd & n & -> & Hn). rewrite (Hn _ _ eq_refl Hth).
  intros [h0 w] r s' Hs [= <- <-]. injection Hs as -> Hp. cbn. rewrite Hp. apply HQ.
  exists fd, (thread_path (pid p) (running p)). split_and!; try done.
  apply not_elem_of_dom, is_fresh.
Qed.

(** Closing an object leaves the other objects and their descriptors. *)
Definition others_open (l : NetNS) (h : Heap) (p : Proc) (h' : Heap) (p' : Proc) : Prop :=
  (∀ l', l' ≠ l → h' !! l' = h !! l') ∧
  ∀ o fd, h !! l = Some o → FileFd (netNS.file o) ≠ fd → open_ns p' !! fd = open_ns p !! fd.

Lemma wps_Close l h p (Q : res unit → Heap → Proc → Prop) :
  (∀ r h' p', same_threads p p' → others_open l h p h' p' → Q r h' p') →
  wps (Close l) h p Q.
Proof.
  intros HQ. unfold Close, errorIfClosed. apply wps_bind, wps_bind, wps_object; [|intros; by apply HQ].
  intros o Ho. destruct (netNS.closed o); [by apply wps_fail, HQ|]. apply wps_ret, wps_bind, wps_object;
    [|intros; by apply HQ].
  intros o' Ho'. apply wps_bind, wps_on_err. eapply wps_os; [apply File_Close_law|].
  intros r p' Hp'. assert (same_threads p p') as Hs by by destruct Hp' as [-> | ->].
  assert (∀ o1 fd, h !! l = Some o1 → FileFd (netNS.file o1) ≠ fd → open_ns p' !! fd = open_ns p !! fd) as Hfd.
  { intros o1 fd Ho1 Hne. assert (o1 = o') as -> by congruence. destruct Hp' as [-> | ->]; [done|].
    cbn. rewrite lookup_delete_ne; congruence. }
  destruct r as [u|e|]; [|by apply HQ..].
  intros [h0 w] r s' Hsee [= <- <-]. injection Hsee as -> <-. cbn. apply HQ; [done|]. split; [|done].
  intros l' Hl'. rewrite lookup_insert_ne; congruence.
Qed.

Lemma wps_Set l h p (Q : res unit → Heap → Proc → Prop) :
  (∀ o n, h !! l = Some o → netNS.closed o = false → open_ns p !! FileFd (netNS.file o) = Some n →
     Q (Ok tt) h (on_running (enter_ns n) p)) →
  (∀ r, r ≠ Ok tt → Q r h p) → wps (Set_ l) h p Q.
Proof.
  intros HQ Herr. unfold Set_, errorIfClosed, Fd. apply wps_bind, wps_bind, wps_object; [|intros; by apply Herr].
  intros o Ho. destruct (netNS.closed o) eqn:Hc; [by apply wps_fail, Herr|].
  apply wps_ret, wps_bind, wps_bind, wps_object; [|intros; by apply Herr]. intros o1 Ho1.
  assert (o1 = o) as -> by congruence. apply wps_ret, wps_bind, wps_object; [|intros; by apply Herr].
  intros o2 Ho2. assert (o2 = o) as -> by congruence. apply wps_on_err.
  eapply wps_os; [apply Setns_law|]. intros [[]|e|] p' Hs; [|by subst; apply Herr..].
  destruct Hs as (n & Hn & ->). by apply (HQ o).
Qed.

(** ** Threads that are not left behind *)

(** What the callers of a function can rely on: a thread that is there afterwards was
    there as it is or is idle in the home namespace; threads that goroutines are
    locked to do not change; the caller is on its thread if it is locked to it, and on
    an idle one otherwise. *)
Definition idle_at_home (p : Proc) (th : OsThread) : Prop := th = mkThread (home p) 0.
Record safe (p p' : Proc) : Prop := {
  safe_process : pid p' = pid p ∧ home p' = home p;
  safe_threads t th : threads p' !! t = Some th → threads p !! t = Some th ∨ idle_at_home p th;
  safe_locked t th : threads p !! t = Some th → 0 < t_locks th → threads p' !! t = Some th;
  safe_running th : threads p !! running p = Some th →
    if 0 <? t_locks th then running p' = running p
    else ∃ n, threads p' !! running p' = Some (mkThread n 0) }.

(** The same while the goroutine on thread [t] is at work, whose thread stays locked. *)
Record inside (t : Z) (p p' : Proc) : Prop := {
  inside_process : pid p' = pid p ∧ home p' = home p ∧ running p = t ∧ running p' = t;
  inside_threads u th : u ≠ t → threads p' !! u = Some th → threads p !! u = Some th ∨ idle_at_home p th;
  inside_locked u th : u ≠ t → threads p !! u = Some th → 0 < t_locks th → threads p' !! u = Some th;
  inside_own th : threads p !! t = Some th → ∃ th', threads p' !! t = Some th' ∧ t_locks th ≤ t_locks th' }.

(** What is asked of a function that is passed to [Do]: it may switch its own thread
    and lock it, but not unlock it; it leaves the objects and descriptors it was not
    given alone. *)
Record well_behaved (toRun : NetNS → go State unit) : Prop := {
  behaved_threads host s r s' th : toRun host s = (r, s') →
    threads (proc s.2) !! running (proc s.2) = Some th → 0 < t_locks th →
    inside (running (proc s.2)) (proc s.2) (proc s'.2);
  behaved_objects host s r s' l o : toRun host s = (r, s') →
    s.1 !! l = Some o → l ≠ host → s'.1 !! l = Some o;
  behaved_open host s r s' fd n : toRun host s = (r, s') →
    open_ns (proc s.2) !! fd = Some n →
    (∀ o, s.1 !! host = Some o → FileFd (netNS.file o) ≠ fd) → open_ns (proc s'.2) !! fd = Some n }.

Lemma inside_refl t p th : running p = t → threads p !! t = Some th → inside t p p.
Proof. intros Hr Ht. split; [done|intros; by left|done|]. intros th' Hth'. exists th'. split; [done|lia]. Qed.

Lemma inside_trans t p1 p2 p3 : inside t p1 p2 → inside t p2 p3 → inside t p1 p3.
Proof.
  intros [(Hp1 & Hh1 & Hr1 & Hr1') Ht1 Hl1 Ho1] [(Hp2 & Hh2 & Hr2 & Hr2') Ht2 Hl2 Ho2]. split.
  - split_and!; congruence.
  - intros u th Hu Hth. destruct (Ht2 u th Hu Hth) as [Hth'|Hi]; [by apply Ht1|right].
    unfold idle_at_home in *. congruence.
  - intros u th Hu Hth Hk. apply Hl2; [done| |done]. by apply Hl1.
  - intros th Hth. destruct (Ho1 th Hth) as (th1 & Hth1 & Hk1), (Ho2 th1 Hth1) as (th2 & Hth2 & Hk2).
    exists th2. split; [done|lia].
Qed.

(** The running thread changes its namespace. *)
Lemma inside_enter t p th n :
  running p = t → threads p !! t = Some th →
  inside t p (on_running (enter_ns n) p) ∧ threads (on_running (enter_ns n) p) !! t = Some (enter_ns n th).
Proof.
  intros Hr Ht. assert (threads (on_running (enter_ns n) p) !! t = Some (enter_ns n th)) as Ht'.
  { cbn. by rewrite Hr lookup_alter_eq Ht. }
  split; [|done]. split; [done|..]; cbn [threads on_running set_threads].
  - intros u e Hu. rewrite Hr lookup_alter_ne; [intros; by left|congruence].
  - intros u e Hu He _. rewrite Hr lookup_alter_ne; [done|congruence].
  - intros e He. assert (e = th) as -> by congruence. eexists. split; [exact Ht'|cbn; lia].
Qed.

Lemma inside_same_threads t p p' p'' : same_threads p' p'' → inside t p p' → inside t p p''.
Proof.
  intros (Hp & Hh & Ht & Hr) [(Hp' & Hh' & Hr' & Hr'') H1' H2' H3']. split; [split_and!; congruence|..];
    rewrite Ht; done.
Qed.

(** The goroutine on thread [t] is done: the thread is locked still, or it is unlocked
    and back in the namespace [n0]. *)
Record finished (n0 t : Z) (p p' : Proc) : Prop := {
  finished_process : pid p' = pid p ∧ home p' = home p ∧ running p' = t;
  finished_threads u th : u ≠ t → threads p' !! u = Some th → threads p !! u = Some th ∨ idle_at_home p th;
  finished_locked u th : u ≠ t → threads p !! u = Some th → 0 < t_locks th → threads p' !! u = Some th;
  finished_own : ∃ th', threads p' !! t = Some th' ∧ (0 < t_locks th' ∨ th' = mkThread n0 0) }.

Lemma inside_finished n0 t p p' th :
  inside t p p' → threads p !! t = Some th → 0 < t_locks th → finished n0 t p p'.
Proof.
  intros [(Hp & Hh & Hr & Hr') H1' H2' H3'] Ht Hk. split; [done..|].
  destruct (H3' th Ht) as (th' & Ht' & Hle). exists th'. split; [done|]. left. lia.
Qed.

Lemma finished_same_threads n0 t p p' p'' : same_threads p' p'' → finished n0 t p p' → finished n0 t p p''.
Proof.
  intros (Hp & Hh & Ht & Hr) [(Hp' & Hh' & Hr') H1' H2' H3']. split; [split_and!; congruence|..]; rewrite Ht; done.
Qed.

Lemma finished_from n0 t p q p' : same_threads q p → finished n0 t p p' → finished n0 t q p'.
Proof.
  intros (Hp & Hh & Ht & Hr) [(Hp' & Hh' & Hr') H1' H2' H3']. split; [split_and!; congruence|..];
    unfold idle_at_home in *; rewrite -?Ht -?Hh; done.
Qed.

(** Unlocking in the namespace the goroutine started in. *)
Lemma inside_left n0 t p p' th :
  inside t p p' → threads p' !! t = Some th → t_ns th = n0 → 0 < t_locks th →
  finished n0 t p (on_running unlock p').
Proof.
  intros [(Hp & Hh & Hr & Hr') H1' H2' _] Ht Hn Hk.
  split; [done|..]; cbn [threads on_running set_threads]; rewrite Hr'.
  - intros u e Hu. rewrite lookup_alter_ne; [by apply H1'|congruence].
  - intros u e Hu. rewrite lookup_alter_ne; [by apply H2'|congruence].
  - exists (unlock th). split; [by rewrite lookup_alter_eq Ht|]. unfold unlock. rewrite Hn.
    destruct (Z.eq_dec (t_locks th) 1) as [->|]; [by right|left; cbn; lia].
Qed.

Lemma wps_run (m : go State unit) h p :
  wps m h p (λ r h' p', ∃ s s', s.1 = h ∧ proc s.2 = p ∧ m s = (r, s') ∧ s'.1 = h' ∧ proc s'.2 = p').
Proof. intros s r s' Hs Hr. injection Hs as <- <-. by exists s, s'. Qed.

(** Switching back to the namespace of the object [l] and unlocking. *)
Lemma wps_switchBack l h p0 p t th0 th n0 fd name (Q : Heap → Proc → Prop) :
  inside t p0 p → threads p0 !! t = Some th0 → 0 < t_locks th0 → threads p !! t = Some th →
  h !! l = Some (netNS.mk (mkFile fd name) false) → open_ns p !! fd = Some n0 →
  (∀ p', finished n0 t p0 p' → open_ns p' = open_ns p → Q h p') → wps (switchBack l) h p (λ _, Q).
Proof.
  intros Hin Ht0 Hk0 Ht Hl Hfd HQ. unfold switchBack.
  destruct (inside_own _ _ _ Hin _ Ht0) as (th' & Ht' & Hk). assert (th' = th) as -> by congruence.
  apply wps_bind, wps_Set.
  - intros o n Ho _ Hn. assert (o = netNS.mk (mkFile fd name) false) as -> by congruence.
    cbn in Hn. assert (n = n0) as -> by congruence.
    destruct (inside_process _ _ _ Hin) as (_ & _ & _ & Hrun).
    destruct (inside_enter t p th n0 Hrun Ht) as [Hin' Hent].
    eapply wps_os; [apply Unlock_law|]. intros r p' [-> ->]. apply HQ; [|done].
    apply (inside_left n0 t p0 _ (enter_ns n0 th)); [exact (inside_trans _ _ _ _ Hin Hin')|done|done|cbn; lia].
  - intros r Hr. destruct r as [[]|e|]; [done|..]; (apply HQ; [by apply (inside_finished _ _ _ _ th0)|done]).
Qed.

(** An open object of the namespace [n]. *)
Definition stands_for (h : Heap) (p : Proc) (ns : NetNS) (n : Z) : Prop :=
  ∃ o, h !! ns = Some o ∧ netNS.closed o = false ∧ open_ns p !! FileFd (netNS.file o) = Some n.

(** The function ran, and succeeded, on a thread in the namespace [n], with an object of
    the namespace [m]. *)
Definition ran_inside (n m : Z) (toRun : NetNS → go State unit) : Prop :=
  ∃ host s s' th, toRun host s = (Ok tt, s')
    ∧ threads (proc s.2) !! running (proc s.2) = Some th ∧ t_ns th = n
    ∧ stands_for s.1 (proc s.2) host m.

(** The function runs in the namespace of [ns], with the object [l] of the thread's own
    namespace at hand, and the thread is switched back. *)
Lemma wps_toRun toRun host m h p t th l fd name :
  well_behaved toRun → running p = t → threads p !! t = Some th → 0 < t_locks th →
  stands_for h p host m →
  h !! l = None → open_ns p !! fd = None →
  ∀ n, wps (deferring (λ s, (switchBack l s).2) (toRun host))
    (<[l := netNS.mk (mkFile fd name) false]> h)
    (on_running (enter_ns n) (set_open (<[fd := t_ns th]> (open_ns p)) p))
    (λ r _ p', finished (t_ns th) t p p' ∧ (r = Ok tt → ran_inside n m toRun)).
Proof.
  intros [Bt Bo Bf] Hrun Ht Hk (oh & Hhost & Hcl & Hopen) Hl Hfd n. apply wps_deferring.
  eapply wps_mono; [apply wps_run|]. intros r h2 p2 (s & s' & Hs1 & Hp1 & Hrunning & <- & <-).
  destruct (inside_enter t p th n Hrun Ht) as [Hin Hent].
  assert (running (proc s.2) = t) as Hrs by by rewrite Hp1.
  assert (threads (proc s.2) !! t = Some (enter_ns n th)) as Hts by by rewrite Hp1.
  assert (inside t p (proc s.2)) as Hins by (rewrite Hp1; by eapply inside_same_threads; [|exact Hin]).
  pose proof (Bt _ _ _ _ (enter_ns n th) Hrunning) as Hafter. rewrite Hrs in Hafter.
  specialize (Hafter Hts Hk). destruct (inside_own _ _ _ Hafter _ Hts) as (th' & Hth' & _).
  eapply (wps_switchBack l _ p _ t th th' (t_ns th) fd name);
    [exact (inside_trans _ _ _ _ Hins Hafter)|done|done|done|..].
  - apply (Bo _ _ _ _ _ _ Hrunning); [by rewrite Hs1 lookup_insert_eq|congruence].
  - apply (Bf _ _ _ _ _ _ Hrunning); [rewrite Hp1; apply lookup_insert_eq|].
    intros o. rewrite Hs1 lookup_insert_ne; [|congruence]. intros Ho <-.
    assert (o = oh) as -> by congruence. congruence.
  - intros p' Hfin _. split; [done|]. intros ->. exists host, s, s', (enter_ns n th).
    rewrite Hrs. split_and!; try done. exists oh. rewrite Hs1 Hp1 lookup_insert_ne; [|congruence].
    split_and!; [done..|]. cbn. rewrite lookup_insert_ne; congruence.
Qed.

Lemma wps_contained ns toRun host m h p t th (Q : res unit → Heap → Proc → Prop) :
  well_behaved toRun → running p = t → threads p !! t = Some th → 0 < t_locks th →
  stands_for h p host m →
  (∀ r h' p', finished (t_ns th) t p p' →
     (r = Ok tt → ∀ n, stands_for h p ns n → ran_inside n m toRun) → Q r h' p') →
  wps (containedCall ns toRun host) h p Q.
Proof.
  intros Hbeh Hrun Ht Hk Hhost HQ. unfold containedCall.
  pose proof (inside_finished (t_ns th) t p p th (inside_refl _ _ _ Hrun Ht) Ht Hk) as Hstay.
  apply wps_bind, wps_on_err. apply (wps_current _ _ th); [by rewrite Hrun|].
  intros r h1 p1 Hcur. destruct r as [l|e|]; cbn [on_err opened_current] in *;
    [|destruct Hcur as [-> ->]; by apply HQ..].
  destruct Hcur as (fd & name & Hl & Hfd & -> & ->).
  apply wps_deferring. eapply wps_mono; [|intros r h2 p2 Hfin; apply wps_Close; intros r' h3 p3 Hsame _;
    exact (HQ r h3 p3 (finished_same_threads _ _ _ _ _ Hsame (proj1 Hfin)) (proj2 Hfin))]. cbn beta.
  assert (finished (t_ns th) t p (set_open (<[fd := t_ns th]> (open_ns p)) p)) as Hstay'
    by by eapply finished_same_threads; [|exact Hstay].
  unfold Path. apply wps_bind, wps_bind, wps_object; [|by split].
  intros o Ho. apply wps_ret, wps_bind, wps_on_err, wps_Set; [|by intros [[]|e|]; split].
  intros o' n Ho' Hc Hn. eapply wps_mono; [eapply wps_toRun; eauto|].
  intros r h2 p2 [Hfin Hran]. split; [done|]. intros Hr n1 (o1 & Ho1 & _ & Hn1).
  rewrite lookup_insert_ne in Ho'; [|congruence]. assert (o1 = o') as -> by congruence.
  cbn in Hn. rewrite lookup_insert_ne in Hn; [|congruence]. assert (n1 = n) as -> by congruence.
  by apply Hran.
Qed.

(** ** Goroutines *)

(** What holds of the processes there are: the running thread is there. *)
Definition sane (p : Proc) : Prop :=
  is_Some (threads p !! running p) ∧ ∀ t th, threads p !! t = Some th → 0 ≤ t_locks th.

Lemma sane_proc w : sane (proc w).
Proof. split; [apply proc_running|apply proc_locks]. Qed.

(** The threads that are left when the goroutine has ended. *)
Lemma without_locked_other n0 t p p' u :
  finished n0 t p p' → u ≠ t → without_locked p' !! u = threads p' !! u.
Proof.
  intros [(_ & _ & Hr) _ _ (th & Hth & _)] Hu. unfold without_locked. rewrite Hr Hth.
  destruct (_ =? _); [done|]. rewrite lookup_delete_ne; congruence.
Qed.
Lemma without_locked_own n0 t p p' th :
  finished n0 t p p' → without_locked p' !! t = Some th → th = mkThread n0 0.
Proof.
  intros [(_ & _ & Hr) _ _ (th' & Hth' & Hown)]. unfold without_locked. rewrite Hr Hth'.
  destruct (Z.eqb_spec (t_locks th') 0) as [Hz|Hz].
  - destruct Hown as [Hk| ->]; [lia|congruence].
  - rewrite lookup_delete_eq. done.
Qed.

(** A goroutine's start, work and end. *)
Lemma started_kept p p1 u th : started p p1 → threads p !! u = Some th → threads p1 !! u = Some th.
Proof. intros [|t Ht]; [done|]. cbn. intros Hu. rewrite lookup_insert_ne; congruence. Qed.

Lemma left_safe p p1 n p2 u th :
  started p p1 → threads p1 !! running p1 = Some (mkThread n 0) →
  finished n (running p1) p1 p2 → without_locked p2 !! u = Some th →
  threads p !! u = Some th ∨ idle_at_home p th.
Proof.
  intros Hst Hn Hfin Hu.
  assert (threads p1 !! u = Some th ∨ idle_at_home p1 th) as [Hu1|Hu1].
  { destruct (decide (u = running p1)) as [->|Hne].
    - left. rewrite Hn. f_equal. symmetry. exact (without_locked_own _ _ _ _ _ Hfin Hu).
    - rewrite (without_locked_other _ _ _ _ _ Hfin Hne) in Hu.
      exact (finished_threads _ _ _ _ Hfin _ _ Hne Hu). }
  - destruct Hst as [|t Ht]; cbn in Hu1; [by left|].
    destruct (decide (u = t)) as [->|]; [|rewrite lookup_insert_ne in Hu1; [by left|congruence]].
    rewrite lookup_insert_eq in Hu1. injection Hu1 as <-. by right.
  - right. destruct Hst; exact Hu1.
Qed.

Lemma locked_safe p p1 n p2 u th :
  started p p1 → threads p1 !! running p1 = Some (mkThread n 0) →
  finished n (running p1) p1 p2 → threads p !! u = Some th → 0 < t_locks th →
  without_locked p2 !! u = Some th.
Proof.
  intros Hst Hn Hfin Hu Hk. pose proof (started_kept _ _ _ _ Hst Hu) as Hu1.
  assert (u ≠ running p1) as Hne by (intros ->; rewrite Hn in Hu1; injection Hu1 as <-; cbn in Hk; lia).
  rewrite (without_locked_other _ _ _ _ _ Hfin Hne).
  exact (finished_locked _ _ _ _ Hfin _ _ Hne Hu1 Hk).
Qed.

Lemma goroutine_safe p p1 n p2 p3 :
  sane p → started p p1 → threads p1 !! running p1 = Some (mkThread n 0) →
  finished n (running p1) p1 p2 → resumed (running p) p2 p3 → safe p p3.
Proof.
  intros [[thr Hthr] Hlocks] Hst Hn Hfin Hres.
  assert (pid p1 = pid p ∧ home p1 = home p) as [Hp1 Hh1] by by destruct Hst.
  destruct (finished_process _ _ _ _ Hfin) as (Hp2 & Hh2 & _).
  assert (∀ th, without_locked p2 !! running p = Some th → 0 < t_locks th → th = thr ∧ 0 < t_locks thr) as Hlk.
  { intros th Hth Hk. destruct (left_safe _ _ _ _ _ _ Hst Hn Hfin Hth) as [H'|H'].
    - assert (th = thr) as -> by congruence. done.
    - unfold idle_at_home in H'. subst th. cbn in Hk. lia. }
  split.
  - destruct Hres; cbn; split; congruence.
  - intros t th Ht. destruct Hres as [| |t' _ Ht']; cbn in Ht; [exact (left_safe _ _ _ _ _ _ Hst Hn Hfin Ht)..|].
    destruct (decide (t = t')) as [->|]; [|rewrite lookup_insert_ne in Ht; [exact (left_safe _ _ _ _ _ _ Hst Hn Hfin Ht)|congruence]].
    rewrite lookup_insert_eq in Ht. injection Ht as <-. right. unfold idle_at_home. congruence.
  - intros t th Ht Hk. pose proof (locked_safe _ _ _ _ _ _ Hst Hn Hfin Ht Hk) as Hw.
    destruct Hres as [| |t' _ Ht']; cbn; [done..|]. rewrite lookup_insert_ne; congruence.
  - intros th Hth. assert (th = thr) as -> by congruence. destruct (Z.ltb_spec 0 (t_locks thr)) as [Hk|Hk].
    + pose proof (locked_safe _ _ _ _ _ _ Hst Hn Hfin Hthr Hk) as Hw.
      destruct Hres as [| t' ? Hz|t' Hz]; cbn; [done|specialize (Hz _ Hw); lia..].
    + destruct Hres as [th' Hw Hk'|t' n' _ Ht'|t' _ Ht']; cbn.
      * destruct (Hlk _ Hw Hk'). lia.
      * by exists n'.
      * eexists. apply lookup_insert_eq.
Qed.

Lemma resumed_open t p p' : resumed t p p' → open_ns p' = open_ns p.
Proof. by destruct 1. Qed.

(** A goroutine whose body locks its thread and leaves it finished. *)
Lemma wps_go {A} (body : go State A) h p (Q : res A → Heap → Proc → Prop) :
  sane p →
  (∀ p1 n, started p p1 → threads p1 !! running p1 = Some (mkThread n 0) → open_ns p1 = open_ns p →
     wps body h (on_running lock p1) (λ r h' p2, finished n (running p1) (on_running lock p1) p2
       ∧ ∀ p3, safe p p3 → open_ns p3 = open_ns p2 → Q r h' p3)) →
  wps (go_and_wait (_ ← os LockOSThread; body)) h p Q.
Proof.
  intros Hsane Hbody [h0 w] r s' Hs Hrun. injection Hs as -> Hp. unfold go_and_wait in Hrun. cbn in Hrun.
  destruct ((_ ← os LockOSThread; body) (h, goroutine_start w)) as [r2 s2] eqn:E. injection Hrun as <- <-.
  pose proof (start_law w) as Hst. rewrite Hp in Hst. set (p1 := proc (goroutine_start w)) in *.
  assert (∃ n, threads p1 !! running p1 = Some (mkThread n 0)) as [n Hn].
  { destruct Hst as [t n Ht|t _]; cbn; [by exists n|]. eexists. apply lookup_insert_eq. }
  assert (open_ns p1 = open_ns p) as Ho by by destruct Hst.
  assert (wps (_ ← os LockOSThread; body) h p1 (λ r h' p2, finished n (running p1) (on_running lock p1) p2
       ∧ ∀ p3, safe p p3 → open_ns p3 = open_ns p2 → Q r h' p3)) as Hwp.
  { apply wps_bind. eapply wps_os; [apply Lock_law|]. intros ? ? [-> ->]. exact (Hbody p1 n Hst Hn Ho). }
  destruct (Hwp (h, goroutine_start w) _ _ eq_refl E) as [Hfin HQ]. cbn [snd fst see] in *.
  rewrite on_thread_law Hp.
  pose proof (end_law (running p) s2.2) as Hend.
  apply HQ; [|exact (resumed_open _ _ _ Hend)].
  eapply goroutine_safe; [done|exact Hst|exact Hn| |exact Hend].
  destruct Hfin as [(Hp' & Hh' & Hr') H1 H2 H3]. split; [done|..|done];
    cbn [threads on_running set_threads] in H1, H2; intros u th Hu; specialize (H1 u th Hu);
    specialize (H2 u th Hu).
  - rewrite lookup_alter_ne in H1; [exact H1|congruence].
  - rewrite lookup_alter_ne in H2; [exact H2|congruence].
Qed.

(** ** The functions that start goroutines *)
Lemma unlock_lock t (m : gmap Z OsThread) :
  (∀ u th, m !! u = Some th → 0 ≤ t_locks th) → alter unlock t (alter lock t m) = m.
Proof.
  intros Hm. apply map_eq. intros u. destruct (decide (u = t)) as [->|]; [|rewrite !lookup_alter_ne; [done|congruence..]].
  rewrite !lookup_alter_eq. destruct (m !! t) as [[n k]|] eqn:E; [|done]. cbn.
  specialize (Hm _ _ E). cbn in Hm. unfold unlock, lock. cbn. do 2 f_equal. lia.
Qed.

Lemma wps_GetCurrentNS h p th Q :
  sane p → threads p !! running p = Some th →
  (∀ r h' p', opened_current (t_ns th) h p r h' p' → Q r h' p') →
  wps GetCurrentNS h p Q.
Proof.
  intros [_ Hlocks] Hth HQ. unfold GetCurrentNS. apply wps_bind.
  eapply wps_os; [apply Lock_law|]. intros ? ? [-> ->]. apply wps_deferring.
  apply (wps_current _ _ (lock th)); [by cbn; rewrite lookup_alter_eq Hth|].
  intros r h' p' Hcur. eapply wps_os; [apply Unlock_law|]. intros ? p2 [_ ->]. apply HQ.
  assert (∀ m, on_running unlock (set_open m (on_running lock p)) = set_open m p) as Hback.
  { intros m. unfold on_running, set_threads, set_open. cbn. by rewrite unlock_lock. }
  destruct r as [l|e|]; cbn [opened_current] in *.
  - destruct Hcur as (fd & name & Hl & Hfd & -> & ->). exists fd, name.
    split_and!; [done..|]. exact (Hback _).
  - destruct Hcur as [-> ->]. split; [done|].
    trans (set_open (open_ns p) p); [exact (Hback _)|by destruct p].
  - destruct Hcur as [-> ->]. split; [done|].
    trans (set_open (open_ns p) p); [exact (Hback _)|by destruct p].
Qed.

Lemma safe_same p p1 p2 p3 : same_threads p p1 → safe p1 p2 → same_threads p2 p3 → safe p p3.
Proof.
  intros (Hp & Hh & Ht & Hr) [[Hp1 Hh1] H1 H2 H3] (Hp' & Hh' & Ht' & Hr').
  split; rewrite ?Ht' ?Hr' -?Ht -?Hr; [split; congruence|..|done|done].
  intros t th Hth. unfold idle_at_home in *. rewrite -Hh. by apply H1.
Qed.

Lemma safe_refl p : sane p → safe p p.
Proof.
  intros [_ Hlocks]. split; [done|by left|done|]. intros [n k] Hth. specialize (Hlocks _ _ Hth). cbn in *.
  destruct (Z.ltb_spec 0 k); [done|]. exists n. rewrite Hth. do 2 f_equal. lia.
Qed.

(** Running a function in the namespace of an object. *)
Lemma wps_Do ns toRun h p th (Q : res unit → Heap → Proc → Prop) :
  well_behaved toRun → sane p → threads p !! running p = Some th →
  (∀ r h' p', safe p p' →
     (r = Ok tt → ∀ n, stands_for h p ns n → ran_inside n (t_ns th) toRun) → Q r h' p') →
  wps (Do ns toRun) h p Q.
Proof.
  intros Hbeh Hsane Hth HQ. pose proof (safe_refl p Hsane) as Hstay. unfold Do, errorIfClosed.
  apply wps_bind, wps_bind, wps_object; [|by intros; apply HQ].
  intros o Ho. destruct (netNS.closed o) eqn:Hc; [apply wps_fail, HQ; done|].
  apply wps_ret, wps_bind, wps_on_err, (wps_GetCurrentNS _ _ th); [done|done|].
  intros r h1 p1 Hcur. destruct r as [host|e|]; cbn [on_err opened_current] in *;
    [|destruct Hcur as [-> ->]; by apply HQ..].
  destruct Hcur as (fd & name & Hl & Hfd & -> & ->). apply wps_deferring, wps_go; [exact Hsane|].
  intros p1 n Hst Hn Hopen. eapply (wps_contained ns toRun host (t_ns th) _ _ (running p1) (mkThread n 1));
    [done|done|by cbn; rewrite lookup_alter_eq Hn|cbn; lia|..].
  - exists (netNS.mk (mkFile fd name) false). cbn. rewrite Hopen lookup_insert_eq. cbn.
    by rewrite lookup_insert_eq.
  - intros r h2 p2 Hfin Hran. split; [exact Hfin|]. intros p3 Hsafe _. apply wps_Close.
    intros r' h3 p4 Hsame _. apply HQ; [by eapply safe_same; [| exact Hsafe|exact Hsame]|].
    intros Hr n' (o' & Ho' & Hc' & Hn'). apply (Hran Hr). exists o'. cbn. rewrite Hopen. cbn.
    rewrite !lookup_insert_ne; [done|congruence..].
Qed.

Lemma wps_GetNS nspath h p (Q : res NetNS → Heap → Proc → Prop) :
  (∀ r h' p', same_threads p p' → Q r h' p') → wps (GetNS nspath) h p Q.
Proof.
  intros HQ. unfold GetNS. apply wps_bind, wps_IsNSorErr. intros [u|e|]; [|by apply HQ..].
  apply wps_bind. eapply wps_os; [apply Open_law|]. intros [fd|e|] p' Hopen; [|subst; by apply HQ..].
  destruct Hopen as (Hfd & n & -> & Hn). intros [h0 w] r s' Hs [= <- <-]. injection Hs as -> Hp.
  cbn. rewrite Hp. by apply HQ.
Qed.

Lemma same_sane p p' : same_threads p p' → sane p → sane p'.
Proof. intros (_ & _ & Ht & Hr). unfold sane. by rewrite Ht Hr. Qed.

Lemma wps_WithNetNSPath nspath toRun h p :
  well_behaved toRun → sane p → wps (WithNetNSPath nspath toRun) h p (λ _ _ p', safe p p').
Proof.
  intros Hbeh Hsane. unfold WithNetNSPath. apply wps_bind, wps_GetNS. intros r h1 p1 Hsame.
  pose proof (safe_same p p1 p1 p1 Hsame (safe_refl _ (same_sane _ _ Hsame Hsane))) as Hback.
  destruct r as [ns|e|]; [|by apply Hback..]. apply wps_deferring.
  destruct (same_sane _ _ Hsame Hsane) as [[th Hth] Hlocks].
  eapply wps_Do; [done|by eapply same_sane|exact Hth|]. intros r h2 p2 Hsafe _. apply wps_Close.
  intros _ h3 p3 Hsame' _. exact (safe_same _ _ _ _ Hsame Hsafe Hsame').
Qed.

(** A new namespace: a new object of a namespace no thread was in. *)
Definition temporary (h : Heap) (p : Proc) (r : res NetNS) (h' : Heap) (p' : Proc) : Prop :=
  ∀ l, r = Ok l → h !! l = None ∧ ∃ n, stands_for h' p' l n ∧ ∀ t th, threads p !! t = Some th → t_ns th ≠ n.

(** The same before the object [l] of the thread's namespace is closed. *)
Definition temporary_and (l : NetNS) (fd : Z) (h : Heap) (p : Proc) (r : res NetNS) (h' : Heap) (p' : Proc) : Prop :=
  (∃ o, h' !! l = Some o ∧ FileFd (netNS.file o) = fd) ∧
  ∀ l', r = Ok l' → l' ≠ l ∧ h !! l' = None
    ∧ ∃ o n, h' !! l' = Some o ∧ netNS.closed o = false ∧ FileFd (netNS.file o) ≠ fd
      ∧ open_ns p' !! FileFd (netNS.file o) = Some n ∧ ∀ t th, threads p !! t = Some th → t_ns th ≠ n.

Lemma temporary_closed l fd h p r h1 p1 h2 p2 p3 :
  temporary_and l fd h p r h1 p1 → others_open l h1 p1 h2 p2 → open_ns p3 = open_ns p2 →
  temporary h p r h2 p3.
Proof.
  intros [(ol & Hol & Hfd) Hnew] [Hh Hop] H3 l' Hr.
  destruct (Hnew l' Hr) as (Hne & Hnone & o & n & Ho & Hc & Hofd & Hn & Hfresh).
  split; [done|]. exists n. split; [|done]. exists o. rewrite (Hh _ Hne) H3 (Hop ol); [done|done|congruence].
Qed.

Lemma wps_temporary_back h p l fd name n t q th r h2 q2 th2 :
  inside t q q2 → threads q !! t = Some th → 0 < t_locks th → n = t_ns th → threads q2 !! t = Some th2 →
  h2 !! l = Some (netNS.mk (mkFile fd name) false) → open_ns q2 !! fd = Some n →
  temporary_and l fd h p r h2 q2 → ∀ k : go State NetNS, (∀ s, k s = (r, s)) →
  wps (_ ← attempt (switchBack l); k) h2 q2
    (λ r h' p', finished n t q p' ∧ temporary_and l fd h p r h' p').
Proof.
  intros Hin2 Hq Hk Hn Hth2 Hl2 Hfd2 [H1 H2] k Hkr. apply wps_bind, wps_attempt.
  eapply wps_mono; [eapply (wps_switchBack l h2 q q2 t th th2 n fd name
    (λ h' p', h' = h2 ∧ finished n t q p' ∧ open_ns p' = open_ns q2)); by try intros|].
  intros r' h' p' (-> & Hfin & Hop).
  assert (∀ l', r = Ok l' → l' ≠ l ∧ h !! l' = None
    ∧ ∃ o n, h2 !! l' = Some o ∧ netNS.closed o = false ∧ FileFd (netNS.file o) ≠ fd
      ∧ open_ns p' !! FileFd (netNS.file o) = Some n
      ∧ ∀ t th, threads p !! t = Some th → t_ns th ≠ n) as H3 by (rewrite Hop; exact H2).
  destruct r'; [intros s r' s' Hs; rewrite Hkr; intros [= <- <-]; rewrite Hs..|]; by (split; [|split]).
Qed.

Lemma wps_temporary h p l fd name n t q th :
  threads q !! t = Some th → 0 < t_locks th → running q = t → n = t_ns th →
  (∀ u e, threads p !! u = Some e → ∃ e', threads q !! u = Some e' ∧ t_ns e' = t_ns e) →
  open_ns q !! fd = Some n → h !! l = None →
  wps (_ ← os (Unshare CLONE_NEWNET);
       tempNS ← attempt getCurrentNSNoLock;
       _ ← attempt (switchBack l);
       match tempNS with inl ns => mret ns | inr err => fail err end)
    (<[l := netNS.mk (mkFile fd name) false]> h) q
    (λ r h' p', finished n t q p' ∧ temporary_and l fd h p r h' p').
Proof.
  intros Hq Hk Hrun Hn Hp Hfd Hl.
  assert (∀ l', <[l := netNS.mk (mkFile fd name) false]> h !! l' = None → h !! l' = None) as Hnone.
  { intros l'. by rewrite lookup_insert_None; intros []. }
  pose proof (lookup_insert_eq h l (netNS.mk (mkFile fd name) false)) as Hl1.
  set (h1 := <[l := _]> h) in *. clearbody h1.
  pose proof (inside_refl t q _ Hrun Hq) as Hin0.
  assert (∀ r : res NetNS, (∀ l', r ≠ Ok l') → temporary_and l fd h p r h1 q) as Herr.
  { intros r Hr. split; [by exists (netNS.mk (mkFile fd name) false)|]. intros l' ->. by destruct (Hr l'). }
  apply wps_bind. eapply wps_os; [apply Unshare_law|]. intros [u|e|] q1 Hun;
    [|subst q1; split; [exact (inside_finished _ _ _ _ _ Hin0 Hq Hk)|by apply Herr]..].
  destruct Hun as (m & Hm & ->). destruct (inside_enter t q th m Hrun Hq) as [Hin Hent].
  apply wps_bind, wps_attempt, (wps_current _ _ (enter_ns m th)); [by cbn; rewrite Hrun lookup_alter_eq Hq|].
  intros r h2 q2 Hcur.
  assert (h2 !! l = h1 !! l ∧ open_ns q2 !! fd = Some n ∧ same_threads (on_running (enter_ns m) q) q2)
    as (Hl2 & Hfd2 & Hsame).
  { destruct r; cbn [opened_current] in Hcur; [|by destruct Hcur as [-> ->]..].
    destruct Hcur as (fd2 & name2 & Hnew & Hfdnew & -> & ->). cbn in *.
    split_and!; [..|done]; rewrite lookup_insert_ne; congruence. }
  assert (inside t q q2) as Hin2 by by eapply inside_same_threads; [|exact Hin].
  assert (∃ th2, threads q2 !! t = Some th2) as [th2 Hth2].
  { destruct Hsame as (_ & _ & -> & _). by exists (enter_ns m th). }
  assert (temporary_and l fd h p r h2 q2) as Htmp.
  { split; [exists (netNS.mk (mkFile fd name) false); by rewrite Hl2|]. intros l' ->.
    destruct Hcur as (fd2 & name2 & Hnew & Hfdnew & -> & ->).
    split_and!; [congruence|by apply Hnone|]. exists (netNS.mk (mkFile fd2 name2) false), m. cbn in *.
    rewrite !lookup_insert_eq. split_and!; [done..|congruence|done|].
    intros u' e He. destruct (Hp u' e He) as (e' & He' & <-). exact (Hm _ _ He'). }
  pose proof (wps_temporary_back h p l fd name n t q th r h2 q2 th2 Hin2 Hq Hk Hn Hth2
    (eq_trans Hl2 Hl1) Hfd2 Htmp) as Hback.
  destruct r; [by apply Hback..|]. split; [|done]. exact (inside_finished _ _ _ _ _ Hin2 Hq Hk).
Qed.

Lemma wps_TempNetNS h p (Q : res NetNS → Heap → Proc → Prop) :
  sane p → (∀ r h' p', safe p p' → temporary h p r h' p' → Q r h' p') → wps TempNetNS h p Q.
Proof.
  intros Hsane HQ. unfold TempNetNS. apply wps_go; [done|]. intros p1 n Hst Hn Hopen.
  set (t := running p1) in *. set (q := on_running lock p1).
  assert (threads q !! t = Some (mkThread n 1)) as Hq by (cbn; by rewrite lookup_alter_eq Hn).
  pose proof (inside_refl t q _ eq_refl Hq) as Hin0.
  assert (0 < t_locks (mkThread n 1)) as Hk by (cbn; lia).
  pose proof (inside_finished n t q q _ Hin0 Hq Hk) as Hstay.
  apply wps_bind, wps_on_err, (wps_current _ _ (mkThread n 1)); [exact Hq|].
  intros r h1 p2 Hcur. destruct r as [l|e|]; cbn [on_err opened_current t_ns] in *;
    [|destruct Hcur as [-> ->]; split; [done|]; intros; by apply HQ..].
  destruct Hcur as (fd & name & Hl & Hfd & -> & ->). apply wps_deferring.
  eapply wps_mono; [apply (wps_temporary h p l fd name n t _ (mkThread n 1))|]; try done.
  - intros u e Hu. pose proof (started_kept _ _ _ _ Hst Hu) as Hu1. cbn. destruct (decide (u = t)) as [->|Hne].
    + rewrite lookup_alter_eq Hu1. by exists (lock e).
    + rewrite lookup_alter_ne; [by exists e|intros Heq; apply Hne; symmetry; exact Heq].
  - cbn. apply lookup_insert_eq.
  - intros r h2 p2 [Hfin Htmp]. apply wps_Close. intros r' h3 p3 Hsame Hoth. split.
    + eapply finished_same_threads; [exact Hsame|]. by eapply finished_from; [|exact Hfin].
    + intros p4 Hsafe Hop. apply HQ; [done|]. exact (temporary_closed _ _ _ _ _ _ _ _ _ _ Htmp Hoth Hop).
Qed.
(** A program that is a rule away from a theorem about its runs. *)
Lemma wps_elim {A} (m : go State A) Q s r s' :
  wps m s.1 (proc s.2) Q → m s = (r, s') → Q r s'.1 (proc s'.2).
Proof. intros Hm Hr. exact (Hm s r s' eq_refl Hr). Qed.

Lemma WithNetNSPath_safe nspath toRun s r s' :
  well_behaved toRun → WithNetNSPath nspath toRun s = (r, s') → safe (proc s.2) (proc s'.2).
Proof.
  intros Hbeh. apply (wps_elim _ (λ _ _ p, safe (proc s.2) p)), wps_WithNetNSPath; [done|apply sane_proc].
Qed.

(** C31. However [Do] ends (an object that is closed, a namespace that cannot be opened or
    entered, a function that fails or switches its own thread away, a switch back that
    fails), no thread is left behind in a wrong namespace: a thread that exists afterwards
    is as it was before or is an idle one in the process's home namespace, threads that
    other goroutines are locked to are untouched, and the caller is still on its own
    thread if it was locked to it and on an idle thread otherwise. *)
Theorem Do_safe ns toRun s r s' :
  well_behaved toRun → Do ns toRun s = (r, s') → safe (proc s.2) (proc s'.2).
Proof.
  intros Hbeh. pose proof (sane_proc s.2) as Hsane. destruct (Hsane) as [[th Hth] _].
  apply (wps_elim _ (λ _ _ p, safe (proc s.2) p)), (wps_Do _ _ _ _ th); [done|done|done|]. by intros.
Qed.

(** C32. When [Do] succeeds on an object of the namespace [n], the function did run, and
    succeed, on a thread in [n], and was handed an open object of the namespace its
    caller was in. *)
Theorem Do_runs_inside ns toRun s s' n th :
  well_behaved toRun → stands_for s.1 (proc s.2) ns n →
  threads (proc s.2) !! running (proc s.2) = Some th →
  Do ns toRun s = (Ok tt, s') → ran_inside n (t_ns th) toRun.
Proof.
  intros Hbeh Hns Hth Hrun.
  refine (wps_elim _ (λ r _ _, r = Ok tt → ran_inside n (t_ns th) toRun) _ _ _ _ Hrun eq_refl).
  apply (wps_Do _ _ _ _ th); [done|apply sane_proc|done|]. intros r h' p' _ Hran Hr. by apply Hran.
Qed.

(** C33. [TempNetNS] leaves no thread behind in the new namespace or in any wrong one,
    however it ends; the object it returns is a new one, open, of a namespace no thread
    was in. *)
Theorem TempNetNS_spec s r s' :
  TempNetNS s = (r, s') →
  safe (proc s.2) (proc s'.2) ∧
  ∀ l, r = Ok l → s.1 !! l = None ∧ ∃ n, stands_for s'.1 (proc s'.2) l n
    ∧ ∀ t th, threads (proc s.2) !! t = Some th → t_ns th ≠ n.
Proof.
  apply (wps_elim TempNetNS (λ r h' p', safe (proc s.2) p' ∧ temporary s.1 (proc s.2) r h' p')).
  apply wps_TempNetNS; [apply sane_proc|]. by intros.
Qed.

(** A function that goes back to its caller's namespace is well behaved. *)
Lemma Set_behaved : well_behaved Set_.
Proof.
  assert (∀ host s r s', Set_ host s = (r, s') → s'.1 = s.1 ∧
    (proc s'.2 = proc s.2 ∨ ∃ n, proc s'.2 = on_running (enter_ns n) (proc s.2))) as Hset.
  { intros host s r s'. apply (wps_elim (Set_ host) (λ r h p, h = s.1 ∧
      (p = proc s.2 ∨ ∃ n, p = on_running (enter_ns n) (proc s.2)))). apply wps_Set.
    - intros o n _ _ _. split; [done|]. right. by exists n.
    - intros r' _. split; [done|by left]. }
  split; intros host s r s'.
  - intros th Hr Hth _. destruct (Hset _ _ _ _ Hr) as [_ [->|[n ->]]].
    + by apply (inside_refl _ _ th).
    + by destruct (inside_enter _ _ th n eq_refl Hth).
  - intros l o Hr Ho _. by destruct (Hset _ _ _ _ Hr) as [-> _].
  - intros fd n Hr Hn _. by destruct (Hset _ _ _ _ Hr) as [_ [->|[m ->]]].
Qed.
End ns_specs.
