(* ===== verification/NsWorld.v ===== *)
(** * A process with threads and namespaces

    A concrete instance of the kernel and the runtime of Ns.v.  The threads other than
    the running one are in a map; goroutines start on new threads; paths are those of
    threads and of a table of names.  The witnesses of the theorems of Ns.v run here. *)

From S2P Require Import Prelude GoStrings Ns.
Local Open Scope Z_scope.

(** A thread: its namespace and how often it is locked. *)
Record Node := mkNode {
  n_home : Z;
  n_run : Z;
  n_cur : Z * nat;
  n_others : gmap Z (Z * nat);
  n_open : gmap Z Z;
  n_names : list (string * Z) }.

Definition as_thread (x : Z * nat) : OsThread := mkThread x.1 (Z.of_nat x.2).
Definition node_proc (w : Node) : Proc :=
  mkProc 7 (n_home w) (<[n_run w := as_thread (n_cur w)]> (as_thread <$> n_others w)) (n_run w) (n_open w).

(** The namespace a path leads to. *)
Definition find_thread (path : string) (w : Node) : option Z :=
  match filter (λ x, thread_path 7 x.1 = path) (map_to_list (threads (node_proc w))) with
  | x :: _ => Some (t_ns x.2)
  | [] => None
  end.
Definition find_name (path : string) (w : Node) : option Z :=
  match filter (λ x, x.1 = path) (n_names w) with x :: _ => Some x.2 | [] => None end.
Definition find_path (path : string) (w : Node) : option Z :=
  match find_thread path w with Some n => Some n | None => find_name path w end.

Definition enoent : error := ExtErr "no such file or directory".
Definition ebadf : error := ExtErr "bad file descriptor".
Definition with_cur (c : Z * nat) (w : Node) : Node :=
  mkNode (n_home w) (n_run w) c (n_others w) (n_open w) (n_names w).
Definition with_fds (m : gmap Z Z) (w : Node) : Node :=
  mkNode (n_home w) (n_run w) (n_cur w) (n_others w) m (n_names w).

(** Threads, without the running one if a goroutine ended locked to it. *)
Definition threads_left (w : Node) : gmap Z (Z * nat) :=
  if (snd (n_cur w) =? 0)%nat then <[n_run w := n_cur w]> (n_others w) else delete (n_run w) (n_others w).
Definition run_on (t : Z) (m : gmap Z (Z * nat)) (w : Node) : Node :=
  match m !! t with
  | Some c => mkNode (n_home w) t c m (n_open w) (n_names w)
  | None => let t' := fresh (dom m) in mkNode (n_home w) t' (n_home w, 0%nat) m (n_open w) (n_names w)
  end.

#[export] Instance node_os : NsOs Node := {
  Statfs path w := match find_path path w with
                   | Some _ => (Ok NSFS_MAGIC, w)
                   | None => (Err enoent, w)
                   end;
  IsNotExist e := match e with ExtErr msg => String.eqb msg "no such file or directory" | _ => false end;
  Open path w := match find_path path w with
                 | Some n => let fd := fresh (dom (n_open w)) in
                             (Ok fd, with_fds (<[fd := n]> (n_open w)) w)
                 | None => (Err enoent, w)
                 end;
  File_Close fd w := match n_open w !! fd with
                     | Some _ => (Ok tt, with_fds (delete fd (n_open w)) w)
                     | None => (Err ebadf, w)
                     end;
  Getpid w := (Ok 7, w);
  Gettid w := (Ok (n_run w), w);
  Setns fd flags w := match n_open w !! fd with
                      | Some n => (Ok tt, with_cur (n, snd (n_cur w)) w)
                      | None => (Err ebadf, w)
                      end;
  Unshare flags w :=
    let n := fresh (t_ns ∘ snd <$> map_to_list (threads (node_proc w))) in
    (Ok tt, with_cur (n, snd (n_cur w)) w);
  LockOSThread w := (Ok tt, with_cur (fst (n_cur w), S (snd (n_cur w))) w);
  UnlockOSThread w := (Ok tt, with_cur (fst (n_cur w), pred (snd (n_cur w))) w);
  goroutine_start w :=
    let m := <[n_run w := n_cur w]> (n_others w) in
    mkNode (n_home w) (fresh (dom m)) (n_home w, 0%nat) m (n_open w) (n_names w);
  goroutine_end waiting w := run_on waiting (threads_left w) w;
  on_thread w := n_run w }.

(** ** The laws *)
Lemma thread_path_inj p t t' : thread_path p t = thread_path p t' → t = t'.
Proof.
  unfold thread_path. intros Heq. do 3 apply string_app_inj_r in Heq.
  apply string_app_inj_l in Heq. by apply Itoa_inj.
Qed.

Lemma find_path_thread w t th :
  threads (node_proc w) !! t = Some th → find_path (thread_path 7 t) w = Some (t_ns th).
Proof.
  intros Hth. unfold find_path, find_thread.
  destruct (filter _ _) as [|x xs] eqn:E.
  - assert ((t, th) ∈ filter (λ x, thread_path 7 x.1 = thread_path 7 t) (map_to_list (threads (node_proc w)))) as Hin.
    { apply list_elem_of_filter. split; [done|]. by apply elem_of_map_to_list. }
    rewrite E in Hin. by apply elem_of_nil in Hin.
  - assert (x ∈ filter (λ x, thread_path 7 x.1 = thread_path 7 t) (map_to_list (threads (node_proc w)))) as Hin.
    { rewrite E. by left. }
    apply list_elem_of_filter in Hin as [Heq Hin]. destruct x as [t' th']. cbn [fst] in Heq.
    apply thread_path_inj in Heq as ->. apply elem_of_map_to_list in Hin. cbn. congruence.
Qed.

Lemma node_enter w n :
  node_proc (with_cur (n, snd (n_cur w)) w) = on_running (enter_ns n) (node_proc w).
Proof. unfold node_proc, on_running, set_threads. cbn. by rewrite alter_insert_eq. Qed.
Lemma node_lock w :
  node_proc (with_cur (fst (n_cur w), S (snd (n_cur w))) w) = on_running lock (node_proc w).
Proof.
  unfold node_proc, on_running, set_threads. cbn. rewrite alter_insert_eq. do 2 f_equal.
  unfold lock, as_thread. cbn. f_equal. lia.
Qed.
Lemma node_unlock w :
  node_proc (with_cur (fst (n_cur w), pred (snd (n_cur w))) w) = on_running unlock (node_proc w).
Proof.
  unfold node_proc, on_running, set_threads. cbn. rewrite alter_insert_eq. do 2 f_equal.
  unfold unlock, as_thread. cbn. f_equal. lia.
Qed.

Lemma node_left w : as_thread <$> threads_left w = without_locked (node_proc w).
Proof.
  unfold threads_left, without_locked. cbn. rewrite lookup_insert_eq. cbn.
  destruct (n_cur w) as [n k]. cbn. destruct k as [|k]; cbn.
  - by rewrite fmap_insert.
  - by rewrite fmap_delete delete_insert_eq.
Qed.

Lemma node_start w : started (node_proc w) (node_proc (goroutine_start w)).
Proof.
  unfold node_proc at 2. cbn. rewrite fmap_insert.
  apply (started_new (node_proc w)). cbn. rewrite -fmap_insert lookup_fmap.
  by rewrite (proj1 (not_elem_of_dom _ _) (is_fresh _)).
Qed.

Lemma node_end t w : resumed t (node_proc w) (node_proc (goroutine_end t w)).
Proof.
  cbn. unfold run_on. destruct (threads_left w !! t) as [[n k]|] eqn:E.
  - assert (without_locked (node_proc w) !! t = Some (as_thread (n, k))) as Ht
      by by rewrite -node_left lookup_fmap E.
    unfold node_proc at 2. cbn. rewrite -fmap_insert insert_id; [|done]. rewrite node_left.
    destruct k as [|k]; [apply (resumed_idle t (node_proc w) t n)|].
    + rewrite Ht. by intros th [= <-].
    + done.
    + by apply (resumed_locked t (node_proc w) (as_thread (n, S k))).
  - unfold node_proc at 2. cbn. rewrite node_left. apply (resumed_new t (node_proc w)).
    + rewrite -node_left lookup_fmap E. by intros.
    + rewrite -node_left lookup_fmap. by rewrite (proj1 (not_elem_of_dom _ _) (is_fresh _)).
Qed.

#[export] Instance node_laws : NsLaws Node.
Proof.
  refine {| proc := node_proc; start_law := node_start; end_law := node_end |}; cbn [on_thread node_os].
  - done.
  - intros w. eexists. apply lookup_insert_eq.
  - intros w t th. cbn. rewrite -fmap_insert lookup_fmap. destruct (_ !! t); [|done].
    intros [= <-]. cbn. lia.
  - intros path w r w'. cbn. by destruct (find_path path w); intros [= <- <-].
  - by intros w r w' [= <- <-].
  - by intros w r w' [= <- <-].
  - intros path w r w'. cbn. destruct (find_path path w) as [n|] eqn:E; intros [= <- <-]; [|done].
    split; [apply not_elem_of_dom, is_fresh|]. exists n. split; [done|].
    intros t th -> Hth. rewrite (find_path_thread w t th Hth) in E. congruence.
  - intros fd w r w'. cbn. destruct (n_open w !! fd); intros [= <- <-]; [by right|by left].
  - intros fd flags w r w'. cbn. destruct (n_open w !! fd) as [n|] eqn:E; intros [= <- <-]; [|done].
    exists n. split; [done|]. apply node_enter.
  - intros flags w r w' [= <- <-]. eexists. split; [|apply node_enter].
    intros t th Hth Heq. eapply (infinite_is_fresh (t_ns ∘ snd <$> map_to_list (threads (node_proc w)))).
    apply list_elem_of_fmap. exists (t, th). split; [|by apply elem_of_map_to_list].
    symmetry. exact Heq.
  - intros w r w' [= <- <-]. split; [done|apply node_lock].
  - intros w r w' [= <- <-]. split; [done|apply node_unlock].
Defined.

(** ** Witnesses

    A goroutine locked to thread 1, in namespace 20, and a thread with nothing to do in
    the home namespace 10; the namespace 30 has a name, and the object 1 stands for it. *)
Definition process : Node :=
  mkNode 10 1 (20, 1%nat) {[ 2 := (10, 0%nat) ]} {[ 5 := 30 ]} [("/run/netns/red", 30)].
Definition red : netNS.t := netNS.mk (mkFile 5 "/run/netns/red") false.
Definition at_work : Heap * Node := ({[ 1%positive := red ]}, process).

Definition result {A} (x : res A * (Heap * Node)) : res A := fst x.
Definition world {A} (x : res A * (Heap * Node)) : Heap * Node := snd x.

(** The function that is run switches its thread away, to its caller's namespace. *)
Lemma Do_safe_witness :
  let after := Do 1%positive Set_ at_work in
  result after = Ok tt ∧ safe (proc at_work.2) (proc (world after).2).
Proof.
  intros after. split; [vm_compute; reflexivity|].
  exact (Do_safe 1%positive Set_ at_work (result after) (world after) Set_behaved (surjective_pairing after)).
Defined.

Lemma Do_runs_inside_witness : ran_inside (W := Node) 30 20 Set_.
Proof.
  refine (Do_runs_inside 1%positive Set_ at_work (world (Do 1%positive Set_ at_work)) 30 (mkThread 20 1)
    Set_behaved _ _ _); [|vm_compute; reflexivity..].
  exists red. vm_compute. done.
Defined.

Lemma TempNetNS_spec_witness :
  let after := TempNetNS (W := Node) ({[ 1%positive := red ]}, process) in
  result after = Ok 3%positive ∧ safe (proc at_work.2) (proc (world after).2) ∧
  ∃ n, stands_for (world after).1 (proc (world after).2) 3%positive n
    ∧ ∀ t th, threads (proc at_work.2) !! t = Some th → t_ns th ≠ n.
Proof.
  intros after. assert (result after = Ok 3%positive) as Hok by (vm_compute; reflexivity).
  destruct (TempNetNS_spec at_work (result after) (world after) (surjective_pairing after)) as [Hsafe Hnew].
  split; [exact Hok|]. split; [exact Hsafe|]. exact (proj2 (Hnew _ Hok)).
Defined.
