(* ===== verification/DeepCopy.v ===== *)
(** * Deep copies of the resources (api/v1alpha1/zz_generated.deepcopy.go)

    The controller reads the resources from a cache that hands out copies; what is
    asked of a copy is that it has the same content and shares no memory with the
    original.  Memory is explicit here: pointers and slices lead to cells of a heap.

    A struct is a record over what stands in its pointer fields: [Neighbor.t Pointer] is
    the struct the program has, [Neighbor.t option] its content, with everything the
    pointers lead to in place.  A [DeepCopyInto] takes the value of [*in] and returns the
    one of [*out]; cells it makes, and elements of arrays, are written one by one. *)

From S2P Require Import Prelude.

(** ** Memory *)
Notation loc := positive.

(** A pointer; [nil] is [None]. *)
Definition Pointer (A : Type) : Type := option loc.
(** A slice that is not [nil]: [length] elements of an array from [offset] on. *)
Record SliceHeader (A : Type) := mkSlice { array : loc; offset : nat; length_ : nat }.
Arguments mkSlice {A}.
Arguments array {A}.
Arguments offset {A}.
Arguments length_ {A}.
Definition Slice (A : Type) : Type := option (SliceHeader A).
(** What stands in the place of a slice in the content. *)
Definition content (A : Type) : Type := option (list A).

(** The metadata types of Kubernetes are not part of the repository: their structs, the
    content of these and what their pointers lead to are left open. *)
Class MetaTypes := {
  TypeMeta : Type;
  ObjectMeta : Type;
  ObjectMetaContent : Type;
  ListMeta : Type;
  ListMetaContent : Type;
  MetaCell : Type;
  zeroTypeMeta : TypeMeta;
  zeroObjectMeta : ObjectMeta;
  zeroListMeta : ListMeta }.

(** ** The structs *)
Module Neighbor.
Record t (P : Type → Type) := mk {
  ASN : Z;
  Address : string;
  Port : P Z;
  Password : string;
  PasswordSecret : string;
  HoldTime : P Z;
  KeepaliveTime : P Z;
  ConnectTime : P Z;
  EBGPMultiHop : bool;
  BFDProfile : string }.
Arguments mk {P}.
Arguments ASN {P}.
Arguments Address {P}.
Arguments Port {P}.
Arguments Password {P}.
Arguments PasswordSecret {P}.
Arguments HoldTime {P}.
Arguments KeepaliveTime {P}.
Arguments ConnectTime {P}.
Arguments EBGPMultiHop {P}.
Arguments BFDProfile {P}.
Definition zero : t Pointer := mk 0%Z "" None "" "" None None None false "".
End Neighbor.

Module UnderlaySpec.
Record t (N : Type) := mk { ASN : Z; VTEPCIDR : string; Neighbors : N; Nic : string }.
Arguments mk {N}.
Arguments ASN {N}.
Arguments VTEPCIDR {N}.
Arguments Neighbors {N}.
Arguments Nic {N}.
End UnderlaySpec.

Module VNISpec.
Record t := mk {
  ASN : Z; VRF : string; LocalASN : Z; VNI : Z; LocalCIDR : string; VXLanPort : Z }.
Definition zero : t := mk 0%Z "" 0%Z 0%Z "" 0%Z.
End VNISpec.

(** Both status structs are empty. *)
Definition UnderlayStatus : Type := unit.
Definition VNIStatus : Type := unit.

(** [Underlay] and [VNI]. *)
Module Resource.
Record t (T M S U : Type) := mk { Type_ : T; Meta : M; Spec : S; Status : U }.
Arguments mk {T M S U}.
Arguments Type_ {T M S U}.
Arguments Meta {T M S U}.
Arguments Spec {T M S U}.
Arguments Status {T M S U}.
End Resource.

(** [UnderlayList] and [VNIList]. *)
Module ResourceList.
Record t (T M I : Type) := mk { Type_ : T; Meta : M; Items : I }.
Arguments mk {T M I}.
Arguments Type_ {T M I}.
Arguments Meta {T M I}.
Arguments Items {T M I}.
End ResourceList.

(** ** Cells *)
Section types.
Context `{MetaTypes}.
Definition UnderlaySpec : Type := UnderlaySpec.t (Slice (Neighbor.t Pointer)).
Definition Underlay : Type := Resource.t TypeMeta ObjectMeta UnderlaySpec UnderlayStatus.
Definition UnderlayList : Type := ResourceList.t TypeMeta ListMeta (Slice Underlay).
Definition VNI : Type := Resource.t TypeMeta ObjectMeta VNISpec.t VNIStatus.
Definition VNIList : Type := ResourceList.t TypeMeta ListMeta (Slice VNI).

Definition zeroUnderlaySpec : UnderlaySpec := UnderlaySpec.mk 0%Z "" None "".
Definition zeroUnderlay : Underlay := Resource.mk zeroTypeMeta zeroObjectMeta zeroUnderlaySpec tt.
Definition zeroUnderlayList : UnderlayList := ResourceList.mk zeroTypeMeta zeroListMeta None.
Definition zeroVNI : VNI := Resource.mk zeroTypeMeta zeroObjectMeta VNISpec.zero tt.
Definition zeroVNIList : VNIList := ResourceList.mk zeroTypeMeta zeroListMeta None.

(** What a pointer or the array of a slice leads to. *)
Inductive cell :=
  | CInt (n : Z)
  | CNeighbor (x : Neighbor.t Pointer)
  | CNeighbors (xs : list (Neighbor.t Pointer))
  | CUnderlaySpec (x : UnderlaySpec)
  | CUnderlay (x : Underlay)
  | CUnderlays (xs : list Underlay)
  | CUnderlayList (x : UnderlayList)
  | CVNISpec (x : VNISpec.t)
  | CVNI (x : VNI)
  | CVNIs (xs : list VNI)
  | CVNIList (x : VNIList)
  | CStatus (x : unit)
  | CMeta (x : MetaCell).
End types.
Notation Heap := (gmap loc cell).

(** The types that cells are of, with their zero values. *)
Class Boxed `{MetaTypes} (A : Type) := {
  box : A → cell;
  unbox : cell → option A;
  zero : A;
  unbox_box a : unbox (box a) = Some a }.

Section boxed.
Context `{MetaTypes}.
#[local] Ltac boxed b u z := refine {| box := b; unbox := u; zero := z |}; done.
#[export] Instance boxed_int : Boxed Z.
Proof. boxed CInt (λ c, match c with CInt x => Some x | _ => None end) 0%Z. Defined.
#[export] Instance boxed_neighbor : Boxed (Neighbor.t Pointer).
Proof. boxed CNeighbor (λ c, match c with CNeighbor x => Some x | _ => None end) Neighbor.zero. Defined.
#[export] Instance boxed_neighbors : Boxed (list (Neighbor.t Pointer)).
Proof. boxed CNeighbors (λ c, match c with CNeighbors x => Some x | _ => None end) (@nil (Neighbor.t Pointer)). Defined.
#[export] Instance boxed_underlay_spec : Boxed UnderlaySpec.
Proof. boxed CUnderlaySpec (λ c, match c with CUnderlaySpec x => Some x | _ => None end) zeroUnderlaySpec. Defined.
#[export] Instance boxed_underlay : Boxed Underlay.
Proof. boxed CUnderlay (λ c, match c with CUnderlay x => Some x | _ => None end) zeroUnderlay. Defined.
#[export] Instance boxed_underlays : Boxed (list Underlay).
Proof. boxed CUnderlays (λ c, match c with CUnderlays x => Some x | _ => None end) (@nil Underlay). Defined.
#[export] Instance boxed_underlay_list : Boxed UnderlayList.
Proof. boxed CUnderlayList (λ c, match c with CUnderlayList x => Some x | _ => None end) zeroUnderlayList. Defined.
#[export] Instance boxed_vni_spec : Boxed VNISpec.t.
Proof. boxed CVNISpec (λ c, match c with CVNISpec x => Some x | _ => None end) VNISpec.zero. Defined.
#[export] Instance boxed_vni : Boxed VNI.
Proof. boxed CVNI (λ c, match c with CVNI x => Some x | _ => None end) zeroVNI. Defined.
#[export] Instance boxed_vnis : Boxed (list VNI).
Proof. boxed CVNIs (λ c, match c with CVNIs x => Some x | _ => None end) (@nil VNI). Defined.
#[export] Instance boxed_vni_list : Boxed VNIList.
Proof. boxed CVNIList (λ c, match c with CVNIList x => Some x | _ => None end) zeroVNIList. Defined.
#[export] Instance boxed_status : Boxed unit.
Proof. boxed CStatus (λ c, match c with CStatus x => Some x | _ => None end) tt. Defined.
End boxed.

(** The deep copies of the metadata structs. *)
Class MetaCopies `{MetaTypes} := {
  ObjectMeta_DeepCopyInto : ObjectMeta → go Heap ObjectMeta;
  ListMeta_DeepCopyInto : ListMeta → go Heap ListMeta }.

Section copies.
Context `{MetaCopies}.

Definition alloc (c : cell) : go Heap loc := λ h, let l := fresh (dom h) in (Ok l, <[l := c]> h).
Definition write (l : loc) (c : cell) : go Heap unit := λ h, (Ok tt, <[l := c]> h).
Definition read {A} `{!Boxed A} (l : loc) : go Heap A := λ h,
  match h !! l ≫= unbox with Some a => (Ok a, h) | None => (Panic, h) end.

(** [*out = new(T); **out = **in], for a pointer that is not [nil]. *)
Definition copy_pointer {A} `{!Boxed A} (p : Pointer A) : go Heap (Pointer A) :=
  match p with
  | None => mret None
  | Some l => q ← alloc (box (zero (A := A)));
              x ← read (A := A) l;
              _ ← write q (box x);
              mret (Some q)
  end.

(** [s[i]]. *)
Definition element {A} `{!Boxed (list A)} (s : SliceHeader A) (i : nat) : go Heap A :=
  xs ← read (A := list A) (array s);
  match xs !! (offset s + i)%nat with
  | Some x => if decide (i < length_ s)%nat then mret x else lift Panic
  | None => lift Panic
  end.
Definition set_element {A} `{!Boxed (list A)} (s : SliceHeader A) (i : nat) (x : A) : go Heap unit :=
  xs ← read (A := list A) (array s);
  if decide (i < length_ s ∧ offset s + i < length xs)%nat
  then write (array s) (box (<[(offset s + i)%nat := x]> xs)) else lift Panic.

(** A new array, of the length of the slice, into whose elements the slice's elements are
    copied in their order. *)
Definition copy_slice {A} `{!Boxed A, !Boxed (list A)} (into : A → go Heap A) (s : Slice A) : go Heap (Slice A) :=
  match s with
  | None => mret None
  | Some s =>
      q ← alloc (box (replicate (length_ s) (zero (A := A))));
      let out := mkSlice q 0 (length_ s) in
      _ ← forM_ (λ i, x ← element s i; y ← into x; set_element out i y) (seq 0 (length_ s));
      mret (Some out)
  end.

(** [if in == nil { return nil }; out := new(T); in.DeepCopyInto(out); return out]. *)
Definition deep_copy {A} `{!Boxed A} (into : A → go Heap A) (p : Pointer A) : go Heap (Pointer A) :=
  match p with
  | None => mret None
  | Some l => out ← alloc (box (zero (A := A)));
              x ← read l;
              y ← into x;
              _ ← write out (box y);
              mret (Some out)
  end.

(** ** The generated functions *)
Definition Neighbor_DeepCopyInto (x : Neighbor.t Pointer) : go Heap (Neighbor.t Pointer) :=
  port ← copy_pointer (Neighbor.Port x);
  holdTime ← copy_pointer (Neighbor.HoldTime x);
  keepaliveTime ← copy_pointer (Neighbor.KeepaliveTime x);
  connectTime ← copy_pointer (Neighbor.ConnectTime x);
  mret (Neighbor.mk (Neighbor.ASN x) (Neighbor.Address x) port (Neighbor.Password x)
          (Neighbor.PasswordSecret x) holdTime keepaliveTime connectTime
          (Neighbor.EBGPMultiHop x) (Neighbor.BFDProfile x)).
Definition Neighbor_DeepCopy : Pointer (Neighbor.t Pointer) → go Heap (Pointer (Neighbor.t Pointer)) :=
  deep_copy Neighbor_DeepCopyInto.

Definition UnderlaySpec_DeepCopyInto (x : UnderlaySpec) : go Heap UnderlaySpec :=
  neighbors ← copy_slice Neighbor_DeepCopyInto (UnderlaySpec.Neighbors x);
  mret (UnderlaySpec.mk (UnderlaySpec.ASN x) (UnderlaySpec.VTEPCIDR x) neighbors (UnderlaySpec.Nic x)).
Definition UnderlaySpec_DeepCopy : Pointer UnderlaySpec → go Heap (Pointer UnderlaySpec) :=
  deep_copy UnderlaySpec_DeepCopyInto.

Definition UnderlayStatus_DeepCopyInto (x : UnderlayStatus) : go Heap UnderlayStatus := mret x.
Definition UnderlayStatus_DeepCopy : Pointer UnderlayStatus → go Heap (Pointer UnderlayStatus) :=
  deep_copy UnderlayStatus_DeepCopyInto.

Definition Underlay_DeepCopyInto (x : Underlay) : go Heap Underlay :=
  meta ← ObjectMeta_DeepCopyInto (Resource.Meta x);
  spec ← UnderlaySpec_DeepCopyInto (Resource.Spec x);
  mret (Resource.mk (Resource.Type_ x) meta spec (Resource.Status x)).
Definition Underlay_DeepCopy : Pointer Underlay → go Heap (Pointer Underlay) :=
  deep_copy Underlay_DeepCopyInto.

Definition UnderlayList_DeepCopyInto (x : UnderlayList) : go Heap UnderlayList :=
  meta ← ListMeta_DeepCopyInto (ResourceList.Meta x);
  items ← copy_slice Underlay_DeepCopyInto (ResourceList.Items x);
  mret (ResourceList.mk (ResourceList.Type_ x) meta items).
Definition UnderlayList_DeepCopy : Pointer UnderlayList → go Heap (Pointer UnderlayList) :=
  deep_copy UnderlayList_DeepCopyInto.

Definition VNISpec_DeepCopyInto (x : VNISpec.t) : go Heap VNISpec.t := mret x.
Definition VNISpec_DeepCopy : Pointer VNISpec.t → go Heap (Pointer VNISpec.t) :=
  deep_copy VNISpec_DeepCopyInto.

Definition VNIStatus_DeepCopyInto (x : VNIStatus) : go Heap VNIStatus := mret x.
Definition VNIStatus_DeepCopy : Pointer VNIStatus → go Heap (Pointer VNIStatus) :=
  deep_copy VNIStatus_DeepCopyInto.

Definition VNI_DeepCopyInto (x : VNI) : go Heap VNI :=
  meta ← ObjectMeta_DeepCopyInto (Resource.Meta x);
  mret (Resource.mk (Resource.Type_ x) meta (Resource.Spec x) (Resource.Status x)).
Definition VNI_DeepCopy : Pointer VNI → go Heap (Pointer VNI) := deep_copy VNI_DeepCopyInto.

Definition VNIList_DeepCopyInto (x : VNIList) : go Heap VNIList :=
  meta ← ListMeta_DeepCopyInto (ResourceList.Meta x);
  items ← copy_slice VNI_DeepCopyInto (ResourceList.Items x);
  mret (ResourceList.mk (ResourceList.Type_ x) meta items).
Definition VNIList_DeepCopy : Pointer VNIList → go Heap (Pointer VNIList) :=
  deep_copy VNIList_DeepCopyInto.

(** A value of the interface [runtime.Object]: [nil], or a type and a pointer (which
    could be [nil] itself). *)
Inductive Kind := KUnderlay | KUnderlayList | KVNI | KVNIList.
Definition Object : Type := option (Kind * option loc).

Definition as_object (k : Kind) (c : option loc) : Object :=
  if decide (c = None) then None else Some (k, c).
Definition Underlay_DeepCopyObject (p : Pointer Underlay) : go Heap Object :=
  c ← Underlay_DeepCopy p; mret (as_object KUnderlay c).
Definition UnderlayList_DeepCopyObject (p : Pointer UnderlayList) : go Heap Object :=
  c ← UnderlayList_DeepCopy p; mret (as_object KUnderlayList c).
Definition VNI_DeepCopyObject (p : Pointer VNI) : go Heap Object :=
  c ← VNI_DeepCopy p; mret (as_object KVNI c).
Definition VNIList_DeepCopyObject (p : Pointer VNIList) : go Heap Object :=
  c ← VNIList_DeepCopy p; mret (as_object KVNIList c).
End copies.

(** ** Content

    [rep h a v P]: in the heap [h] the value [a] has the content [v], and what it leads to
    is in cells of [P]. *)
Section content.
Context `{MetaTypes}.

(** The cells of [P] are kept. *)
Definition kept (P : loc → Prop) (h h' : Heap) : Prop :=
  ∀ l c, P l → h !! l = Some c → h' !! l = Some c.

Class Content (A V : Type) := {
  rep : Heap → A → V → (loc → Prop) → Prop;
  rep_kept h h' a v P P' : rep h a v P → kept P h h' → (∀ l, P l → P' l) → rep h' a v P' }.

Definition rep_pointer {A} `{!Boxed A} (h : Heap) (p : Pointer A) (o : option A) (P : loc → Prop) : Prop :=
  match p, o with
  | None, None => True
  | Some l, Some x => P l ∧ h !! l = Some (box x)
  | _, _ => False
  end.
Definition rep_slice {A V} `{!Boxed (list A), !Content A V} (h : Heap) (s : Slice A) (vs : content V)
    (P : loc → Prop) : Prop :=
  match s, vs with
  | None, None => True
  | Some s, Some vs =>
      P (array s) ∧ length_ s = length vs ∧ ∃ xs, h !! array s = Some (box xs)
      ∧ ∀ i v, vs !! i = Some v → ∃ x, xs !! (offset s + i)%nat = Some x ∧ rep h x v P
  | _, _ => False
  end.

Lemma rep_pointer_kept {A} `{!Boxed A} h h' (p : Pointer A) o P P' :
  rep_pointer h p o P → kept P h h' → (∀ l, P l → P' l) → rep_pointer h' p o P'.
Proof. destruct p, o; cbn; [|done..]. intros [HP Hl] Hk HP'. split; [by apply HP'|by apply Hk]. Qed.
Lemma rep_slice_kept {A V} `{!Boxed (list A), !Content A V} h h' (s : Slice A) vs P P' :
  rep_slice h s vs P → kept P h h' → (∀ l, P l → P' l) → rep_slice h' s vs P'.
Proof.
  destruct s as [s|], vs as [vs|]; cbn; [|done..]. intros (HP & Hlen & xs & Hxs & Hall) Hk HP'.
  split_and!; [by apply HP'|done|]. exists xs. split; [by apply Hk|]. intros i v Hv.
  destruct (Hall i v Hv) as (x & Hx & Hrep). exists x. split; [done|exact (rep_kept _ _ _ _ _ _ Hrep Hk HP')].
Qed.

(** A value that leads nowhere is its own content. *)
#[local] Ltac flat := refine {| rep := λ _ x v _, x = v |}; done.
#[export] Instance content_unit : Content unit unit.
Proof. flat. Defined.
#[export] Instance content_vni_spec : Content VNISpec.t VNISpec.t.
Proof. flat. Defined.

#[export, refine] Instance content_neighbor : Content (Neighbor.t Pointer) (Neighbor.t option) := {
  rep h x v P :=
    Neighbor.ASN x = Neighbor.ASN v ∧ Neighbor.Address x = Neighbor.Address v
    ∧ rep_pointer h (Neighbor.Port x) (Neighbor.Port v) P
    ∧ Neighbor.Password x = Neighbor.Password v ∧ Neighbor.PasswordSecret x = Neighbor.PasswordSecret v
    ∧ rep_pointer h (Neighbor.HoldTime x) (Neighbor.HoldTime v) P
    ∧ rep_pointer h (Neighbor.KeepaliveTime x) (Neighbor.KeepaliveTime v) P
    ∧ rep_pointer h (Neighbor.ConnectTime x) (Neighbor.ConnectTime v) P
    ∧ Neighbor.EBGPMultiHop x = Neighbor.EBGPMultiHop v ∧ Neighbor.BFDProfile x = Neighbor.BFDProfile v }.
Proof. intros. destruct_and!. split_and!; eauto using rep_pointer_kept. Defined.

Definition UnderlaySpecContent : Type := UnderlaySpec.t (content (Neighbor.t option)).
#[export, refine] Instance content_underlay_spec : Content UnderlaySpec UnderlaySpecContent := {
  rep h x v P :=
    UnderlaySpec.ASN x = UnderlaySpec.ASN v ∧ UnderlaySpec.VTEPCIDR x = UnderlaySpec.VTEPCIDR v
    ∧ rep_slice h (UnderlaySpec.Neighbors x) (UnderlaySpec.Neighbors v) P
    ∧ UnderlaySpec.Nic x = UnderlaySpec.Nic v }.
Proof. intros. destruct_and!. split_and!; eauto using rep_slice_kept. Defined.

#[export, refine] Instance content_resource {M MV S SV} `{!Content M MV, !Content S SV} :
    Content (Resource.t TypeMeta M S unit) (Resource.t TypeMeta MV SV unit) := {
  rep h x v P :=
    Resource.Type_ x = Resource.Type_ v ∧ rep h (Resource.Meta x) (Resource.Meta v) P
    ∧ rep h (Resource.Spec x) (Resource.Spec v) P ∧ Resource.Status x = Resource.Status v }.
Proof. intros. destruct_and!. split_and!; eauto using rep_kept. Defined.

#[export, refine] Instance content_list {M MV A V} `{!Boxed (list A), !Content M MV, !Content A V} :
    Content (ResourceList.t TypeMeta M (Slice A)) (ResourceList.t TypeMeta MV (content V)) := {
  rep h x v P :=
    ResourceList.Type_ x = ResourceList.Type_ v ∧ rep h (ResourceList.Meta x) (ResourceList.Meta v) P
    ∧ rep_slice h (ResourceList.Items x) (ResourceList.Items v) P }.
Proof. intros. destruct_and!. split_and!; eauto using rep_kept, rep_slice_kept. Defined.

(** What a pointer to a struct has as its content. *)
Definition rep_at {A V} `{!Boxed A, !Content A V} (h : Heap) (l : loc) (v : V) (P : loc → Prop) : Prop :=
  P l ∧ ∃ a, h !! l = Some (box a) ∧ rep h a v P.

Lemma rep_at_kept {A V} `{!Boxed A, !Content A V} h h' l v P P' :
  rep_at h l v P → kept P h h' → (∀ l, P l → P' l) → rep_at h' l v P'.
Proof.
  intros (HP & a & Ha & Hrep) Hk HP'. split; [by apply HP'|]. exists a.
  split; [by apply Hk|exact (rep_kept _ _ _ _ _ _ Hrep Hk HP')].
Qed.
End content.

(** ** Copies *)
Section copying.
Context `{MetaTypes}.

(** The program makes a value, without touching the cells there were. *)
Definition makes {A} (m : go Heap A) (h : Heap) (Q : A → Heap → Prop) : Prop :=
  ∃ a h', m h = (Ok a, h') ∧ h ⊆ h' ∧ Q a h'.

(** The cells that a heap does not have. *)
Definition unused (h : Heap) : loc → Prop := λ l, h !! l = None.

(** A function that copies: the result has the same content and leads to new cells only. *)
Definition copies {A V} `{!Content A V} (f : A → go Heap A) : Prop :=
  ∀ h x v P, rep h x v P → makes (f x) h (λ y h', rep h' y v (unused h)).

Lemma makes_ret {A} (a : A) h (Q : A → Heap → Prop) : Q a h → makes (mret a) h Q.
Proof. intros HQ. by exists a, h. Qed.
Lemma makes_bind {A B} (m : go Heap A) (f : A → go Heap B) h Q :
  makes m h (λ a h1, makes (f a) h1 Q) → makes (m ≫= f) h Q.
Proof.
  intros (a & h1 & Hm & Hle & b & h2 & Hf & Hle' & HQ). exists b, h2.
  unfold mbind, go_bind. rewrite Hm. split_and!; [done|by trans h1|done].
Qed.
Lemma makes_mono {A} (m : go Heap A) h (Q Q' : A → Heap → Prop) :
  makes m h Q → (∀ a h', h ⊆ h' → Q a h' → Q' a h') → makes m h Q'.
Proof. intros (a & h' & Hm & Hle & HQ) Himp. exists a, h'. split_and!; [done..|by apply Himp]. Qed.

Lemma kept_sub P (h h' : Heap) : h ⊆ h' → kept P h h'.
Proof. intros Hle l c _ Hl. exact (lookup_weaken _ _ _ _ Hl Hle). Qed.
Lemma unused_sub (h h' : Heap) l : h ⊆ h' → unused h' l → unused h l.
Proof. intros Hle Hl. exact (lookup_weaken_None _ _ _ Hl Hle). Qed.

(** A copy that was made of new cells stays one when more is made. *)
Lemma rep_sub {A V} `{!Content A V} h h' x v P : rep h x v P → h ⊆ h' → rep h' x v P.
Proof. intros Hrep Hle. apply (rep_kept _ _ _ _ _ _ Hrep); [by apply kept_sub|done]. Qed.
Lemma rep_pointer_sub {A} `{!Boxed A} h h' (p : Pointer A) o P :
  rep_pointer h p o P → h ⊆ h' → rep_pointer h' p o P.
Proof. intros Hrep Hle. apply (rep_pointer_kept _ _ _ _ _ _ Hrep); [by apply kept_sub|done]. Qed.
Lemma rep_slice_sub {A V} `{!Boxed (list A), !Content A V} h h' (s : Slice A) vs P :
  rep_slice h s vs P → h ⊆ h' → rep_slice h' s vs P.
Proof. intros Hrep Hle. apply (rep_slice_kept _ _ _ _ _ _ Hrep); [by apply kept_sub|done]. Qed.
Lemma rep_later {A V} `{!Content A V} h0 h1 h x v :
  rep h x v (unused h1) → h0 ⊆ h1 → rep h x v (unused h0).
Proof. intros Hrep Hle. apply (rep_kept _ _ _ _ _ _ Hrep); [by intros ? ?|]. intros l. by apply unused_sub. Qed.
Lemma rep_pointer_later {A} `{!Boxed A} h0 h1 h h' (p : Pointer A) o :
  rep_pointer h p o (unused h1) → h0 ⊆ h1 → h ⊆ h' → rep_pointer h' p o (unused h0).
Proof.
  intros Hrep Hle Hle'. apply (rep_pointer_kept _ _ _ _ _ _ Hrep); [by apply kept_sub|].
  intros l. by apply unused_sub.
Qed.

Lemma read_box {A} `{!Boxed A} (h : Heap) l (a : A) : h !! l = Some (box a) → read l h = (Ok a, h).
Proof. intros Hl. unfold read. by rewrite Hl /= unbox_box. Qed.

Lemma copy_pointer_copies {A} `{!Boxed A} (p : Pointer A) o h P :
  rep_pointer h p o P → makes (copy_pointer p) h (λ q h', rep_pointer h' q o (unused h)).
Proof.
  destruct p as [l|], o as [x|]; [|done..|by intros; apply makes_ret]. intros [_ Hl].
  set (q := fresh (dom h)). assert (h !! q = None) as Hq by apply not_elem_of_dom, is_fresh.
  exists (Some q), (<[q := box x]> h). split_and!.
  - cbn. unfold mbind, go_bind, alloc, write. fold q. rewrite (read_box _ l x).
    + by rewrite insert_insert_eq.
    + rewrite lookup_insert_ne; congruence.
  - by apply insert_subseteq.
  - split; [exact Hq|apply lookup_insert_eq].
Qed.

(** The loop over the elements of a slice; [q] is the new array. *)
Section loop.
Context {A V} `{!Boxed A, !Boxed (list A), !Content A V}.
Context (into : A → go Heap A) (s : SliceHeader A) (vs : list V) (q : loc) (h : Heap) (P : loc → Prop).

Definition copied (n : nat) (g : Heap) : Prop :=
  h ⊆ g ∧ ∃ ys, g !! q = Some (box ys) ∧ length ys = length vs
  ∧ ∀ j v, (j < n)%nat → vs !! j = Some v → ∃ y, ys !! j = Some y ∧ rep g y v (λ l, unused h l ∧ l ≠ q).
Definition copy_element (i : nat) : go Heap unit :=
  x ← element s i; y ← into x; set_element (mkSlice q 0 (length_ s)) i y.

Lemma copy_element_copies i g :
  copies into → rep_slice h (Some s) (Some vs) P → unused h q → (i < length vs)%nat → copied i g →
  ∃ g', copy_element i g = (Ok tt, g') ∧ copied (S i) g'.
Proof.
  intros Hinto (_ & Hlen & xs & Hxs & Hall) Hq Hi [Hle (ys & Hys & Hlys & Hdone)].
  destruct (lookup_lt_is_Some_2 vs i Hi) as [v Hv]. destruct (Hall i v Hv) as (x & Hx & Hrep).
  destruct (Hinto _ _ _ _ (rep_sub _ _ _ _ _ Hrep Hle)) as (y & g1 & Hy & Hle1 & Hrep1).
  pose proof (lookup_weaken _ _ _ _ Hys Hle1) as Hys1.
  exists (<[q := box (<[i := y]> ys)]> g1). split; [|split; [|exists (<[i := y]> ys); split_and!]].
  - unfold copy_element, element, set_element, mbind, go_bind.
    rewrite (read_box _ _ xs (lookup_weaken _ _ _ _ Hxs Hle)) Hx decide_True; [|lia]. cbn [array mret go_ret].
    rewrite Hy (read_box _ _ ys Hys1) /= decide_True; [done|]. cbn. lia.
  - apply insert_subseteq_r; [exact Hq|by trans g].
  - apply lookup_insert_eq.
  - by rewrite length_insert.
  - intros j w Hj Hw. destruct (decide (j = i)) as [->|Hne].
    + exists y. assert (w = v) as -> by congruence. split; [apply list_lookup_insert_eq; lia|].
      apply (rep_kept _ _ _ _ _ _ Hrep1).
      * intros l c Hl Hc. rewrite lookup_insert_ne; [done|]. intros ->. unfold unused in Hl. congruence.
      * intros l Hl. split; [exact (unused_sub _ _ _ Hle Hl)|]. intros ->. unfold unused in Hl. congruence.
    + destruct (Hdone j w) as (y' & Hy' & Hrep'); [lia|done|]. exists y'.
      split; [rewrite list_lookup_insert_ne; [done|congruence]|]. apply (rep_kept _ _ _ _ _ _ Hrep'); [|done].
      intros l c [_ Hl] Hc. rewrite lookup_insert_ne; [|congruence]. exact (lookup_weaken _ _ _ _ Hc Hle1).
Qed.

Lemma copy_elements_copy k i g :
  copies into → rep_slice h (Some s) (Some vs) P → unused h q → (i + k = length vs)%nat → copied i g →
  ∃ g', forM_ copy_element (seq i k) g = (Ok tt, g') ∧ copied (length vs) g'.
Proof.
  intros Hinto Hrep Hq. revert i g. induction k as [|k IH]; intros i g Hik Hc.
  - exists g. split; [done|]. by replace (length vs) with i by lia.
  - destruct (copy_element_copies i g) as (g1 & Hg1 & Hc1); [done..|lia|done|].
    destruct (IH (S i) g1) as (g2 & Hg2 & Hc2); [lia|done|]. exists g2. split; [|done].
    cbn. unfold mbind, go_bind. by rewrite Hg1.
Qed.
End loop.

Lemma copy_slice_copies {A V} `{!Boxed A, !Boxed (list A), !Content A V} (into : A → go Heap A) (s : Slice A) vs h P :
  copies into → rep_slice h s vs P → makes (copy_slice into s) h (λ t h', rep_slice h' t vs (unused h)).
Proof.
  intros Hinto. destruct s as [s|], vs as [vs|]; [|done..|by intros; apply makes_ret]. intros Hrep.
  set (q := fresh (dom h)). assert (unused h q) as Hq by apply not_elem_of_dom, is_fresh.
  set (g := <[q := box (replicate (length_ s) (zero (A := A)))]> h).
  destruct (proj2 Hrep) as [Hlen _].
  destruct (copy_elements_copy into s vs q h P (length_ s) 0 g) as (g' & Hg' & Hle & ys & Hys & Hlys & Hall);
    [done..| |].
  { split; [by apply insert_subseteq|]. exists (replicate (length_ s) zero).
    split_and!; [apply lookup_insert_eq|by rewrite length_replicate|]. intros; lia. }
  exists (Some (mkSlice q 0 (length_ s))), g'. split_and!; [|done|].
  - cbn [copy_slice]. unfold mbind, go_bind, alloc. fold q g. unfold copy_element in Hg'. by rewrite Hg'.
  - split_and!; [done..|]. exists ys. split; [done|]. intros i v Hv.
    destruct (Hall i v) as (y & Hy & Hrep'); [by apply lookup_lt_Some in Hv|done|]. exists y.
    split; [done|]. apply (rep_kept _ _ _ _ _ _ Hrep'); [by intros ? ?|]. by intros l [Hl _].
Qed.

Lemma deep_copy_copies {A V} `{!Boxed A, !Content A V} (into : A → go Heap A) l v h P :
  copies into → rep_at h l v P →
  makes (deep_copy into (Some l)) h (λ q h', ∃ l', q = Some l' ∧ rep_at h' l' v (unused h)).
Proof.
  intros Hinto (_ & x & Hx & Hrep).
  set (q := fresh (dom h)). assert (unused h q) as Hq by apply not_elem_of_dom, is_fresh.
  set (g := <[q := box (zero (A := A))]> h). assert (h ⊆ g) as Hle by by apply insert_subseteq.
  destruct (Hinto _ _ _ _ (rep_sub _ _ _ _ _ Hrep Hle)) as (y & g1 & Hy & Hle1 & Hrep1).
  exists (Some q), (<[q := box y]> g1). split_and!.
  - cbn [deep_copy]. unfold mbind, go_bind, alloc. fold q g.
    rewrite (read_box _ _ x (lookup_weaken _ _ _ _ Hx Hle)) Hy. done.
  - apply insert_subseteq_r; [exact Hq|by trans g].
  - exists q. split; [done|]. split; [done|]. exists y. split; [apply lookup_insert_eq|].
    apply (rep_kept _ _ _ _ _ _ Hrep1).
    + intros l' c Hl' Hc. rewrite lookup_insert_ne; [done|]. intros <-. unfold unused in Hl'.
      unfold g in Hl'. rewrite lookup_insert_eq in Hl'. done.
    + intros l'. by apply unused_sub.
Qed.
End copying.

(** ** The generated functions copy *)

(** What is documented of the copies of the metadata. *)
Class MetaLaws `{MetaCopies} := {
  objectMeta_content :: Content ObjectMeta ObjectMetaContent;
  listMeta_content :: Content ListMeta ListMetaContent;
  ObjectMeta_copies : copies ObjectMeta_DeepCopyInto;
  ListMeta_copies : copies ListMeta_DeepCopyInto }.

Section generated.
Context `{MetaLaws}.

Lemma Neighbor_copies : copies Neighbor_DeepCopyInto.
Proof.
  intros h x v P (HASN & Haddr & Hport & Hpw & Hps & Hhold & Hkeep & Hconn & Hm & Hb).
  unfold Neighbor_DeepCopyInto.
  apply makes_bind. eapply makes_mono; [exact (copy_pointer_copies _ _ _ _ Hport)|]. intros port h1 L1 R1.
  apply makes_bind. eapply makes_mono;
    [exact (copy_pointer_copies _ _ _ _ (rep_pointer_sub _ _ _ _ _ Hhold L1))|]. intros hold h2 L2 R2.
  assert (h ⊆ h2) as L12 by by trans h1.
  apply makes_bind. eapply makes_mono;
    [exact (copy_pointer_copies _ _ _ _ (rep_pointer_sub _ _ _ _ _ Hkeep L12))|]. intros keep h3 L3 R3.
  assert (h ⊆ h3) as L13 by by trans h2. assert (h1 ⊆ h3) as L23 by by trans h2.
  apply makes_bind. eapply makes_mono;
    [exact (copy_pointer_copies _ _ _ _ (rep_pointer_sub _ _ _ _ _ Hconn L13))|]. intros conn h4 L4 R4.
  apply makes_ret. split_and!; try done.
  - apply (rep_pointer_later h h h1 h4 _ _ R1); [done|by trans h3].
  - apply (rep_pointer_later h h1 h2 h4 _ _ R2); [done|by trans h3].
  - by apply (rep_pointer_later h h2 h3 h4 _ _ R3).
  - by apply (rep_pointer_later h h3 h4 h4 _ _ R4).
Qed.

Lemma UnderlaySpec_copies : copies UnderlaySpec_DeepCopyInto.
Proof.
  intros h x v P (HASN & Hcidr & Hnb & Hnic). apply makes_bind.
  eapply makes_mono; [exact (copy_slice_copies _ _ _ _ _ Neighbor_copies Hnb)|]. intros s h1 L1 R1.
  by apply makes_ret.
Qed.

Lemma status_copies : copies (A := unit) (V := unit) (λ x, mret x).
Proof. intros h x v P Hx. by apply makes_ret. Qed.
Lemma VNISpec_copies : copies VNISpec_DeepCopyInto.
Proof. intros h x v P Hx. by apply makes_ret. Qed.

Lemma Underlay_copies : copies Underlay_DeepCopyInto.
Proof.
  intros h x v P (Htype & Hmeta & Hspec & Hst). apply makes_bind.
  eapply makes_mono; [exact (ObjectMeta_copies _ _ _ _ Hmeta)|]. intros m h1 L1 R1. apply makes_bind.
  eapply makes_mono; [exact (UnderlaySpec_copies _ _ _ _ (rep_sub _ _ _ _ _ Hspec L1))|]. intros s h2 L2 R2.
  apply makes_ret. split; [done|]. split; [by apply (rep_sub h1)|].
  split; [by apply (rep_later h h1)|done].
Qed.

Lemma VNI_copies : copies VNI_DeepCopyInto.
Proof.
  intros h x v P (Htype & Hmeta & Hspec & Hst). apply makes_bind.
  eapply makes_mono; [exact (ObjectMeta_copies _ _ _ _ Hmeta)|]. intros m h1 L1 R1.
  by apply makes_ret.
Qed.

Lemma UnderlayList_copies : copies UnderlayList_DeepCopyInto.
Proof.
  intros h x v P (Htype & Hmeta & Hitems). apply makes_bind.
  eapply makes_mono; [exact (ListMeta_copies _ _ _ _ Hmeta)|]. intros m h1 L1 R1. apply makes_bind.
  eapply makes_mono; [exact (copy_slice_copies _ _ _ _ _ Underlay_copies (rep_slice_sub _ _ _ _ _ Hitems L1))|].
  intros s h2 L2 R2. apply makes_ret. split; [done|]. split; [by apply (rep_sub h1)|].
  apply (rep_slice_kept _ _ _ _ _ _ R2); [by intros ? ?|]. intros l. by apply unused_sub.
Qed.

Lemma VNIList_copies : copies VNIList_DeepCopyInto.
Proof.
  intros h x v P (Htype & Hmeta & Hitems). apply makes_bind.
  eapply makes_mono; [exact (ListMeta_copies _ _ _ _ Hmeta)|]. intros m h1 L1 R1. apply makes_bind.
  eapply makes_mono; [exact (copy_slice_copies _ _ _ _ _ VNI_copies (rep_slice_sub _ _ _ _ _ Hitems L1))|].
  intros s h2 L2 R2. apply makes_ret. split; [done|]. split; [by apply (rep_sub h1)|].
  apply (rep_slice_kept _ _ _ _ _ _ R2); [by intros ? ?|]. intros l. by apply unused_sub.
Qed.

(** [copy] makes of the object at [l] a separate one of the same content: in any heap with
    the copy's cells it still has it, whatever became of the cells there were before, and
    so has the original in any heap with the cells there were, whatever became of the
    new ones. *)
Definition separate {A V} `{!Boxed A, !Content A V} (l l' : loc) (v : V) (h h' : Heap) : Prop :=
  h ⊆ h' ∧ l ≠ l'
  ∧ (∀ g, kept (unused h) h' g → rep_at (A := A) g l' v (λ _, True))
  ∧ (∀ g, kept (λ l, is_Some (h !! l)) h' g → rep_at (A := A) g l v (λ _, True)).

Lemma deep_copy_separate {A V} `{!Boxed A, !Content A V} (into : A → go Heap A) l v h k :
  copies into → rep_at (A := A) h l v (λ l, is_Some (h !! l)) →
  ∃ l' h', (c ← deep_copy into (Some l); mret (as_object k c)) h = (Ok (Some (k, Some l')), h')
    ∧ separate (A := A) l l' v h h'.
Proof.
  intros Hinto Hrep.
  destruct (deep_copy_copies into l v h _ Hinto Hrep) as (q & h' & Hrun & Hle & l' & -> & Hrep').
  exists l', h'. split; [unfold mbind at 1, go_bind; by rewrite Hrun|]. split_and!; [done|..].
  - intros <-. destruct Hrep as [[c Hc] _], Hrep' as [Hl _]. unfold unused in Hl. congruence.
  - intros g Hg. by apply (rep_at_kept _ _ _ _ _ _ Hrep').
  - intros g Hg. apply (rep_at_kept _ _ _ _ _ _ Hrep); [|done]. intros c x Hc Hx.
    apply Hg; [done|]. exact (lookup_weaken _ _ _ _ Hx Hle).
Qed.
(** A function that gives such a copy of any object, and no object for [nil]. *)
Definition copies_object {A V} `{!Boxed A, !Content A V} (k : Kind) (f : Pointer A → go Heap Object) : Prop :=
  (∀ h, f None h = (Ok None, h)) ∧
  ∀ h l v, rep_at (A := A) (V := V) h l v (λ l, is_Some (h !! l)) →
    ∃ l' h', f (Some l) h = (Ok (Some (k, Some l')), h') ∧ separate (A := A) l l' v h h'.

(** C34. [DeepCopyObject] of each of the four resource types returns an object of its type
    with the content of the original (which fields are [nil] included) that shares no
    memory with it: changes of what the one leads to never show in the other.  For a
    [nil] pointer it returns the [nil] interface, not an interface that holds [nil]. *)
Theorem DeepCopyObject_separate :
  copies_object KUnderlay Underlay_DeepCopyObject ∧ copies_object KUnderlayList UnderlayList_DeepCopyObject
  ∧ copies_object KVNI VNI_DeepCopyObject ∧ copies_object KVNIList VNIList_DeepCopyObject.
Proof.
  split_and!; split; try done; intros h l v Hrep.
  - exact (deep_copy_separate _ l v h KUnderlay Underlay_copies Hrep).
  - exact (deep_copy_separate _ l v h KUnderlayList UnderlayList_copies Hrep).
  - exact (deep_copy_separate _ l v h KVNI VNI_copies Hrep).
  - exact (deep_copy_separate _ l v h KVNIList VNIList_copies Hrep).
Qed.
End generated.

(** ** A concrete kind of metadata: a name and labels behind a pointer *)
Record NameAndLabels := mkMeta { MetaName : string; MetaLabels : option loc }.
#[export] Instance sample_types : MetaTypes := {
  TypeMeta := string; ObjectMeta := NameAndLabels; ObjectMetaContent := string * option (list (string * string));
  ListMeta := string; ListMetaContent := string; MetaCell := list (string * string);
  zeroTypeMeta := ""; zeroObjectMeta := mkMeta "" None; zeroListMeta := "" }.

#[export] Instance boxed_labels : Boxed (list (string * string)).
Proof.
  refine {| box := (λ x, CMeta (x : MetaCell)); unbox := λ c, match c with CMeta x => Some x | _ => None end;
            zero := [] |}; done.
Defined.
#[export] Instance sample_copies : MetaCopies := {
  ObjectMeta_DeepCopyInto m :=
    labels ← copy_pointer (A := list (string * string)) (MetaLabels m); mret (mkMeta (MetaName m) labels);
  ListMeta_DeepCopyInto m := mret m }.

#[export] Instance sample_content : Content NameAndLabels (string * option (list (string * string))).
Proof.
  refine {| rep h x v P := MetaName x = fst v ∧ rep_pointer (A := list (string * string)) h (MetaLabels x) (snd v) P |}.
  intros h h' a v P P' [Hn Hl] Hk HP. split; [done|].
  exact (rep_pointer_kept (A := list (string * string)) _ _ _ _ _ _ Hl Hk HP).
Defined.
#[export] Instance sample_list_content : Content string string.
Proof. refine {| rep := λ _ x v _, x = v |}. done. Defined.

#[export] Instance sample_laws : MetaLaws.
Proof.
  refine {| objectMeta_content := sample_content; listMeta_content := sample_list_content |}.
  - intros h x v P [Hn Hl]. apply makes_bind.
    eapply makes_mono; [exact (copy_pointer_copies (A := list (string * string)) _ _ _ _ Hl)|].
    intros q h1 L1 R1. by apply makes_ret.
  - intros h x v P Hx. by apply makes_ret.
Defined.

(** A list of one underlay, with one neighbor that has a port and a hold time. *)
Definition the_neighbor : Neighbor.t Pointer :=
  Neighbor.mk 64512%Z "192.168.11.2" (Some 5%positive) "" "" (Some 6%positive) None None false "".
Definition the_underlay : Underlay :=
  Resource.mk "Underlay" (mkMeta "fabric" (Some 3%positive))
    (UnderlaySpec.mk 64514%Z "100.65.0.0/24" (Some (mkSlice 4 0 1)) "eth1") tt.
Definition the_list : UnderlayList := ResourceList.mk "UnderlayList" "7" (Some (mkSlice 2 1 1)).
Definition sample_heap : Heap :=
  list_to_map [
    (1%positive, CUnderlayList the_list);
    (2%positive, CUnderlays [zeroUnderlay; the_underlay]);
    (3%positive, CMeta [("zone", "a")]);
    (4%positive, CNeighbors [the_neighbor]);
    (5%positive, CInt 179%Z);
    (6%positive, CInt 180000000000%Z)].
Definition sample_list : ResourceList.t string string (content (Resource.t string
    (string * option (list (string * string))) UnderlaySpecContent unit)) :=
  ResourceList.mk "UnderlayList" "7" (Some [Resource.mk "Underlay" ("fabric", Some [("zone", "a")])
    (UnderlaySpec.mk 64514%Z "100.65.0.0/24"
       (Some [Neighbor.mk 64512%Z "192.168.11.2" (Some 179%Z) "" "" (Some 180000000000%Z) None None false ""])
       "eth1") tt]).

Lemma DeepCopyObject_separate_witness :
  rep_at (A := UnderlayList) sample_heap 1%positive sample_list (λ l, is_Some (sample_heap !! l))
  ∧ ∃ l' h', UnderlayList_DeepCopyObject (Some 1%positive) sample_heap = (Ok (Some (KUnderlayList, Some l')), h')
    ∧ separate (A := UnderlayList) 1%positive l' sample_list sample_heap h'.
Proof.
  assert (rep_at (A := UnderlayList) sample_heap 1%positive sample_list (λ l, is_Some (sample_heap !! l))) as Hrep.
  { split; [by eexists|]. exists the_list. split; [vm_compute; reflexivity|]. split; [reflexivity|]. split; [reflexivity|].
    split; [by eexists|]. split; [reflexivity|]. exists [zeroUnderlay; the_underlay]. split; [reflexivity|].
    intros [|i] v Hv; [|by destruct i]. injection Hv as <-. exists the_underlay. split; [reflexivity|].
    split; [reflexivity|]. split; [split; [reflexivity|split; [by eexists|reflexivity]]|]. split; [|reflexivity].
    split; [reflexivity|]. split; [reflexivity|]. split; [|reflexivity].
    split; [by eexists|]. split; [reflexivity|]. exists [the_neighbor]. split; [reflexivity|].
    intros [|i] v Hv; [|by destruct i]. injection Hv as <-. exists the_neighbor. split; [reflexivity|].
    split_and!; first [reflexivity|split; [by eexists|reflexivity]|exact I]. }
  split; [exact Hrep|]. exact (proj2 (proj1 (proj2 DeepCopyObject_separate)) _ _ _ Hrep).
Defined.

(** Six new cells: the list, the array of its items, the labels, the array of neighbors,
    the port and the hold time. *)
Example copy_uses_new_cells :
  let h := (UnderlayList_DeepCopyObject (Some 1%positive) sample_heap).2 in
  dom h ∖ dom sample_heap = {[7; 8; 9; 10; 11; 12]}%positive.
Proof. vm_compute. reflexivity. Qed.
