(* ===== verification/GoTime.v ===== *)
(** * The part of Go's [time] package the program uses

    A [time.Duration] is a number of nanoseconds.  [int(d.Seconds())] goes
    through [float64]: [Seconds] adds the whole seconds and the quotient of the
    remaining nanoseconds by 1e9, each operation rounded to 53 bits, ties to even,
    and the conversion drops the fraction.  [seconds_int] computes exactly that,
    on the magnitude, the operations being symmetric in the sign. *)

From S2P Require Import Prelude.
Local Open Scope Z_scope.

(** [x / d] rounded to the nearest integer, ties to even. *)
Definition round_half_even (x d : Z) : Z :=
  let q := x / d in
  let r := x mod d in
  if 2 * r <? d then q
  else if d <? 2 * r then q + 1
  else if Z.even q then q else q + 1.

(** The exponent [e] for which the value [n / d] has 53 bits before the binary
    point of [n / d * 2 ^ e]; no value the program forms needs a negative one. *)
Definition float_exp (n d : Z) : Z :=
  if d <=? n then 52 - Z.log2 (n / d) else 52 + Z.log2_up ((d + n - 1) / n).

(** The [float64] nearest to [n / d], as the pair [(m, e)] of [m / 2 ^ e]. *)
Definition float_div (n d : Z) : Z * Z :=
  if n =? 0 then (0, 53)
  else let e := float_exp n d in (round_half_even (n * 2 ^ e) d, e).

(** [d.Seconds()] for [d >= 0]. *)
Definition Seconds (d : Z) : Z * Z :=
  let sec := d / 1000000000 in
  let nsec := d mod 1000000000 in
  let '(m, e) := float_div nsec 1000000000 in
  float_div (sec * 2 ^ e + m) (2 ^ e).

(** [int(d.Seconds())] *)
Definition seconds_int (d : Z) : Z :=
  let '(m, e) := Seconds (Z.abs d) in Z.sgn d * (m / 2 ^ e).

(** ** Rounding respects the bounds the grid can express *)
Lemma round_half_even_bounds x d a b :
  0 < d → a * d ≤ x → x ≤ b * d → a ≤ round_half_even x d ≤ b.
Proof.
  intros Hd Ha Hb. unfold round_half_even.
  pose proof (Z.div_mod x d ltac:(lia)) as Hx.
  pose proof (Z.mod_pos_bound x d Hd) as Hr.
  set (q := x / d) in *. set (r := x mod d) in *.
  assert (a ≤ q) by nia.
  assert (q ≤ b) by nia.
  assert (0 < r → q < b) by (intros; nia).
  destruct (Z.ltb_spec (2 * r) d); [lia|].
  destruct (Z.ltb_spec d (2 * r)); [lia|]. destruct (Z.even q); lia.
Qed.

(** A value below [2 ^ j] is rounded on a grid of [2 ^ (j - 53)] or finer. *)
Lemma float_exp_ge n d j :
  0 < n → 0 < d → 0 ≤ j ≤ 52 → n < 2 ^ j * d → 53 - Z.max 1 j ≤ float_exp n d.
Proof.
  intros Hn Hd Hj Hlt. unfold float_exp.
  destruct (Z.leb_spec d n).
  - assert (1 ≤ n / d) by (apply Z.div_le_lower_bound; lia).
    assert (n / d < 2 ^ j) as Hq by (apply Z.div_lt_upper_bound; lia).
    apply Z.log2_lt_pow2 in Hq; lia.
  - pose proof (Z.log2_up_nonneg ((d + n - 1) / n)). lia.
Qed.

(** The rounded quotient stays between two numbers with at most [k] fractional
    bits when the grid is at least that fine. *)
Lemma float_div_bounds n d k a b :
  0 ≤ n → 0 < d → 0 ≤ k → (0 < n → k ≤ float_exp n d) → k ≤ 53 →
  a * d ≤ n * 2 ^ k → n * 2 ^ k ≤ b * d →
  let '(m, e) := float_div n d in
  k ≤ e ∧ a * 2 ^ (e - k) ≤ m ≤ b * 2 ^ (e - k).
Proof.
  intros Hn Hd Hk He Hk53 Ha Hb. unfold float_div.
  destruct (Z.eqb_spec n 0) as [->|Hn0].
  { rewrite Z.mul_0_l in Ha, Hb. assert (0 < 2 ^ (53 - k)) by (apply Z.pow_pos_nonneg; lia).
    nia. }
  specialize (He ltac:(lia)). split; [done|]. set (e := float_exp n d) in *.
  assert (2 ^ e = 2 ^ k * 2 ^ (e - k)) as Hpow.
  { rewrite -Z.pow_add_r; [|lia..]. f_equal; lia. }
  assert (0 < 2 ^ (e - k)) by (apply Z.pow_pos_nonneg; lia).
  apply round_half_even_bounds; [done|rewrite Hpow; nia..].
Qed.

Lemma pow2_pos k : 0 ≤ k → 0 < 2 ^ k.
Proof. intros. apply Z.pow_pos_nonneg; lia. Qed.

(** The fractional part: at most [b / 2 ^ k] when the nanoseconds are. *)
Lemma nsec_bounds ns k b :
  0 ≤ ns < 1000000000 → 0 ≤ k ≤ 52 → ns * 2 ^ k ≤ b * 1000000000 →
  let '(m, e) := float_div ns 1000000000 in
  52 ≤ e ∧ 0 ≤ m ≤ b * 2 ^ (e - k).
Proof.
  intros Hns Hk Hb.
  assert (0 < ns → 52 ≤ float_exp ns 1000000000) as He.
  { intros. pose proof (float_exp_ge ns 1000000000 0). lia. }
  pose proof (float_div_bounds ns 1000000000 52 0 (b * 2 ^ (52 - k))) as H.
  destruct (float_div ns 1000000000) as [m e].
  assert (2 ^ 52 = 2 ^ k * 2 ^ (52 - k)) as Hp.
  { rewrite -Z.pow_add_r; [|lia..]. f_equal; lia. }
  pose proof (pow2_pos (52 - k) ltac:(lia)).
  destruct H as (? & ? & ?); [lia..|done|lia|lia| |].
  { rewrite Hp. nia. }
  split; [done|]. split; [lia|].
  replace (2 ^ (e - k)) with (2 ^ (52 - k) * 2 ^ (e - 52)); [nia|].
  rewrite -Z.pow_add_r; [|lia..]. f_equal; lia.
Qed.

(** The sum, truncated: at least the whole seconds, and no more than the bound
    on the fraction allows. *)
Lemma Seconds_bounds d j k b :
  0 ≤ d → 1 ≤ j ≤ 34 → d / 1000000000 + 1 < 2 ^ j → 0 ≤ k ≤ 53 - j → k ≤ 52 →
  0 < b < 2 ^ k ∨ k = 0 ∧ b = 1 →
  d mod 1000000000 * 2 ^ k ≤ b * 1000000000 →
  let '(m, e) := Seconds d in
  d / 1000000000 ≤ m / 2 ^ e ∧ m ≤ (d / 1000000000 * 2 ^ k + b) * 2 ^ (e - k) ∧ k ≤ e.
Proof.
  intros Hd Hj Hsec Hk Hk52 Hbk Hb. unfold Seconds.
  pose proof (Z.mod_pos_bound d 1000000000 ltac:(lia)) as Hns.
  pose proof (nsec_bounds (d mod 1000000000) k b Hns ltac:(lia) Hb) as Hq.
  set (sec := d / 1000000000) in *.
  assert (0 ≤ sec) by (apply Z.div_pos; lia).
  destruct (float_div (d mod 1000000000) 1000000000) as [m0 e0].
  destruct Hq as (He0 & Hm0 & Hm0b).
  pose proof (pow2_pos e0 ltac:(lia)).
  assert (2 ^ e0 = 2 ^ k * 2 ^ (e0 - k)) as Hp0.
  { rewrite -Z.pow_add_r; [|lia..]. f_equal; lia. }
  pose proof (pow2_pos (e0 - k) ltac:(lia)). pose proof (pow2_pos k ltac:(lia)).
  assert (b ≤ 2 ^ k) as Hbk' by (destruct Hbk as [?|[-> ->]]; lia).
  assert (m0 ≤ 2 ^ e0) as Hm01 by nia.
  pose proof (float_div_bounds (sec * 2 ^ e0 + m0) (2 ^ e0) k (sec * 2 ^ k)
    (sec * 2 ^ k + b)) as H'.
  assert (0 < sec * 2 ^ e0 + m0 → k ≤ float_exp (sec * 2 ^ e0 + m0) (2 ^ e0)) as He.
  { intros Hpos. pose proof (float_exp_ge (sec * 2 ^ e0 + m0) (2 ^ e0) j Hpos ltac:(lia)
      ltac:(lia) ltac:(nia)). lia. }
  destruct (float_div (sec * 2 ^ e0 + m0) (2 ^ e0)) as [m e].
  destruct H' as (Hke & Hlo & Hhi); [nia|lia|lia|done|lia|nia| |].
  { rewrite Hp0. nia. }
  split_and!; [|done|done].
  assert (2 ^ e = 2 ^ k * 2 ^ (e - k)) as Hpe.
  { rewrite -Z.pow_add_r; [|lia..]. f_equal; lia. }
  apply Z.div_le_lower_bound; [apply pow2_pos; lia|]. rewrite Hpe. nia.
Qed.

(** The truncated value in the ranges the code distinguishes. *)
Lemma trunc_lt m e c : 0 ≤ e → m < c * 2 ^ e → m / 2 ^ e < c.
Proof.
  intros He Hm. pose proof (pow2_pos e He). apply Z.div_lt_upper_bound; lia.
Qed.

Lemma seconds_int_nonneg d : 0 ≤ d ≤ 2 ^ 63 →
  d / 1000000000 ≤ seconds_int d ≤ 9223372036 ∧
  (d < 3000000000 → seconds_int d = d / 1000000000).
Proof.
  intros Hd. unfold seconds_int. rewrite Z.abs_eq; [|lia].
  destruct (decide (d = 0)) as [->|Hd0]; [vm_compute; intuition congruence|].
  pose proof (Z.div_mod d 1000000000 ltac:(lia)) as Hdm.
  pose proof (Z.mod_pos_bound d 1000000000 ltac:(lia)) as Hns.
  pose proof (Seconds_bounds d 34 0 1) as H1.
  pose proof (Seconds_bounds d 34 3 7) as H3.
  pose proof (Seconds_bounds d 2 30 (2 ^ 30 - 1)) as H30.
  destruct (Seconds d) as [m e]. rewrite Z.sgn_pos; [|lia]. rewrite Z.mul_1_l.
  destruct H1 as (Hlo & Hhi & He); [lia|lia|lia|lia|lia|by right|lia|].
  assert (∀ c k b, 0 ≤ k ≤ e → b < 2 ^ k → m ≤ (c * 2 ^ k + b) * 2 ^ (e - k) →
    m / 2 ^ e ≤ c) as Htr.
  { intros c k b Hk Hb Hm. apply Z.lt_succ_r, trunc_lt; [lia|].
    assert (2 ^ e = 2 ^ k * 2 ^ (e - k)) as ->.
    { rewrite -Z.pow_add_r; [|lia..]. f_equal; lia. }
    pose proof (pow2_pos (e - k) ltac:(lia)). nia. }
  split.
  - split; [done|]. destruct (decide (d / 1000000000 ≤ 9223372035)) as [Hs|Hs].
    + rewrite Z.pow_0_r Z.sub_0_r Z.mul_1_r in Hhi. apply Z.lt_succ_r, trunc_lt; [lia|].
      pose proof (pow2_pos e ltac:(lia)). nia.
    + destruct H3 as (_ & Hhi3 & He3); [lia|lia|lia|lia|lia|left; lia|lia|].
      etrans; [apply (Htr (d / 1000000000) 3 7)|]; lia || done.
  - intros Hlt. destruct H30 as (_ & Hhi30 & He30);
      [lia|lia|lia|lia|lia|left; lia|lia|].
    pose proof (Htr (d / 1000000000) 30 (2 ^ 30 - 1) ltac:(lia) ltac:(lia) Hhi30). lia.
Qed.

Lemma seconds_int_opp d : seconds_int (- d) = - seconds_int d.
Proof.
  unfold seconds_int. rewrite Z.abs_opp Z.sgn_opp. destruct (Seconds _). lia.
Qed.
