(* ===== verification/HostParams.v ===== *)
(** * The parameter structs of package [internal/hostnetwork]

    What the conversion hands to the code that configures the node's network:
    [UnderlayParams] (underlay.go) and [VNIParams] (vni.go), and the names that code
    gives its devices. *)

From S2P Require Import Prelude.

Module UnderlayParams.
Record t := mk { MainNic : string; VtepIP : string; TargetNS : string }.
(** The zero value. *)
Definition zero : t := mk "" "" "".
End UnderlayParams.

Module VNIParams.
Record t := mk {
  VRF : string;
  TargetNS : string;
  VTEPIP : string;
  VethHostIP : string;
  VethNSIP : string;
  VNI : Z;
  VXLanPort : Z }.
End VNIParams.

(** veth.go: the two ends of a pair; underlay.go: the loopback. *)
Definition HostVethPrefix : string := "host".
Definition PEVethPrefix : string := "pe".
Definition UnderlayLoopback : string := "lound".
