(* ===== verification/Conversion.v ===== *)
(** * Package [internal/conversion]

    From the Kubernetes resources and the node's index to the FRR configuration
    ([APItoFRR], frr_conversion.go) and to the parameters of the host network
    ([APItoHostConfig], host_configuration.go). *)

From S2P Require Import Prelude GoStrings GoNet GoTime Api IpFamily Ipam Frr.
From S2P Require Import HostParams.
Local Open Scope Z_scope.

(** ** frr_conversion.go *)
Definition neighborName (n : Neighbor.t) : string :=
  Itoa (Neighbor.ASN n) +:+ "@" +:+ Neighbor.Address n.

(** A nil [*metav1.Duration] is [None].  The durations are [int64] nanoseconds;
    [/] truncates and [uint64( )] wraps. *)
Definition parseTimers (ht ka : option Duration) : res (option Z * option Z) :=
  match ht, ka with
  | None, Some _ | Some _, None =>
      Err (errorf "one of KeepaliveTime/HoldTime specified, both must be set or none" [])
  | None, None => Ok (None, None)
  | Some holdTime, Some keepaliveTime =>
      let rounded := wrap_int64 (seconds_int holdTime * Second) in
      if negb (rounded =? 0) && (rounded <? 3 * Second)
      then Err (errorf "invalid hold time %q: must be 0 or >=3s" [])
      else if holdTime <? keepaliveTime
      then Err (errorf "invalid keepaliveTime %q, must be lower than holdTime %q" [])
      else Ok (Some (to_uint64 (Z.quot holdTime Second)),
               Some (to_uint64 (Z.quot keepaliveTime Second)))
  end.

Definition neighborToFRR (n : Neighbor.t) : res NeighborConfig.t :=
  match ForAddresses [Neighbor.Address n] with
  | (_, Some err) =>
      Err (errorw "failed to find ipfamily for %s, %w" [Neighbor.Address n] err)
  | (neighborFamily, None) =>
      if Neighbor.ASN n =? 0
      then Err (errorf "neighbor %s does not have ASN" [Neighbor.Address n])
      else
        '(holdTime, keepaliveTime) ←
          on_err (errorw "invalid timers for neighbor %s, err: %w" [neighborName n])
            (parseTimers (Neighbor.HoldTime n) (Neighbor.KeepaliveTime n));
        Ok (NeighborConfig.mk (neighborName n) (Neighbor.ASN n) (Neighbor.Address n)
              (Neighbor.Port n) holdTime keepaliveTime
              ((λ c, to_uint64 (Z.quot c Second)) <$> Neighbor.ConnectTime n)
              "" (Neighbor.BFDProfile n) (Neighbor.EBGPMultiHop n) neighborFamily)
  end.

Section conversion.
Context `{GoCidr}.

Definition vniToFRR (nodeIndex : Z) (vni : VNI.t) : res VNIConfig.t :=
  let spec := VNI.Spec vni in
  veths ← on_err (errorw "failed to get veths ips for vni %s: %w" [VNI.Name vni])
            (VethIPs (VNISpec.LocalCIDR spec) nodeIndex);
  let vniNeighbor :=
    NeighborConfig.mk "" (VNISpec.LocalASN spec)
      (IP_String (IPNet_IP (HostSide veths))) None None None None "" "" false "" in
  Ok (VNIConfig.mk (VNISpec.ASN spec) [NeighborConfig.Addr vniNeighbor +:+ "/32"]
        (Some vniNeighbor) (VNISpec.VRF spec) (VNISpec.VNI spec)).

Definition APItoFRR (nodeIndex : Z) (underlays : list Underlay.t) (vnis : list VNI.t)
    (logLevel : string) : res Config.t :=
  match underlays with
  | _ :: _ :: _ => Err (FRRConversionError "can't have more than one underlay")
  | [] => Err (FRRConversionError "no underlays defined")
  | [underlay] =>
      if bool_decide (vnis = []) then Err (FRRConversionError "no vnis defined")
      else
        let spec := Underlay.Spec underlay in
        vtepIP ← on_err (λ _, errorf "failed to get vtep ip, cidr %s, nodeIntex %d"
                                [UnderlaySpec.VTEPCIDR spec; Itoa nodeIndex])
                   (VTEPIp (UnderlaySpec.VTEPCIDR spec) nodeIndex);
        underlayNeighbors ←
          traverse (λ n,
            on_err (errorw "failed to translate underlay neighbor %s to frr, err: %w"
                      [neighborName n]) (neighborToFRR n))
            (UnderlaySpec.Neighbors spec);
        vniConfigs ←
          traverse (λ vni,
            on_err (errorw "failed to translate vni to frr: %w, vni %v" [])
              (vniToFRR nodeIndex vni)) vnis;
        Ok (Config.mk logLevel ""
              (UnderlayConfig.mk (UnderlaySpec.ASN spec) vtepIP underlayNeighbors)
              vniConfigs)
  end.

(** ** host_configuration.go *)
Definition vniToHost (nodeIndex : Z) (targetNS vtepIP : string) (vni : VNI.t)
    : res VNIParams.t :=
  let spec := VNI.Spec vni in
  vethIPs ← on_err (λ _, errorf "failed to get veth ips, cidr %s, nodeIndex %d"
                           [VNISpec.LocalCIDR spec; Itoa nodeIndex])
              (VethIPs (VNISpec.LocalCIDR spec) nodeIndex);
  Ok (VNIParams.mk (VNISpec.VRF spec) targetNS vtepIP
        (IPNet_String (HostSide vethIPs)) (IPNet_String (ContainerSide vethIPs))
        (VNISpec.VNI spec) (VNISpec.VXLanPort spec)).

Definition APItoHostConfig (nodeIndex : Z) (targetNS : string)
    (underlays : list Underlay.t) (vnis : list VNI.t)
    : res (UnderlayParams.t * list VNIParams.t) :=
  match underlays with
  | _ :: _ :: _ => Err (errorf "can't have more than one underlay" [])
  | [] => Ok (UnderlayParams.zero, [])
  | [underlay] =>
      if bool_decide (vnis = []) then Ok (UnderlayParams.zero, [])
      else
        let spec := Underlay.Spec underlay in
        vtepIP ← on_err (λ _, errorf "failed to get vtep ip, cidr %s, nodeIntex %d"
                                [UnderlaySpec.VTEPCIDR spec; Itoa nodeIndex])
                   (VTEPIp (UnderlaySpec.VTEPCIDR spec) nodeIndex);
        vniParams ← traverse (vniToHost nodeIndex targetNS vtepIP) vnis;
        Ok (UnderlayParams.mk (UnderlaySpec.Nic spec) vtepIP targetNS, vniParams)
  end.
End conversion.

(** ** Timers *)

(** The guard on the hold time: what goes through is below one second either way
    of zero, or at least three seconds. *)
Lemma hold_time_guard ht : in_int64 ht →
  negb (wrap_int64 (seconds_int ht * Second) =? 0)
    && (wrap_int64 (seconds_int ht * Second) <? 3 * Second)
  = (ht <=? - Second) || ((Second <=? ht) && (ht <? 3 * Second)).
Proof.
  unfold in_int64, int64_min, int64_max, Second; intros Hht.
  destruct (decide (0 ≤ ht)) as [Hp|Hn].
  - destruct (seconds_int_nonneg ht) as [Hb Hs]; [lia|].
    assert (0 ≤ ht / 1000000000) by (apply Z.div_pos; lia).
    rewrite wrap_int64_id; [|unfold in_int64, int64_min, int64_max; lia].
    destruct (decide (ht < 3000000000)) as [Hlt|Hge].
    + rewrite (Hs Hlt). Z.to_euclidean_division_equations; lia.
    + assert (3 ≤ ht / 1000000000) by (apply Z.div_le_lower_bound; lia). lia.
  - destruct (seconds_int_nonneg (- ht)) as [Hb Hs]; [lia|].
    rewrite seconds_int_opp in Hb, Hs.
    assert (0 ≤ - ht / 1000000000) by (apply Z.div_pos; lia).
    rewrite wrap_int64_id; [|unfold in_int64, int64_min, int64_max; lia].
    destruct (decide (- ht < 3000000000)) as [Hlt|Hge].
    + specialize (Hs Hlt). Z.to_euclidean_division_equations; lia.
    + assert (3 ≤ - ht / 1000000000) by (apply Z.div_le_lower_bound; lia). lia.
Qed.

Lemma parseTimers_both ht ka : in_int64 ht →
  parseTimers (Some ht) (Some ka) =
    if (ht <=? - Second) || ((Second <=? ht) && (ht <? 3 * Second))
    then Err (errorf "invalid hold time %q: must be 0 or >=3s" [])
    else if ht <? ka
    then Err (errorf "invalid keepaliveTime %q, must be lower than holdTime %q" [])
    else Ok (Some (to_uint64 (Z.quot ht Second)), Some (to_uint64 (Z.quot ka Second))).
Proof. intros Hht. unfold parseTimers. cbv zeta. by rewrite hold_time_guard. Qed.

(** C38. The timers [parseTimers] accepts: both or none are given; with both, and
    a keepalive time that is not negative, the values in seconds satisfy the BGP
    rule, the hold time is 0 or at least 3 and the keepalive time is at most the
    hold time, and they are the configured durations rounded down. *)
Theorem parseTimers_sound ht ka r :
  Forall in_int64 (option_list ht) → Forall (λ k, 0 ≤ k) (option_list ka) →
  parseTimers ht ka = Ok r →
  match r with
  | (None, None) => ht = None ∧ ka = None
  | (Some h, Some k) => ∃ hd kd, ht = Some hd ∧ ka = Some kd
      ∧ h = hd / Second ∧ k = kd / Second
      ∧ (h = 0 ∨ 3 ≤ h) ∧ 0 ≤ k ≤ h
  | _ => False
  end.
Proof.
  destruct ht as [ht|], ka as [ka|]; try done; [|by intros _ _ <-%Ok_inj].
  intros [Hht _]%Forall_cons_1 [Hka _]%Forall_cons_1. rewrite parseTimers_both //.
  unfold in_int64, int64_min, int64_max, Second in *.
  destruct (_ || _) eqn:Eg; [done|]. destruct (Z.ltb_spec ht ka); [done|].
  intros <-%Ok_inj. exists ht, ka. split_and!; try done.
  - rewrite Z.quot_div_nonneg; [|lia..]. rewrite /to_uint64 Z.mod_small //.
    Z.to_euclidean_division_equations; lia.
  - rewrite Z.quot_div_nonneg; [|lia..]. rewrite /to_uint64 Z.mod_small //.
    Z.to_euclidean_division_equations; lia.
  - rewrite Z.quot_div_nonneg; [|lia..]. rewrite /to_uint64 Z.mod_small;
    Z.to_euclidean_division_equations; lia.
  - apply Z.mod_pos_bound; lia.
  - rewrite !Z.quot_div_nonneg; [|lia..]. rewrite /to_uint64 !Z.mod_small;
    Z.to_euclidean_division_equations; lia.
Qed.

Lemma parseTimers_sound_witness :
  parseTimers (Some (180 * Second)) (Some (60 * Second)) = Ok (Some 180, Some 60)
  ∧ ∃ hd kd, Some (180 * Second) = Some hd ∧ Some (60 * Second) = Some kd
      ∧ 180 = hd / Second ∧ 60 = kd / Second ∧ (180 = 0 ∨ 3 ≤ 180) ∧ 0 ≤ 60 ≤ 180.
Proof.
  split; [vm_compute; reflexivity|].
  apply (parseTimers_sound (Some (180 * Second)) (Some (60 * Second)) (Some 180, Some 60)).
  - apply Forall_cons_2; [split; by apply Z.leb_le|apply Forall_nil_2].
  - apply Forall_cons_2; [by apply Z.leb_le|apply Forall_nil_2].
  - vm_compute; reflexivity.
Defined.

(** A negative keepalive time is not refused: with a hold time that passes
    the check, a keepalive time of minus one second or less becomes an unsigned
    number of at least 2^63 seconds. *)
Theorem parseTimers_negative_keepalive ht ka :
  0 ≤ ht < Second ∨ 3 * Second ≤ ht ≤ int64_max → int64_min ≤ ka ≤ - Second →
  ∃ h k, parseTimers (Some ht) (Some ka) = Ok (Some h, Some k)
    ∧ k = 2 ^ 64 + Z.quot ka Second ∧ 2 ^ 63 ≤ k < 2 ^ 64 ∧ h < k.
Proof.
  unfold int64_max, int64_min, Second. intros Hht Hka.
  rewrite parseTimers_both; [|unfold in_int64, int64_min, int64_max; lia].
  unfold Second. destruct (_ || _) eqn:Eg; [lia|]. destruct (Z.ltb_spec ht ka); [lia|].
  eexists _, _; split; [done|]. unfold to_uint64.
  assert (- 9223372037 ≤ Z.quot ka 1000000000 ≤ - 1)
    by (Z.to_euclidean_division_equations; lia).
  assert (0 ≤ Z.quot ht 1000000000 ≤ 9223372037)
    by (Z.to_euclidean_division_equations; lia).
  rewrite (Z.mod_small (Z.quot ht _)); [|lia].
  rewrite -(Z_mod_plus_full _ 1) Z.mod_small; lia.
Qed.

Lemma parseTimers_negative_keepalive_witness :
  ∃ h k, parseTimers (Some 0) (Some (- Second)) = Ok (Some h, Some k)
    ∧ k = 2 ^ 64 + Z.quot (- Second) Second ∧ 2 ^ 63 ≤ k < 2 ^ 64 ∧ h < k.
Proof.
  apply (parseTimers_negative_keepalive 0 (- Second));
    unfold int64_min, Second; [left; lia|lia].
Defined.

(** ** The FRR configuration *)
Section frr_properties.
Context `{GoCidr}.

(** What a successful conversion consists of. *)
Lemma APItoFRR_Ok_inv idx us vs lvl cfg :
  APItoFRR idx us vs lvl = Ok cfg →
  ∃ u vtep ns vcs, us = [u] ∧ vs ≠ []
    ∧ VTEPIp (UnderlaySpec.VTEPCIDR (Underlay.Spec u)) idx = Ok vtep
    ∧ Forall2 (λ n fn, neighborToFRR n = Ok fn) (UnderlaySpec.Neighbors (Underlay.Spec u)) ns
    ∧ Forall2 (λ v vc, vniToFRR idx v = Ok vc) vs vcs
    ∧ cfg = Config.mk lvl "" (UnderlayConfig.mk (UnderlaySpec.ASN (Underlay.Spec u)) vtep ns) vcs.
Proof.
  unfold APItoFRR. destruct us as [|u [|]]; try done. case_bool_decide; [done|].
  intros Hc. inv_ok.
  repeat match goal with H : traverse _ _ = Ok _ |- _ => apply traverse_Ok in H end.
  match goal with H1 : _ = Ok ?a, H2 : Forall2 _ _ ?b, H3 : Forall2 _ vs ?c |- _ =>
    exists u, a, b, c end.
  split_and!; try done.
  - eapply Forall2_impl; [|eassumption]. intros ?? Hx. cbn in Hx. by inv_ok.
  - eapply Forall2_impl; [|eassumption]. intros ?? Hx. cbn in Hx. by inv_ok.
Qed.

Lemma vniToFRR_Ok_inv idx v vc :
  vniToFRR idx v = Ok vc →
  ∃ veths n, VethIPs (VNISpec.LocalCIDR (VNI.Spec v)) idx = Ok veths
    ∧ VNIConfig.LocalNeighbor vc = Some n
    ∧ NeighborConfig.Addr n = IP_String (IPNet_IP (HostSide veths))
    ∧ NeighborConfig.ASN n = VNISpec.LocalASN (VNI.Spec v)
    ∧ VNIConfig.ToAdvertise vc = [NeighborConfig.Addr n +:+ "/32"]
    ∧ VNIConfig.ASN vc = VNISpec.ASN (VNI.Spec v)
    ∧ VNIConfig.VRF vc = VNISpec.VRF (VNI.Spec v)
    ∧ VNIConfig.VNI vc = VNISpec.VNI (VNI.Spec v).
Proof. unfold vniToFRR. intros Hc. inv_ok. eexists _, _. by repeat split. Qed.

Lemma neighborToFRR_Ok_inv n fn :
  neighborToFRR n = Ok fn →
  ∃ ts, ForAddresses [Neighbor.Address n] = (NeighborConfig.IPFamily fn, None)
    ∧ Neighbor.ASN n ≠ 0
    ∧ parseTimers (Neighbor.HoldTime n) (Neighbor.KeepaliveTime n) = Ok ts
    ∧ fn = NeighborConfig.mk (neighborName n) (Neighbor.ASN n) (Neighbor.Address n)
        (Neighbor.Port n) ts.1 ts.2
        ((λ c, to_uint64 (Z.quot c Second)) <$> Neighbor.ConnectTime n)
        "" (Neighbor.BFDProfile n) (Neighbor.EBGPMultiHop n) (NeighborConfig.IPFamily fn).
Proof.
  unfold neighborToFRR. destruct (ForAddresses _) as [f [e|]] eqn:Ef; [done|].
  destruct (Z.eqb_spec (Neighbor.ASN n) 0); [done|]. intros Hc.
  inv_ok. destruct x as [h k]. inv_ok. exists (h, k). by split_and!.
Qed.

(** The neighbors the conversion accepts: an address of one family, an AS
    number and timers that pass the check. *)
Definition valid_neighbor (n : Neighbor.t) : Prop :=
  (∃ f, is_family [Neighbor.Address n] f) ∧ Neighbor.ASN n ≠ 0
  ∧ ∃ ts, parseTimers (Neighbor.HoldTime n) (Neighbor.KeepaliveTime n) = Ok ts.

Lemma neighborToFRR_Ok_iff n : (∃ fn, neighborToFRR n = Ok fn) ↔ valid_neighbor n.
Proof.
  split.
  - intros [fn (ts & Hf & Hasn & Hts & _)%neighborToFRR_Ok_inv].
    split_and!; [|done|by exists ts]. exists (NeighborConfig.IPFamily fn). by apply ForAddresses_spec.
  - intros ([f Hf] & Hasn & [[h k] Hts]). apply ForAddresses_spec in Hf.
    unfold neighborToFRR. rewrite Hf. destruct (Z.eqb_spec (Neighbor.ASN n) 0); [done|].
    rewrite Hts. by eexists.
Qed.

Lemma traverse_Ok_iff {A B} (f : A → res B) l :
  (∃ k, traverse f l = Ok k) ↔ Forall (λ x, ∃ y, f x = Ok y) l.
Proof.
  setoid_rewrite traverse_Ok. split.
  - intros [k Hk]. induction Hk; constructor; eauto.
  - induction 1 as [|x l [y Hy] _ [k IH]]; [by exists []|]. exists (y :: k). by constructor.
Qed.

Lemma on_err_Ok_iff {A} (g : error → error) (m : res A) :
  (∃ y, on_err g m = Ok y) ↔ ∃ y, m = Ok y.
Proof. by setoid_rewrite on_err_Ok. Qed.

Lemma APItoFRR_Ok_iff idx u vs lvl :
  (∃ cfg, APItoFRR idx [u] vs lvl = Ok cfg) ↔
  vs ≠ [] ∧ (∃ s, VTEPIp (UnderlaySpec.VTEPCIDR (Underlay.Spec u)) idx = Ok s)
  ∧ Forall valid_neighbor (UnderlaySpec.Neighbors (Underlay.Spec u))
  ∧ Forall (λ v, ∃ ips, VethIPs (VNISpec.LocalCIDR (VNI.Spec v)) idx = Ok ips) vs.
Proof.
  split.
  - intros [cfg (u' & vtep & ns & vcs & [= <-] & Hvs & Hvtep & Hns & Hvcs & _)%APItoFRR_Ok_inv].
    split_and!; [done|by exists vtep| |].
    + eapply Forall2_Forall_l; [exact Hns|]. apply Forall_forall. intros fn _ n Hn.
      apply neighborToFRR_Ok_iff. by exists fn.
    + eapply Forall2_Forall_l; [exact Hvcs|]. apply Forall_forall.
      intros vc _ v (veths & _ & Hv & _)%vniToFRR_Ok_inv. by exists veths.
  - intros (Hvs & [s Hs] & Hn & Hv). unfold APItoFRR.
    rewrite bool_decide_false // Hs. cbn [on_err mbind res_bind].
    destruct (proj2 (traverse_Ok_iff (λ n, on_err (errorw "failed to translate underlay neighbor %s to frr, err: %w"
                      [neighborName n]) (neighborToFRR n)) (UnderlaySpec.Neighbors (Underlay.Spec u))))
      as [ns ->].
    { eapply Forall_impl; [|exact Hn]. intros n Hok. apply on_err_Ok_iff.
      by apply neighborToFRR_Ok_iff. }
    cbn [mbind res_bind].
    destruct (proj2 (traverse_Ok_iff (λ vni, on_err (errorw "failed to translate vni to frr: %w, vni %v" [])
              (vniToFRR idx vni)) vs)) as [vcs ->]; [|by eexists].
    eapply Forall_impl; [|exact Hv]. intros v [ips Hips]. apply on_err_Ok_iff.
    unfold vniToFRR. rewrite Hips. by eexists.
Qed.

(** A converted neighbor keeps its address, AS number, port and flags, has
    the family of its address (IPv4 or IPv6, never dual or unknown) and a
    non-zero AS number; the password the API carries is dropped. *)
Theorem neighborToFRR_spec n fn :
  neighborToFRR n = Ok fn →
  NeighborConfig.Addr fn = Neighbor.Address n
  ∧ NeighborConfig.ASN fn = Neighbor.ASN n ∧ NeighborConfig.ASN fn ≠ 0
  ∧ NeighborConfig.Port fn = Neighbor.Port n
  ∧ NeighborConfig.EBGPMultiHop fn = Neighbor.EBGPMultiHop n
  ∧ NeighborConfig.BFDProfile fn = Neighbor.BFDProfile n
  ∧ is_family [NeighborConfig.Addr fn] (NeighborConfig.IPFamily fn)
  ∧ (NeighborConfig.IPFamily fn = IPv4 ∨ NeighborConfig.IPFamily fn = IPv6)
  ∧ NeighborConfig.Password fn = "".
Proof.
  intros (ts & Hf & Hasn & _ & Hfn)%neighborToFRR_Ok_inv.
  apply ForAddresses_spec in Hf. rewrite Hfn. cbn.
  repeat split; try done. inversion Hf; auto.
Qed.

Lemma APItoFRR_renderable idx us vs lvl cfg host :
  APItoFRR idx us vs lvl = Ok cfg →
  ∃ s, templateConfig (Config.mk (Config.Loglevel cfg) host (Config.Underlay cfg)
                         (Config.VNIs cfg)) = Ok s.
Proof.
  intros (u & vtep & ns & vcs & _ & _ & _ & _ & Hv & ->)%APItoFRR_Ok_inv.
  apply templateConfig_Ok_iff. cbn.
  eapply Forall2_Forall_r; [exact Hv|]. apply Forall_forall.
  intros v _ vc (veths & n & _ & Hn & _)%vniToFRR_Ok_inv. congruence.
Qed.

(** C39. The configuration a successful conversion produces always renders. *)
Theorem APItoFRR_renders idx us vs lvl cfg host :
  APItoFRR idx us vs lvl = Ok cfg →
  ∃ s, templateConfig (Config.mk (Config.Loglevel cfg) host (Config.Underlay cfg)
                         (Config.VNIs cfg)) = Ok s.
Proof. apply APItoFRR_renderable. Qed.

(** One VNI in the two configurations: the same VRF and VNI, the VTEP and the
    namespace of the underlay, and the FRR session runs to the host's end of
    the veth pair. *)
Definition vni_agree (ns vtep : string) (vc : VNIConfig.t) (vp : VNIParams.t) : Prop :=
  VNIParams.VRF vp = VNIConfig.VRF vc ∧ VNIParams.VNI vp = VNIConfig.VNI vc
  ∧ VNIParams.VTEPIP vp = vtep ∧ VNIParams.TargetNS vp = ns
  ∧ ∃ host n, VNIConfig.LocalNeighbor vc = Some n
      ∧ NeighborConfig.Addr n = IP_String (IPNet_IP host)
      ∧ VNIParams.VethHostIP vp = IPNet_String host.

Lemma vniToHost_agree idx ns vtep v vc :
  vniToFRR idx v = Ok vc →
  ∃ vp, vniToHost idx ns vtep v = Ok vp ∧ vni_agree ns vtep vc vp.
Proof.
  intros (ips & n & Hips & Hn & Ha & _ & _ & _ & Hvrf & Hvni)%vniToFRR_Ok_inv.
  unfold vniToHost. rewrite Hips. cbn [on_err mbind res_bind].
  eexists; split; [done|]. unfold vni_agree. cbn. rewrite Hvrf Hvni.
  repeat split. by exists (HostSide ips), n.
Qed.

Lemma traverse_vniToHost_agree idx ns vtep vs vcs :
  Forall2 (λ v vc, vniToFRR idx v = Ok vc) vs vcs →
  ∃ vps, traverse (vniToHost idx ns vtep) vs = Ok vps
    ∧ Forall2 (vni_agree ns vtep) vcs vps.
Proof.
  induction 1 as [|v vc vs vcs Hv _ (vps & IH & Hag)]; [by exists []|].
  destruct (vniToHost_agree idx ns vtep v vc Hv) as (vp & Hvp & Hvag).
  exists (vp :: vps). cbn [traverse]. rewrite Hvp. cbn [mbind res_bind].
  rewrite IH. by split; [|constructor].
Qed.

Lemma conversions_agreement idx ns us vs lvl cfg :
  APItoFRR idx us vs lvl = Ok cfg →
  ∃ up vps, APItoHostConfig idx ns us vs = Ok (up, vps)
    ∧ UnderlayParams.VtepIP up = UnderlayConfig.VTEP (Config.Underlay cfg)
    ∧ UnderlayParams.TargetNS up = ns
    ∧ Forall2 (vni_agree ns (UnderlayParams.VtepIP up)) (Config.VNIs cfg) vps.
Proof.
  intros (u & vtep & fns & vcs & -> & Hvs & Hvtep & _ & Hvcs & ->)%APItoFRR_Ok_inv.
  unfold APItoHostConfig. rewrite bool_decide_false // Hvtep. cbn [on_err mbind res_bind].
  destruct (traverse_vniToHost_agree idx ns vtep vs vcs Hvcs) as (vps & -> & Hag).
  eexists _, _. split; [done|]. by repeat split.
Qed.
(** C13. The two halves of the conversion agree: whenever the FRR configuration
    is produced for a node, the host configuration is produced too; both use
    the same VTEP address, the same VRF and VNI in the same order, the FRR
    session of a VNI runs to the host's end of the veth pair the host
    configuration creates, and every VXLAN uses the VTEP of the underlay. *)
Theorem conversions_agree idx ns us vs lvl cfg :
  APItoFRR idx us vs lvl = Ok cfg →
  ∃ up vps, APItoHostConfig idx ns us vs = Ok (up, vps)
    ∧ UnderlayParams.VtepIP up = UnderlayConfig.VTEP (Config.Underlay cfg)
    ∧ UnderlayParams.TargetNS up = ns
    ∧ Forall2 (vni_agree ns (UnderlayParams.VtepIP up)) (Config.VNIs cfg) vps.
Proof. apply conversions_agreement. Qed.
End frr_properties.

Section acceptance.
Context `{GoCidrLaws}.

(** C20. What the conversion accepts, for IPv4 pools: a node index is served
    exactly when there is a VNI, every neighbor is valid, the VTEP pool has an
    address for the index and every local pool one more. *)
Theorem APItoFRR_accepts idx u vs lvl base p :
  0 ≤ idx < int64_max →
  v4_pool (UnderlaySpec.VTEPCIDR (Underlay.Spec u)) base p →
  Forall (λ v, ∃ b q, v4_pool (VNISpec.LocalCIDR (VNI.Spec v)) b q) vs →
  (∃ cfg, APItoFRR idx [u] vs lvl = Ok cfg) ↔
  vs ≠ [] ∧ idx < 2 ^ (32 - p)
  ∧ Forall valid_neighbor (UnderlaySpec.Neighbors (Underlay.Spec u))
  ∧ Forall (λ v, ∃ b q, v4_pool (VNISpec.LocalCIDR (VNI.Spec v)) b q
                        ∧ idx + 1 < 2 ^ (32 - q)) vs.
Proof.
  intros Hidx Hpool Hpools. rewrite APItoFRR_Ok_iff.
  apply and_iff_compat_l. assert (∀ A B C D : Prop, (A ↔ B) → (C ↔ D) → A ∧ C ↔ B ∧ D)
    as and_iff by tauto. apply and_iff; [|apply and_iff; [done|]].
  - split.
    + intros [s Hs]. apply (VTEPIp_Ok_inv _ _ _ _ _ Hpool) in Hs; lia.
    + intros Hlt. eexists. apply (VTEPIp_v4 _ base p); [done|lia].
  - revert Hpools. rewrite !Forall_forall. intros Hpools. split; intros Hv v Hin.
    + destruct (Hv v Hin) as [ips Hips]. destruct (Hpools v Hin) as (b & q & Hq).
      exists b, q. split; [done|]. destruct (decide (idx + 1 < 2 ^ (32 - q))); [done|].
      destruct (VethIPs_v4_out _ b q idx Hq) as [e He]; [lia|congruence].
    + destruct (Hv v Hin) as (b & q & Hq & Hlt). eexists. by apply (VethIPs_v4 _ b q); [|lia|].
Qed.
End acceptance.

(** The README's underlay and VNI, for the witnesses. *)
Definition sample_neighbor : Neighbor.t :=
  Neighbor.mk 64512 "192.168.11.2" None "secret" "" None None None false "".
Definition sample_underlay : Underlay.t :=
  Underlay.mk "underlay" (UnderlaySpec.mk 64514 "100.65.0.0/24" [sample_neighbor] "toswitch").
Definition sample_vni : VNI.t :=
  VNI.mk "red" (VNISpec.mk 64514 "red" 64515 100 "192.169.10.0/24" 4789).

Definition sample_config : Config.t :=
  Config.mk "info" ""
    (UnderlayConfig.mk 64514 "100.65.0.0/32"
       [NeighborConfig.mk "64512@192.168.11.2" 64512 "192.168.11.2" None None None None
          "" "" false IPv4])
    [VNIConfig.mk 64514 ["192.169.10.1/32"]
       (Some (NeighborConfig.mk "" 64515 "192.169.10.1" None None None None "" "" false ""))
       "red" 100].

Lemma sample_conversion : APItoFRR 0 [sample_underlay] [sample_vni] "info" = Ok sample_config.
Proof. vm_compute. reflexivity. Qed.

Lemma neighborToFRR_spec_witness :
  ∃ fn, neighborToFRR sample_neighbor = Ok fn ∧ Neighbor.Password sample_neighbor = "secret"
    ∧ NeighborConfig.Password fn = "".
Proof.
  eexists. split; [vm_compute; reflexivity|]. split; [reflexivity|].
  match goal with |- NeighborConfig.Password ?fn = _ =>
    pose proof (neighborToFRR_spec sample_neighbor fn) as H end.
  apply H. vm_compute; reflexivity.
Defined.

Lemma APItoFRR_renders_witness :
  ∃ s, templateConfig (Config.mk (Config.Loglevel sample_config) "node"
    (Config.Underlay sample_config) (Config.VNIs sample_config)) = Ok s.
Proof.
  apply (APItoFRR_renders 0 [sample_underlay] [sample_vni] "info" sample_config "node").
  apply sample_conversion.
Defined.

Lemma conversions_agree_witness :
  ∃ up vps, APItoHostConfig 0 "ns" [sample_underlay] [sample_vni] = Ok (up, vps)
    ∧ UnderlayParams.VtepIP up = "100.65.0.0/32"
    ∧ UnderlayParams.TargetNS up = "ns"
    ∧ Forall2 (vni_agree "ns" (UnderlayParams.VtepIP up)) (Config.VNIs sample_config) vps.
Proof.
  apply (conversions_agree 0 "ns" [sample_underlay] [sample_vni] "info" sample_config).
  apply sample_conversion.
Defined.

Lemma APItoFRR_accepts_witness :
  (∃ cfg, APItoFRR 254 [sample_underlay] [sample_vni] "info" = Ok cfg)
  ∧ ¬ ∃ cfg, APItoFRR 255 [sample_underlay] [sample_vni] "info" = Ok cfg.
Proof.
  assert (Forall (λ v, ∃ b q, v4_pool (VNISpec.LocalCIDR (VNI.Spec v)) b q) [sample_vni])
    as Hpools.
  { apply Forall_cons_2; [|apply Forall_nil_2]. eexists _, _. apply readme_local_pool. }
  split.
  - eexists. vm_compute. reflexivity.
  - intros Hc. apply (APItoFRR_accepts 255 sample_underlay [sample_vni] "info" _ _
      ltac:(unfold int64_max; lia) readme_vtep_pool Hpools) in Hc as (_ & _ & _ & Hv).
    apply Forall_cons_1 in Hv as [(b & q & Hq & Hlt) _].
    destruct Hq as (ip & net & Hparse & (_ & Hp & _) & _).
    apply (f_equal (λ r, match r with Ok (_, n) => Mask_Size (IPNet_Mask n) | _ => (0, 0) end))
      in Hparse. cbn [IPNet_Mask] in Hparse. rewrite Mask_Size_CIDRMask // in Hparse.
    vm_compute in Hparse. injection Hparse as <-. vm_compute in Hlt. discriminate Hlt.
Defined.
