(* ===== verification/Netlink.v ===== *)
(** * The kernel interface: [netlink], [netns] and the files under /proc

    The packages the host network code calls are not part of the repository.
    Their operations are the class [Netlink]: functions on a world [W] the code
    cannot look into.  What their documentation says is the class
    [NetlinkLaws], stated on [view], the part of the world that matters here:
    the calling thread, the open handles and the devices of every network
    namespace.  Operations may always fail; what a failure leaves behind is not
    specified beyond the thread's state. *)

From S2P Require Import Prelude GoStrings GoNet.
Local Open Scope Z_scope.

(** ** Data of package [netlink] *)
Record LinkAttrs := mkAttrs { Index : Z; Name : string; MasterIndex : Z }.

(** The concrete types behind [netlink.Link] the code looks at; the others are
    kept by their type name. *)
Inductive LinkKind :=
  | Dummy
  | Bridge
  | Veth (PeerName : string)
  | Vrf (Table : Z)
  | Vxlan (VxlanId Port : Z) (Learning : bool) (SrcAddr : IP) (VtepDevIndex : Z)
  | OtherLink (type : string).

Record Link := mkLink { Attrs : LinkAttrs; Kind : LinkKind }.

(** A variable of the interface type [netlink.Link] is an [option Link], [None]
    when it is nil. *)
Definition link_index (l : Link) : Z := Index (Attrs l).
Definition link_name (l : Link) : string := Name (Attrs l).
Definition link_master (l : Link) : Z := MasterIndex (Attrs l).

(** [link.Attrs().Name]: a nil link panics. *)
Definition attrs_Name (l : option Link) : res string :=
  match l with Some l => Ok (link_name l) | None => Panic end.

(** [link.Type()] *)
Definition link_Type (l : Link) : string :=
  match Kind l with
  | Dummy => "dummy" | Bridge => "bridge" | Veth _ => "veth" | Vrf _ => "vrf"
  | Vxlan _ _ _ _ _ => "vxlan" | OtherLink t => t
  end.

(** The type assertions of the code. *)
Definition is_bridge (l : Link) : bool := match Kind l with Bridge => true | _ => false end.
Definition is_veth (l : Link) : bool := match Kind l with Veth _ => true | _ => false end.
Definition is_vrf (l : Link) : bool := match Kind l with Vrf _ => true | _ => false end.
Definition is_vxlan (l : Link) : bool :=
  match Kind l with Vxlan _ _ _ _ _ => true | _ => false end.

Definition set_Index (i : Z) (l : Link) : Link :=
  mkLink (mkAttrs i (link_name l) (link_master l)) (Kind l).
Definition set_MasterIndex (i : Z) (l : Link) : Link :=
  mkLink (mkAttrs (link_index l) (link_name l) i) (Kind l).

(** [netlink.Addr]: the fields the code uses. *)
Record Addr := mkAddr { Addr_IPNet : IPNet; Flags : Z }.

(** [netlink.Route]: the fields the code uses. *)
Record Route := mkRoute { Route_Table : Z; Dst : IPNet; LinkIndex : Z }.

Definition FAMILY_ALL : Z := 0.
Definition FAMILY_V4 : Z := 2.
Definition RT_FILTER_DST : Z := 2 ^ 6.
Definition RT_FILTER_TABLE : Z := 2 ^ 12.

(** Package [netlink/nl]: a raw request and its payloads. *)
Inductive NlData :=
  | IfInfomsg (family index : Z)
  | RtAttr (type : Z) (data : list Z) (children : list NlData).
Record NetlinkRequest := mkRequest { Proto : Z; ReqFlags : Z; Data : list NlData }.

(** The constants of package [unix] the code uses. *)
Definition RTM_SETLINK : Z := 19.
Definition NLM_F_ACK : Z := 4.
Definition AF_BRIDGE : Z := 7.
Definition IFLA_PROTINFO : Z := 12.
Definition NLA_F_NESTED : Z := 32768.
Definition NETLINK_ROUTE : Z := 0.
Definition O_WRONLY : Z := 1.

Notation NsHandle := Z.

(** ** The operations *)
Class Netlink (W : Type) := {
  LinkByName : string → go W Link;
  LinkByIndex : Z → go W Link;
  LinkList : go W (list Link);
  (** The device is made from the struct, whose index is filled in. *)
  LinkAdd : Link → go W Link;
  LinkDel : option Link → go W unit;
  LinkSetUp : option Link → go W unit;
  LinkSetMaster : option Link → Link → go W unit;
  LinkSetNsFd : option Link → NsHandle → go W unit;
  VethPeerIndex : Link → go W Z;
  AddrList : option Link → Z → go W (list Addr);
  AddrAdd : option Link → Addr → go W unit;
  AddrDel : option Link → Addr → go W unit;
  ParseAddr : string → res Addr;
  RouteListFiltered : Z → Route → Z → go W (list Route);
  RouteAdd : Route → go W unit;
  (** [nl.NetlinkRequest.Execute] *)
  Execute : NetlinkRequest → Z → Z → go W (list (list Z));
  (** Package [netns]; the thread's lock is package [runtime]'s. *)
  netns_Get : go W NsHandle;
  netns_GetFromName : string → go W NsHandle;
  netns_Set : NsHandle → go W unit;
  netns_Close : NsHandle → go W unit;
  LockOSThread : go W unit;
  UnlockOSThread : go W unit;
  (** Package [os]. *)
  OpenFile : string → Z → Z → go W Z;
  File_Write : Z → string → go W unit;
  File_Close : Z → go W unit }.

(** A deferred call, its error dropped. *)
Definition ignored {W A} (m : go W A) (w : W) : W := (m w).2.

(** ** What can be seen of the world *)

(** A device: the namespace it is in, what [netlink] reports of it, and the
    settings the code changes.  [dev_addrs] are its addresses as they print;
    [dev_peer] is the other end of a veth pair. *)
Record Dev := mkDev {
  dev_ns : Z;
  dev_link : Link;
  dev_up : bool;
  dev_addrs : list string;
  dev_peer : option positive;
  dev_no_addr_gen : bool;
  dev_neigh_suppress : bool }.

(** The calling thread: the namespace it is in, the open namespace handles, how
    often it is locked, the open files. *)
Record Thread := mkThread {
  cur : Z;
  handles : gmap Z Z;
  locks : Z;
  files : gmap Z string }.

Record NetState := mkState {
  thr : Thread;
  named : gmap string Z;
  devs : gmap positive Dev;
  routes : list (Z * Route) }.

Notation cur_ns s := (cur (thr s)).
Notation dev_name d := (link_name (dev_link d)).
Notation dev_index d := (link_index (dev_link d)).
Notation dev_master d := (link_master (dev_link d)).

Definition set_cur (n : Z) (t : Thread) : Thread :=
  mkThread n (handles t) (locks t) (files t).
Definition set_handles (h : gmap Z Z) (t : Thread) : Thread :=
  mkThread (cur t) h (locks t) (files t).
Definition set_locks (n : Z) (t : Thread) : Thread :=
  mkThread (cur t) (handles t) n (files t).
Definition set_files (f : gmap Z string) (t : Thread) : Thread :=
  mkThread (cur t) (handles t) (locks t) f.

Definition set_thr (t : Thread) (s : NetState) : NetState :=
  mkState t (named s) (devs s) (routes s).
Definition set_devs (m : gmap positive Dev) (s : NetState) : NetState :=
  mkState (thr s) (named s) m (routes s).

Definition set_up (extra : list string) (d : Dev) : Dev :=
  mkDev (dev_ns d) (dev_link d) true (dev_addrs d ++ extra) (dev_peer d)
    (dev_no_addr_gen d) (dev_neigh_suppress d).
Definition set_addrs (l : list string) (d : Dev) : Dev :=
  mkDev (dev_ns d) (dev_link d) (dev_up d) l (dev_peer d)
    (dev_no_addr_gen d) (dev_neigh_suppress d).
Definition set_master (i : Z) (d : Dev) : Dev :=
  mkDev (dev_ns d) (set_MasterIndex i (dev_link d)) (dev_up d) (dev_addrs d) (dev_peer d)
    (dev_no_addr_gen d) (dev_neigh_suppress d).
Definition set_no_addr_gen (d : Dev) : Dev :=
  mkDev (dev_ns d) (dev_link d) (dev_up d) (dev_addrs d) (dev_peer d)
    true (dev_neigh_suppress d).
Definition set_neigh_suppress (d : Dev) : Dev :=
  mkDev (dev_ns d) (dev_link d) (dev_up d) (dev_addrs d) (dev_peer d)
    (dev_no_addr_gen d) true.

Definition dev_at (s : NetState) (ns i : Z) (id : positive) (d : Dev) : Prop :=
  devs s !! id = Some d ∧ dev_ns d = ns ∧ dev_index d = i.
Definition dev_named (s : NetState) (ns : Z) (n : string) (id : positive) (d : Dev) : Prop :=
  devs s !! id = Some d ∧ dev_ns d = ns ∧ dev_name d = n.

(** In a namespace an index and a name belong to one device; an index is a
    positive [int32]; the ends of a veth pair know each other. *)
Record wf (s : NetState) : Prop := {
  wf_index_range id d : devs s !! id = Some d → 0 < dev_index d < 2 ^ 31;
  wf_index ns i id1 d1 id2 d2 :
    dev_at s ns i id1 d1 → dev_at s ns i id2 d2 → id1 = id2;
  wf_name ns n id1 d1 id2 d2 :
    dev_named s ns n id1 d1 → dev_named s ns n id2 d2 → id1 = id2;
  wf_peer id1 d1 id2 d2 :
    devs s !! id1 = Some d1 → devs s !! id2 = Some d2 →
    dev_peer d1 = Some id2 → dev_peer d2 = Some id1 ∧ id1 ≠ id2;
  wf_peer_veth id d : devs s !! id = Some d → dev_peer d ≠ None → is_veth (dev_link d) = true }.

(** A device leaves a namespace ([LinkDel], [LinkSetNsFd]): what is enslaved to
    it is released and a VXLAN that runs over it goes. *)
Definition stacked (ns i : Z) (d : Dev) : bool :=
  match Kind (dev_link d) with
  | Vxlan _ _ _ _ vtep => (dev_ns d =? ns) && (vtep =? i)
  | _ => false
  end.
Definition release (ns i : Z) (d : Dev) : option Dev :=
  if stacked ns i d then None
  else if (dev_ns d =? ns) && (dev_master d =? i) then Some (set_master 0 d)
  else Some d.

(** The device made for a request has its name, master and kind.  The kernel
    does not report a veth's peer name, and an address may come back in its
    other representation. *)
Definition same_kind (k k' : LinkKind) : Prop :=
  match k, k' with
  | Veth _, Veth _ => True
  | Vxlan id p l a v, Vxlan id' p' l' a' v' =>
      id' = id ∧ p' = p ∧ l' = l ∧ Equal a' a = true ∧ v' = v
  | _, _ => k' = k
  end.
Definition realises (l : Link) (ns : Z) (d : Dev) : Prop :=
  dev_ns d = ns ∧ dev_name d = link_name l ∧ dev_master d = link_master l
  ∧ same_kind (Kind l) (Kind (dev_link d)).

(** ** The documented behaviour of the operations

    [X_spec args s r s']: the call [X args] may end with [r] and take the
    visible state from [s] to [s'].  Only calls with a link that is not nil are
    specified. *)
Definition silent (s s' : NetState) : Prop :=
  thr s' = thr s ∧ named s' = named s.
Definition returns {A} (r : res A) : Prop := r ≠ Panic.

Definition lookup_spec (P : Dev → Prop) (s : NetState) (r : res Link) (s' : NetState) : Prop :=
  s' = s ∧
  match r with
  | Ok l => ∃ id d, devs s !! id = Some d ∧ dev_ns d = cur_ns s ∧ P d ∧ l = dev_link d
  | Err e => is_link_not_found e = true →
      ∀ id d, devs s !! id = Some d → dev_ns d = cur_ns s → ¬ P d
  | Panic => False
  end.
Definition LinkByName_spec (n : string) := lookup_spec (λ d, dev_name d = n).
Definition LinkByIndex_spec (i : Z) := lookup_spec (λ d, dev_index d = i).

Definition LinkList_spec (s : NetState) (r : res (list Link)) (s' : NetState) : Prop :=
  s' = s ∧ returns r ∧
  ∀ ls, r = Ok ls → ∀ l, l ∈ ls ↔
    ∃ id d, devs s !! id = Some d ∧ dev_ns d = cur_ns s ∧ l = dev_link d.

(** A new device, down and without addresses; a veth comes with its peer.  Nothing else changes. *)
Definition LinkAdd_spec (l : Link) (s : NetState) (r : res Link) (s' : NetState) : Prop :=
  silent s s' ∧ returns r ∧
  ∀ l', r = Ok l' → routes s' = routes s ∧ ∃ id d,
    devs s !! id = None ∧ realises l (cur_ns s) d ∧ l' = set_Index (dev_index d) l
    ∧ dev_up d = false ∧ dev_addrs d = []
    ∧ match Kind l with
      | Veth peer => ∃ idp dp, devs s !! idp = None ∧ idp ≠ id
          ∧ dev_ns dp = cur_ns s ∧ dev_name dp = peer ∧ is_veth (dev_link dp) = true
          ∧ dev_peer d = Some idp ∧ dev_peer dp = Some id ∧ (dev_up dp = false ∧ dev_addrs dp = [])
          ∧ devs s' = <[id := d]> (<[idp := dp]> (devs s))
      | _ => dev_peer d = None ∧ devs s' = <[id := d]> (devs s)
      end.

Definition LinkDel_spec (l : Link) (s : NetState) (r : res unit) (s' : NetState) : Prop :=
  silent s s' ∧ returns r ∧
  (r = Ok tt → ∃ id d, dev_at s (cur_ns s) (link_index l) id d ∧
     ∀ id', devs s' !! id' =
       if bool_decide (id' = id ∨ dev_peer d = Some id') then None
       else devs s !! id' ≫= release (cur_ns s) (link_index l)).

(** The calls that change one device of the current namespace. *)
Definition update_spec (i : Z) (f : Dev → Dev → Prop) (s : NetState) (r : res unit)
    (s' : NetState) : Prop :=
  silent s s' ∧ returns r ∧
  (r = Ok tt → ∃ id d d', dev_at s (cur_ns s) i id d ∧ f d d'
     ∧ devs s' = <[id := d']> (devs s)).

(** Setting a device up may give it addresses: link-local and loopback ones. *)
Definition generated (a : string) : bool :=
  HasPrefix a "fe80:" || bool_decide (a ∈ ["127.0.0.1/8"; "::1/128"]).
Definition LinkSetUp_spec (l : Link) :=
  update_spec (link_index l)
    (λ d d', ∃ extra, Forall (λ a, generated a = true) extra ∧ d' = set_up extra d).
Definition LinkSetMaster_spec (l m : Link) :=
  update_spec (link_index l) (λ d d', d' = set_master (link_index m) d).

(** Moving a device keeps its name, its kind, its peer and, unless taken there,
    its index, and gives it no address; to the namespace it is in, it does nothing. *)
Definition LinkSetNsFd_spec (l : Link) (fd : NsHandle) (s : NetState) (r : res unit)
    (s' : NetState) : Prop :=
  silent s s' ∧ returns r ∧
  (r = Ok tt → ∃ n id d, handles (thr s) !! fd = Some n
     ∧ dev_at s (cur_ns s) (link_index l) id d
     ∧ if n =? cur_ns s then devs s' = devs s else
       (∀ id' d', ¬ dev_named s n (dev_name d) id' d')
       ∧ ∃ d', devs s' !! id = Some d' ∧ dev_ns d' = n ∧ dev_name d' = dev_name d
         ∧ Kind (dev_link d') = Kind (dev_link d) ∧ dev_peer d' = dev_peer d
         ∧ dev_master d' = 0 ∧ dev_addrs d' ⊆ dev_addrs d
         ∧ ((∀ id' d', ¬ dev_at s n (link_index l) id' d') → dev_index d' = link_index l)
         ∧ ∀ id', id' ≠ id →
             devs s' !! id' = devs s !! id' ≫= release (cur_ns s) (link_index l)).

Definition VethPeerIndex_spec (l : Link) (s : NetState) (r : res Z) (s' : NetState) : Prop :=
  s' = s ∧ returns r ∧
  ∀ i, r = Ok i → ∃ id d idp dp, dev_named s (cur_ns s) (link_name l) id d
    ∧ dev_peer d = Some idp ∧ devs s !! idp = Some dp ∧ i = dev_index dp.

Definition AddrList_spec (l : Link) (s : NetState) (r : res (list Addr)) (s' : NetState)
    : Prop :=
  s' = s ∧ returns r ∧
  ∀ as_, r = Ok as_ → ∃ id d, dev_at s (cur_ns s) (link_index l) id d
    ∧ dev_addrs d = (λ a, IPNet_String (Addr_IPNet a)) <$> as_.

(** Adding an address that is there is an error [os.IsExist] accepts. *)
Definition AddrAdd_spec (l : Link) (a : Addr) (s : NetState) (r : res unit) (s' : NetState)
    : Prop :=
  let str := IPNet_String (Addr_IPNet a) in
  silent s s' ∧ returns r ∧
  match r with
  | Ok _ => ∃ id d, dev_at s (cur_ns s) (link_index l) id d
      ∧ devs s' = <[id := set_addrs (dev_addrs d ++ [str]) d]> (devs s)
  | Err e => devs s' = devs s ∧
      (os_IsExist e = true → ∃ id d, dev_at s (cur_ns s) (link_index l) id d ∧ str ∈ dev_addrs d)
  | Panic => True
  end.

Definition AddrDel_spec (l : Link) (a : Addr) :=
  let str := IPNet_String (Addr_IPNet a) in
  update_spec (link_index l)
    (λ d d', d' = set_addrs (filter (.≠ str) (dev_addrs d)) d).

(** [ParseAddr] reads an address and its prefix length like [net.ParseCIDR]; the
    optional label comes after a blank. *)
Definition ParseAddr_spec `{Netlink W} : Prop := ∀ s a,
  no_char " " s = true → ParseAddr (W:=W) s = Ok a →
  ∃ ip net, ParseCIDR s = Ok (ip, net) ∧ Addr_IPNet a = mkIPNet ip (IPNet_Mask net).

(** The request that turns neighbor suppression on for a bridge port. *)
Definition neigh_suppress_request (i : Z) : NetlinkRequest :=
  mkRequest RTM_SETLINK NLM_F_ACK
    [IfInfomsg AF_BRIDGE i;
     RtAttr (Z.lor IFLA_PROTINFO NLA_F_NESTED) [] [RtAttr 32 [1] []]].
Definition Execute_spec (req : NetlinkRequest) (s : NetState) (r : res (list (list Z)))
    (s' : NetState) : Prop :=
  silent s s' ∧ returns r ∧
  ∀ i o, req = neigh_suppress_request i → r = Ok o →
    ∃ id d, dev_at s (cur_ns s) i id d ∧ devs s' = <[id := set_neigh_suppress d]> (devs s).

(** Routes are listed by the filter's destination and table. *)
Definition same_dst (a b : IPNet) : Prop :=
  Equal (IPNet_IP a) (IPNet_IP b) = true ∧ Mask_String (IPNet_Mask a) = Mask_String (IPNet_Mask b).
Definition RouteAdd_spec (rt : Route) (s : NetState) (r : res unit) (s' : NetState) : Prop :=
  silent s s' ∧ returns r ∧ devs s' = devs s ∧
  (r = Ok tt → routes s' = routes s ++ [(cur_ns s, rt)]).
Definition RouteListFiltered_spec (fam : Z) (rt : Route) (filter : Z) (s : NetState)
    (r : res (list Route)) (s' : NetState) : Prop :=
  s' = s ∧ returns r ∧
  ∀ rs, r = Ok rs → fam = FAMILY_V4 → filter = Z.lor RT_FILTER_DST RT_FILTER_TABLE →
    ∀ x, x ∈ rs ↔ (cur_ns s, x) ∈ routes s
      ∧ Route_Table x = Route_Table rt ∧ same_dst (Dst x) (Dst rt).

(** The thread's namespace and its handles. *)
Definition Get_spec (s : NetState) (r : res NsHandle) (s' : NetState) : Prop :=
  returns r ∧
  match r with
  | Ok h => handles (thr s) !! h = None
      ∧ s' = set_thr (set_handles (<[h := cur_ns s]> (handles (thr s))) (thr s)) s
  | _ => s' = s
  end.
Definition GetFromName_spec (name : string) (s : NetState) (r : res NsHandle) (s' : NetState)
    : Prop :=
  returns r ∧
  match r with
  | Ok h => ∃ n, named s !! name = Some n ∧ handles (thr s) !! h = None
      ∧ s' = set_thr (set_handles (<[h := n]> (handles (thr s))) (thr s)) s
  | _ => s' = s
  end.
(** Entering a namespace takes an open handle; it may be refused, and then the thread
    stays where it is. *)
Definition Set_spec (h : NsHandle) (s : NetState) (r : res unit) (s' : NetState) : Prop :=
  (∃ e, r = Err e ∧ s' = s)
  ∨ ∃ n, handles (thr s) !! h = Some n ∧ r = Ok tt ∧ s' = set_thr (set_cur n (thr s)) s.
Definition Close_spec (h : NsHandle) (s : NetState) (r : res unit) (s' : NetState) : Prop :=
  returns r ∧ s' = set_thr (set_handles (delete h (handles (thr s))) (thr s)) s.
Definition Lock_spec (k : Z) (s : NetState) (r : res unit) (s' : NetState) : Prop :=
  r = Ok tt ∧ s' = set_thr (set_locks (locks (thr s) + k) (thr s)) s.

(** Files: writing [1] to a device's [addr_gen_mode] stops the kernel from
    generating link-local addresses. *)
Definition addr_gen_mode_file (name : string) : string :=
  "/proc/sys/net/ipv6/conf/" +:+ name +:+ "/addr_gen_mode".
Definition OpenFile_spec (path : string) (s : NetState) (r : res Z) (s' : NetState) : Prop :=
  returns r ∧
  match r with
  | Ok f => files (thr s) !! f = None
      ∧ s' = set_thr (set_files (<[f := path]> (files (thr s))) (thr s)) s
  | _ => s' = s
  end.
Definition File_Write_spec (f : Z) (text : string) (s : NetState) (r : res unit)
    (s' : NetState) : Prop :=
  silent s s' ∧ returns r ∧
  ∀ name, r = Ok tt → files (thr s) !! f = Some (addr_gen_mode_file name) →
    text = ("1" +:+ String "010"%char "") →
    ∃ id d, dev_named s (cur_ns s) name id d ∧ devs s' = <[id := set_no_addr_gen d]> (devs s).
Definition File_Close_spec (f : Z) (s : NetState) (r : res unit) (s' : NetState) : Prop :=
  returns r ∧ s' = set_thr (set_files (delete f (files (thr s))) (thr s)) s.

(** [m] behaves as [R] says on the visible state. *)
Class View (W : Type) := view : W → NetState.
Definition sat `{View W} {A} (m : go W A) (R : NetState → res A → NetState → Prop) : Prop :=
  ∀ w r w', m w = (r, w') → R (view w) r (view w').

Class NetlinkLaws (W : Type) `{Netlink W, View W} : Prop := {
  view_wf w : wf (view w);
  LinkByName_law n : sat (LinkByName n) (LinkByName_spec n);
  LinkByIndex_law i : sat (LinkByIndex i) (LinkByIndex_spec i);
  LinkList_law : sat LinkList LinkList_spec;
  LinkAdd_law l : sat (LinkAdd l) (LinkAdd_spec l);
  LinkDel_law l : sat (LinkDel (Some l)) (LinkDel_spec l);
  LinkSetUp_law l : sat (LinkSetUp (Some l)) (LinkSetUp_spec l);
  LinkSetMaster_law l m : sat (LinkSetMaster (Some l) m) (LinkSetMaster_spec l m);
  LinkSetNsFd_law l h : sat (LinkSetNsFd (Some l) h) (LinkSetNsFd_spec l h);
  VethPeerIndex_law l : sat (VethPeerIndex l) (VethPeerIndex_spec l);
  AddrList_law l f : sat (AddrList (Some l) f) (AddrList_spec l);
  AddrAdd_law l a : sat (AddrAdd (Some l) a) (AddrAdd_spec l a);
  AddrDel_law l a : sat (AddrDel (Some l) a) (AddrDel_spec l a);
  ParseAddr_law : ParseAddr_spec;
  RouteAdd_law rt : sat (RouteAdd rt) (RouteAdd_spec rt);
  RouteListFiltered_law fam rt f :
    sat (RouteListFiltered fam rt f) (RouteListFiltered_spec fam rt f);
  Execute_law req p t : sat (Execute req p t) (Execute_spec req);
  Get_law : sat netns_Get Get_spec;
  GetFromName_law n : sat (netns_GetFromName n) (GetFromName_spec n);
  Set_law h : sat (netns_Set h) (Set_spec h);
  Close_law h : sat (netns_Close h) (Close_spec h);
  Lock_law : sat LockOSThread (Lock_spec 1);
  Unlock_law : sat UnlockOSThread (Lock_spec (-1));
  OpenFile_law p f m : sat (OpenFile p f m) (OpenFile_spec p);
  File_Write_law f t : sat (File_Write f t) (File_Write_spec f t);
  File_Close_law f : sat (File_Close f) (File_Close_spec f);
  (** A nil link: the calls that work on the link itself do not succeed; the
      thread's state does not change. *)
  nil_link_law :
    sat (LinkDel None) (λ s r s', silent s s' ∧ r ≠ Ok tt)
    ∧ sat (LinkSetUp None) (λ s r s', silent s s' ∧ r ≠ Ok tt)
    ∧ (∀ m, sat (LinkSetMaster None m) (λ s r s', silent s s' ∧ r ≠ Ok tt))
    ∧ (∀ h, sat (LinkSetNsFd None h) (λ s r s', silent s s' ∧ r ≠ Ok tt))
    ∧ (∀ f, sat (AddrList None f) (λ s _ s', s' = s))
    ∧ (∀ a, sat (AddrAdd None a) (λ s r s', silent s s' ∧ r ≠ Ok tt))
    ∧ (∀ a, sat (AddrDel None a) (λ s r s', silent s s' ∧ r ≠ Ok tt)) }.
