(* ===== verification/Troubles.v ===== *)
(** * What can go wrong unseen

    Three things the kernel may do are not seen by the code, which goes on as if
    nothing had happened: the router's end of a veth pair shares its index with another
    device (veth.go looks it up by the index alone), a thread is not let back into its
    namespace (namespace.go drops the error), and looking the loopback up fails although it
    may be there (underlay.go drops that error too).  No documentation excludes any of
    them, so the laws of the file Netlink do not.

    [watched W] is the same kernel with somebody who writes such events down: every call
    does what it does in [W].  [troubles m w] is what is written down in the run of [m]
    from [w]; the theorems about runs in which none of this happens say
    [troubles m w = []].  The class [Untroubled] is the kernels where it never happens:
    the lemmas are proved with it, and the file Detour shows that it is no restriction. *)

From S2P Require Import Prelude GoStrings GoNet HostParams Netlink.
Local Open Scope Z_scope.

(** ** Indexes

    Linux numbers the devices of each namespace on its own: every namespace has a device 1,
    its loopback.  A device that moves keeps its number when that is free.  What
    [setupVeth] needs is that the end of a pair that is meant for the router has a number
    of its own. *)
Definition router_leg (d : Dev) : bool :=
  HasPrefix (dev_name d) PEVethPrefix && bool_decide (dev_peer d ≠ None).
Definition legs_apart (s : NetState) : Prop :=
  map_Forall (λ id1 d1, router_leg d1 = true →
    map_Forall (λ id2 d2, dev_index d2 = dev_index d1 → id2 = id1) (devs s)) (devs s).
#[export] Instance legs_apart_dec s : Decision (legs_apart s).
Proof. unfold legs_apart. apply _. Defined.

Lemma leg_alone s id1 d1 id2 d2 :
  legs_apart s → devs s !! id1 = Some d1 → router_leg d1 = true → devs s !! id2 = Some d2 →
  dev_index d2 = dev_index d1 → id2 = id1.
Proof. intros Hs Hd1 Hl Hd2. exact (Hs id1 d1 Hd1 Hl id2 d2 Hd2). Qed.
Lemma legs_apart_intro s :
  (∀ id1 d1 id2 d2, devs s !! id1 = Some d1 → router_leg d1 = true → devs s !! id2 = Some d2 →
    dev_index d2 = dev_index d1 → id2 = id1) → legs_apart s.
Proof. intros Hs id1 d1 Hd1 Hl id2 d2. by apply Hs. Qed.
Lemma legs_apart_devs s s' : devs s' = devs s → legs_apart s → legs_apart s'.
Proof. unfold legs_apart. by intros ->. Qed.

(** Where every device was there before, with its index, its name and its peer. *)
Lemma legs_apart_from s s' :
  (∀ id d', devs s' !! id = Some d' → ∃ d, devs s !! id = Some d
     ∧ dev_name d' = dev_name d ∧ dev_peer d' = dev_peer d ∧ dev_index d' = dev_index d) →
  legs_apart s → legs_apart s'.
Proof.
  intros Hf Hs. apply legs_apart_intro. intros id1 d1 id2 d2 Hd1 Hl Hd2 Hi.
  destruct (Hf _ _ Hd1) as (e1 & He1 & Hn1 & Hp1 & Hi1), (Hf _ _ Hd2) as (e2 & He2 & _ & _ & Hi2).
  apply (leg_alone s id1 e1 id2 e2); [done..| |done|congruence]. unfold router_leg in *. by rewrite -Hn1 -Hp1.
Qed.

(** The router's end of a pair is one. *)
Lemma named_router_leg d name id :
  dev_name d = PEVethPrefix +:+ name → dev_peer d = Some id → router_leg d = true.
Proof. intros Hn Hp. unfold router_leg. by rewrite Hn HasPrefix_app Hp. Qed.

(** ** What is written down *)
Inductive trouble := IndexClash | NotEntered | LoopbackUnknown.

Definition clash_seen {A} (_ : NetState) (_ : res A) (s' : NetState) : list trouble :=
  if bool_decide (legs_apart s') then [] else [IndexClash].
Definition entry_seen (h : NsHandle) (s : NetState) (r : res unit) (_ : NetState) : list trouble :=
  match handles (thr s) !! h, r with Some _, Err _ => [NotEntered] | _, _ => [] end.
Definition lookup_seen (n : string) (_ : NetState) (r : res Link) (_ : NetState) : list trouble :=
  match r with
  | Err e => if bool_decide (n = UnderlayLoopback) && negb (is_link_not_found e) then [LoopbackUnknown] else []
  | _ => []
  end.
Definition nothing_seen {A} (_ : NetState) (_ : res A) (_ : NetState) : list trouble := [].

Definition watched (W : Type) : Type := W * list trouble.
Definition watch `{View W} {A} (seen : NetState → res A → NetState → list trouble) (m : go W A)
    : go (watched W) A := λ w,
  let '(r, w1) := m w.1 in (r, (w1, w.2 ++ seen (view w.1) r (view w1))).
Notation unseen_by m := (watch nothing_seen m) (only parsing).

#[export] Instance watched_view `{View W} : View (watched W) := λ w, view w.1.
#[export] Instance watched_netlink `{Netlink W, View W} : Netlink (watched W) := {|
  LinkByName n := watch (lookup_seen n) (LinkByName n);
  LinkByIndex i := unseen_by (LinkByIndex i);
  LinkList := unseen_by LinkList;
  LinkAdd l := watch clash_seen (LinkAdd l);
  LinkDel l := unseen_by (LinkDel l);
  LinkSetUp l := unseen_by (LinkSetUp l);
  LinkSetMaster l m := unseen_by (LinkSetMaster l m);
  LinkSetNsFd l h := watch clash_seen (LinkSetNsFd l h);
  VethPeerIndex l := unseen_by (VethPeerIndex l);
  AddrList l f := unseen_by (AddrList l f);
  AddrAdd l a := unseen_by (AddrAdd l a);
  AddrDel l a := unseen_by (AddrDel l a);
  ParseAddr := ParseAddr (W:=W);
  RouteListFiltered f r m := unseen_by (RouteListFiltered f r m);
  RouteAdd r := unseen_by (RouteAdd r);
  Execute r p t := unseen_by (Execute r p t);
  netns_Get := unseen_by netns_Get;
  netns_GetFromName n := unseen_by (netns_GetFromName n);
  netns_Set h := watch (entry_seen h) (netns_Set h);
  netns_Close h := unseen_by (netns_Close h);
  LockOSThread := unseen_by LockOSThread;
  UnlockOSThread := unseen_by UnlockOSThread;
  OpenFile p f m := unseen_by (OpenFile p f m);
  File_Write f t := unseen_by (File_Write f t);
  File_Close f := unseen_by (File_Close f) |}.

Definition troubles {W A} (m : go (watched W) A) (w : W) : list trouble := (m (w, [])).2.2.

(** ** Where nothing goes wrong *)
Class Untroubled (W : Type) `{Netlink W, View W} : Prop := {
  LinkAdd_apart l : sat (LinkAdd l) (λ s _ s', legs_apart s → legs_apart s');
  LinkSetNsFd_apart l h : sat (LinkSetNsFd l h) (λ s _ s', legs_apart s → legs_apart s');
  Set_enters h : sat (netns_Set h) (λ s r _, ∀ n, handles (thr s) !! h = Some n → r = Ok tt);
  loopback_known : sat (LinkByName UnderlayLoopback) (λ _ r _, ∀ e, r = Err e → is_link_not_found e = true) }.

(** Entering the namespace of an open handle, then. *)
Definition Enter_spec (h : NsHandle) (s : NetState) (r : res unit) (s' : NetState) : Prop :=
  match handles (thr s) !! h with
  | Some n => r = Ok tt ∧ s' = set_thr (set_cur n (thr s)) s
  | None => ∃ e, r = Err e ∧ s' = s
  end.
Lemma Enter_law `{NetlinkLaws W, !Untroubled W} h : sat (netns_Set h) (Enter_spec h).
Proof.
  intros w r w' Hr. pose proof (Set_enters _ _ _ _ Hr) as Hok. unfold Enter_spec.
  destruct (Set_law _ _ _ _ Hr) as [(e & -> & Hs)|(n & Hn & -> & Hs)].
  - destruct (handles _ !! h) as [n|] eqn:Hn; [by specialize (Hok n eq_refl)|by exists e].
  - by rewrite Hn.
Qed.
