(* ===== verification/NetLogic.v ===== *)
(** * Reasoning about programs over the kernel interface

    [wp m s Q]: run from a world that shows [s], [m] ends with an outcome and a
    visible state in [Q]; [wpo] only constrains the runs that end without error.
    [quiet m]: however [m] ends, the thread is where it was, with the same open
    handles and files and the same lock count. *)

From S2P Require Import Prelude GoStrings GoNet HostParams Netlink Troubles.
Local Open Scope Z_scope.

Section logic.
Context {W : Type} `{NetlinkLaws W}.

Definition wp {A} (m : go W A) (s : NetState) (Q : res A → NetState → Prop) : Prop :=
  wpv view m s Q.
Definition on_ok {A} (P : A → NetState → Prop) (r : res A) (s : NetState) : Prop :=
  match r with Ok a => P a s | _ => True end.
Definition wpo {A} (m : go W A) (s : NetState) (P : A → NetState → Prop) : Prop :=
  wp m s (on_ok P).

Lemma wp_sat {A} (m : go W A) R s Q :
  sat m R → (∀ r s', R s r s' → Q r s') → wp m s Q.
Proof. intros Hm HQ w r w' <- Hr. by apply HQ, Hm. Qed.

Lemma sat_wp {A} (m : go W A) R : (∀ s, wp m s (R s)) → sat m R.
Proof. intros Hm w r w' Hr. exact (Hm _ w r w' eq_refl Hr). Qed.

Lemma wp_conj {A} (m : go W A) s P Q : wp m s P → wp m s Q → wp m s (λ r s', P r s' ∧ Q r s').
Proof. intros HP HQ w r w' Hw Hr. split; [exact (HP w r w' Hw Hr)|exact (HQ w r w' Hw Hr)]. Qed.
Lemma wp_wf {A} (m : go W A) s Q : (wf s → wp m s Q) → wp m s Q.
Proof. intros Hm w r w' <- Hr. by eapply Hm; [apply view_wf|..]. Qed.

Lemma wp_mono {A} (m : go W A) s (Q Q' : res A → NetState → Prop) :
  wp m s Q → (∀ r s', Q r s' → Q' r s') → wp m s Q'.
Proof. apply wpv_mono. Qed.

Lemma wp_bind {A B} (m : go W A) (f : A → go W B) s Q :
  wp m s (λ r s', match r with
                  | Ok a => wp (f a) s' Q
                  | Err e => Q (Err e) s'
                  | Panic => Q Panic s'
                  end) → wp (m ≫= f) s Q.
Proof. apply wpv_bind. Qed.

Lemma wp_ret {A} (a : A) s Q : Q (Ok a) s → wp (mret a) s Q.
Proof. apply wpv_ret. Qed.
Lemma wp_fail {A} e s (Q : res A → NetState → Prop) : Q (Err e) s → wp (fail e) s Q.
Proof. apply wpv_fail. Qed.
Lemma wp_lift {A} (x : res A) s Q : Q x s → wp (lift x) s Q.
Proof. apply wpv_lift. Qed.
Lemma wp_on_err {A} g (m : go W A) s Q :
  wp m s (λ r s', Q (on_err g r) s') → wp (on_errM g m) s Q.
Proof. apply wpv_on_err. Qed.
Lemma wp_attempt {A} (m : go W A) s Q :
  wp m s (λ r s', match r with
                  | Ok a => Q (Ok (inl a)) s'
                  | Err e => Q (Ok (inr e)) s'
                  | Panic => Q Panic s'
                  end) → wp (attempt m) s Q.
Proof. apply wpv_attempt. Qed.
Lemma wp_deferring {A B} (d : go W B) (m : go W A) s Q :
  wp m s (λ r s1, wp d s1 (λ _ s2, Q r s2)) → wp (deferring (ignored d) m) s Q.
Proof. apply wpv_deferring. Qed.

(** The rules for runs that end without error. *)
Lemma wpo_bind {A B} (m : go W A) (f : A → go W B) s P :
  wpo m s (λ a s', wpo (f a) s' P) → wpo (m ≫= f) s P.
Proof.
  intros Hm. apply wp_bind. eapply wp_mono; [exact Hm|]. by intros [] s'.
Qed.
Lemma wpo_sat {A} (m : go W A) R s P :
  sat m R → (∀ a s', R s (Ok a) s' → P a s') → wpo m s P.
Proof. intros Hm HP. eapply wp_sat; [exact Hm|]. intros [] s' HR; simpl; auto. Qed.
Lemma wpo_mono {A} (m : go W A) s (P P' : A → NetState → Prop) :
  wpo m s P → (∀ a s', P a s' → P' a s') → wpo m s P'.
Proof. intros Hm HP. eapply wp_mono; [exact Hm|]. intros [] s'; simpl; auto. Qed.
Lemma wpo_on_err {A} g (m : go W A) s P : wpo m s P → wpo (on_errM g m) s P.
Proof. intros Hm. apply wp_on_err. eapply wp_mono; [exact Hm|]. by intros []. Qed.
Lemma wpo_ret {A} (a : A) s P : P a s → wpo (mret a) s P.
Proof. intros. by apply wp_ret. Qed.
Lemma wpo_fail {A} e s (P : A → NetState → Prop) : wpo (fail e) s P.
Proof. by apply wp_fail. Qed.
Lemma wpo_lift {A} (x : res A) s (P : A → NetState → Prop) :
  (∀ a, x = Ok a → P a s) → wpo (lift x) s P.
Proof. intros HP. apply wp_lift. destruct x; simpl; auto. Qed.
Lemma wpo_wf {A} (m : go W A) s P : (wf s → wpo m s P) → wpo m s P.
Proof. apply wp_wf. Qed.
Lemma wpo_wf_post {A} (m : go W A) s P : wpo m s P → wpo m s (λ a s', wf s' ∧ P a s').
Proof. intros Hm w r w' Hw Hr. specialize (Hm w r w' Hw Hr). destruct r; [|done..]. split; [apply view_wf|done]. Qed.
Lemma wpo_Ok {A} (m : go W A) P w a w' :
  wpo m (view w) P → m w = (Ok a, w') → P a (view w').
Proof. intros Hm Hr. exact (Hm w _ w' eq_refl Hr). Qed.

(** ** Quiet programs *)
Definition quiet {A} (m : go W A) : Prop := sat m (λ s _ s', silent s s').

Lemma wp_quiet {A} (m : go W A) s : quiet m → wp m s (λ _ s', silent s s').
Proof. intros Hm. by eapply wp_sat; [exact Hm|]. Qed.

Lemma silent_refl s : silent s s.
Proof. done. Qed.
Lemma silent_trans s1 s2 s3 : silent s1 s2 → silent s2 s3 → silent s1 s3.
Proof. intros [??] [??]. split; congruence. Qed.

Lemma quiet_law {A} (m : go W A) R :
  sat m R → (∀ s r s', R s r s' → silent s s') → quiet m.
Proof. intros Hm HR w r w' Hr. exact (HR _ _ _ (Hm _ _ _ Hr)). Qed.

Lemma quiet_bind {A B} (m : go W A) (f : A → go W B) :
  quiet m → (∀ a, quiet (f a)) → quiet (m ≫= f).
Proof.
  intros Hm Hf. apply sat_wp. intros s. apply wp_bind.
  eapply wp_sat; [exact Hm|]. intros [a|e|] s' Hs; simpl; try done.
  eapply wp_sat; [exact (Hf a)|]. intros r s'' Hs'. exact (silent_trans _ _ _ Hs Hs').
Qed.
Lemma quiet_ret {A} (a : A) : quiet (mret a).
Proof. by intros w r w' [= <- <-]. Qed.
Lemma quiet_fail {A} e : quiet (@fail W A e).
Proof. by intros w r w' [= <- <-]. Qed.
Lemma quiet_lift {A} (x : res A) : quiet (lift x).
Proof. by intros w r w' [= <- <-]. Qed.
Lemma quiet_on_err {A} g (m : go W A) : quiet m → quiet (on_errM g m).
Proof.
  intros Hm. apply sat_wp. intros s. apply wp_on_err.
  by eapply wp_sat; [exact Hm|].
Qed.
Lemma quiet_attempt {A} (m : go W A) : quiet m → quiet (attempt m).
Proof.
  intros Hm. apply sat_wp. intros s. apply wp_attempt.
  eapply wp_sat; [exact Hm|]. by intros [].
Qed.
Lemma quiet_forM {A} (f : A → go W unit) l : (∀ x, quiet (f x)) → quiet (forM_ f l).
Proof.
  intros Hf. induction l as [|x l IH]; simpl; [apply quiet_ret|].
  apply quiet_bind; auto.
Qed.

(** The operations that leave the thread alone. *)
Lemma quiet_LinkByName n : quiet (LinkByName n).
Proof. eapply quiet_law; [apply LinkByName_law|]. by intros s r s' [-> _]. Qed.
Lemma quiet_LinkByIndex n : quiet (LinkByIndex n).
Proof. eapply quiet_law; [apply LinkByIndex_law|]. by intros s r s' [-> _]. Qed.
Lemma quiet_LinkList : quiet LinkList.
Proof. eapply quiet_law; [apply LinkList_law|]. by intros s r s' [-> _]. Qed.
Lemma quiet_LinkAdd l : quiet (LinkAdd l).
Proof. eapply quiet_law; [apply LinkAdd_law|]. by intros s r s' [? _]. Qed.
Lemma quiet_LinkDel l : quiet (LinkDel l).
Proof.
  destruct l; [|by eapply quiet_law; [apply nil_link_law|]; intros ??? [? _]].
  eapply quiet_law; [apply LinkDel_law|]. by intros s r s' [? _].
Qed.
Lemma quiet_LinkSetUp l : quiet (LinkSetUp l).
Proof.
  destruct l; [|by eapply quiet_law; [apply nil_link_law|]; intros ??? [? _]].
  eapply quiet_law; [apply LinkSetUp_law|]. by intros s r s' [? _].
Qed.
Lemma quiet_LinkSetMaster l m : quiet (LinkSetMaster l m).
Proof.
  destruct l; [|by eapply quiet_law; [apply nil_link_law|]; intros ??? [? _]].
  eapply quiet_law; [apply LinkSetMaster_law|]. by intros s r s' [? _].
Qed.
Lemma quiet_LinkSetNsFd l h : quiet (LinkSetNsFd l h).
Proof.
  destruct l; [|by eapply quiet_law; [apply nil_link_law|]; intros ??? [? _]].
  eapply quiet_law; [apply LinkSetNsFd_law|]. by intros s r s' [? _].
Qed.
Lemma quiet_VethPeerIndex l : quiet (VethPeerIndex l).
Proof. eapply quiet_law; [apply VethPeerIndex_law|]. by intros s r s' [-> _]. Qed.
Lemma quiet_AddrList l f : quiet (AddrList l f).
Proof.
  destruct l; [|by eapply quiet_law; [apply nil_link_law|]; intros s r s' ->].
  eapply quiet_law; [apply AddrList_law|]. by intros s r s' [-> _].
Qed.
Lemma quiet_AddrAdd l a : quiet (AddrAdd l a).
Proof.
  destruct l; [|by eapply quiet_law; [apply nil_link_law|]; intros ??? [? _]].
  eapply quiet_law; [apply AddrAdd_law|]. by intros s r s' [? _].
Qed.
Lemma quiet_AddrDel l a : quiet (AddrDel l a).
Proof.
  destruct l; [|by eapply quiet_law; [apply nil_link_law|]; intros ??? [? _]].
  eapply quiet_law; [apply AddrDel_law|]. by intros s r s' [? _].
Qed.
Lemma quiet_Execute r p t : quiet (Execute r p t).
Proof. eapply quiet_law; [apply Execute_law|]. by intros s x s' [? _]. Qed.
Lemma quiet_RouteAdd r : quiet (RouteAdd r).
Proof. eapply quiet_law; [apply RouteAdd_law|]. by intros s x s' [? _]. Qed.
Lemma quiet_RouteListFiltered a b c : quiet (RouteListFiltered a b c).
Proof. eapply quiet_law; [apply RouteListFiltered_law|]. by intros s x s' [-> _]. Qed.
End logic.

#[export] Hint Resolve quiet_ret quiet_fail quiet_lift quiet_LinkByName quiet_LinkByIndex
  quiet_LinkList quiet_LinkAdd quiet_LinkDel quiet_LinkSetUp quiet_LinkSetMaster
  quiet_LinkSetNsFd quiet_VethPeerIndex quiet_AddrList quiet_AddrAdd quiet_AddrDel
  quiet_Execute quiet_RouteAdd quiet_RouteListFiltered : pierre.

(** Proves [quiet m] by following the program.  [quiet_step] is extended where a
    new control construct is defined. *)
Ltac quiet_step := fail.
Ltac solve_quiet :=
  repeat first
    [ solve [auto with pierre]
    | quiet_step
    | lazymatch goal with
      | |- quiet (_ ≫= _) => apply quiet_bind; [|intros ?]
      | |- quiet (on_errM _ _) => apply quiet_on_err
      | |- quiet (attempt _) => apply quiet_attempt
      | |- quiet (forM_ _ _) => apply quiet_forM; intros ?
      | |- quiet (match ?x with _ => _ end) => destruct x
      | |- forall _, _ => intros ?
      end
    | progress cbv zeta ].

(** One step of a successful run. *)
Ltac wpo_step :=
  cbv beta iota zeta;
  try match goal with |- wp ?m ?s (on_ok ?P) => change (wpo m s P) end;
  lazymatch goal with
  | |- wpo (_ ≫= _) _ _ => apply wpo_bind
  | |- wpo (on_errM _ _) _ _ => apply wpo_on_err
  | |- wpo (mret _) _ _ => apply wpo_ret
  | |- wpo (fail _) _ _ => apply wpo_fail
  | |- wpo (lift _) _ _ => apply wpo_lift; intros ? ?
  end.
