(* ===== verification/HostLinks.v ===== *)
(** * Package [internal/hostnetwork]: namespaces, link properties and links

    namespace.go, properties.go, bridge.go, vrf.go, vxlan.go and veth.go.  Every
    function is a program over the kernel interface of the file Netlink.  Errors
    keep their format; arguments that are links or handles are left out. *)

From S2P Require Import Prelude GoStrings GoNet HostParams Netlink Troubles NetLogic.
Local Open Scope Z_scope.

(** ** Names *)
Definition bridgePrefix : string := "br".
Definition BridgeName (vni : Z) : string := bridgePrefix +:+ Itoa vni.
Definition bridgeName (vni : Z) : string := "br" +:+ Itoa vni.
Definition vniFromBridgeName (name : string) : res Z :=
  on_err (λ _, errorf "failed to get vni for bridge %s" [name])
    (Atoi (TrimPrefix name bridgePrefix)).

Definition vniPrefix : string := "vni".
Definition vxLanName (vni : Z) : string := vniPrefix +:+ Itoa vni.
Definition vniFromVXLanName (name : string) : res Z :=
  on_err (λ _, errorf "failed to get vni for vxlan %s" [name])
    (Atoi (TrimPrefix name vniPrefix)).

Definition vethLegsForVRF (name : string) : string * string :=
  (HostVethPrefix +:+ name, PEVethPrefix +:+ name).
Definition vrfForHostLeg (name : string) : string := TrimPrefix name HostVethPrefix.

Definition underlayNicSpecialAddr : string := "172.16.1.1/32".

(** ** vrf.go: the routing table *)
Definition MaxUint32 : Z := 2 ^ 32 - 1.

Definition takenTables (links : list Link) : gset Z :=
  list_to_set (omap (λ l, match Kind l with Vrf t => Some t | _ => None end) links).

(** [for res := uint32(1); res < math.MaxUint32; res++]; the fuel bounds the
    number of rounds and [None] says it was not enough. *)
Fixpoint findFree_loop (fuel : nat) (taken : gset Z) (res : Z) : option (Prelude.res Z) :=
  match fuel with
  | O => None
  | S fuel =>
      if res <? MaxUint32 then
        if bool_decide (res ∈ taken) then findFree_loop fuel taken (res + 1)
        else Some (Ok res)
      else Some (Err (errorf "findFreeRoutingTableID: Failed to find an available routing id" []))
  end.

(** One round more than there are links is enough
    ([findFreeRoutingTableID_least]). *)
Definition findFreeRoutingTableID (links : list Link) : res Z :=
  default Panic (findFree_loop (S (length links)) (takenTables links) 1).

(** [vtepIP, _, _ := net.ParseCIDR(s)]: the error is dropped. *)
Definition cidr_ip (s : string) : IP :=
  match ParseCIDR s with Ok (ip, _) => ip | _ => nilIP end.

(** The address the configuration asks a VXLAN to have; [vxLan] is a
    [*netlink.Vxlan], the last case cannot be reached. *)
Definition checkVXLanConfigured (vxLan : Link) (bridgeIndex loopbackIndex : Z)
    (params : VNIParams.t) : res unit :=
  match Kind vxLan with
  | Vxlan vxlanId port learning srcAddr vtepDevIndex =>
      if negb (link_master vxLan =? bridgeIndex) then
        Err (errorf "master index is not bridge index: %d, %d"
               [Itoa (link_master vxLan); Itoa bridgeIndex])
      else if negb (vxlanId =? VNIParams.VNI params) then
        Err (errorf "vxlanid is not vni: %d, %d" [Itoa vxlanId; Itoa (VNIParams.VNI params)])
      else if negb (port =? VNIParams.VXLanPort params) then
        Err (errorf "port is not one coming from params: %d, %d"
               [Itoa port; Itoa (VNIParams.VXLanPort params)])
      else if learning then Err (errorf "learning is enabled" [])
      else if negb (Equal srcAddr (cidr_ip (VNIParams.VTEPIP params))) then
        Err (errorf "src addr is not one coming from params: %v, %v"
               [IP_String srcAddr; VNIParams.VTEPIP params])
      else if negb (vtepDevIndex =? loopbackIndex) then
        Err (errorf "vtep dev index is not loopback index: %d %d"
               [Itoa vtepDevIndex; Itoa loopbackIndex])
      else Ok tt
  | _ => Panic
  end.

(** [int32(x)] *)
Definition to_int32 (z : Z) : Z := (z + 2 ^ 31) mod 2 ^ 32 - 2 ^ 31.

Section host_links.
Context {W : Type} `{Netlink W}.

(** *** namespace.go *)
Definition inNamespace {A} (ns : NsHandle) (execInNamespace : go W A) : go W A :=
  _ ← LockOSThread;
  deferring (ignored UnlockOSThread) (
    origns ← on_errM (λ _, errorf "setupUnderlay: Failed to get current network namespace" [])
               netns_Get;
    deferring (ignored (netns_Close origns)) (
      _ ← on_errM (λ _, errorf "setupUnderlay: Failed to set current network namespace to %s" [])
            (netns_Set ns);
      deferring (ignored (netns_Set origns)) execInNamespace)).

(** *** properties.go *)

(** An error whose text has the name of the link: a nil link panics there. *)
Definition err_with_name {A} (link : option Link) (f : string → error → error) (m : go W A)
    : go W A :=
  r ← attempt m;
  match r with
  | inl a => mret a
  | inr e => name ← lift (attrs_Name link); fail (f name e)
  end.

Definition interfaceHasIP (link : option Link) (address : string) : go W bool :=
  _ ← err_with_name link (λ name _, errorf
        "assignIPToInterface: failed to parse address %s for interface %s" [address; name])
        (lift (ParseAddr (W:=W) address));
  addresses ← err_with_name link (λ name _, errorf
        "assignIPToInterface: failed to list addresses for interface %s" [name])
        (AddrList link FAMILY_ALL);
  mret (existsb (λ a, bool_decide (IPNet_String (Addr_IPNet a) = address)) addresses).

Definition assignIPToInterface (link : option Link) (address : string) : go W unit :=
  hasIP ← interfaceHasIP link address;
  if hasIP : bool then mret tt else
    addr ← err_with_name link (λ name _, errorf
          "assignIPToInterface: failed to parse address %s for interface %s" [address; name])
          (lift (ParseAddr (W:=W) address));
    err_with_name link (λ name _, errorf
      "assignIPToInterface: failed to add address %s to interface %s, err %v" [address; name])
      (AddrAdd link addr).

Definition addrGenModeNone (l : Link) : go W unit :=
  let fileName := "/proc/sys/net/ipv6/conf/" +:+ link_name l +:+ "/addr_gen_mode" in
  file ← on_errM (errorw "addrGenModeNone: error opening file: %w" [])
           (OpenFile fileName O_WRONLY 0);
  deferring (ignored (File_Close file))
    (on_errM (errorw "addrGenModeNone: error writing to file: %w" [])
       (File_Write file ("1" +:+ String "010"%char ""))).

Definition setNeighSuppression (link : Link) : go W unit :=
  let msg := IfInfomsg AF_BRIDGE (to_int32 (link_index link)) in
  let br := RtAttr (Z.lor IFLA_PROTINFO NLA_F_NESTED) [] [RtAttr 32 [1] []] in
  let req := mkRequest RTM_SETLINK NLM_F_ACK [msg; br] in
  _ ← on_errM (errorw "error executing request: %w" []) (Execute req NETLINK_ROUTE 0);
  mret tt.

Definition IFA_F_NOPREFIXROUTE : Z := 512.

Definition restoreAddress (nsLink : Link) (a : Addr) : go W unit :=
  let a := mkAddr (Addr_IPNet a) (Z.land (Flags a) (Z.lnot IFA_F_NOPREFIXROUTE)) in
  r ← attempt (AddrAdd (Some nsLink) a);
  match r with
  | inl _ => mret tt
  | inr e => if os_IsExist e then mret tt else
      fail (errorw "moveNicToNamespace: Failed to add address %s to %s: %w"
              [link_name nsLink] e)
  end.

Definition moveNicToNamespace (nic : string) (ns : NsHandle) : go W unit :=
  inside ← attempt (inNamespace ns
    (on_errM (errorw "setupUnderlay: Failed to find link %s: %w" [nic]) (LinkByName nic)));
  match inside with
  | inl _ => mret tt
  | inr _ =>
      link ← on_errM (errorw "setupUnderlay: Failed to find link %s: %w" [nic]) (LinkByName nic);
      addresses ← on_errM (errorw "setupUnderlay: Failed to get addresses for nic %s: %w"
                             [link_name link]) (AddrList (Some link) FAMILY_ALL);
      _ ← on_errM (errorw "setupUnderlay: Failed to move %s to network namespace %s: %w"
             [link_name link]) (LinkSetNsFd (Some link) ns);
      inNamespace ns (
        nsLink ← on_errM (errorw
            "setupUnderlay: Failed to get link by name %s up in network namespace %s: %w" [nic])
            (LinkByName nic);
        _ ← on_errM (errorw "setupUnderlay: Failed to set %s up in network namespace %s: %w"
              [link_name nsLink]) (LinkSetUp (Some nsLink));
        forM_ (restoreAddress nsLink) addresses)
  end.

Definition nsHasNic (nic ns : string) : go W bool :=
  r ← attempt (LinkByName nic);
  match r with
  | inl _ => mret true
  | inr e => if is_link_not_found e then mret false
             else fail (errorw "failed to find link %s in ns %s: %w" [nic; ns] e)
  end.

(** *** The common part of [setupVeth], [setupVRF], [setupBridge] and
    [setupVXLan]: look the link up, create it when it is not found, and when
    the link is not of the wanted type delete it and create it again.  An
    error that is not "not found" leaves the link nil, which is not of the
    wanted type.  Returns the variable [link] and the link in use. *)
Definition ensure (ok : Link → bool) (name : string) (wrap wrap' : error → error)
    (create : go W Link) : go W (option Link * Link) :=
  found ← attempt (LinkByName name);
  link ← match found with
         | inl l => mret (Some l)
         | inr e => if is_link_not_found e
                    then l ← on_errM wrap create; mret (Some l)
                    else mret None
         end;
  let again :=
    _ ← on_errM (errorw "failed to delete link %v: %w" []) (LinkDel link);
    l ← on_errM wrap' create;
    mret (link, l) in
  match link with
  | Some l => if ok l then mret (link, l) else again
  | None => again
  end.

(** *** vrf.go *)
Definition createVRF (name : string) : go W Link :=
  links ← on_errM (λ _, errorf "createVRF: Failed to find links %v" []) LinkList;
  tableID ← lift (findFreeRoutingTableID links);
  on_errM (λ _, errorf "could not add VRF %s: %v" [name])
    (LinkAdd (mkLink (mkAttrs 0 name 0) (Vrf tableID))).

Definition setupVRF (name : string) : go W Link :=
  '(_, vrf) ← ensure is_vrf name (errorw "failed to create vrf %s: %w" [name])
                (errorw "failed to create vrf %s: %w" [name]) (createVRF name);
  _ ← on_errM (λ _, errorf "could not set link up for VRF %s: %v" [name])
        (LinkSetUp (Some vrf));
  mret vrf.

(** *** bridge.go *)
Definition createBridge (name : string) (vrfIndex : Z) : go W Link :=
  on_errM (λ _, errorf "could not create bridge %s" [name])
    (LinkAdd (mkLink (mkAttrs 0 name vrfIndex) Bridge)).

Definition setupBridge (params : VNIParams.t) (vrf : Link) : go W Link :=
  let name := bridgeName (VNIParams.VNI params) in
  '(_, bridge) ← ensure is_bridge name (errorw "failed to create bridge %s: %w" [name])
                   (errorw "failed to create bridge %s: %w" [name])
                   (createBridge name (link_index vrf));
  _ ← on_errM (errorw "failed to set addr_gen_mode to 1 for %s: %w" [link_name bridge])
        (addrGenModeNone bridge);
  _ ← on_errM (λ _, errorf "could not set link up for bridge %s: %v" [name])
        (LinkSetUp (Some bridge));
  mret bridge.

(** *** vxlan.go *)
Definition createVXLan (params : VNIParams.t) (bridge : Link) : go W Link :=
  loopback ← on_errM (errorw "failed to get loopback by name: %w" [])
               (LinkByName UnderlayLoopback);
  let name := vxLanName (VNIParams.VNI params) in
  on_errM (errorw "failed to create vxlan %s: %w" [name])
    (LinkAdd (mkLink (mkAttrs 0 name (link_index bridge))
                (Vxlan (VNIParams.VNI params) (VNIParams.VXLanPort params) false
                   (cidr_ip (VNIParams.VTEPIP params)) (link_index loopback)))).

Definition setupVXLan (params : VNIParams.t) (bridge : Link) : go W unit :=
  loopback ← on_errM (errorw "failed to get loopback by name: %w" [])
               (LinkByName UnderlayLoopback);
  let name := vxLanName (VNIParams.VNI params) in
  let create_err := errorw "failed to create vxlan %s: %w" [name] in
  '(link, vxlan) ← ensure is_vxlan name create_err create_err (createVXLan params bridge);
  configured ← attempt (lift (checkVXLanConfigured vxlan (link_index bridge)
                                (link_index loopback) params));
  vxlan ← match configured with
          | inl _ => mret vxlan
          | inr _ =>
              _ ← on_errM (errorw "failed to delete link %v: %w" []) (LinkDel link);
              on_errM create_err (createVXLan params bridge)
          end;
  _ ← on_errM (errorw "failed to set addr_gen_mode to 1 for %s: %w" [link_name vxlan])
        (addrGenModeNone vxlan);
  _ ← on_errM (errorw "failed to set neigh suppression for %s: %w" [link_name vxlan])
        (setNeighSuppression vxlan);
  on_errM (λ _, errorf "could not set link up for vxlan %s: %v" [name])
    (LinkSetUp (Some vxlan)).

(** *** veth.go *)
Definition createVeth (vrfName : string) : go W Link :=
  let '(hostSide, peSide) := vethLegsForVRF vrfName in
  on_errM (errorw "could not add veth %s: %w" [vrfName])
    (LinkAdd (mkLink (mkAttrs 0 hostSide 0) (Veth peSide))).

Definition setupVeth (name : string) (targetNS : NsHandle) : go W (Link * option Link) :=
  let '(hostSide, _) := vethLegsForVRF name in
  '(_, vethHost) ← ensure is_veth hostSide id (errorw "failed create veth %s: %w" [name])
                     (createVeth name);
  peerIndex ← on_errM (errorw "could not find peer veth for %s: %w" [name])
                (VethPeerIndex vethHost);
  found ← attempt (LinkByIndex peerIndex);
  let move (vethPE : option Link) :=
    _ ← err_with_name vethPE (λ n, errorw
          "setupUnderlay: Failed to move %s to network namespace %s: %w" [n])
          (LinkSetNsFd vethPE targetNS);
    _ ← lift (attrs_Name vethPE);
    mret (vethHost, vethPE) in
  match found with
  | inl l => move (Some l)
  | inr e =>
      if is_link_not_found e then
        l ← on_errM (errorw "could not find peer veth by index for %s: %w" [name])
              (inNamespace targetNS (LinkByIndex peerIndex));
        mret (vethHost, Some l)
      else move None
  end.
End host_links.

(** ** Names *)

(** C40. The names of the devices that are made for a VRF or a VNI determine what they were
    made for: parsing the name of a bridge or of a VXLAN gives its VNI back, cutting the
    name of a host leg gives its VRF back, each of the four ways to name a device gives
    different names to different VRFs or VNIs, and no name is given in two of these ways.
    The device of a VRF is not one of the four: its name is the VRF's own, and nothing
    keeps it from being the name of another device. *)
Theorem names_round_trip :
  (∀ vni, in_int64 vni → vniFromBridgeName (bridgeName vni) = Ok vni
     ∧ vniFromBridgeName (BridgeName vni) = Ok vni
     ∧ vniFromVXLanName (vxLanName vni) = Ok vni)
  ∧ (∀ vrf, vrfForHostLeg (vethLegsForVRF vrf).1 = vrf)
  ∧ (∀ v v', bridgeName v = bridgeName v' ∨ vxLanName v = vxLanName v' → v = v')
  ∧ (∀ vrf vrf', (vethLegsForVRF vrf).1 = (vethLegsForVRF vrf').1
       ∨ (vethLegsForVRF vrf).2 = (vethLegsForVRF vrf').2 → vrf = vrf')
  ∧ (∀ vrf vrf' vni vni',
       NoDup [(vethLegsForVRF vrf).1; (vethLegsForVRF vrf').2; bridgeName vni; vxLanName vni']).
Proof.
  split_and!.
  - intros vni Hv.
    unfold vniFromBridgeName, bridgeName, BridgeName, vniFromVXLanName, vxLanName,
      bridgePrefix, vniPrefix.
    by rewrite !TrimPrefix_app !Atoi_Itoa.
  - intros vrf. apply TrimPrefix_app.
  - intros v v' [Heq|Heq]; apply string_app_inj_r in Heq; by apply Itoa_inj.
  - intros v v' [Heq|Heq]; by apply string_app_inj_r in Heq.
  - intros vrf vrf' vni vni'. rewrite !list.NoDup_cons !not_elem_of_cons.
    split_and!; try apply not_elem_of_nil; try discriminate. apply NoDup_nil_2.
Qed.

(** VRFs can be called like the router's leg of another one, or like a bridge. *)
Example vrf_names_clash : (vethLegsForVRF "red").2 = "pered" ∧ bridgeName 100 = "br100".
Proof. by split. Qed.

Lemma findFree_loop_spec fuel taken r :
  1 ≤ r → r + Z.of_nat fuel ≤ MaxUint32 →
  (∃ i, findFree_loop fuel taken r = Some (Ok i) ∧ r ≤ i < r + Z.of_nat fuel ∧ i ∉ taken
     ∧ ∀ j, r ≤ j < i → j ∈ taken)
  ∨ (findFree_loop fuel taken r = None ∧ ∀ j, r ≤ j < r + Z.of_nat fuel → j ∈ taken).
Proof.
  revert r; induction fuel as [|fuel IH]; intros r Hr Hle.
  { right. split; [done|lia]. }
  cbn [findFree_loop]. destruct (Z.ltb_spec r MaxUint32); [|lia].
  case_bool_decide as Hin.
  - destruct (IH (r + 1)) as [(i & Hi & Hb & Hn & Hlow)|[Hnone Hall]]; [lia|lia|..].
    + left. exists i. split_and!; [done|lia|lia|done|]. intros j Hj.
      destruct (decide (j = r)) as [->|]; [done|]. apply Hlow. lia.
    + right. split; [done|]. intros j Hj.
      destruct (decide (j = r)) as [->|]; [done|]. apply Hall. lia.
  - left. exists r. split_and!; [done|lia|lia|done|]. lia.
Qed.

Lemma pigeon_range (taken : gset Z) (n : nat) :
  (∀ j, 1 ≤ j < 1 + Z.of_nat n → j ∈ taken) → (n ≤ size taken)%nat.
Proof.
  intros Hall.
  assert (list_to_set (C:=gset Z) (seqZ 1 (Z.of_nat n)) ⊆ taken) as Hsub.
  { intros j Hj%elem_of_list_to_set%elem_of_seqZ. apply Hall. lia. }
  apply subseteq_size in Hsub. rewrite size_list_to_set in Hsub; [|apply NoDup_seqZ].
  by rewrite length_seqZ Nat2Z.id in Hsub.
Qed.

Lemma size_takenTables links : (size (takenTables links) ≤ length links)%nat.
Proof.
  unfold takenTables. etransitivity; [apply size_list_le|].
  unfold omap. induction links as [|l ls IH]; [done|].
  cbn [list_omap length]. destruct (Kind l); cbn [length]; lia.
Qed.

(** C27. [findFreeRoutingTableID] returns the least routing table from 1 that no
    VRF uses; the search stops after at most one round per link and one more. *)
Theorem findFreeRoutingTableID_least links :
  Z.of_nat (length links) < MaxUint32 - 2 →
  ∃ id, findFreeRoutingTableID links = Ok id
    ∧ 1 ≤ id ≤ Z.of_nat (length links) + 1
    ∧ (∀ l, l ∈ links → Kind l ≠ Vrf id)
    ∧ (∀ j, 1 ≤ j < id → ∃ l, l ∈ links ∧ Kind l = Vrf j).
Proof.
  intros Hlen. unfold findFreeRoutingTableID.
  assert (∀ j, j ∈ takenTables links ↔ ∃ l, l ∈ links ∧ Kind l = Vrf j) as Htaken.
  { intros j. unfold takenTables. rewrite elem_of_list_to_set list_elem_of_omap.
    split; intros (l & Hl & Hk); exists l; (split; [done|]);
      destruct (Kind l); naive_solver. }
  destruct (findFree_loop_spec (S (length links)) (takenTables links) 1)
    as [(i & -> & Hi & Hni & Hlow)|[_ Hall]]; [lia|lia|..].
  - exists i. split_and!; [done|lia|lia|..].
    + intros l Hl Hk. apply Hni, Htaken. by exists l.
    + intros j Hj. by apply Htaken, Hlow.
  - apply pigeon_range in Hall. pose proof (size_takenTables links). lia.
Qed.

Lemma findFreeRoutingTableID_least_witness :
  let links := [mkLink (mkAttrs 2 "red" 0) (Vrf 1); mkLink (mkAttrs 3 "lound" 0) Dummy;
                mkLink (mkAttrs 4 "blue" 0) (Vrf 3)] in
  findFreeRoutingTableID links = Ok 2 ∧
  ∃ id, findFreeRoutingTableID links = Ok id ∧ 1 ≤ id ≤ 4
    ∧ (∀ l, l ∈ links → Kind l ≠ Vrf id)
    ∧ (∀ j, 1 ≤ j < id → ∃ l, l ∈ links ∧ Kind l = Vrf j).
Proof.
  cbv zeta. split; [vm_compute; reflexivity|].
  apply (findFreeRoutingTableID_least
    [mkLink (mkAttrs 2 "red" 0) (Vrf 1); mkLink (mkAttrs 3 "lound" 0) Dummy;
     mkLink (mkAttrs 4 "blue" 0) (Vrf 3)]).
  reflexivity.
Defined.

(** ** The configuration of a VXLAN *)

(** What a VXLAN must be for [checkVXLanConfigured]. *)
Definition vxlan_configured (l : Link) (bridgeIndex loopbackIndex : Z) (params : VNIParams.t)
    : Prop :=
  ∃ src, Kind l = Vxlan (VNIParams.VNI params) (VNIParams.VXLanPort params) false src
                    loopbackIndex
    ∧ link_master l = bridgeIndex ∧ Equal src (cidr_ip (VNIParams.VTEPIP params)) = true.

Lemma checkVXLanConfigured_Ok l bi li params :
  checkVXLanConfigured l bi li params = Ok tt ↔ vxlan_configured l bi li params.
Proof.
  unfold checkVXLanConfigured, vxlan_configured. split.
  - destruct (Kind l) as [| | | |vid port learn src vtep|]; try done.
    destruct (Z.eqb_spec (link_master l) bi) as [<-|]; [|done].
    destruct (Z.eqb_spec vid (VNIParams.VNI params)) as [->|]; [|done].
    destruct (Z.eqb_spec port (VNIParams.VXLanPort params)) as [->|]; [|done].
    destruct learn; [done|]. destruct (Equal src _) eqn:Esrc; [|done].
    destruct (Z.eqb_spec vtep li) as [->|]; [|done]. intros _. by exists src.
  - intros (src & -> & -> & ->). by rewrite !Z.eqb_refl.
Qed.

(** ** Running in another namespace *)

(** The state the body of [inNamespace] starts from, [h] being the handle of the
    namespace it was called in, and the state after it. *)
Definition enter (n : Z) (h : NsHandle) (s : NetState) : NetState :=
  set_thr (mkThread n (<[h := cur_ns s]> (handles (thr s))) (locks (thr s) + 1)
             (files (thr s))) s.
Definition leave (h : NsHandle) (s : NetState) : NetState :=
  set_thr (mkThread (default (cur_ns s) (handles (thr s) !! h)) (delete h (handles (thr s)))
             (locks (thr s) - 1) (files (thr s))) s.

Lemma leave_silent n h s s2 :
  handles (thr s) !! h = None → silent (enter n h s) s2 →
  leave h s2 = set_thr (thr s) s2.
Proof.
  intros Hh [Ht _]. unfold leave. rewrite Ht. cbn. rewrite lookup_insert_eq delete_insert_id //.
  cbn. f_equal. destruct s as [[c hs l f] ???]. cbn. f_equal; try lia.
Qed.

(** ** Coming back *)
Section coming_back.
Context {W : Type} `{NetlinkLaws W}.

Lemma deferring_run {A B} (d : go W B) (m : go W A) w r w' :
  deferring (ignored d) m w = (r, w') → ∃ w1 x, m w = (r, w1) ∧ d w1 = (x, w').
Proof.
  unfold deferring, ignored. destruct (m w) as [y w1]. intros Hr. injection Hr as <- <-.
  exists w1, (d w1).1. by destruct (d w1).
Qed.

(** The part of [inNamespace] after the current namespace is opened: it leaves the locks
    and the handles that were open, and the thread where it was or where the body left it. *)
Lemma entered_run {A} ns h (exec : go W A) w r w' :
  sat exec (λ s _ s', handles (thr s) ⊆ handles (thr s') ∧ locks (thr s') = locks (thr s)) →
  handles (thr (view w)) !! h = Some (cur_ns (view w)) →
  (_ ← on_errM (λ _, errorf "setupUnderlay: Failed to set current network namespace to %s" [])
         (netns_Set ns);
   deferring (ignored (netns_Set h)) exec) w = (r, w') →
  locks (thr (view w')) = locks (thr (view w)) ∧ handles (thr (view w)) ⊆ handles (thr (view w'))
  ∧ (cur_ns (view w') = cur_ns (view w)
     ∨ ∃ w1 w2 e, exec w1 = (r, w2) ∧ handles (thr (view w2)) !! h = Some (cur_ns (view w))
         ∧ (netns_Set h w2).1 = Err e ∧ cur_ns (view w') = cur_ns (view w2)).
Proof.
  intros Hexec Hh. unfold mbind, go_bind, on_errM. destruct (netns_Set ns w) as [x w1] eqn:E.
  destruct (Set_law _ _ _ _ E) as [(e & -> & Hs1)|(n & Hn & -> & Hs1)]; cbn [on_err].
  { intros Hr. injection Hr as _ <-. rewrite Hs1. by split_and!; [|..|left]. }
  intros (w2 & y & Hrun & Hback)%deferring_run. destruct (Hexec _ _ _ Hrun) as [Hsub Hl].
  rewrite Hs1 in Hsub, Hl. cbn in Hsub, Hl. pose proof (lookup_weaken _ _ _ _ Hh Hsub) as Hh2.
  destruct (Set_law _ _ _ _ Hback) as [(e & -> & ->)|(m & Hm & -> & ->)].
  - split_and!; [done..|]. right. exists w1, w2, e. by rewrite Hback.
  - cbn. split_and!; [done..|]. left. congruence.
Qed.

(** C28. [inNamespace] brings the thread back.  Whatever its body does to the devices and
    whatever namespaces it enters, and whether it ends normally, with an error or in a
    panic: as long as the body closes no handle that was open and leaves the thread locked
    as often as it found it, the thread is afterwards locked as often as before and every
    handle that was open still is.  It is in the namespace it came from, unless the body
    ran and the kernel then refused to let it back, although the handle of that namespace
    was still open: [inNamespace] drops that error, so it ends as the body did, with the
    thread where the body left it. *)
Theorem inNamespace_restores {A} ns (exec : go W A) w r w' :
  sat exec (λ s _ s', handles (thr s) ⊆ handles (thr s') ∧ locks (thr s') = locks (thr s)) →
  inNamespace ns exec w = (r, w') →
  locks (thr (view w')) = locks (thr (view w)) ∧ handles (thr (view w)) ⊆ handles (thr (view w'))
  ∧ (cur_ns (view w') = cur_ns (view w)
     ∨ ∃ h w1 w2 e, exec w1 = (r, w2) ∧ handles (thr (view w2)) !! h = Some (cur_ns (view w))
         ∧ (netns_Set h w2).1 = Err e ∧ cur_ns (view w') = cur_ns (view w2)).
Proof.
  intros Hexec. unfold inNamespace. unfold mbind at 1, go_bind.
  destruct (LockOSThread w) as [x w0] eqn:E0. destruct (Lock_law _ _ _ E0) as [-> Hs0].
  intros (w5 & y & Hr & E5)%deferring_run. destruct (Unlock_law _ _ _ E5) as [_ ->]. revert Hr.
  unfold mbind at 1, go_bind, on_errM at 1. destruct (netns_Get w0) as [z w1] eqn:E1.
  destruct (Get_law _ _ _ E1) as [_ Hs1]. destruct z as [h|e|]; cbn [on_err];
    [|intros Hr; injection Hr as _ <-; rewrite Hs1 Hs0; cbn; split_and!; [lia|done|by left]..].
  destruct Hs1 as [Hfresh Hs1]. rewrite Hs0 in Hfresh, Hs1. cbn in Hfresh.
  intros (w4 & u & Hr & E4)%deferring_run. destruct (Close_law _ _ _ _ E4) as [_ ->].
  destruct (entered_run ns h exec w1 r w4 Hexec) as (Hl & Hsub & Hcur); [|exact Hr|].
  { rewrite Hs1. cbn. by rewrite lookup_insert_eq. }
  rewrite Hs1 in Hl, Hsub, Hcur. cbn in *. split_and!; [lia| |].
  - apply map_subseteq_spec. intros k m Hk. assert (h ≠ k) by congruence. rewrite lookup_delete_ne //.
    eapply lookup_weaken; [|exact Hsub]. by rewrite lookup_insert_ne.
  - destruct Hcur as [Hc|(w2 & w3 & e & Hc)]; [by left|right]. by exists h, w2, w3, e.
Qed.
End coming_back.

Section in_namespace.
Context {W : Type} `{NetlinkLaws W, !Untroubled W}.

Lemma wp_Lock {A} (m : go W A) s Q :
  wp m (set_thr (set_locks (locks (thr s) + 1) (thr s)) s) Q →
  wp (_ ← LockOSThread; m) s Q.
Proof.
  intros Hm. apply wp_bind. eapply wp_sat; [apply Lock_law|]. by intros r s' [-> ->].
Qed.

(** What entering a namespace takes: its handle is open, and the current one can be
    had. *)
Definition can_enter (ns : NsHandle) (s : NetState) : Prop :=
  is_Some (handles (thr s) !! ns) ∧ sat (W:=W) netns_Get (λ _ r _, ∃ h, r = Ok h).

Lemma wp_inNamespace {A} ns (exec : go W A) s Q :
  (∀ e, ¬ can_enter ns s → Q (Err e) s) → (¬ can_enter ns s → Q Panic s) →
  (∀ n h, <[h := cur_ns s]> (handles (thr s)) !! ns = Some n →
     handles (thr s) !! h = None →
     wp exec (enter n h s) (λ r s2, Q r (leave h s2))) →
  wp (inNamespace ns exec) s Q.
Proof.
  intros Herr Hpanic Hexec. apply wp_Lock, wp_deferring.
  set (unlock := λ s1, set_thr (set_locks (locks (thr s1) + -1) (thr s1)) s1).
  apply (wp_mono _ _ (λ r s1, Q r (unlock s1))).
  2:{ intros r s1 HQ. eapply wp_sat; [apply Unlock_law|]. by intros ? s2 [_ ->]. }
  assert (∀ c hs, unlock (set_thr (mkThread c hs (locks (thr s) + 1) (files (thr s))) s)
                  = set_thr (mkThread c hs (locks (thr s)) (files (thr s))) s) as Hun.
  { intros c hs. unfold unlock. cbn. unfold set_thr, set_locks. cbn. do 2 f_equal. lia. }
  assert (unlock (set_thr (set_locks (locks (thr s) + 1) (thr s)) s) = s) as Hun0.
  { etransitivity; [apply Hun|]. by destruct s as [[] ???]. }
  apply wp_bind, wp_on_err. apply (wp_mono _ _ (λ r s1, Get_spec (set_thr (set_locks (locks (thr s) + 1) (thr s)) s) r s1
    ∧ ((∀ h, r ≠ Ok h) → ¬ can_enter ns s))).
  { intros w r w' <- Hr. split; [exact (Get_law _ _ _ Hr)|]. intros Hno [_ Hcan].
    destruct (Hcan _ _ _ Hr) as [h ->]. by apply (Hno h). }
  intros r s1 [[_ Hget] Hno]. destruct r as [h|e|]; cbn [on_err];
    [|rewrite Hget Hun0; (apply Herr || apply Hpanic); by apply Hno..]. clear Hno.
  destruct Hget as [Hfresh ->]. cbn in Hfresh.
  apply wp_deferring.
  apply (wp_mono _ _ (λ r s1, Q r
    (unlock (set_thr (set_handles (delete h (handles (thr s1))) (thr s1)) s1)))).
  2:{ intros r s1 HQ. eapply wp_sat; [apply Close_law|]. by intros ? s2 [_ ->]. }
  apply wp_bind, wp_on_err. eapply wp_sat; [apply Enter_law|]. intros r s1 Hset.
  unfold Enter_spec in Hset. cbn in Hset.
  assert (∀ e, ¬ can_enter ns s → Q (Err e) (unlock (set_thr (set_handles (delete h (<[h := cur_ns s]>
    (handles (thr s)))) (set_locks (locks (thr s) + 1) (thr s))) s))) as Hclosed.
  { intros e Hno. cbn. rewrite delete_insert_id //.
    unfold set_handles, set_locks. cbn. rewrite Hun. destruct s as [[] ???]. exact (Herr e Hno). }
  destruct (<[h:=cur_ns s]> (handles (thr s)) !! ns) as [n|] eqn:Ens; cycle 1.
  { destruct Hset as (e & -> & ->). apply Hclosed. intros [[k Hk] _].
    rewrite lookup_insert_ne in Ens; congruence. }
  destruct Hset as [-> ->]. cbn [on_err]. apply wp_deferring.
  eapply wp_mono; [exact (Hexec n h Ens Hfresh)|]. intros r s2 HQ.
  eapply wp_sat; [apply Enter_law|]. intros r' s3 Hback. unfold Enter_spec in Hback.
  unfold leave in HQ.
  destruct (handles (thr s2) !! h) as [m|]; cbn in HQ.
  - destruct Hback as [_ ->]. exact HQ.
  - destruct Hback as (? & _ & ->). exact HQ.
Qed.

(** A quiet body: it runs in the namespace of an open handle, with the devices
    as they are, and afterwards the thread is as it was. *)
Lemma wp_inNamespace_quiet {A} ns (exec : go W A) s Q :
  quiet exec →
  (∀ e, ¬ can_enter ns s → Q (Err e) s) → (¬ can_enter ns s → Q Panic s) →
  (∀ n h, <[h := cur_ns s]> (handles (thr s)) !! ns = Some n →
     handles (thr s) !! h = None →
     wp exec (enter n h s) (λ r s2, silent (enter n h s) s2 → Q r (set_thr (thr s) s2))) →
  wp (inNamespace ns exec) s Q.
Proof.
  intros Hq Herr Hpanic Hexec. apply wp_inNamespace; [done..|].
  intros n h Hn Hh w r w' Hw Hr.
  assert (silent (enter n h s) (view w')) as Hs by (rewrite -Hw; exact (Hq _ _ _ Hr)).
  rewrite (leave_silent n h s) //. exact (Hexec n h Hn Hh w r w' Hw Hr Hs).
Qed.

Lemma wpo_inNamespace {A} ns (exec : go W A) s n0 P :
  quiet exec → handles (thr s) !! ns = Some n0 →
  (∀ h, handles (thr s) !! h = None →
     wpo exec (enter n0 h s) (λ a s2, silent (enter n0 h s) s2 → P a (set_thr (thr s) s2))) →
  wpo (inNamespace ns exec) s P.
Proof.
  intros Hq Hns Hexec. apply wp_inNamespace_quiet; [done..|].
  intros n h Hn Hh. rewrite lookup_insert_ne in Hn; [|congruence].
  assert (n = n0) as -> by congruence.
  eapply wp_mono; [exact (Hexec h Hh)|]. by intros [] s2; simpl.
Qed.

Lemma quiet_inNamespace {A} ns (exec : go W A) : quiet exec → quiet (inNamespace ns exec).
Proof.
  intros Hq. apply sat_wp. intros s. apply wp_inNamespace_quiet; [done..|].
  intros n h Hn Hh. eapply wp_sat; [exact Hq|]. intros r s2 _ [_ Hnm]. split; [done|exact Hnm].
Qed.
Hint Resolve quiet_inNamespace : pierre.

Ltac quiet_step ::=
  lazymatch goal with
  | |- quiet (inNamespace _ _) => apply quiet_inNamespace
  | |- quiet (err_with_name _ _ _) => unfold err_with_name
  end.

Lemma quiet_err_with_name {A} l f (m : go W A) : quiet m → quiet (err_with_name l f m).
Proof. intros Hm. unfold err_with_name. solve_quiet. Qed.
Lemma quiet_assignIPToInterface l a : quiet (assignIPToInterface (W:=W) l a).
Proof.
  unfold assignIPToInterface, interfaceHasIP.
  solve_quiet.
Qed.

(** ** The link functions leave the thread alone *)
Lemma quiet_OpenFile_close {B} path f m (body : Z → go W B) g :
  (∀ x, quiet (body x)) →
  quiet (file ← on_errM g (OpenFile path f m);
         deferring (ignored (File_Close file)) (body file)).
Proof.
  intros Hb. apply sat_wp. intros s. apply wp_bind, wp_on_err.
  eapply wp_sat; [apply OpenFile_law|]. intros [file|e|] s1 [_ Hs1]; cbn;
    [|by subst..].
  destruct Hs1 as [Hfile ->]. apply wp_deferring.
  eapply wp_sat; [exact (Hb file)|]. intros r s2 [Ht Hn].
  eapply wp_sat; [apply File_Close_law|]. intros ? s3 [_ ->]. split; [|exact Hn].
  cbn. rewrite Ht. cbn. rewrite delete_insert_id //. cbn. destruct s as [[] ???]. reflexivity.
Qed.

Lemma quiet_addrGenModeNone l : quiet (addrGenModeNone (W:=W) l).
Proof.
  apply quiet_OpenFile_close. intros file. apply quiet_on_err.
  eapply quiet_law; [apply File_Write_law|]. by intros s r s' [? _].
Qed.
Lemma quiet_setNeighSuppression l : quiet (setNeighSuppression (W:=W) l).
Proof. unfold setNeighSuppression. solve_quiet. Qed.
Lemma quiet_ensure ok name g g' (create : go W Link) :
  quiet create → quiet (ensure ok name g g' create).
Proof. intros Hc. unfold ensure. solve_quiet. Qed.
Hint Resolve quiet_err_with_name quiet_assignIPToInterface quiet_addrGenModeNone
  quiet_setNeighSuppression quiet_ensure : pierre.

Lemma quiet_setupVRF name : quiet (setupVRF (W:=W) name).
Proof.
  unfold setupVRF. apply quiet_bind; [apply quiet_ensure; unfold createVRF|];
    solve_quiet.
Qed.
Lemma quiet_setupBridge params vrf : quiet (setupBridge (W:=W) params vrf).
Proof.
  unfold setupBridge. apply quiet_bind; [apply quiet_ensure; unfold createBridge|];
    solve_quiet.
Qed.
Lemma quiet_createVXLan params b : quiet (createVXLan (W:=W) params b).
Proof. unfold createVXLan. solve_quiet. Qed.
Hint Resolve quiet_createVXLan : pierre.
Lemma quiet_setupVXLan params b : quiet (setupVXLan (W:=W) params b).
Proof. unfold setupVXLan. solve_quiet. Qed.
Lemma quiet_setupVeth name ns : quiet (setupVeth (W:=W) name ns).
Proof.
  unfold setupVeth. cbn. apply quiet_bind; [apply quiet_ensure; unfold createVeth|];
    solve_quiet.
Qed.
Lemma quiet_restoreAddress l a : quiet (restoreAddress (W:=W) l a).
Proof. unfold restoreAddress. solve_quiet. Qed.
Hint Resolve quiet_restoreAddress : pierre.
Lemma quiet_moveNic nic ns : quiet (moveNicToNamespace (W:=W) nic ns).
Proof.
  unfold moveNicToNamespace. solve_quiet.
Qed.
End in_namespace.

#[export] Hint Resolve quiet_inNamespace quiet_err_with_name quiet_assignIPToInterface
  quiet_addrGenModeNone quiet_setNeighSuppression quiet_ensure quiet_setupVRF
  quiet_setupBridge quiet_createVXLan quiet_setupVXLan quiet_setupVeth quiet_restoreAddress
  quiet_moveNic : pierre.
Ltac quiet_step ::=
  lazymatch goal with
  | |- quiet (inNamespace _ _) => apply quiet_inNamespace
  end.
