(* ===== verification/HostNetwork.v ===== *)
(** * Package [internal/hostnetwork]: VNIs and the underlay

    vni.go ([SetupVNI], [RemoveNonConfiguredVNIs], the route to the host) and
    underlay.go ([SetupUnderlay] and what it calls), over the functions of the
    file HostLinks.  A [map[string]bool] of names is a [gset string]. *)

From S2P Require Import Prelude GoStrings GoNet HostParams Netlink HostLinks.
Local Open Scope Z_scope.

(** [hostIPToRoute]: the route to the host's address through the router's leg. *)
Definition hostIPToRoute (vrf : Link) (dst : string) (peInterface : Link) : res Route :=
  '(ip, dstCIDR) ← on_err (errorw "failed to parse veth host ip %s: %w" [dst]) (ParseCIDR dst);
  let '(_, maskSize) := Mask_Size (IPNet_Mask dstCIDR) in
  Ok (mkRoute (match Kind vrf with Vrf t => t | _ => 0 end)
        (mkIPNet ip (CIDRMask maskSize maskSize)) (link_index peInterface)).

Section host_network.
Context {W : Type} `{Netlink W}.

(** ** vni.go *)

(** The function [SetupVNI] runs in the router's namespace. *)
Definition setupVNIInNamespace (params : VNIParams.t) (peVeth : option Link) : go W unit :=
  _ ← assignIPToInterface peVeth (VNIParams.VethNSIP params);
  _ ← on_errM (λ _, errorf "could not set link up for host leg %s: %v" [])
        (LinkSetUp peVeth);
  vrf ← setupVRF (VNIParams.VRF params);
  _ ← err_with_name peVeth (λ name _, errorf
        "failed to set vrf %s as marter of pe veth %s" [link_name vrf; name])
        (LinkSetMaster peVeth vrf);
  bridge ← setupBridge params vrf;
  setupVXLan params bridge.

Definition SetupVNI (params : VNIParams.t) : go W unit :=
  ns ← on_errM (λ _, errorf "SetupVNI: Failed to get network namespace %s"
                 [VNIParams.TargetNS params]) (netns_GetFromName (VNIParams.TargetNS params));
  '(hostVeth, peVeth) ← setupVeth (VNIParams.VRF params) ns;
  _ ← assignIPToInterface (Some hostVeth) (VNIParams.VethHostIP params);
  _ ← on_errM (λ _, errorf "could not set link up for host leg %s: %v" [])
        (LinkSetUp (Some hostVeth));
  inNamespace ns (setupVNIInNamespace params peVeth).

Definition clearLinks (linkType : string) (vnis : gset Z) (links : list Link)
    (vniFromName : string → res Z) : go W unit :=
  forM_ (λ l,
    if bool_decide (link_Type l = linkType) then
      vni ← on_errM (errorw "remove non configured vnis: failed to get vni for %s %w" [linkType])
              (lift (vniFromName (link_name l)));
      if bool_decide (vni ∈ vnis) then mret tt
      else on_errM (errorw "remove non configured vnis: failed to delete %s %s %w"
                      [linkType; link_name l]) (LinkDel (Some l))
    else mret tt) links.

Definition clearHostLegs (vrfs : gset string) (hostLinks : list Link) : go W unit :=
  forM_ (λ hl,
    if bool_decide (link_Type hl = "veth") && HasPrefix (link_name hl) HostVethPrefix then
      let vrf := vrfForHostLeg (link_name hl) in
      if bool_decide (vrf ∈ vrfs) then mret tt
      else on_errM (errorw "remove host leg: %s %w" [link_name hl]) (LinkDel (Some hl))
    else mret tt) hostLinks.

Definition clearVRFs (vrfs : gset string) (links : list Link) : go W unit :=
  forM_ (λ l,
    if bool_decide (link_Type l = "vrf") && bool_decide (link_name l ∉ vrfs) then
      on_errM (errorw "remove non configured vnis: failed to delete vrf %s %w" [link_name l])
        (LinkDel (Some l))
    else mret tt) links.

Definition RemoveNonConfiguredVNIs (ns : NsHandle) (params : list VNIParams.t) : go W unit :=
  let vrfs : gset string := list_to_set (VNIParams.VRF <$> params) in
  let vnis : gset Z := list_to_set (VNIParams.VNI <$> params) in
  hostLinks ← on_errM (errorw "remove non configured vnis: failed to list links: %w" []) LinkList;
  _ ← clearHostLegs vrfs hostLinks;
  inNamespace ns (
    links ← on_errM (errorw "remove non configured vnis: failed to list links: %w" []) LinkList;
    _ ← clearLinks "vxlan" vnis links vniFromVXLanName;
    _ ← clearLinks "bridge" vnis links vniFromBridgeName;
    clearVRFs vrfs links).

(** [checkRouteIsPresent]: the listed routes have a destination. *)
Definition same_route (toCheck r : Route) : bool :=
  Equal (IPNet_IP (Dst r)) (IPNet_IP (Dst toCheck))
  && bool_decide (Mask_String (IPNet_Mask (Dst r)) = Mask_String (IPNet_Mask (Dst toCheck)))
  && (LinkIndex r =? LinkIndex toCheck) && (Route_Table r =? Route_Table toCheck).

Definition checkRouteIsPresent (toCheck : Route) : go W bool :=
  rs ← on_errM (errorw "failed to list routes: %w" [])
         (RouteListFiltered FAMILY_V4 (mkRoute (Route_Table toCheck) (Dst toCheck) 0)
            (Z.lor RT_FILTER_DST RT_FILTER_TABLE));
  mret (existsb (same_route toCheck) rs).

Definition addRouteToHost (vrf : Link) (dst : string) (peInterface : Link) : go W unit :=
  route ← lift (hostIPToRoute vrf dst peInterface);
  isPresent ← checkRouteIsPresent route;
  if isPresent : bool then mret tt
  else on_errM (errorw "failed to add route %v: %w" []) (RouteAdd route).

(** ** underlay.go *)
Fixpoint findUnderlay (links : list Link) : go W string :=
  match links with
  | [] => mret ""
  | l :: links =>
      _ ← attempt (AddrList (Some l) FAMILY_ALL);
      hasIP ← interfaceHasIP (Some l) underlayNicSpecialAddr;
      if hasIP : bool then mret (link_name l) else findUnderlay links
  end.

Definition oldUnderlayInterface (ns : NsHandle) : go W string :=
  inNamespace ns (
    links ← on_errM (λ _, errorf "failed to list links" []) LinkList;
    findUnderlay links).

Definition removeUnderlayInterface (oldUnderlay : string) (ns : NsHandle) : go W unit :=
  currentNS ← on_errM (errorw "failed to get current ns: %w" []) netns_Get;
  inNamespace ns (
    oldLink ← on_errM (errorw "failed to get old underlay by name %s under ns %s: %w" [oldUnderlay])
                (LinkByName oldUnderlay);
    addr ← on_errM (errorw "failed to parse special addr %s: %w" [])
             (lift (ParseAddr (W:=W) underlayNicSpecialAddr));
    _ ← on_errM (errorw "failed to remove special addr from %s %s: %w" [link_name oldLink])
          (AddrDel (Some oldLink) addr);
    moveNicToNamespace (link_name oldLink) currentNS).

Definition moveUnderlayNic (underlayNic : string) (ns : NsHandle) : go W unit :=
  oldUnderlayNic ← on_errM (errorw "failed to get old underlay interface %w" [])
                     (oldUnderlayInterface ns);
  if bool_decide (oldUnderlayNic ≠ "") && bool_decide (oldUnderlayNic = underlayNic)
  then mret tt
  else
    _ ← (if bool_decide (oldUnderlayNic ≠ "") && bool_decide (oldUnderlayNic ≠ underlayNic)
         then removeUnderlayInterface oldUnderlayNic ns else mret tt);
    _ ← moveNicToNamespace underlayNic ns;
    inNamespace ns (
      underlay ← on_errM (errorw "failed to get underlay nic by name %s: %w" [underlayNic])
                   (LinkByName underlayNic);
      _ ← assignIPToInterface (Some underlay) underlayNicSpecialAddr;
      on_errM (λ _, errorf "could not set link up for VRF %s: %v" [link_name underlay])
        (LinkSetUp (Some underlay))).

(** The loopback of the underlay: an error that is not "not found" leaves the
    link nil and is overwritten. *)
Definition setupLoopback (vtepIP : string) : go W unit :=
  found ← attempt (LinkByName UnderlayLoopback);
  loopback ← match found with
             | inl l => mret (Some l)
             | inr e =>
                 if is_link_not_found e then
                   l ← on_errM (λ _, errorf
                         "assignVTEPToLoopback: failed to create loopback underlay" [])
                         (LinkAdd (mkLink (mkAttrs 0 UnderlayLoopback 0) Dummy));
                   mret (Some l)
                 else mret None
             end;
  assignIPToInterface loopback vtepIP.

Definition SetupUnderlay (params : UnderlayParams.t) : go W unit :=
  ns ← on_errM (errorw "setupUnderlay: Failed to find network namespace %s: %w"
                  [UnderlayParams.TargetNS params])
         (netns_GetFromName (UnderlayParams.TargetNS params));
  deferring (ignored (netns_Close ns)) (
    _ ← inNamespace ns (setupLoopback (UnderlayParams.VtepIP params));
    moveUnderlayNic (UnderlayParams.MainNic params) ns).
End host_network.
