(* ===== verification/LinkSpecs.v ===== *)
(** * What the link functions establish

    The specifications of the file HostLinks' functions on the visible state:
    which device they leave in place and which devices they do not touch. *)

From S2P Require Import Prelude GoStrings GoNet HostParams Netlink Troubles NetLogic HostLinks.
Local Open Scope Z_scope.

(** An address the kernel reports in the way it is written. *)
Definition canonical_addr `{Netlink W} (address : string) : Prop :=
  ∀ a, ParseAddr (W:=W) address = Ok a → IPNet_String (Addr_IPNet a) = address.
Arguments canonical_addr W {_} address.

Lemma canonical_of_net `{NetlinkLaws W, !Untroubled W} address ip net :
  no_char " " address = true → ParseCIDR address = Ok (ip, net) →
  IPNet_String (mkIPNet ip (IPNet_Mask net)) = address → canonical_addr W address.
Proof.
  intros Hb Hp Hs a Ha. destruct (ParseAddr_law address a Hb Ha) as (ip' & net' & Hp' & ->).
  rewrite Hp in Hp'. by injection Hp' as <- <-.
Qed.

(** An address as the kernel prints it: an address and its prefix length that read
    back as themselves. *)
Definition readable (address : string) : bool :=
  no_char " " address &&
  match ParseCIDR address with
  | Ok (ip, net) => bool_decide (IPNet_String (mkIPNet ip (IPNet_Mask net)) = address)
  | _ => false
  end.

Lemma readable_spec address :
  readable address = true ↔ no_char " " address = true ∧ ∃ ip net,
    ParseCIDR address = Ok (ip, net) ∧ IPNet_String (mkIPNet ip (IPNet_Mask net)) = address.
Proof.
  unfold readable. rewrite andb_true_iff. apply and_iff_compat_l. split.
  - destruct (ParseCIDR address) as [[ip net]| |]; [|done..].
    intros Hs%bool_decide_eq_true. by exists ip, net.
  - intros (ip & net & -> & Hs). by rewrite bool_decide_true.
Qed.

Lemma readable_canonical `{NetlinkLaws W, !Untroubled W} address :
  readable address = true → canonical_addr W address.
Proof.
  intros (Hb & ip & net & Hp & Hs)%readable_spec. exact (canonical_of_net _ _ _ Hb Hp Hs).
Qed.

(** What a successful [LinkAdd req] leaves: the device [id] is new. *)
Definition added_as (req : Link) (s : NetState) (id : positive) (d : Dev) (s' : NetState)
    : Prop :=
  devs s !! id = None ∧ realises req (cur_ns s) d ∧ dev_up d = false ∧ dev_addrs d = []
  ∧ match Kind req with
    | Veth peer => ∃ idp dp, devs s !! idp = None ∧ idp ≠ id
        ∧ dev_ns dp = cur_ns s ∧ dev_name dp = peer ∧ is_veth (dev_link dp) = true
        ∧ dev_peer d = Some idp ∧ dev_peer dp = Some id ∧ (dev_up dp = false ∧ dev_addrs dp = [])
        ∧ devs s' = <[id := d]> (<[idp := dp]> (devs s))
    | _ => dev_peer d = None ∧ devs s' = <[id := d]> (devs s)
    end.
Definition added (req : Link) (s : NetState) (l : Link) (s' : NetState) : Prop :=
  ∃ id d, added_as req s id d s' ∧ l = set_Index (dev_index d) req.

Lemma LinkAdd_added req s l s' : LinkAdd_spec req s (Ok l) s' → silent s s' ∧ added req s l s'.
Proof.
  intros (Hs & _ & Hadd). split; [done|].
  destruct (Hadd l eq_refl) as (_ & id & d & Hn & Hr & Hl & Hup & Haddr & Hk). exists id, d.
  split; [|done]. by split_and!.
Qed.

Lemma added_frame req s id d s' id' d' :
  added_as req s id d s' → devs s !! id' = Some d' → devs s' !! id' = Some d'.
Proof.
  intros (Hfresh & _ & _ & _ & Hk) Hd. assert (id ≠ id') by congruence.
  destruct (Kind req); try (destruct Hk as [_ ->]; by rewrite lookup_insert_ne).
  destruct Hk as (idp & dp & Hp & _ & _ & _ & _ & _ & _ & _ & ->).
  rewrite !lookup_insert_ne //. congruence.
Qed.

Lemma added_dev req s id d s' : added_as req s id d s' → devs s' !! id = Some d.
Proof.
  intros (_ & _ & _ & _ & Hk).
  destruct (Kind req); try (destruct Hk as [_ ->]; by rewrite lookup_insert_eq).
  destruct Hk as (idp & dp & _ & _ & _ & _ & _ & _ & _ & _ & ->). by rewrite lookup_insert_eq.
Qed.

Lemma same_kind_refl k : same_kind k k.
Proof.
  destruct k; simpl; try done. split_and!; try done.
  unfold Equal. by rewrite decide_True // bool_decide_true.
Qed.

Lemma same_kind_checks l d :
  same_kind (Kind l) (Kind d) →
  is_bridge d = is_bridge l ∧ is_veth d = is_veth l ∧ is_vrf d = is_vrf l
  ∧ is_vxlan d = is_vxlan l.
Proof.
  unfold is_bridge, is_veth, is_vrf, is_vxlan.
  destruct (Kind l), (Kind d); simpl; naive_solver.
Qed.

(** A type check only looks at the type. *)
Definition type_check (ok : Link → bool) : Prop :=
  ∀ l d, same_kind (Kind l) (Kind d) → ok d = ok l.
Lemma type_check_bridge : type_check is_bridge.
Proof. intros l d Hk. apply (same_kind_checks l d Hk). Qed.
Lemma type_check_veth : type_check is_veth.
Proof. intros l d Hk. apply (same_kind_checks l d Hk). Qed.
Lemma type_check_vrf : type_check is_vrf.
Proof. intros l d Hk. apply (same_kind_checks l d Hk). Qed.
Lemma type_check_vxlan : type_check is_vxlan.
Proof. intros l d Hk. apply (same_kind_checks l d Hk). Qed.
#[export] Hint Resolve type_check_bridge type_check_veth type_check_vrf type_check_vxlan
  : pierre.

(** [spared s name bad id d]: deleting a link of this name that [bad] rejects
    does not take the device along.  It may release it from its master. *)
Definition spared (s : NetState) (name : string) (bad : Link → Prop) (id : positive) (d : Dev)
    : Prop :=
  ∀ id0 d0, dev_named s (cur_ns s) name id0 d0 → bad (dev_link d0) →
    id0 ≠ id ∧ dev_peer d0 ≠ Some id ∧ stacked (cur_ns s) (dev_index d0) d = false.
Definition was_master (s : NetState) (name : string) (bad : Link → Prop) (d : Dev) : Prop :=
  ∃ id0 d0, dev_named s (cur_ns s) name id0 d0 ∧ bad (dev_link d0)
    ∧ dev_ns d = cur_ns s ∧ dev_master d = dev_index d0.
(** The device is as it was, up to its master, which changes only if [C]. *)
Definition kept (s' : NetState) (id : positive) (d : Dev) (C : Prop) : Prop :=
  ∃ m, devs s' !! id = Some (set_master m d) ∧ (m = dev_master d ∨ C).

Lemma set_master_same d : set_master (dev_master d) d = d.
Proof. by destruct d as [? [[] ?] ? ? ? ? ?]. Qed.
Lemma kept_refl s id d C : devs s !! id = Some d → kept s id d C.
Proof. intros Hd. exists (dev_master d). rewrite set_master_same. by split; [|left]. Qed.
Lemma kept_mono s s' id d C :
  kept s id d C → (∀ d', devs s !! id = Some d' → devs s' !! id = Some d') → kept s' id d C.
Proof. intros (m & Hd & Hm) Hf. exists m. auto. Qed.

Lemma release_unstacked ns i d :
  stacked ns i d = false →
  ∃ m, release ns i d = Some (set_master m d)
    ∧ (m = dev_master d ∨ dev_ns d = ns ∧ dev_master d = i).
Proof.
  intros Hs. unfold release. rewrite Hs.
  destruct (Z.eqb_spec (dev_ns d) ns), (Z.eqb_spec (dev_master d) i); cbn;
    try (exists (dev_master d); rewrite set_master_same; by split; [|left]).
  exists 0. by split; [|right].
Qed.

(** *** Names and kinds *)
Lemma app_ne p x : p ≠ "" → p +:+ x ≠ x.
Proof.
  assert (∀ p, String.length (p +:+ x) = (String.length p + String.length x)%nat) as Hl.
  { induction p0 as [|c p0 IH]; [done|]. rewrite string_app_cons. cbn. by rewrite IH. }
  intros Hp Heq%(f_equal String.length). rewrite Hl in Heq. destruct p; [done|]. cbn in Heq. lia.
Qed.

(** The prefixes keep the names of different kinds of devices apart. *)
Lemma device_names_apart vrf vni :
  vrf ≠ (vethLegsForVRF vrf).1 ∧ vrf ≠ (vethLegsForVRF vrf).2
  ∧ bridgeName vni ≠ (vethLegsForVRF vrf).1 ∧ bridgeName vni ≠ (vethLegsForVRF vrf).2
  ∧ bridgeName vni ≠ UnderlayLoopback ∧ bridgeName vni ≠ vxLanName vni
  ∧ vxLanName vni ≠ (vethLegsForVRF vrf).1 ∧ vxLanName vni ≠ (vethLegsForVRF vrf).2
  ∧ vxLanName vni ≠ UnderlayLoopback
  ∧ UnderlayLoopback ≠ (vethLegsForVRF vrf).1 ∧ UnderlayLoopback ≠ (vethLegsForVRF vrf).2.
Proof.
  unfold vethLegsForVRF, HostVethPrefix, PEVethPrefix, bridgeName, vxLanName, vniPrefix,
    UnderlayLoopback. cbn [fst snd].
  split_and!; try (rewrite !string_app_cons; discriminate); apply not_eq_sym, app_ne; done.
Qed.

Lemma plain_of_vrf l : is_vrf l = true → is_veth l = false ∧ is_vxlan l = false.
Proof. unfold is_vrf, is_veth, is_vxlan. by destruct (Kind l). Qed.
Lemma plain_of_bridge l : is_bridge l = true → is_veth l = false ∧ is_vxlan l = false.
Proof. unfold is_bridge, is_veth, is_vxlan. by destruct (Kind l). Qed.

Section link_specs.
Context {W : Type} `{NetlinkLaws W, !Untroubled W}.

(** ** Operations on a device that is known *)
Lemma dev_at_unique s id d id' d' :
  wf s → devs s !! id = Some d → dev_ns d = cur_ns s →
  dev_at s (cur_ns s) (dev_index d) id' d' → id' = id ∧ d' = d.
Proof.
  intros Hwf Hd Hns Hat. assert (id' = id) as ->
    by exact (wf_index _ Hwf _ _ _ _ _ _ Hat (conj Hd (conj Hns eq_refl))).
  destruct Hat as (Hat & _). split; [done|congruence].
Qed.

Lemma dev_named_unique s id d id' d' :
  wf s → devs s !! id = Some d → dev_ns d = cur_ns s →
  dev_named s (cur_ns s) (dev_name d) id' d' → id' = id ∧ d' = d.
Proof.
  intros Hwf Hd Hns Hat. assert (id' = id) as ->
    by exact (wf_name _ Hwf _ _ _ _ _ _ Hat (conj Hd (conj Hns eq_refl))).
  destruct Hat as (Hat & _). split; [done|congruence].
Qed.

Lemma wpo_LinkSetUp_gives l s id d P :
  devs s !! id = Some d → dev_ns d = cur_ns s → dev_index d = link_index l →
  (∀ extra s', Forall (λ a, generated a = true) extra → silent s s' →
     devs s' = <[id := set_up extra d]> (devs s) → P tt s') →
  wpo (LinkSetUp (Some l)) s P.
Proof.
  intros Hd Hns Hi HP. apply wpo_wf. intros Hwf.
  eapply wpo_sat; [apply LinkSetUp_law|]. intros [] s' (Hs & _ & Hok).
  destruct (Hok eq_refl) as (id' & d0 & d1 & Hat & (extra & Hx & ->) & Hdevs).
  rewrite -Hi in Hat. destruct (dev_at_unique s id d id' d0 Hwf Hd Hns Hat) as [-> ->].
  exact (HP extra s' Hx Hs Hdevs).
Qed.

Lemma wpo_LinkSetUp l s id d P :
  devs s !! id = Some d → dev_ns d = cur_ns s → dev_index d = link_index l →
  (∀ extra s', silent s s' → devs s' = <[id := set_up extra d]> (devs s) → P tt s') →
  wpo (LinkSetUp (Some l)) s P.
Proof. intros Hd Hns Hi HP. apply (wpo_LinkSetUp_gives l s id d); eauto. Qed.

Lemma wpo_LinkSetMaster l m s id d P :
  devs s !! id = Some d → dev_ns d = cur_ns s → dev_index d = link_index l →
  (∀ s', silent s s' → devs s' = <[id := set_master (link_index m) d]> (devs s) → P tt s') →
  wpo (LinkSetMaster (Some l) m) s P.
Proof.
  intros Hd Hns Hi HP. apply wpo_wf. intros Hwf.
  eapply wpo_sat; [apply LinkSetMaster_law|]. intros [] s' (Hs & _ & Hok).
  destruct (Hok eq_refl) as (id' & d0 & d1 & Hat & -> & Hdevs).
  rewrite -Hi in Hat. destruct (dev_at_unique s id d id' d0 Hwf Hd Hns Hat) as [-> ->].
  exact (HP s' Hs Hdevs).
Qed.

Lemma wpo_setNeighSuppression l s id d P :
  devs s !! id = Some d → dev_ns d = cur_ns s → dev_index d = link_index l →
  (∀ s', silent s s' → devs s' = <[id := set_neigh_suppress d]> (devs s) → P tt s') →
  wpo (setNeighSuppression l) s P.
Proof.
  intros Hd Hns Hi HP. apply wpo_wf. intros Hwf. unfold setNeighSuppression. cbv zeta.
  do 2 wpo_step. eapply wpo_sat; [apply Execute_law|]. intros o s' (Hs & _ & Hok).
  destruct (Hok (link_index l) o) as (id' & d0 & Hat & Hdevs); [|done|].
  - pose proof (wf_index_range _ Hwf _ _ Hd) as Hr. rewrite Hi in Hr.
    unfold neigh_suppress_request. do 3 f_equal. unfold to_int32.
    rewrite Z.mod_small; lia.
  - rewrite -Hi in Hat. destruct (dev_at_unique s id d id' d0 Hwf Hd Hns Hat) as [-> ->].
    wpo_step. exact (HP s' Hs Hdevs).
Qed.

Lemma wpo_addrGenModeNone l s id d P :
  devs s !! id = Some d → dev_ns d = cur_ns s → dev_name d = link_name l →
  (∀ s', silent s s' → devs s' = <[id := set_no_addr_gen d]> (devs s) → P tt s') →
  wpo (addrGenModeNone l) s P.
Proof.
  intros Hd Hns Hi HP. apply wpo_wf. intros Hwf. unfold addrGenModeNone. cbv zeta.
  do 2 wpo_step. eapply wpo_sat; [apply OpenFile_law|]. intros f s1 (_ & Hf & ->).
  apply wp_deferring. eapply wp_mono; [apply wpo_on_err, (wpo_sat _ _ _
    (λ _ s2, ∃ id' d', dev_named s (cur_ns s) (link_name l) id' d'
      ∧ thr s2 = set_files (<[f := addr_gen_mode_file (link_name l)]> (files (thr s))) (thr s)
      ∧ named s2 = named s ∧ devs s2 = <[id' := set_no_addr_gen d']> (devs s))
    (File_Write_law _ _))|].
  - intros [] s2 ((Ht & Hn) & _ & Hok). destruct (Hok (link_name l) eq_refl) as (id' & d' & Hat & Hdevs).
    { cbn. by rewrite lookup_insert_eq. }
    { done. }
    exists id', d'. split_and!; [exact Hat|exact Ht|exact Hn|exact Hdevs].
  - intros [[]| |] s2; [|intros _; by eapply wp_sat; [apply File_Close_law|]..].
    intros (id' & d' & Hat & Ht & Hn & Hdevs). rewrite -Hi in Hat.
    destruct (dev_named_unique s id d id' d' Hwf Hd Hns Hat) as [-> ->].
    eapply wp_sat; [apply File_Close_law|]. intros ? s3 [_ ->]. apply HP; [|exact Hdevs].
    split; [|exact Hn]. cbn. rewrite Ht. cbn. rewrite delete_insert_id //. cbn.
    destruct s as [[] ???]. reflexivity.
Qed.

Lemma wp_err_with_name {A} l f (m : go W A) s (Q : res A → NetState → Prop) :
  wp m s (λ r s', match r with Ok a => Q (Ok a) s' | _ => ∀ x, (∀ a, x ≠ Ok a) → Q x s' end) →
  wp (err_with_name l f m) s Q.
Proof.
  intros Hm. apply wp_bind, wp_attempt. eapply wp_mono; [exact Hm|]. intros [a|e|] s' HQ; cbn.
  - by apply wp_ret.
  - apply wp_bind, wp_lift. destruct (attrs_Name l); [apply wp_fail|..]; by apply HQ.
  - by apply HQ.
Qed.
Lemma wpo_err_with_name {A} l f (m : go W A) s P :
  wpo m s P → wpo (err_with_name l f m) s P.
Proof.
  intros Hm. apply wp_err_with_name. eapply wp_mono; [exact Hm|]. intros [a|e|] s' HP; [exact HP|..].
  all: intros [a| |] Hx; by [destruct (Hx a)|].
Qed.

Lemma wpo_LinkByName n s P :
  (∀ id d, dev_named s (cur_ns s) n id d → P (dev_link d) s) → wpo (LinkByName n) s P.
Proof.
  intros HP. eapply wpo_sat; [apply LinkByName_law|].
  intros l s' (-> & id & d & Hd & Hns & Hn & ->). by apply (HP id d).
Qed.

Lemma wpo_interfaceHasIP l address s (P : bool → NetState → Prop) :
  canonical_addr W address →
  (∀ id d, dev_at s (cur_ns s) (link_index l) id d → P (bool_decide (address ∈ dev_addrs d)) s) →
  wpo (interfaceHasIP (Some l) address) s P.
Proof.
  intros Hcan HP. unfold interfaceHasIP. apply wpo_bind, wpo_err_with_name. wpo_step.
  apply wpo_bind, wpo_err_with_name.
  eapply wpo_sat; [apply AddrList_law|]. intros as_ s1 (-> & _ & Hok).
  destruct (Hok as_ eq_refl) as (id & d & Hat & Haddrs). wpo_step.
  assert (existsb (λ a, bool_decide (IPNet_String (Addr_IPNet a) = address)) as_
          = bool_decide (address ∈ dev_addrs d)) as ->; [|by apply (HP id)].
  apply Bool.eq_true_iff_eq. rewrite List.existsb_exists bool_decide_eq_true Haddrs list_elem_of_fmap.
  split; intros (x & Hx & Hy).
  - exists x. apply bool_decide_eq_true in Hy. by rewrite list_elem_of_In.
  - exists x. rewrite -list_elem_of_In bool_decide_eq_true. by split.
Qed.

(** The device has the address afterwards. *)
Lemma wpo_assignIP l address s id d P :
  canonical_addr W address →
  devs s !! id = Some d → dev_ns d = cur_ns s → dev_index d = link_index l →
  (∀ extra s', silent s s' → extra ⊆ [address] → address ∈ dev_addrs d ++ extra →
     devs s' = <[id := set_addrs (dev_addrs d ++ extra) d]> (devs s) → P tt s') →
  wpo (assignIPToInterface (Some l) address) s P.
Proof.
  intros Hcan Hd Hns Hi HP. apply wpo_wf. intros Hwf.
  unfold assignIPToInterface, interfaceHasIP.
  apply wpo_bind, wpo_bind, wpo_err_with_name. wpo_step. apply wpo_bind, wpo_err_with_name.
  eapply wpo_sat; [apply AddrList_law|]. intros as_ s1 (-> & _ & Hok).
  destruct (Hok as_ eq_refl) as (id' & d0 & Hat & Haddrs).
  rewrite -Hi in Hat. destruct (dev_at_unique s id d id' d0 Hwf Hd Hns Hat) as [-> ->].
  wpo_step. destruct (existsb _ _) eqn:Hex.
  - wpo_step. apply (HP []); [done|set_solver| |].
    + apply List.existsb_exists in Hex as (x & Hx & Heq%bool_decide_eq_true_1).
      rewrite app_nil_r Haddrs -Heq. apply list_elem_of_fmap. exists x.
      split; [done|by apply list_elem_of_In].
    + rewrite app_nil_r. symmetry. apply insert_id. rewrite Hd. by destruct d.
  - apply wpo_bind, wpo_err_with_name. wpo_step. apply wpo_err_with_name.
    eapply wpo_sat; [apply AddrAdd_law|]. intros [] s2 (Hs & _ & id2 & d2 & Hat2 & Hdevs).
    rewrite -Hi in Hat2. destruct (dev_at_unique s id d id2 d2 Hwf Hd Hns Hat2) as [-> ->].
    apply (HP [IPNet_String (Addr_IPNet a0)]); [done| | |done]; rewrite (Hcan a0) //; set_solver.
Qed.

Lemma wpo_LinkDel l s id d P :
  devs s !! id = Some d → dev_ns d = cur_ns s → dev_index d = link_index l →
  (∀ s', silent s s' → devs s' !! id = None →
     (∀ id', devs s' !! id' =
        if bool_decide (id' = id ∨ dev_peer d = Some id') then None
        else devs s !! id' ≫= release (cur_ns s) (link_index l)) → P tt s') →
  wpo (LinkDel (Some l)) s P.
Proof.
  intros Hd Hns Hi HP. apply wpo_wf. intros Hwf.
  eapply wpo_sat; [apply LinkDel_law|]. intros [] s' (Hs & _ & Hok).
  destruct (Hok eq_refl) as (id' & d0 & Hat & Hdevs).
  rewrite -Hi in Hat. destruct (dev_at_unique s id d id' d0 Hwf Hd Hns Hat) as [-> ->].
  apply HP; [done| |done]. rewrite Hdevs bool_decide_true //. by left.
Qed.

(** Every device of [s1] is one of [s], with its name and index. *)
Definition origin (s s1 : NetState) : Prop :=
  ∀ id d, devs s1 !! id = Some d → ∃ d0, devs s !! id = Some d0
    ∧ dev_ns d = dev_ns d0 ∧ dev_name d = dev_name d0 ∧ dev_index d = dev_index d0.

Lemma origin_refl s : origin s s.
Proof. intros id d Hd. by exists d. Qed.

Lemma release_origin ns i d d' : release ns i d = Some d' →
  dev_ns d' = dev_ns d ∧ dev_name d' = dev_name d ∧ dev_index d' = dev_index d.
Proof. unfold release. repeat case_match; try done; by intros [= <-]. Qed.

Lemma origin_after_del s ns i (gone : positive → Prop) `{∀ id, Decision (gone id)} s' :
  (∀ id', devs s' !! id' =
     if bool_decide (gone id') then None else devs s !! id' ≫= release ns i) →
  origin s s'.
Proof.
  intros Hdel id d Hd. rewrite Hdel in Hd. case_bool_decide; [done|].
  destruct (devs s !! id) as [d0|] eqn:E; [|done]. exists d0.
  split; [done|]. exact (release_origin _ _ _ _ Hd).
Qed.

Lemma spared_after_del s name (bad : Link → Prop) id0 d0 s' :
  dev_named s (cur_ns s) name id0 d0 → bad (dev_link d0) →
  (∀ id', devs s' !! id' =
     if bool_decide (id' = id0 ∨ dev_peer d0 = Some id') then None
     else devs s !! id' ≫= release (cur_ns s) (dev_index d0)) →
  ∀ id d, devs s !! id = Some d → spared s name bad id d →
    kept s' id d (was_master s name bad d).
Proof.
  intros Hn Hbad Hdel id d Hd Hsp. destruct (Hsp id0 d0 Hn Hbad) as (Hne & Hp & Hst).
  destruct (release_unstacked _ _ _ Hst) as (m & Hrel & Hm). exists m. split.
  - rewrite Hdel bool_decide_false; [by rewrite Hd|]. intros [->|?]; done.
  - destruct Hm as [->|[Hns Hi]]; [by left|right]. exists id0, d0. by split_and!.
Qed.

(** How [ensure] came by the link: it was there, or it was made from a request,
    after the deletion of a link of the wrong type or on the state as it was. *)
Definition provenance (Rq : NetState → Link → Prop) (s : NetState) (name : string)
    (ok : Link → bool) (link : option Link) (l : Link) (id : positive) (d : Dev)
    (s' : NetState) : Prop :=
  (s' = s ∧ link = Some l ∧ l = dev_link d)
  ∨ ∃ s1 req, silent s s1 ∧ Rq s1 req ∧ added_as req s1 id d s'
      ∧ realises req (cur_ns s) d ∧ l = set_Index (dev_index d) req ∧ origin s s1.

(** The devices that deleting a link of the wrong type cannot reach are left. *)
Definition preserved (ok : Link → bool) (name : string) (s s' : NetState) : Prop :=
  ∀ id d, devs s !! id = Some d → spared s name (λ l, ok l = false) id d →
    kept s' id d (was_master s name (λ l, ok l = false) d).

Section ensure.
  Context (ok : Link → bool) (name : string) (g g' : error → error) (create : go W Link).
  Context (Rq : NetState → Link → Prop) (s : NetState) (P : option Link * Link → NetState → Prop).
  Hypothesis (Hok : type_check ok).
  Hypothesis (Hcreate : ∀ s1, silent s s1 →
    wpo create s1 (λ l s2, silent s1 s2 ∧ ∃ req, Rq s1 req ∧ added req s1 l s2)).
  Hypothesis (HRq : ∀ s1 req, Rq s1 req → link_name req = name ∧ ok req = true).

  Hypothesis (HP : ∀ link l id d s', silent s s' → devs s' !! id = Some d →
    dev_ns d = cur_ns s → dev_name d = name → ok (dev_link d) = true →
    link_index l = dev_index d → link_name l = name → preserved ok name s s' →
    provenance Rq s name ok link l id d s' → P (link, l) s').

(** Making the link in a state [s1] that deleting a wrong link left. *)
Lemma ensure_made link s1 l s2 :
  silent s s1 → origin s s1 → preserved ok name s s1 → silent s1 s2 →
  (∃ req, Rq s1 req ∧ added req s1 l s2) → ok l = true ∧ P (link, l) s2.
Proof.
  intros Hs1 Horig Hf Hs2 (req & HR & id & d & Hadd & Hl).
  destruct (HRq _ _ HR) as [Hname Hkind].
  pose proof (added_dev _ _ _ _ _ Hadd) as Hd. pose proof Hadd as (_ & Hreal & _).
  assert (cur_ns s1 = cur_ns s) as Hc by by destruct Hs1 as [-> _].
  pose proof Hreal as (Hns & Hn & _ & Hk). rewrite Hc in Hns Hreal.
  assert (ok (dev_link d) = true) as Hokd by by rewrite (Hok _ _ Hk).
  split; [rewrite Hl -Hkind; apply Hok, same_kind_refl|].
  apply (HP link l id d); try done.
  - exact (silent_trans _ _ _ Hs1 Hs2).
  - congruence.
  - by rewrite Hl.
  - by rewrite Hl.
  - intros id' d' Hd' Hsp. apply (kept_mono s1); [by apply Hf|].
    intros d2 Hd2. exact (added_frame _ _ _ _ _ _ _ Hadd Hd2).
  - right. exists s1, req. by split_and!.
Qed.

(** The second half: the wrong link is deleted and the link is made again. *)
Lemma wpo_ensure_again id0 d0 link :
  dev_named s (cur_ns s) name id0 d0 → ok (dev_link d0) = false →
  wpo (_ ← on_errM (errorw "failed to delete link %v: %w" []) (LinkDel (Some (dev_link d0)));
       l ← on_errM g' create; mret (link, l)) s P.
Proof.
  intros Hn Hbad. do 2 wpo_step. destruct Hn as (Hd0 & Hns0 & Hname0).
  apply (wpo_LinkDel _ _ id0 d0); [done..|]. intros s1 Hs1 _ Hdel. do 2 wpo_step.
  eapply wpo_mono; [exact (Hcreate s1 Hs1)|]. intros l s2 [Hs2 Hl]. wpo_step.
  apply (ensure_made _ s1); [done|exact (origin_after_del _ _ _ _ _ Hdel)| |done..].
  intros id d. by apply (spared_after_del s name (λ l, ok l = false) id0 d0).
Qed.

Lemma wpo_ensure : wpo (ensure ok name g g' create) s P.
Proof.
  apply wp_bind, wp_attempt. eapply wp_sat; [apply LinkByName_law|].
  intros [l|e|] s1 [-> Hlk]; [| |done].
  - destruct Hlk as (id & d & Hd & Hns & Hname & ->).
    apply wpo_bind. wpo_step. destruct (ok (dev_link d)) eqn:Hokd.
    + wpo_step. apply (HP _ _ id d); try done; [intros id' d' Hd' _; by apply kept_refl|by left].
    + by apply (wpo_ensure_again id d).
  - destruct (is_link_not_found e) eqn:He.
    + apply wpo_bind, wpo_bind. wpo_step. eapply wpo_mono; [by apply Hcreate|].
      intros l s2 [Hs2 Hl]. wpo_step.
      destruct (ensure_made (Some l) s l s2 (silent_refl s) (origin_refl s)
        (λ id d Hd _, kept_refl s id d _ Hd) Hs2 Hl) as (-> & HPl). by wpo_step.
    + apply wpo_bind. wpo_step. do 2 wpo_step.
      eapply wpo_sat; [apply nil_link_law|]. by intros [] ? [_ ?].
Qed.
End ensure.

(** A link that is there is used as it is. *)
Lemma wpo_ensure_existing ok name g g' create s id d P :
  dev_named s (cur_ns s) name id d → ok (dev_link d) = true →
  P (Some (dev_link d), dev_link d) s → wpo (ensure ok name g g' (create : go W Link)) s P.
Proof.
  intros (Hd & Hns & Hn) Hok HP. apply wpo_wf. intros Hwf. unfold ensure.
  apply wp_bind, wp_attempt. eapply wp_sat; [apply LinkByName_law|].
  intros [l|e|] s1 [-> Hlk]; cbn [on_ok]; [| |done].
  - destruct Hlk as (id' & d' & Hd' & Hns' & Hn' & ->). rewrite -Hn in Hn'.
    destruct (dev_named_unique s id d id' d' Hwf Hd Hns (conj Hd' (conj Hns' Hn'))) as [-> ->].
    do 2 wpo_step. rewrite Hok. by wpo_step.
  - destruct (is_link_not_found e) eqn:He; [by destruct (Hlk eq_refl id d)|].
    do 4 wpo_step. eapply wpo_sat; [apply nil_link_law|]. by intros [] ? [_ ?].
Qed.

(** ** What a setup function leaves: a device of the wanted name and type with
    the property [Q], and every other device but those a deletion takes along
    as it was. *)
Definition frame (s s' : NetState) (name : string) (bad : Link → Prop) : Prop :=
  ∀ id d, devs s !! id = Some d → ¬ (dev_ns d = cur_ns s ∧ dev_name d = name) →
    spared s name bad id d → kept s' id d (was_master s name bad d).
Definition settled (name : string) (ok : Link → bool) (bad : Link → Prop) (Q : Dev → Prop)
    (l : Link) (s s' : NetState) : Prop :=
  silent s s' ∧ frame s s' name bad
  ∧ ∃ id d, devs s' !! id = Some d ∧ dev_ns d = cur_ns s ∧ dev_name d = name
      ∧ ok (dev_link d) = true ∧ link_index l = dev_index d ∧ Q d.

(** Changing the device itself keeps the frame. *)
Lemma frame_insert s s1 s2 name bad id d d' :
  frame s s1 name bad → devs s1 !! id = Some d → dev_ns d = cur_ns s → dev_name d = name →
  devs s2 = <[id := d']> (devs s1) → frame s s2 name bad.
Proof.
  intros Hf Hd Hns Hn Hdevs id' d0 Hd0 Hother Hsp.
  destruct (Hf id' d0 Hd0 Hother Hsp) as (m & Hm & HC). exists m. split; [|done].
  rewrite Hdevs lookup_insert_ne //. intros <-. apply Hother.
  rewrite Hd in Hm. injection Hm as ->. by split.
Qed.

(** A device that is neither an end of a veth pair nor a VXLAN is spared unless
    it has the name itself. *)
Definition plain (d : Dev) : Prop :=
  is_veth (dev_link d) = false ∧ is_vxlan (dev_link d) = false.

Lemma unstacked ns i d : is_vxlan (dev_link d) = false → stacked ns i d = false.
Proof. unfold is_vxlan, stacked. by destruct (Kind (dev_link d)). Qed.

Lemma plain_spared s name bad id d :
  wf s → devs s !! id = Some d → plain d → dev_name d ≠ name → spared s name bad id d.
Proof.
  intros Hwf Hd [Hv Hx] Hn id0 d0 (Hd0 & _ & Hn0) _. split_and!.
  - intros ->. congruence.
  - intros Hp. destruct (wf_peer _ Hwf _ _ _ _ Hd0 Hd Hp) as [Hp' _].
    pose proof (wf_peer_veth _ Hwf _ _ Hd) as Hveth. rewrite Hp' in Hveth.
    rewrite Hveth in Hv; [done|congruence].
  - by apply unstacked.
Qed.

Definition vrf_request (name : string) (s : NetState) (req : Link) : Prop :=
  ∃ t, req = mkLink (mkAttrs 0 name 0) (Vrf t) ∧ 1 ≤ t < MaxUint32
    ∧ ∀ id d, devs s !! id = Some d → dev_ns d = cur_ns s → Kind (dev_link d) ≠ Vrf t.

Lemma findFree_loop_Ok fuel taken r t :
  findFree_loop fuel taken r = Some (Ok t) → r ≤ t < MaxUint32 ∧ t ∉ taken.
Proof.
  revert r; induction fuel as [|fuel IH]; intros r; [done|]. cbn.
  destruct (Z.ltb_spec r MaxUint32); [|done]. case_bool_decide.
  - intros ?%IH. lia || (split; [lia|tauto]).
  - intros [= <-]. split; [lia|done].
Qed.

Lemma wpo_createVRF name s :
  wpo (createVRF name) s
    (λ l s', silent s s' ∧ ∃ req, vrf_request name s req ∧ added req s l s').
Proof.
  unfold createVRF. do 2 wpo_step. eapply wpo_sat; [apply LinkList_law|].
  intros ls s1 (-> & _ & Hls). do 3 wpo_step.
  eapply wpo_sat; [apply LinkAdd_law|]. intros l s' [Hs Hadd]%LinkAdd_added.
  split; [done|]. eexists; split; [|exact Hadd].
  eexists; split; [done|]. match goal with H : findFreeRoutingTableID _ = _ |- _ =>
    unfold findFreeRoutingTableID in H; rename H into Hf end.
  destruct (findFree_loop _ _ _) as [r|] eqn:Hloop; [|done]. cbn in Hf. subst r.
  apply findFree_loop_Ok in Hloop as [Hr Hni]. split; [lia|].
  intros id d Hd Hns Hk. apply Hni. unfold takenTables.
  apply elem_of_list_to_set, list_elem_of_omap. exists (dev_link d).
  split; [|by rewrite Hk]. apply (Hls ls eq_refl). by exists id, d.
Qed.

Lemma wpo_setupVRF name s :
  wpo (setupVRF name) s
    (λ vrf s', settled name is_vrf (λ l, is_vrf l = false) (λ d, dev_up d = true) vrf s s').
Proof.
  unfold setupVRF. wpo_step.
  apply (wpo_ensure _ _ _ _ _ (vrf_request name)); [auto with pierre| | |].
  - intros s1 _. apply wpo_createVRF.
  - intros s1 req (t & -> & _). done.
  - intros link vrf id d s1 Hs Hd Hns Hn Hok Hi Hln Hf _. do 2 wpo_step.
    apply (wpo_LinkSetUp _ _ id d); [done|destruct Hs as [-> _]; done|done|].
    intros extra s2 Hs2 Hdevs. wpo_step. split_and!.
    + exact (silent_trans _ _ _ Hs Hs2).
    + refine (frame_insert s s1 _ name _ id d _ _ Hd Hns Hn Hdevs).
      intros id' d' ? _ ?. by apply Hf.
    + exists id, (set_up extra d). rewrite Hdevs lookup_insert_eq. by split_and!.
Qed.

Lemma wpo_createBridge name vi s :
  wpo (createBridge name vi) s (λ l s', silent s s' ∧
    ∃ req, req = mkLink (mkAttrs 0 name vi) Bridge ∧ added req s l s').
Proof.
  unfold createBridge. wpo_step. eapply wpo_sat; [apply LinkAdd_law|].
  intros l s' [Hs Hadd]%LinkAdd_added. split; [done|]. eexists. by split.
Qed.

Lemma wpo_setupBridge params vrf s :
  wpo (setupBridge params vrf) s
    (λ br s', settled (bridgeName (VNIParams.VNI params)) is_bridge (λ l, is_bridge l = false)
       (λ d, dev_up d = true ∧ dev_no_addr_gen d = true) br s s').
Proof.
  unfold setupBridge. set (name := bridgeName _). cbv zeta. wpo_step.
  apply (wpo_ensure _ _ _ _ _
    (λ _ req, req = mkLink (mkAttrs 0 name (link_index vrf)) Bridge)); [auto with pierre| | |].
  - intros s1 _. apply wpo_createBridge.
  - by intros s1 req ->.
  - intros link br id d s1 Hs Hd Hns Hn Hok Hi Hln Hf _.
    assert (dev_ns d = cur_ns s1) as Hns1 by (destruct Hs as [-> _]; done).
    do 2 wpo_step.
    apply (wpo_addrGenModeNone _ _ id d); [done..|congruence|].
    intros s2 Hs2 Hdevs2. do 2 wpo_step.
    apply (wpo_LinkSetUp _ _ id (set_no_addr_gen d));
      [by rewrite Hdevs2 lookup_insert_eq|destruct Hs2 as [-> _]; done|done|].
    intros extra s3 Hs3 Hdevs3. wpo_step.
    assert (devs s3 = <[id := set_up extra (set_no_addr_gen d)]> (devs s1)) as Hdevs.
    { by rewrite Hdevs3 Hdevs2 insert_insert_eq. }
    split_and!.
    + exact (silent_trans _ _ _ Hs (silent_trans _ _ _ Hs2 Hs3)).
    + refine (frame_insert s s1 _ name _ id d _ _ Hd Hns Hn Hdevs).
      intros id' d' ? _ ?. by apply Hf.
    + exists id, (set_up extra (set_no_addr_gen d)). rewrite Hdevs lookup_insert_eq.
      by split_and!.
Qed.

Definition vxlan_request (params : VNIParams.t) (br : Link) (s : NetState) (req : Link)
    : Prop :=
  ∃ idl dl, dev_named s (cur_ns s) UnderlayLoopback idl dl
    ∧ req = mkLink (mkAttrs 0 (vxLanName (VNIParams.VNI params)) (link_index br))
              (Vxlan (VNIParams.VNI params) (VNIParams.VXLanPort params) false
                 (cidr_ip (VNIParams.VTEPIP params)) (dev_index dl)).

Lemma wpo_createVXLan params br s :
  wpo (createVXLan params br) s
    (λ l s', silent s s' ∧ ∃ req, vxlan_request params br s req ∧ added req s l s').
Proof.
  unfold createVXLan. do 2 wpo_step. eapply wpo_sat; [apply LinkByName_law|].
  intros ll s1 (-> & idl & dl & Hdl & Hns & Hn & ->). wpo_step.
  eapply wpo_sat; [apply LinkAdd_law|]. intros l s' [Hs Hadd]%LinkAdd_added. split; [done|].
  eexists. split; [|exact Hadd]. by exists idl, dl.
Qed.

Lemma vxlan_request_configured params br s req ns d dl :
  vxlan_request params br s req → realises req ns d →
  (∀ idl' dl', dev_named s (cur_ns s) UnderlayLoopback idl' dl' → dev_index dl' = dev_index dl) →
  vxlan_configured (dev_link d) (link_index br) (dev_index dl) params
  ∧ vxlan_configured (set_Index (dev_index d) req) (link_index br) (dev_index dl) params.
Proof.
  intros (idl & dl' & Hdl & ->) (_ & _ & Hm & Hk) Hlo. rewrite -(Hlo _ _ Hdl). split.
  - destruct (Kind (dev_link d)) as [| | | |vid port learn src vtep|] eqn:Ek; cbn in Hk; try done.
    destruct Hk as (-> & -> & -> & Heq & ->). exists src. by split_and!.
  - exists (cidr_ip (VNIParams.VTEPIP params)). split_and!; [done..|].
    unfold Equal. by rewrite decide_True // bool_decide_true.
Qed.

Lemma wpo_vxlan_tail l s id d g g' g'' P :
  devs s !! id = Some d → dev_ns d = cur_ns s → dev_index d = link_index l →
  dev_name d = link_name l →
  (∀ extra s', silent s s' →
     devs s' = <[id := set_up extra (set_neigh_suppress (set_no_addr_gen d))]> (devs s) →
     P tt s') →
  wpo (_ ← on_errM g (addrGenModeNone l); _ ← on_errM g' (setNeighSuppression l);
       on_errM g'' (LinkSetUp (Some l))) s P.
Proof.
  intros Hd Hns Hi Hn HP. do 2 wpo_step. apply (wpo_addrGenModeNone _ _ id d); [done..|].
  intros s1 Hs1 Hd1. do 2 wpo_step. assert (cur_ns s1 = cur_ns s) as Hc1 by (destruct Hs1 as [-> _]; done).
  apply (wpo_setNeighSuppression _ _ id (set_no_addr_gen d));
    [by rewrite Hd1 lookup_insert_eq|by rewrite Hc1|done|].
  intros s2 Hs2 Hd2. wpo_step. assert (cur_ns s2 = cur_ns s) as Hc2 by (destruct Hs2 as [-> _]; done).
  apply (wpo_LinkSetUp _ _ id (set_neigh_suppress (set_no_addr_gen d)));
    [by rewrite Hd2 lookup_insert_eq|by rewrite Hc2|done|].
  intros extra s3 Hs3 Hd3. apply (HP extra).
  - exact (silent_trans _ _ _ Hs1 (silent_trans _ _ _ Hs2 Hs3)).
  - by rewrite Hd3 Hd2 Hd1 !insert_insert_eq.
Qed.

(** A VXLAN that is deleted: not one, or not configured as asked. *)
Definition bad_vxlan (bi li : Z) (params : VNIParams.t) (l : Link) : Prop :=
  ¬ (is_vxlan l = true ∧ vxlan_configured l bi li params).

Lemma bad_vxlan_worse bi li params l : is_vxlan l = false → bad_vxlan bi li params l.
Proof. intros Hno [Hyes _]. congruence. Qed.

(** The loopback found later is the same. *)
Lemma loopback_index s s1 idl dl id2 d2 :
  wf s → dev_named s (cur_ns s) UnderlayLoopback idl dl → silent s s1 → origin s s1 →
  dev_named s1 (cur_ns s1) UnderlayLoopback id2 d2 → dev_index d2 = dev_index dl.
Proof.
  intros Hwf (Hdl & Hnsl & Hnl) [Ht _] Ho (Hd2 & Hns2 & Hn2). rewrite Ht in Hns2.
  destruct (Ho _ _ Hd2) as (d0 & Hd0 & Hns0 & Hn0 & Hi0).
  destruct (dev_named_unique s idl dl id2 d0 Hwf Hdl Hnsl) as [-> ->]; [|done].
  split_and!; congruence.
Qed.

(** What [setupVXLan] leaves, over the loopback [dl]. *)
Definition vxlan_settled (params : VNIParams.t) (br : Link) (dl : Dev) (s s' : NetState) : Prop :=
  ∃ l, settled (vxLanName (VNIParams.VNI params)) is_vxlan (bad_vxlan (link_index br) (dev_index dl) params)
    (λ d, vxlan_configured (dev_link d) (link_index br) (dev_index dl) params
       ∧ dev_up d = true ∧ dev_no_addr_gen d = true ∧ dev_neigh_suppress d = true) l s s'.

Lemma wpo_vxlan_finish params br dl vx s s1 id d g g' g'' :
  silent s s1 → devs s1 !! id = Some d → dev_ns d = cur_ns s →
  dev_name d = vxLanName (VNIParams.VNI params) → is_vxlan (dev_link d) = true →
  link_index vx = dev_index d → link_name vx = vxLanName (VNIParams.VNI params) →
  vxlan_configured (dev_link d) (link_index br) (dev_index dl) params →
  frame s s1 (vxLanName (VNIParams.VNI params)) (bad_vxlan (link_index br) (dev_index dl) params) →
  wpo (_ ← on_errM g (addrGenModeNone vx); _ ← on_errM g' (setNeighSuppression vx);
       on_errM g'' (LinkSetUp (Some vx))) s1 (λ _, vxlan_settled params br dl s).
Proof.
  intros Hs1 Hd Hns Hn Hok Hi Hln Hcfg Hf.
  apply (wpo_vxlan_tail _ _ id d); [done|by destruct Hs1 as [-> _]|done|congruence|].
  intros extra s2 Hs2 Hd2. exists vx. split_and!.
  - exact (silent_trans _ _ _ Hs1 Hs2).
  - exact (frame_insert s s1 s2 _ _ id d _ Hf Hd Hns Hn Hd2).
  - eexists id, _. rewrite Hd2 lookup_insert_eq. by split_and!.
Qed.

(** A VXLAN that is not configured as asked is deleted and made again. *)
Lemma wpo_vxlan_again params br idl dl s id d g g0 g1 g2 g3 :
  wf s → dev_named s (cur_ns s) UnderlayLoopback idl dl →
  dev_named s (cur_ns s) (vxLanName (VNIParams.VNI params)) id d →
  bad_vxlan (link_index br) (dev_index dl) params (dev_link d) →
  wpo (vx ← (_ ← on_errM g (LinkDel (Some (dev_link d))); on_errM g0 (createVXLan params br));
       _ ← on_errM (g1 vx) (addrGenModeNone vx);
       _ ← on_errM (g2 vx) (setNeighSuppression vx);
       on_errM g3 (LinkSetUp (Some vx))) s (λ _, vxlan_settled params br dl s).
Proof.
  intros Hwf Hlo (Hd & Hns & Hn) Hbad. do 3 wpo_step.
  apply (wpo_LinkDel _ _ id d); [done..|]. intros s2 Hs2 Hgone Hdel. wpo_step.
  eapply wpo_mono; [apply wpo_createVXLan|]. intros vx s3 (Hs3 & req & HR & Hadd).
  assert (origin s s2) as Ho by exact (origin_after_del _ _ _ _ _ Hdel).
  destruct Hadd as (id3 & d3 & Hadd & Hvx). pose proof (added_dev _ _ _ _ _ Hadd) as Hd3.
  pose proof Hadd as (_ & Hreal & _).
  assert (cur_ns s2 = cur_ns s) as Hc2 by (destruct Hs2 as [-> _]; done).
  pose proof Hreal as (Hns3 & Hn3 & _ & Hk3). pose proof HR as (? & ? & _ & Hreq).
  apply (wpo_vxlan_finish _ _ _ vx s s3 id3 d3); try done.
  - exact (silent_trans _ _ _ Hs2 Hs3).
  - congruence.
  - by rewrite Hn3 Hreq.
  - by rewrite (type_check_vxlan _ _ Hk3) Hreq.
  - by rewrite Hvx.
  - by rewrite Hvx Hreq.
  - refine (proj1 (vxlan_request_configured _ _ _ _ _ _ dl HR Hreal _)). intros i e He.
    exact (loopback_index _ _ _ _ _ _ Hwf Hlo Hs2 Ho He).
  - intros id' d' Hd' Hother Hsp. apply (kept_mono s2);
      [|intros d2 Hd2; exact (added_frame _ _ _ _ _ _ _ Hadd Hd2)].
    exact (spared_after_del s _ (bad_vxlan _ _ params) id d s2 (conj Hd (conj Hns Hn)) Hbad Hdel id' d' Hd' Hsp).
Qed.

Lemma wpo_setupVXLan params br s :
  wpo (setupVXLan params br) s
    (λ _ s', ∃ idl dl l, dev_named s (cur_ns s) UnderlayLoopback idl dl ∧ settled (vxLanName (VNIParams.VNI params)) is_vxlan
       (bad_vxlan (link_index br) (dev_index dl) params)
       (λ d, vxlan_configured (dev_link d) (link_index br) (dev_index dl) params
          ∧ dev_up d = true ∧ dev_no_addr_gen d = true ∧ dev_neigh_suppress d = true) l s s').
Proof.
  apply wpo_wf. intros Hwf.
  unfold setupVXLan. do 2 wpo_step. eapply wpo_sat; [apply LinkByName_law|].
  intros ll ? (-> & idl & dl & Hdl & Hnsl & Hnl & ->).
  pose proof (conj Hdl (conj Hnsl Hnl) : dev_named s (cur_ns s) UnderlayLoopback idl dl) as Hlo.
  eapply (wpo_mono _ _ (λ _, vxlan_settled params br dl s));
    [|intros ? s' [l Hl]; by exists idl, dl, l].
  cbv zeta. wpo_step. apply (wpo_ensure _ _ _ _ _ (vxlan_request params br)); [auto with pierre| | |].
  - intros s1 _. apply wpo_createVXLan.
  - by intros s1 req (? & ? & _ & ->).
  - intros link vx id d s1 Hs1 Hd Hns Hn Hok Hi Hln Hf Hprov. wpo_step.
    apply wp_attempt, wp_lift.
    destruct (checkVXLanConfigured vx _ _ params) as [[]|e|] eqn:Hchk; [| |done].
    + (* configured *)
      apply checkVXLanConfigured_Ok in Hchk. cbn [on_ok]. do 2 wpo_step.
      apply (wpo_vxlan_finish _ _ _ vx s s1 id d); try done.
      * destruct Hprov as [(-> & _ & ->)|(s0 & req & Hs0 & HR & _ & Hreal & Hl & Ho)]; [done|].
        refine (proj1 (vxlan_request_configured _ _ _ _ _ _ dl HR Hreal _)). intros i e He.
        exact (loopback_index _ _ _ _ _ _ Hwf Hlo Hs0 Ho He).
      * intros id' d' Hd' _ Hsp. destruct (Hf id' d' Hd') as (m & Hm & HC).
        { intros id0 d0 Hnm Hbad. exact (Hsp id0 d0 Hnm (bad_vxlan_worse _ _ _ _ Hbad)). }
        exists m. split; [done|]. destruct HC as [->|(id0 & d0 & Hnm & Hbad & Hrest)]; [by left|right].
        exists id0, d0. split; [done|]. split; [exact (bad_vxlan_worse _ _ _ _ Hbad)|done].
    + destruct Hprov as [(-> & -> & ->)|(s0 & req & Hs0 & HR & _ & Hreal & -> & Ho)].
      * cbn [on_ok]. apply (wpo_vxlan_again params br idl dl s id d _ _
          (λ vx, errorw "failed to set addr_gen_mode to 1 for %s: %w" [link_name vx])
          (λ vx, errorw "failed to set neigh suppression for %s: %w" [link_name vx])); [done..|].
        intros [_ Hcfg%checkVXLanConfigured_Ok]. congruence.
      * destruct (vxlan_request_configured _ _ _ _ _ _ dl HR Hreal) as [_ Hcfg].
        { intros i e' He. exact (loopback_index _ _ _ _ _ _ Hwf Hlo Hs0 Ho He). }
        apply checkVXLanConfigured_Ok in Hcfg. rewrite Hcfg in Hchk. discriminate Hchk.
Qed.

Lemma wpo_conj {A} (m : go W A) s P P' :
  wpo m s P → wpo m s P' → wpo m s (λ a s', P a s' ∧ P' a s').
Proof.
  intros Hm Hm'. eapply wp_mono; [exact (wp_conj _ _ _ _ Hm Hm')|]. by intros [].
Qed.
End link_specs.
