(* ===== verification/Progress.v ===== *)
(** * When the kernel calls succeed

    The laws of the file Netlink say what a call did when it succeeded; a kernel that
    refuses everything satisfies them.  The class [NetlinkProgress] says when the calls
    do succeed: the documented conditions under which the kernel has no reason to
    refuse.  [fine m s]: run from [s], [m] ends without error; with [wpo], which says
    what a run that ended without error leaves, the functions of the file HostLinks are
    shown to succeed one call after the other. *)

From S2P Require Import Prelude GoStrings GoNet HostParams Netlink Troubles NetLogic HostLinks LinkSpecs.
Local Open Scope Z_scope.

(** ** The conditions *)

(** A name the kernel takes: 1 to 15 printable characters that are no slash, colon
    or blank, and not the name of a directory. *)
Definition ifname_char (c : ascii) : bool :=
  let n := Ascii.nat_of_ascii c in
  (32 <? n)%nat && (n <? 127)%nat && negb (n =? 47)%nat && negb (n =? 58)%nat.
Definition valid_ifname (n : string) : bool :=
  (1 <=? String.length n)%nat && (String.length n <=? 15)%nat
  && forallb ifname_char (String.list_ascii_of_string n)
  && negb (bool_decide (n = ".")) && negb (bool_decide (n = "..")).

Definition absent (s : NetState) (ns : Z) (n : string) : Prop :=
  ∀ id d, ¬ dev_named s ns n id d.

(** A device can be made in the current namespace: its name is a name and free, its
    master is there, and what its kind needs is there. *)
Record addable (l : Link) (s : NetState) : Prop := {
  add_name : valid_ifname (link_name l) = true;
  add_free : absent s (cur_ns s) (link_name l);
  add_master : link_master l = 0 ∨ ∃ id d, dev_at s (cur_ns s) (link_master l) id d
    ∧ is_vrf (dev_link d) || is_bridge (dev_link d) = true;
  add_kind : match Kind l with
    | Dummy | Bridge => True
    | Veth peer => valid_ifname peer = true ∧ peer ≠ link_name l ∧ absent s (cur_ns s) peer
    | Vrf t => 1 ≤ t < 2 ^ 32
        ∧ ∀ id d, devs s !! id = Some d → dev_ns d = cur_ns s → Kind (dev_link d) ≠ Vrf t
    | Vxlan vid port _ _ vtep => 0 ≤ vid < 2 ^ 24 ∧ 0 ≤ port < 2 ^ 16
        ∧ (∃ id d, dev_at s (cur_ns s) vtep id d)
        ∧ ∀ id d p l a v, devs s !! id = Some d → dev_ns d = cur_ns s →
            Kind (dev_link d) ≠ Vxlan vid p l a v
    | OtherLink _ => False
    end }.

(** Software devices can be deleted; a veth end and a physical device can be moved. *)
Definition is_other (l : Link) : bool := match Kind l with OtherLink _ => true | _ => false end.

Definition ends_ok {A} (r : res A) : Prop := ∃ a, r = Ok a.
(** [m] succeeds where [pre] holds. *)
Definition can `{View W} {A} (m : go W A) (pre : NetState → Prop) : Prop :=
  sat m (λ s r _, pre s → ends_ok r).

(** Handles, files and lookups are always granted; the kernel takes [cap] devices. *)
Class NetlinkProgress (W : Type) `{Netlink W, View W} (cap : nat) : Prop := {
  cap_bound : Z.of_nat cap + 1 < 2 ^ 31;
  view_room w : (size (devs (view w)) ≤ cap)%nat;
  view_readable w id d a :
    devs (view w) !! id = Some d → a ∈ dev_addrs d → readable a = true;
  LinkByName_can n : sat (LinkByName n) (λ _ r _, ∀ e, r = Err e → is_link_not_found e = true);
  LinkByIndex_can i : sat (LinkByIndex i) (λ _ r _, ∀ e, r = Err e → is_link_not_found e = true);
  LinkList_can : can LinkList (λ _, True);
  LinkAdd_can l : can (LinkAdd l) (λ s, addable l s ∧ (size (devs s) + 2 ≤ cap)%nat);
  LinkDel_can l : can (LinkDel (Some l)) (λ s,
    ∃ id d, dev_at s (cur_ns s) (link_index l) id d ∧ is_other (dev_link d) = false);
  LinkSetUp_can l : can (LinkSetUp (Some l)) (λ s, ∃ id d, dev_at s (cur_ns s) (link_index l) id d);
  LinkSetMaster_can l m : can (LinkSetMaster (Some l) m) (λ s,
    (∃ id d, dev_at s (cur_ns s) (link_index l) id d ∧ is_veth (dev_link d) = true)
    ∧ ∃ id d, dev_at s (cur_ns s) (link_index m) id d ∧ is_vrf (dev_link d) = true);
  LinkSetNsFd_can l h : can (LinkSetNsFd (Some l) h) (λ s, ∃ n id d,
    handles (thr s) !! h = Some n ∧ dev_at s (cur_ns s) (link_index l) id d
    ∧ is_veth (dev_link d) || is_other (dev_link d) = true
    ∧ (n = cur_ns s ∨ absent s n (dev_name d)));
  VethPeerIndex_can l : can (VethPeerIndex l) (λ s, ∃ id d idp dp,
    dev_named s (cur_ns s) (link_name l) id d ∧ dev_peer d = Some idp ∧ devs s !! idp = Some dp);
  AddrList_can l f : can (AddrList (Some l) f) (λ s, ∃ id d, dev_at s (cur_ns s) (link_index l) id d);
  (** Adding an address that is there is the error [os.IsExist] accepts. *)
  AddrAdd_can l a : sat (AddrAdd (Some l) a) (λ s r _, ∀ id d,
    dev_at s (cur_ns s) (link_index l) id d → readable (IPNet_String (Addr_IPNet a)) = true →
    ends_ok r ∨ IPNet_String (Addr_IPNet a) ∈ dev_addrs d ∧ ∃ e, r = Err e ∧ os_IsExist e = true);
  AddrDel_can l a : can (AddrDel (Some l) a) (λ s, ∃ id d,
    dev_at s (cur_ns s) (link_index l) id d ∧ IPNet_String (Addr_IPNet a) ∈ dev_addrs d);
  ParseAddr_can a : readable a = true → ends_ok (ParseAddr (W:=W) a);
  (** Neighbor suppression is a setting of bridge ports. *)
  Execute_can i p t : can (Execute (neigh_suppress_request i) p t) (λ s, ∃ id d idb db,
    dev_at s (cur_ns s) i id d ∧ dev_at s (cur_ns s) (dev_master d) idb db
    ∧ is_bridge (dev_link db) = true);
  Get_can : can netns_Get (λ _, True);
  GetFromName_can n : can (netns_GetFromName n) (λ s, is_Some (named s !! n));
  OpenFile_can n f m : can (OpenFile (addr_gen_mode_file n) f m) (λ s,
    ∃ id d, dev_named s (cur_ns s) n id d);
  File_Write_can f t : can (File_Write f t) (λ s, ∃ n id d,
    files (thr s) !! f = Some (addr_gen_mode_file n) ∧ dev_named s (cur_ns s) n id d) }.

(** ** Programs that succeed *)
Section fine.
Context {W : Type} `{NetlinkLaws W, !Untroubled W}.

Definition fine {A} (m : go W A) (s : NetState) : Prop := wp m s (λ r _, ends_ok r).

Lemma fine_run {A} (m : go W A) w : fine m (view w) → ∃ a w', m w = (Ok a, w').
Proof.
  intros Hm. destruct (m w) as [r w'] eqn:E. destruct (Hm w r w' eq_refl E) as [a ->].
  by exists a, w'.
Qed.

Lemma fine_can {A} (m : go W A) pre s : can m pre → pre s → fine m s.
Proof. intros Hm Hpre w r w' <- Hr. exact (Hm _ _ _ Hr Hpre). Qed.

(** The one rule that looks at what was left. *)
Lemma fine_bind {A B} (m : go W A) (f : A → go W B) s :
  fine m s → wpo m s (λ a s', fine (f a) s') → fine (m ≫= f) s.
Proof.
  intros Hm Hf w r w' Hw. unfold mbind, go_bind. destruct (m w) as [x w1] eqn:E.
  destruct (Hm w x w1 Hw E) as [a ->]. specialize (Hf w (Ok a) w1 Hw E). cbn in Hf. apply Hf.
  reflexivity.
Qed.
Lemma fine_ret {A} (a : A) s : fine (mret a) s.
Proof. apply wp_ret. by exists a. Qed.
Lemma fine_lift {A} (x : res A) s : ends_ok x → fine (lift x) s.
Proof. intros Hx. by apply wp_lift. Qed.
Lemma fine_on_err {A} g (m : go W A) s : fine m s → fine (on_errM g m) s.
Proof. intros Hm. apply wp_on_err. eapply wp_mono; [exact Hm|]. intros r _ [a ->]. by exists a. Qed.
Lemma fine_attempt {A} (m : go W A) s : wp m s (λ r _, returns r) → fine (attempt m) s.
Proof.
  intros Hm. apply wp_attempt. eapply wp_mono; [exact Hm|]. unfold ends_ok.
  intros [a|e|] s' Hr; [eauto..|done].
Qed.
Lemma fine_err_with_name {A} l f (m : go W A) s : fine m s → fine (err_with_name l f m) s.
Proof.
  intros Hm. apply wp_bind, wp_attempt. eapply wp_mono; [exact Hm|]. intros r s' [a ->].
  apply wp_ret. by exists a.
Qed.
Lemma wp_any {A} (m : go W A) s (P : Prop) : P → wp m s (λ _ _, P).
Proof. intros HP w r w' _ _. exact HP. Qed.
Lemma fine_deferring {A B} (d : go W B) (m : go W A) s : fine m s → fine (deferring (ignored d) m) s.
Proof. intros Hm. apply wp_deferring. eapply wp_mono; [exact Hm|]. intros r s' Hr. by apply wp_any. Qed.

(** A loop that keeps [I] and succeeds where [I] holds. *)
Lemma fine_forM {A} (f : A → go W unit) (I : list A → NetState → Prop) l s :
  (∀ x l s, I (x :: l) s → fine (f x) s) →
  (∀ x l s, I (x :: l) s → wpo (f x) s (λ _ s', I l s')) → I l s → fine (forM_ f l) s.
Proof.
  intros Hf Hk. revert s. induction l as [|x l IH]; intros s HI; cbn [forM_]; [apply fine_ret|].
  apply fine_bind; [exact (Hf x l s HI)|]. eapply wpo_mono; [exact (Hk x l s HI)|].
  intros u s' HI'. by apply IH.
Qed.

Lemma fine_wf {A} (m : go W A) s : (wf s → fine m s) → fine m s.
Proof. apply wp_wf. Qed.
Lemma wpo_forall {A T} (m : go W A) s (P : T → A → NetState → Prop) :
  (∀ x, wpo m s (P x)) → wpo m s (λ a s', ∀ x, P x a s').
Proof. intros Hm w r w' Hw Hr. destruct r as [a|e|]; [|done..]. intros x. exact (Hm x w _ w' Hw Hr). Qed.
Lemma wpo_true {A} (m : go W A) s : wpo m s (λ _ _, True).
Proof. intros w r w' _ _. by destruct r. Qed.

(** Entering a namespace succeeds, and so does the call when its body does. *)
Lemma fine_inNamespace {cap} `{!NetlinkProgress W cap} {A} ns (exec : go W A) s n :
  quiet exec → handles (thr s) !! ns = Some n →
  (∀ h, handles (thr s) !! h = None → fine exec (enter n h s)) → fine (inNamespace ns exec) s.
Proof.
  intros Hq Hns Hexec. assert (can_enter (W:=W) ns s) as Hcan.
  { split; [by exists n|]. intros w r w' Hr. exact (Get_can _ _ _ Hr I). }
  apply wp_inNamespace_quiet; [done|intros e Hno; by destruct Hno|intros Hno; by destruct Hno|].
  intros m h Hm Hh. rewrite lookup_insert_ne in Hm; [|congruence]. assert (m = n) as -> by congruence.
  eapply wp_mono; [exact (Hexec h Hh)|]. done.
Qed.
End fine.

(** One step towards success. *)
Ltac fine_step :=
  cbv beta iota zeta;
  try match goal with |- wp ?m ?s (λ r _, ends_ok r) => change (fine m s) end;
  lazymatch goal with
  | |- fine (_ ≫= _) _ => apply fine_bind
  | |- fine (on_errM _ _) _ => apply fine_on_err
  | |- fine (err_with_name _ _ _) _ => apply fine_err_with_name
  | |- fine (mret _) _ => apply fine_ret
  | |- fine (lift _) _ => apply fine_lift
  | |- fine (deferring (ignored _) _) _ => apply fine_deferring
  end.
