(* ===== verification/Held.v ===== *)
(** * Devices that stay

    What the configuration of one VNI leaves of the others.  A set of devices is
    [closed] when it has the peer of each of its devices and what each of its VXLANs
    runs over; deleting or moving a device outside of it then takes none of it along,
    and only releases devices whose master is outside. *)

From S2P Require Import Prelude GoStrings GoNet HostParams Netlink Troubles NetLogic HostLinks LinkSpecs.
Local Open Scope Z_scope.

Implicit Types (K L : gmap positive Dev) (d : Dev) (id : positive).

(** What a VXLAN runs over is there. *)
Definition based K d : Prop :=
  ∀ vid port learn src vtep, Kind (dev_link d) = Vxlan vid port learn src vtep →
    ∃ id' d', K !! id' = Some d' ∧ dev_ns d' = dev_ns d ∧ dev_index d' = vtep.
Definition peered K d : Prop := ∀ idp, dev_peer d = Some idp → is_Some (K !! idp).
Definition closed K : Prop := map_Forall (λ _ d, peered K d ∧ based K d) K.

Definition holds K (s : NetState) : Prop := closed K ∧ K ⊆ devs s.

(** The master of the device is one of the set. *)
Definition mastered K d : Prop :=
  ∃ id' d', K !! id' = Some d' ∧ dev_ns d' = dev_ns d ∧ dev_index d' = dev_master d.

(** Every device of [K] is in [K'] up to its master, and with its master when that
    is one of [K] too. *)
Definition evolves K K' : Prop :=
  ∀ id d, K !! id = Some d → ∃ m, K' !! id = Some (set_master m d) ∧ (mastered K d → m = dev_master d).

(** The names of the devices are among these. *)
Definition within (l : list string) K : Prop := map_Forall (λ _ d, dev_name d ∈ l) K.

(** All devices of [K] and no others are still there. *)
Definition held K (s' : NetState) : Prop :=
  ∃ K', evolves K K' ∧ dom K' = dom K ∧ holds K' s'.

(** The device differs in what the setup functions change only. *)
Definition same_shape d d' : Prop :=
  dev_ns d' = dev_ns d ∧ dev_name d' = dev_name d ∧ dev_index d' = dev_index d
  ∧ Kind (dev_link d') = Kind (dev_link d) ∧ dev_peer d' = dev_peer d.

Lemma evolves_refl K : evolves K K.
Proof. intros id d Hd. exists (dev_master d). by rewrite set_master_same. Qed.

Lemma set_master_twice m n d : set_master m (set_master n d) = set_master m d.
Proof. done. Qed.

Lemma evolves_trans K1 K2 K3 : evolves K1 K2 → evolves K2 K3 → evolves K1 K3.
Proof.
  intros H12 H23 id d Hd. destruct (H12 id d Hd) as (m & Hm & HC).
  destruct (H23 id _ Hm) as (m' & Hm' & HC'). exists m'. rewrite set_master_twice in Hm'.
  split; [done|]. intros (idm & dm & Hdm & Hns & Hi). assert (m = dev_master d) as -> by (apply HC; by exists idm, dm).
  cbn in HC'. apply HC'. destruct (H12 _ _ Hdm) as (k & Hk & _). by exists idm, (set_master k dm).
Qed.

#[export] Instance evolves_preorder : PreOrder evolves.
Proof. split; [exact evolves_refl|exact evolves_trans]. Qed.

Lemma evolves_insert K0 K id d : K0 !! id = None → evolves K0 K → evolves K0 (<[id := d]> K).
Proof.
  intros Hn He id' d' Hd'. destruct (He _ _ Hd') as (m & Hm & HC). exists m.
  rewrite lookup_insert_ne; [done|congruence].
Qed.

Lemma evolves_union K L : evolves K (K ∪ L).
Proof.
  intros id d Hd. exists (dev_master d). rewrite set_master_same. split; [|done].
  by apply lookup_union_Some_l.
Qed.

Lemma same_dom_lookup K K' id d' : dom K' = dom K → K' !! id = Some d' → ∃ d, K !! id = Some d.
Proof. intros Hdom Hd'%elem_of_dom_2. rewrite Hdom in Hd'. by apply elem_of_dom. Qed.

(** A set with the same devices up to masters is closed. *)
Lemma closed_evolves K K' : closed K → evolves K K' → dom K' = dom K → closed K'.
Proof.
  intros Hc He Hdom id d' Hd'.
  destruct (same_dom_lookup _ _ _ _ Hdom Hd') as [d Hd].
  destruct (He _ _ Hd) as (m & Hm & _), (Hc _ _ Hd) as [Hp Hb].
  rewrite Hd' in Hm. injection Hm as ->. split.
  - intros idp [dp Hdp]%Hp. destruct (He _ _ Hdp) as (? & ? & _). eauto.
  - intros vid port learn src vtep (idb & db & Hdb & Hns & Hi)%Hb.
    destruct (He _ _ Hdb) as (k & Hk & _). by exists idb, (set_master k db).
Qed.

Lemma within_held l K K' : within l K → evolves K K' → dom K' = dom K → within l K'.
Proof.
  intros Hw He Hdom id d' Hd'.
  destruct (same_dom_lookup _ _ _ _ Hdom Hd') as [d Hd].
  destruct (He _ _ Hd) as (m & Hm & _). rewrite Hd' in Hm. injection Hm as ->. exact (Hw _ _ Hd).
Qed.

Lemma within_mono l l' K : within l K → l ⊆ l' → within l' K.
Proof. intros Hw Hl id d Hd. apply Hl. exact (Hw _ _ Hd). Qed.

Lemma within_union l K L : within l K → within l L → within l (K ∪ L).
Proof. intros HK HL id d [Hd|[_ Hd]]%lookup_union_Some_raw; [exact (HK _ _ Hd)|exact (HL _ _ Hd)]. Qed.

Lemma within_insert l K id d : within l K → dev_name d ∈ l → within l (<[id := d]> K).
Proof. intros Hw Hd. by apply map_Forall_insert_2. Qed.

Lemma within_absent l K s id d :
  within l K → K ⊆ devs s → devs s !! id = Some d → dev_name d ∉ l → K !! id = None.
Proof.
  intros Hw Hs Hd Hn. destruct (K !! id) as [d'|] eqn:E; [|done]. destruct Hn.
  pose proof (lookup_weaken _ _ _ _ E Hs). assert (d' = d) as -> by congruence. exact (Hw _ _ E).
Qed.

Lemma holds_devs K s s' : devs s' = devs s → holds K s → holds K s'.
Proof. unfold holds. by intros ->. Qed.

(** Adding devices. *)
Lemma holds_union K L s :
  holds K s → L ⊆ devs s → map_Forall (λ _ d, peered (K ∪ L) d ∧ based (K ∪ L) d) L →
  holds (K ∪ L) s.
Proof.
  intros [Hc Hs] HL HLc. split; [|by apply map_union_least].
  assert (K ⊆ K ∪ L) as Hin by apply map_union_subseteq_l.
  intros id d [Hd|[_ Hd]]%lookup_union_Some_raw; [|exact (HLc _ _ Hd)].
  destruct (Hc _ _ Hd) as [Hp Hb]. split.
  - intros idp [dp Hdp]%Hp. exists dp. exact (lookup_weaken _ _ _ _ Hdp Hin).
  - intros ? ? ? ? ? (idb & db & Hdb & Hrest)%Hb. exists idb, db. split; [|done].
    exact (lookup_weaken _ _ _ _ Hdb Hin).
Qed.

Lemma plain_peered s id d K : wf s → devs s !! id = Some d → plain d → peered K d.
Proof.
  intros Hwf Hd [Hv _] idp Hp. rewrite (wf_peer_veth _ Hwf _ _ Hd) in Hv; [done|congruence].
Qed.
Lemma unbased d K : is_vxlan (dev_link d) = false → based K d.
Proof. unfold is_vxlan. intros Hx ? ? ? ? ? Hk. by rewrite Hk in Hx. Qed.

Lemma holds_plain K s id d :
  wf s → holds K s → devs s !! id = Some d → plain d → holds (K ∪ {[id := d]}) s.
Proof.
  intros Hwf HK Hd Hpl. apply holds_union; [done|by apply map_singleton_subseteq_l|].
  apply map_Forall_singleton. split; [exact (plain_peered _ _ _ _ Hwf Hd Hpl)|apply unbased, Hpl].
Qed.

(** Changing one of them. *)
Lemma holds_update K s s' id d d' :
  holds K s → K !! id = Some d → same_shape d d' → devs s' = <[id := d']> (devs s) →
  holds (<[id := d']> K) s'.
Proof.
  intros [Hc Hs] Hd (Hns & _ & Hi & Hk & Hp) Hdevs. split.
  2: { rewrite Hdevs. by apply insert_mono. }
  assert (∀ e, peered K e → peered (<[id := d']> K) e) as Hpeer.
  { intros e He idp [dp Hdp]%He. apply lookup_insert_is_Some'. right. eauto. }
  assert (∀ e, based K e → based (<[id := d']> K) e) as Hbase.
  { intros e He ? ? ? ? ? (idb & db & Hdb & Hbns & Hbi)%He. destruct (decide (idb = id)) as [->|Hne].
    - exists id, d'. rewrite lookup_insert_eq. split_and!; [done|congruence..].
    - exists idb, db. rewrite lookup_insert_ne //. congruence. }
  apply map_Forall_insert_2.
  - destruct (Hc _ _ Hd) as [Hpd Hbd]. split.
    + apply Hpeer. unfold peered. by rewrite Hp.
    + apply Hbase. unfold based. by rewrite Hk Hns.
  - intros i e [He1 He2]%Hc. split; auto.
Qed.

(** ** What the setup functions leave of them *)

(** A device outside of the set goes away. *)
Section gone.
Context (s : NetState) (Hwf : wf s) (K : gmap positive Dev) (HK : holds K s).
Context (id0 : positive) (d0 : Dev) (Hd0 : devs s !! id0 = Some d0) (Hout : K !! id0 = None).

Lemma gone_peer id d : K !! id = Some d → dev_peer d0 ≠ Some id.
Proof.
  intros Hd Hp. destruct HK as [Hc Hs]. pose proof (lookup_weaken _ _ _ _ Hd Hs) as Hd'.
  destruct (wf_peer _ Hwf _ _ _ _ Hd0 Hd' Hp) as [Hp' _].
  destruct (proj1 (Hc _ _ Hd) _ Hp') as [? ?]. congruence.
Qed.

Lemma gone_at id' d' : K !! id' = Some d' → dev_ns d' = dev_ns d0 → dev_index d' = dev_index d0 → False.
Proof.
  intros Hd' Hns Hi. pose proof (lookup_weaken _ _ _ _ Hd' (proj2 HK)) as Hd''.
  assert (id' = id0) as -> by exact (wf_index _ Hwf _ _ _ _ _ _ (conj Hd'' (conj Hns Hi))
    (conj Hd0 (conj eq_refl eq_refl))). congruence.
Qed.

Lemma gone_stacked id d : K !! id = Some d → stacked (dev_ns d0) (dev_index d0) d = false.
Proof.
  intros Hd. unfold stacked. destruct (Kind (dev_link d)) as [| | | |vid p l a vtep|] eqn:Hk; try done.
  apply andb_false_iff. destruct (Z.eqb_spec (dev_ns d) (dev_ns d0)) as [Hns|]; [right|by left].
  apply Z.eqb_neq. intros ->. destruct (proj2 (proj1 HK _ _ Hd) _ _ _ _ _ Hk) as (idb & db & Hdb & Hbns & Hbi).
  apply (gone_at idb db); congruence.
Qed.

Lemma gone_master d : mastered K d → dev_ns d = dev_ns d0 → dev_master d = dev_index d0 → False.
Proof. intros (idm & dm & Hdm & Hns & Hi) ??. apply (gone_at idm dm); congruence. Qed.
End gone.

(** Each of the devices is still there, up to the master of those whose master is
    not one of them. *)
Lemma held_intro K s s' :
  holds K s →
  (∀ id d, K !! id = Some d → ∃ m, devs s' !! id = Some (set_master m d) ∧ (mastered K d → m = dev_master d)) →
  held K s'.
Proof.
  intros [Hc Hs] Hk. exists (map_imap (λ id _, devs s' !! id) K).
  assert (evolves K (map_imap (λ id _, devs s' !! id) K)) as He.
  { intros id d Hd. destruct (Hk _ _ Hd) as (m & Hm & HC). exists m. by rewrite map_lookup_imap Hd. }
  assert (dom (map_imap (λ id _, devs s' !! id) K) = dom K) as Hdom.
  { apply set_eq. intros id. rewrite !elem_of_dom. split.
    - intros [d' Hd']. rewrite map_lookup_imap in Hd'. destruct (K !! id); [eauto|done].
    - intros [d Hd]. destruct (He _ _ Hd) as (m & Hm & _). eauto. }
  split_and!; [done..|]. split; [exact (closed_evolves _ _ Hc He Hdom)|].
  apply map_subseteq_spec. intros id d'. rewrite map_lookup_imap. by destruct (K !! id).
Qed.

Lemma held_refl K s : holds K s → held K s.
Proof. intros HK. exists K. split_and!; [apply evolves_refl|done..]. Qed.

(** A device outside of the set is made or changed. *)
Lemma holds_insert K s s' id d :
  holds K s → K !! id = None → devs s' = <[id := d]> (devs s) → holds K s'.
Proof. intros [Hc Hs] Hout Hd. split; [done|]. rewrite Hd. by apply insert_subseteq_r. Qed.
Lemma held_insert K s s' id d :
  held K s → K !! id = None → devs s' = <[id := d]> (devs s) → held K s'.
Proof.
  intros (K1 & He & Hdom & HK1) Hout Hd. exists K1. split_and!; [done..|].
  apply (holds_insert K1 s s' id d HK1); [|done]. apply not_elem_of_dom. rewrite Hdom. by apply not_elem_of_dom.
Qed.

(** One after the other. *)
Lemma held_then K l s s' :
  held K s → within l K → (∀ K1, holds K1 s → within l K1 → held K1 s') → held K s'.
Proof.
  intros (K1 & He & Hdom & HK1) Hl Hnext.
  destruct (Hnext K1 HK1 (within_held _ _ _ Hl He Hdom)) as (K2 & He2 & Hdom2 & HK2).
  exists K2. split_and!; [exact (evolves_trans _ _ _ He He2)|congruence|done].
Qed.

Lemma frame_held K s s' l name bad :
  wf s → holds K s → within l K → name ∉ l → frame s s' name bad → held K s'.
Proof.
  intros Hwf HK Hw Hn Hf. apply (held_intro K s s' HK). intros id d Hd.
  pose proof (lookup_weaken _ _ _ _ Hd (proj2 HK)) as Hd'.
  assert (∀ id0 d0, dev_named s (cur_ns s) name id0 d0 → K !! id0 = None) as Hout.
  { intros id0 d0 (Hd0 & _ & Hn0). apply (within_absent l K s id0 d0 Hw (proj2 HK) Hd0). congruence. }
  destruct (Hf id d Hd') as (m & Hm & HC).
  { intros [_ Heq]. apply Hn. rewrite -Heq. exact (Hw _ _ Hd). }
  { intros id0 d0 Hat _. specialize (Hout _ _ Hat). destruct Hat as (Hd0 & <- & _). split_and!.
    - congruence.
    - by apply (gone_peer s Hwf K HK id0 d0 Hd0 Hout id d).
    - by apply (gone_stacked s Hwf K HK id0 d0 Hd0 Hout id d). }
  exists m. split; [done|]. intros Hmst. destruct HC as [?|(id0 & d0 & Hat & _ & Hns & Hi)]; [done|exfalso].
  specialize (Hout _ _ Hat). destruct Hat as (Hd0 & Hns0 & _).
  apply (gone_master s Hwf K HK id0 d0 Hd0 Hout d); [done|congruence|done].
Qed.

(** Moving a device away. *)
Lemma release_held K s s' id0 d0 :
  wf s → holds K s → devs s !! id0 = Some d0 → K !! id0 = None →
  (∀ id, id ≠ id0 → devs s' !! id = devs s !! id ≫= release (dev_ns d0) (dev_index d0)) →
  held K s'.
Proof.
  intros Hwf HK Hd0 Hout Hrest. apply (held_intro K s s' HK). intros id d Hd.
  destruct (release_unstacked _ _ _ (gone_stacked s Hwf K HK id0 d0 Hd0 Hout id d Hd)) as (m & Hrel & HC).
  exists m. rewrite Hrest; [|congruence]. rewrite (lookup_weaken _ _ _ _ Hd (proj2 HK)) /= Hrel.
  split; [done|]. intros Hmst. destruct HC as [?|[Hns Hi]]; [done|].
  by destruct (gone_master s Hwf K HK id0 d0 Hd0 Hout d Hmst).
Qed.

(** ** Following the devices of a VNI

    [K0] are the devices of the others, [K] has them and those met so far, whose names
    are among [l]. *)
Record tracks K0 (l : list string) K (s : NetState) : Prop := {
  tracks_holds : holds K s;
  tracks_others : evolves K0 K;
  tracks_names : within l K }.
Arguments tracks_holds {_ _ _ _} _.
Arguments tracks_others {_ _ _ _} _.
Arguments tracks_names {_ _ _ _} _.

Lemma tracks_lookup K0 l K s id d : tracks K0 l K s → K !! id = Some d → devs s !! id = Some d.
Proof. intros [[_ Hs] _ _] Hd. exact (lookup_weaken _ _ _ _ Hd Hs). Qed.

Lemma tracks_devs K0 l K s s' : devs s' = devs s → tracks K0 l K s → tracks K0 l K s'.
Proof. intros Hd [Hh He Hw]. split; [exact (holds_devs _ _ _ Hd Hh)|done..]. Qed.

Lemma tracks_held K0 l K s s' :
  tracks K0 l K s → held K s' → ∃ K', tracks K0 l K' s' ∧ evolves K K' ∧ dom K' = dom K.
Proof.
  intros [_ He0 Hw] (K' & He & Hdom & Hh). exists K'. split_and!; [|done..].
  split; [done|exact (evolves_trans _ _ _ He0 He)|exact (within_held _ _ _ Hw He Hdom)].
Qed.

Lemma tracks_update K0 l K s s' id d d' :
  tracks K0 l K s → K !! id = Some d → K0 !! id = None → same_shape d d' →
  devs s' = <[id := d']> (devs s) → tracks K0 l (<[id := d']> K) s'.
Proof.
  intros [Hh He Hw] Hd Hout Hsh Hdevs. split.
  - exact (holds_update _ _ _ _ _ _ Hh Hd Hsh Hdevs).
  - by apply evolves_insert.
  - apply within_insert; [done|]. destruct Hsh as (_ & -> & _). exact (Hw _ _ Hd).
Qed.

Lemma tracks_frame K0 l K s s' name bad :
  wf s → tracks K0 l K s → name ∉ l → frame s s' name bad →
  ∃ K', tracks K0 l K' s' ∧ evolves K K' ∧ dom K' = dom K.
Proof.
  intros Hwf Ht Hn Hf. apply (tracks_held _ _ _ _ _ Ht).
  exact (frame_held _ _ _ _ _ _ Hwf (tracks_holds Ht) (tracks_names Ht) Hn Hf).
Qed.

(** A new device is added. *)
Lemma tracks_add K0 l K s id d :
  wf s → tracks K0 l K s → devs s !! id = Some d → is_veth (dev_link d) = false → based K d →
  tracks K0 (dev_name d :: l) (K ∪ {[id := d]}) s
  ∧ (K ∪ {[id := d]}) !! id = Some d ∧ evolves K (K ∪ {[id := d]}).
Proof.
  intros Hwf [Hh He Hw] Hd Hv Hb. assert ((K ∪ {[id := d]}) !! id = Some d) as Hid.
  { destruct (K !! id) as [d'|] eqn:E.
    - pose proof (lookup_weaken _ _ _ _ E (proj2 Hh)). assert (d' = d) as -> by congruence.
      by apply lookup_union_Some_l.
    - rewrite lookup_union_r // lookup_singleton_eq //. }
  split_and!; [split|done|apply evolves_union].
  - apply holds_union; [done|by apply map_singleton_subseteq_l|].
    apply map_Forall_singleton. split.
    + intros idp Hp. rewrite (wf_peer_veth _ Hwf _ _ Hd) in Hv; [done|congruence].
    + intros vid port learn src vtep (idb & db & Hdb & Hrest)%Hb. exists idb, db.
      split; [by apply lookup_union_Some_l|done].
  - exact (evolves_trans _ _ _ He (evolves_union _ _)).
  - apply within_union; [refine (within_mono l _ _ Hw _); set_solver|].
    apply map_Forall_singleton. by left.
Qed.

(** The two ends of a veth pair are added. *)
Lemma tracks_pair K0 l K s idh dh idp dp :
  wf s → tracks K0 l K s → devs s !! idh = Some dh → devs s !! idp = Some dp →
  dev_peer dh = Some idp → is_veth (dev_link dh) = true → is_veth (dev_link dp) = true →
  ∃ K', tracks K0 (dev_name dh :: dev_name dp :: l) K' s
    ∧ K ⊆ K' ∧ K' !! idh = Some dh ∧ K' !! idp = Some dp.
Proof.
  intros Hwf [Hh He Hw] Hdh Hdp Hp Hvh Hvp. destruct (wf_peer _ Hwf _ _ _ _ Hdh Hdp Hp) as [Hpp Hne].
  set (L := {[idh := dh; idp := dp]} : gmap positive Dev).
  assert (L ⊆ devs s) as HL by (apply insert_subseteq_l; [done|by apply map_singleton_subseteq_l]).
  assert (K ∪ L ⊆ devs s) as Hsub by (apply map_union_least; [apply Hh|done]).
  assert (∀ i e, L !! i = Some e → devs s !! i = Some e → (K ∪ L) !! i = Some e) as Hin.
  { intros i e Hi Hs. destruct ((K ∪ L) !! i) as [e'|] eqn:E.
    - pose proof (lookup_weaken _ _ _ _ E Hsub). congruence.
    - by apply lookup_union_None in E as [_ ?]; congruence. }
  assert ((K ∪ L) !! idh = Some dh ∧ (K ∪ L) !! idp = Some dp) as [Kh Kp].
  { split; apply Hin; try done; unfold L; [by rewrite lookup_insert_eq|].
    by rewrite lookup_insert_ne // lookup_singleton_eq. }
  assert (∀ e, is_veth (dev_link e) = true → based (K ∪ L) e) as Hb.
  { intros e Hv. apply unbased. unfold is_veth, is_vxlan in *. by destruct (Kind (dev_link e)). }
  exists (K ∪ L). split_and!; [split|apply map_union_subseteq_l|done|done].
  - apply holds_union; [done|done|].
    apply map_Forall_insert_2; [|apply map_Forall_singleton]; (split; [|by apply Hb]).
    + intros i Hi. exists dp. congruence.
    + intros i Hi. exists dh. congruence.
  - exact (evolves_trans _ _ _ He (evolves_union _ _)).
  - apply within_union; [refine (within_mono l _ _ Hw _); set_solver|].
    apply within_insert; [apply map_Forall_singleton|]; set_solver.
Qed.
