(* ===== verification/Faults.v ===== *)
(** * Calls that fail

    What some theorems need to know of the kernel beside its laws: what a call that fails
    leaves behind.  The laws of the file Netlink leave it open. *)

From S2P Require Import Prelude GoStrings GoNet HostParams Netlink Troubles NetLogic HostLinks LinkSpecs.
Local Open Scope Z_scope.

(** ** Calls that fail

    The kernel answers a request as a whole, so a call that fails leaves the devices as
    they were.  [LinkAdd] is two requests when the device is to have a master, which can
    only be set once it is made: the second may fail after the first was carried out. *)
Definition stops `{View W} {A} (m : go W A) : Prop :=
  sat m (λ s r s', (∃ a, r = Ok a) ∨ devs s' = devs s).

Definition half_made (req : Link) (s s' : NetState) : Prop :=
  ∃ id d, added_as (set_MasterIndex 0 req) s id d s'.

Class FailStop (W : Type) `{Netlink W, View W} : Prop := {
  LinkAdd_stops l : sat (LinkAdd l) (λ s r s',
    (∃ a, r = Ok a) ∨ devs s' = devs s ∨ link_master l ≠ 0 ∧ half_made l s s');
  LinkDel_stops l : stops (LinkDel l);
  LinkSetUp_stops l : stops (LinkSetUp l);
  LinkSetMaster_stops l m : stops (LinkSetMaster l m);
  LinkSetNsFd_stops l h : stops (LinkSetNsFd l h);
  AddrAdd_stops l a : stops (AddrAdd l a);
  AddrDel_stops l a : stops (AddrDel l a);
  Execute_stops r p t : stops (Execute r p t);
  File_Write_stops f t : stops (File_Write f t) }.

#[export] Hint Resolve LinkDel_stops LinkSetUp_stops LinkSetMaster_stops LinkSetNsFd_stops
  AddrAdd_stops AddrDel_stops Execute_stops File_Write_stops : pierre.
