(* ===== verification/Origins.v ===== *)
(** * Where the devices come from

    [tame A m]: after a run of [m] that ends without error every device was there
    before, with its name, its kind and its peer, or it is new and its name and its
    peer's are among [A]; and when no two devices shared an index none do now.  This
    follows from the calls a program makes, whatever it does in between.

    It is one of several accounts of what the calls add up to: an [account] is a relation
    on states with its sums, and [obeys b R k m] says that the runs of [m] add up to at most
    [k] of it: the runs that end without error, or all of them when [b] and calls fail as the
    file Faults says.  The setup functions are followed once, for any account and both ways. *)

From S2P Require Import Prelude GoStrings GoNet HostParams Netlink Troubles NetLogic HostLinks LinkSpecs.
From S2P Require Import Held Faults.
Local Open Scope Z_scope.

(** ** The relation *)
Definition old_dev (s : NetState) (id : positive) (d' : Dev) : Prop :=
  ∃ d, devs s !! id = Some d ∧ dev_name d' = dev_name d ∧ dev_peer d' = dev_peer d
    ∧ Kind (dev_link d') = Kind (dev_link d).
Definition new_dev_in (A : list string) (s' : NetState) (d' : Dev) : Prop :=
  dev_name d' ∈ A ∧ ∀ idq dq, dev_peer d' = Some idq → devs s' !! idq = Some dq → dev_name dq ∈ A.

Record tamed (A : list string) (s s' : NetState) : Prop := {
  tamed_unique : legs_apart s → legs_apart s';
  tamed_from id d' : devs s' !! id = Some d' → new_dev_in A s' d' ∨ old_dev s id d' }.

Lemma tamed_refl A s : tamed A s s.
Proof. split; [done|]. intros id d Hd. right. by exists d. Qed.

Lemma tamed_trans A s1 s2 s3 : tamed A s1 s2 → tamed A s2 s3 → tamed A s1 s3.
Proof.
  intros [Hu1 H12] [Hu2 H23]. split; [auto|]. intros id d3 Hd3.
  destruct (H23 id d3 Hd3) as [?|(d2 & Hd2 & Hn2 & Hp2 & Hk2)]; [by left|].
  destruct (H12 id d2 Hd2) as [[HA HP]|(d1 & Hd1 & Hn1 & Hp1 & Hk1)]; [left|right].
  - split; [by rewrite Hn2|]. intros idq dq Hpq Hdq. rewrite Hp2 in Hpq.
    destruct (H23 idq dq Hdq) as [[? _]|(dq2 & Hdq2 & Hnq & _)]; [done|]. rewrite Hnq. exact (HP idq dq2 Hpq Hdq2).
  - exists d1. split_and!; [done|congruence..].
Qed.

#[export] Instance tamed_preorder A : PreOrder (tamed A).
Proof. split; [exact (tamed_refl A)|exact (tamed_trans A)]. Qed.

(** No device is new, and none is renamed. *)
Record mild (s s' : NetState) : Prop := {
  mild_apart : legs_apart s → legs_apart s';
  mild_from id d' : devs s' !! id = Some d' → old_dev s id d' }.

Lemma mild_tamed A s s' : mild s s' → tamed A s s'.
Proof.
  intros [Ha Ho]. split; [exact Ha|]. intros id d' Hd'. right. exact (Ho id d' Hd').
Qed.

Lemma mild_devs s s' : devs s' = devs s → mild s s'.
Proof. intros Hd. split; [by apply legs_apart_devs|]. intros id d. rewrite Hd. intros Hd'. by exists d. Qed.

(** Where the indexes stay too. *)
Lemma mild_indexed s s' :
  (∀ id d', devs s' !! id = Some d' → ∃ d, devs s !! id = Some d ∧ dev_name d' = dev_name d
    ∧ dev_peer d' = dev_peer d ∧ Kind (dev_link d') = Kind (dev_link d) ∧ dev_index d' = dev_index d) →
  mild s s'.
Proof.
  intros Hf. split.
  - apply legs_apart_from. intros id d' (d & ? & ? & ? & _ & ?)%Hf. by exists d.
  - intros id d' (d & ? & ? & ? & ? & _)%Hf. by exists d.
Qed.

Lemma mild_insert s s' id d d' :
  devs s !! id = Some d → devs s' = <[id := d']> (devs s) → dev_name d' = dev_name d →
  dev_peer d' = dev_peer d → Kind (dev_link d') = Kind (dev_link d) → dev_index d' = dev_index d →
  mild s s'.
Proof.
  intros Hd Hdevs ????. apply mild_indexed. intros i e. rewrite Hdevs.
  destruct (decide (i = id)) as [->|Hne].
  - rewrite lookup_insert_eq. intros [= <-]. by exists d.
  - rewrite lookup_insert_ne; [|congruence]. intros He. by exists e.
Qed.

Lemma release_same ns i d d' :
  release ns i d = Some d' → dev_name d' = dev_name d ∧ dev_peer d' = dev_peer d
    ∧ Kind (dev_link d') = Kind (dev_link d) ∧ dev_index d' = dev_index d.
Proof. unfold release. repeat case_match; try done; by intros [= <-]. Qed.
Lemma release_addrs ns i d d' : release ns i d = Some d' → dev_addrs d' = dev_addrs d.
Proof. unfold release. repeat case_match; try done; by intros [= <-]. Qed.

(** The addresses a device got are among these. *)
Definition addresses_from (P : string → Prop) (s s' : NetState) : Prop :=
  ∀ id d d' a, devs s !! id = Some d → devs s' !! id = Some d' → a ∈ dev_addrs d' → a ∈ dev_addrs d ∨ P a.

Lemma addresses_devs P s s' : devs s' = devs s → addresses_from P s s'.
Proof. intros Hd id d d' a H1' H2' Ha. left. rewrite Hd in H2'. congruence. Qed.
Lemma addresses_insert P s s' id d d' :
  devs s !! id = Some d → devs s' = <[id := d']> (devs s) →
  (∀ a, a ∈ dev_addrs d' → a ∈ dev_addrs d ∨ P a) → addresses_from P s s'.
Proof.
  intros Hd Hdevs Ha i e e' a He. rewrite Hdevs lookup_insert_Some. intros [[<- <-]|[_ He']] Hin.
  - assert (e = d) as -> by congruence. by apply Ha.
  - left. congruence.
Qed.

(** The devices that neither run over another nor have one of these names are where they
    were: none is deleted or moved. *)
Definition lasts (N : list string) (s s' : NetState) : Prop :=
  ∀ id d, devs s !! id = Some d → is_vxlan (dev_link d) = false → dev_name d ∉ N →
    ∃ d', devs s' !! id = Some d' ∧ same_shape d d'.

Lemma same_shape_trans d1 d2 d3 : same_shape d1 d2 → same_shape d2 d3 → same_shape d1 d3.
Proof. unfold same_shape. intros (?&?&?&?&?) (?&?&?&?&?). split_and!; congruence. Qed.

Lemma lasts_trans N s1 s2 s3 : lasts N s1 s2 → lasts N s2 s3 → lasts N s1 s3.
Proof.
  intros H12 H23 id d1 Hd1 Hx Hn. destruct (H12 id d1 Hd1 Hx Hn) as (d2 & Hd2 & Hs12).
  pose proof Hs12 as (_ & Hn12 & _ & Hk12 & _).
  destruct (H23 id d2 Hd2) as (d3 & Hd3 & Hs23); [by unfold is_vxlan in *; rewrite Hk12|by rewrite Hn12|].
  exists d3. split; [done|exact (same_shape_trans _ _ _ Hs12 Hs23)].
Qed.
Lemma lasts_devs N s s' : devs s' = devs s → lasts N s s'.
Proof. intros Hd id d Hl _ _. exists d. by rewrite Hd. Qed.
Lemma lasts_insert N s s' id d d' :
  devs s !! id = Some d → devs s' = <[id := d']> (devs s) → same_shape d d' → lasts N s s'.
Proof.
  intros Hd Hdevs Hsh i e He _ _. rewrite Hdevs. destruct (decide (i = id)) as [->|Hne].
  - exists d'. rewrite lookup_insert_eq. assert (e = d) as -> by congruence. done.
  - exists e. rewrite lookup_insert_ne; [done|congruence].
Qed.
Lemma lasts_mono N N' s s' : N ⊆ N' → lasts N s s' → lasts N' s s'.
Proof. intros HN Hs id d Hd Hx Hn. apply (Hs id d Hd Hx). set_solver. Qed.
#[export] Instance lasts_preorder N : PreOrder (lasts N).
Proof. split; [intros s; by apply lasts_devs|intros s1 s2 s3; apply lasts_trans]. Qed.

(** ** Accounts

    What a program did to the devices, summed up over its calls: a relation that
    composes, with a count that grows by two with every request the kernel is asked to
    make a device for.  All calls but [LinkAdd] are [mild], and the addresses that are given
    are [addressable]: what the kernel gives by itself is.  Whether devices may be deleted
    and moved is [droppable]. *)
Record account := {
  sums :> nat → NetState → NetState → Prop;
  addressable : string → Prop;
  droppable : Prop;
  account_generated a : generated a = true → addressable a;
  account_mild k s s' : mild s s' → addresses_from addressable s s' →
    droppable ∨ lasts [] s s' → sums k s s';
  account_trans j k s1 s2 s3 : sums j s1 s2 → sums k s2 s3 → sums (j + k)%nat s1 s3 }.

(** Most accounts let devices be deleted and moved. *)
Class Drops (R : account) : Prop := drops : droppable R.

(** The account allows the request, whatever master the device gets. *)
Definition allowed (R : account) (req : Link) : Prop :=
  ∀ m k s id d s', wf s' → (legs_apart s → legs_apart s') →
    added_as (set_MasterIndex m req) s id d s' → R (2 + k)%nat s s'.

(** Which runs count: those that end without error, or all of them - then the kernel is
    one whose calls fail as the file Faults says. *)
Definition ends {A} (b : bool) (P : Prop) (r : res A) : Prop :=
  match r with Ok _ => P | _ => if b then P else True end.

Lemma ends_in {A} b (P : Prop) (r : res A) : P → ends b P r.
Proof. intros HP. by destruct r, b. Qed.
Lemma ends_if {A} b (P : Prop) (r : res A) : (∀ a, r ≠ Ok a) → (b = true → P) → ends b P r.
Proof. intros Hr HP. destruct r, b; cbn; auto. by destruct (Hr a). Qed.
Lemma ends_mono {A B} b (P Q : Prop) (r : res A) (x : res B) :
  (P → Q) → (∀ y, x = Ok y → ∃ z, r = Ok z) → ends b P r → ends b Q x.
Proof.
  intros HPQ Hx. destruct x as [y|e|]; [destruct (Hx y eq_refl) as [z ->]; exact HPQ|destruct r, b; cbn; auto..].
Qed.

Section account.
Context {W : Type} `{NetlinkLaws W, !Untroubled W} {b : bool} (R : account).

Lemma account_still k s s' : devs s' = devs s → R k s s'.
Proof. intros Hd. apply account_mild; [by apply mild_devs|by apply addresses_devs|right; by apply lasts_devs]. Qed.

(** What a call does that makes no device. *)
Definition touches (s s' : NetState) : Prop :=
  mild s s' ∧ addresses_from (addressable R) s s' ∧ (droppable R ∨ lasts [] s s').
Lemma touches_devs s s' : devs s' = devs s → touches s s'.
Proof. intros Hd. split_and!; [by apply mild_devs|by apply addresses_devs|right; by apply lasts_devs]. Qed.
Lemma touches_insert s s' id d d' :
  devs s !! id = Some d → devs s' = <[id := d']> (devs s) → same_shape d d' →
  (∀ a, a ∈ dev_addrs d' → a ∈ dev_addrs d ∨ addressable R a) → touches s s'.
Proof.
  intros Hd Hdevs Hsh Ha. pose proof Hsh as (_ & Hn & Hi & Hk & Hp). split_and!.
  - by apply (mild_insert s s' id d d').
  - by apply (addresses_insert _ s s' id d d').
  - right. by apply (lasts_insert _ s s' id d d').
Qed.

(** In the runs that count, [m] does what [R k] allows. *)
Definition obeys {T} (k : nat) (m : go W T) : Prop :=
  (b = true → FailStop W) → ∀ s, wp m s (λ r s', ends b (R k s s') r).
Definition reads {T} (m : go W T) : Prop := preserves (λ w w', devs (view w') = devs (view w)) m.

#[local] Instance same_devs_preorder : PreOrder (λ w w' : W, devs (view w') = devs (view w)).
Proof. split; [done|]. intros w1 w2 w3. congruence. Qed.

Lemma account_le j k s s' : (j ≤ k)%nat → R j s s' → R k s s'.
Proof.
  intros Hle Hj. replace k with (j + (k - j))%nat by lia.
  eapply account_trans; [exact Hj|]. by apply account_still.
Qed.
Lemma account_devs k s s1 s2 : devs s2 = devs s1 → R k s s1 → R k s s2.
Proof.
  intros Hd Hk. replace k with (k + 0)%nat by lia.
  eapply account_trans; [exact Hk|]. by apply account_still.
Qed.

Lemma reads_law {T} (m : go W T) Q :
  sat m Q → (∀ s r s', Q s r s' → devs s' = devs s) → reads m.
Proof. intros Hm HQ w r w' Hr. exact (HQ _ _ _ (Hm _ _ _ Hr)). Qed.
Lemma reads_bind {T U} (m : go W T) (f : T → go W U) :
  reads m → (∀ a, reads (f a)) → reads (m ≫= f).
Proof. apply preserves_bind, _. Qed.
Lemma reads_on_err {T} g (m : go W T) : reads m → reads (on_errM g m).
Proof. apply preserves_on_err. Qed.
Lemma reads_deferring {T U} (d : go W U) (m : go W T) :
  reads d → reads m → reads (deferring (ignored d) m).
Proof.
  intros Hd Hm w r w'. unfold deferring, ignored. destruct (m w) as [x w1] eqn:E1.
  destruct (d w1) as [y w2] eqn:E2. intros [= _ <-]. cbn.
  rewrite (Hd _ _ _ E2). exact (Hm _ _ _ E1).
Qed.
Lemma reads_ret {T} (a : T) : reads (mret a).
Proof. apply preserves_ret, _. Qed.
Lemma reads_lift {T} (x : res T) : reads (lift x).
Proof. apply preserves_lift, _. Qed.
Lemma reads_attempt {T} (m : go W T) : reads m → reads (attempt m).
Proof. apply preserves_attempt. Qed.
Lemma reads_err_with_name {T} l f (m : go W T) : reads m → reads (err_with_name l f m).
Proof.
  intros Hm. unfold err_with_name. apply reads_bind; [by apply reads_attempt|].
  intros [a|e]; [apply reads_ret|]. apply reads_bind; [apply reads_lift|]. intros. apply preserves_fail, _.
Qed.
Lemma reads_Get : reads netns_Get.
Proof. eapply reads_law; [apply Get_law|]. intros s r s' [_ Hs]. destruct r; [destruct Hs as [_ ->]|subst..]; done. Qed.
Lemma reads_GetFromName n : reads (netns_GetFromName n).
Proof.
  eapply reads_law; [apply GetFromName_law|]. intros s r s' [_ Hs].
  destruct r; [destruct Hs as (? & _ & _ & ->)|subst..]; done.
Qed.
Lemma reads_Set h : reads (netns_Set h).
Proof.
  eapply reads_law; [apply Set_law|]. intros s r s'. by intros [(? & _ & ->)|(? & _ & _ & ->)].
Qed.
Lemma reads_Close h : reads (netns_Close h).
Proof. eapply reads_law; [apply Close_law|]. by intros s r s' [_ ->]. Qed.
Lemma reads_Lock : reads LockOSThread.
Proof. eapply reads_law; [apply Lock_law|]. by intros s r s' [_ ->]. Qed.
Lemma reads_Unlock : reads UnlockOSThread.
Proof. eapply reads_law; [apply Unlock_law|]. by intros s r s' [_ ->]. Qed.
Lemma reads_LinkByName n : reads (LinkByName n).
Proof. eapply reads_law; [apply LinkByName_law|]. by intros s r s' [-> _]. Qed.
Lemma reads_LinkByIndex i : reads (LinkByIndex i).
Proof. eapply reads_law; [apply LinkByIndex_law|]. by intros s r s' [-> _]. Qed.
Lemma reads_LinkList : reads LinkList.
Proof. eapply reads_law; [apply LinkList_law|]. by intros s r s' [-> _]. Qed.
Lemma reads_VethPeerIndex l : reads (VethPeerIndex l).
Proof. eapply reads_law; [apply VethPeerIndex_law|]. by intros s r s' [-> _]. Qed.
Lemma reads_AddrList l f : reads (AddrList l f).
Proof.
  destruct l; [|by eapply reads_law; [apply nil_link_law|]; intros s r s' ->].
  eapply reads_law; [apply AddrList_law|]. by intros s r s' [-> _].
Qed.

(** *** Structural rules *)
Lemma obeys_bind {T U} j k (m : go W T) (f : T → go W U) :
  obeys j m → (∀ a, obeys k (f a)) → obeys (j + k) (m ≫= f).
Proof.
  intros Hm Hf HF s. apply wp_bind. eapply wp_mono; [exact (Hm HF s)|]. intros [a|e|] s1 Hs1; cycle 1.
  1-2: eapply (ends_mono b (R j s s1)); [apply account_le; lia|done|exact Hs1].
  eapply wp_mono; [exact (Hf a HF s1)|]. intros r s2. apply ends_mono; [|by eauto].
  intros Hs2. exact (account_trans _ _ _ _ _ _ Hs1 Hs2).
Qed.
(** The first part makes no device. *)
Lemma obeys_bind0 {T U} k (m : go W T) (f : T → go W U) :
  obeys 0 m → (∀ a, obeys k (f a)) → obeys k (m ≫= f).
Proof. apply (obeys_bind 0 k). Qed.
Lemma obeys_mild {T} k (m : go W T) :
  (∀ s, wpo m s (λ _ s', touches s s')) → (FailStop W → stops m) →
  obeys k m.
Proof.
  intros Hm Hstop HF s w r w' Hw Hr. specialize (Hm s w r w' Hw Hr). destruct r as [a|e|]; cbn in Hm |- *.
  { apply account_mild; apply Hm. }
  all: destruct b; [|done]; apply account_still; rewrite -Hw; by destruct (Hstop (HF eq_refl) w _ w' Hr) as [[??]|].
Qed.
Lemma obeys_reads {T} k (m : go W T) : reads m → obeys k m.
Proof. intros Hm _ s w r w' <- Hr. apply ends_in, account_still, (Hm _ _ _ Hr). Qed.
Lemma obeys_ret {T} k (a : T) : obeys k (mret a).
Proof. intros _ s. apply wp_ret. by apply ends_in, account_still. Qed.
Lemma obeys_fail {T} k e : obeys k (@fail W T e).
Proof. intros _ s. apply wp_fail. by apply ends_in, account_still. Qed.
Lemma obeys_lift {T} k (x : res T) : obeys k (lift x).
Proof. intros _ s. apply wp_lift. by apply ends_in, account_still. Qed.
Lemma obeys_on_err {T} k g (m : go W T) : obeys k m → obeys k (on_errM g m).
Proof.
  intros Hm HF s. apply wp_on_err. eapply wp_mono; [exact (Hm HF s)|]. intros r s'. apply ends_mono; [done|].
  destruct r; cbn; by eauto.
Qed.
Lemma obeys_forM {T} (f : T → go W unit) l : (∀ x, obeys 0 (f x)) → obeys 0 (forM_ f l).
Proof.
  intros Hf. induction l as [|x l IH]; cbn [forM_]; [apply obeys_ret|].
  apply obeys_bind0; auto.
Qed.
Lemma obeys_forM_in {T} (f : T → go W unit) k l :
  (∀ x, x ∈ l → obeys k (f x)) → obeys (length l * k) (forM_ f l).
Proof.
  induction l as [|x l IH]; intros Hf; cbn [forM_ length Nat.mul]; [apply obeys_ret|].
  apply obeys_bind; [apply Hf; by left|]. intros _. apply IH. intros y Hy. apply Hf. by right.
Qed.
Lemma obeys_attempt {T} k (m : go W T) : reads m → obeys k (attempt m).
Proof. intros Hm. apply obeys_reads. by apply preserves_attempt. Qed.
Lemma obeys_attempt_lift {T} k (x : res T) : obeys k (attempt (lift x)).
Proof. apply obeys_attempt, preserves_lift, _. Qed.
Lemma obeys_deferring {T U} k (d : go W U) (m : go W T) :
  reads d → obeys k m → obeys k (deferring (ignored d) m).
Proof.
  intros Hd Hm HF s. apply wp_deferring. eapply wp_mono; [exact (Hm HF s)|]. intros r s1 Hs1.
  eapply (wp_sat _ (λ s _ s', devs s' = devs s)); [exact Hd|]. intros _ s2 Hd2.
  revert Hs1. apply ends_mono; [exact (account_devs _ _ _ _ Hd2)|by eauto].
Qed.
Lemma obeys_err_with_name {T} k l f (m : go W T) : obeys k m → obeys k (err_with_name l f m).
Proof.
  intros Hm HF s. apply wp_err_with_name. eapply wp_mono; [exact (Hm HF s)|]. intros [a|e|] s' Hs'; [done|..].
  all: intros x Hx; revert Hs'; apply ends_mono; [done|]; intros y ->; by destruct (Hx y).
Qed.
Lemma obeys_inNamespace {T} k ns (m : go W T) : obeys k m → obeys k (inNamespace ns m).
Proof.
  intros Hm. unfold inNamespace. apply obeys_bind0; [apply obeys_reads, reads_Lock|intros _].
  apply obeys_deferring; [apply reads_Unlock|].
  apply obeys_bind0; [apply obeys_on_err, obeys_reads, reads_Get|].
  intros h. apply obeys_deferring; [apply reads_Close|].
  apply obeys_bind0; [apply obeys_on_err, obeys_reads, reads_Set|intros _].
  apply obeys_deferring; [apply reads_Set|done].
Qed.
Lemma reads_inNamespace {T} ns (m : go W T) : reads m → reads (inNamespace ns m).
Proof.
  intros Hm. unfold inNamespace. apply reads_bind; [apply reads_Lock|intros _].
  apply reads_deferring; [apply reads_Unlock|]. apply reads_bind; [apply reads_on_err, reads_Get|].
  intros h. apply reads_deferring; [apply reads_Close|].
  apply reads_bind; [apply reads_on_err, reads_Set|intros _].
  apply reads_deferring; [apply reads_Set|done].
Qed.

(** *** The calls that change devices *)
Lemma obeys_update k (m : go W unit) i f :
  sat m (update_spec i f) → (FailStop W → stops m) →
  (∀ d d', f d d' → same_shape d d' ∧ ∀ a, a ∈ dev_addrs d' → a ∈ dev_addrs d ∨ addressable R a) →
  obeys k m.
Proof.
  intros Hm Hstop Hf. apply obeys_mild; [|done]. intros s. eapply wpo_sat; [exact Hm|]. intros [] s' (_ & _ & Hok).
  destruct (Hok eq_refl) as (id & d & d' & (Hd & _) & [Hsh Ha]%Hf & Hdevs).
  exact (touches_insert s s' id d d' Hd Hdevs Hsh Ha).
Qed.

Lemma obeys_nil k (m : go W unit) :
  sat m (λ s r s', silent s s' ∧ r ≠ Ok tt) → (FailStop W → stops m) → obeys k m.
Proof. intros Hm Hstop. apply obeys_mild; [|done]. intros s. eapply wpo_sat; [exact Hm|]. by intros [] s' [_ ?]. Qed.
Ltac stop := solve [intros ?; auto with pierre].

Lemma obeys_LinkSetUp k l : obeys k (LinkSetUp l).
Proof.
  destruct l as [l|]; [|apply obeys_nil; [apply nil_link_law|stop]].
  apply (obeys_update _ _ _ _ (LinkSetUp_law l)); [stop|]. intros d d' (ex & Hx & ->).
  split_and!; try done. cbn. intros a [Ha|Ha]%elem_of_app; [by left|right].
  rewrite list.Forall_forall in Hx. by apply account_generated, Hx.
Qed.
Lemma obeys_LinkSetMaster k l m : obeys k (LinkSetMaster l m).
Proof.
  destruct l as [l|]; [|apply obeys_nil; [apply nil_link_law|stop]].
  apply (obeys_update _ _ _ _ (LinkSetMaster_law l m)); [stop|]. intros d d' ->. split_and!; by auto.
Qed.
Lemma obeys_AddrDel k l a : obeys k (AddrDel l a).
Proof.
  destruct l as [l|]; [|apply obeys_nil; [apply nil_link_law|stop]].
  apply (obeys_update _ _ _ _ (AddrDel_law l a)); [stop|]. intros d d' ->. split_and!; try done.
  intros x [_ Hx]%list_elem_of_filter. by left.
Qed.

Lemma mild_AddrAdd l a s r s' :
  addressable R (IPNet_String (Addr_IPNet a)) → AddrAdd_spec l a s r s' → r ≠ Panic → touches s s'.
Proof.
  intros Ha (_ & _ & Hr) Hp. destruct r as [u|e|]; [| |done].
  - destruct Hr as (id & d & (Hd & _) & Hdevs). apply (touches_insert s s' id d _ Hd Hdevs); [done|].
    cbn. intros x [Hx| ->%list_elem_of_singleton]%elem_of_app; auto.
  - destruct Hr as [Hd _]. by apply touches_devs.
Qed.
Lemma obeys_AddrAdd k l a : addressable R (IPNet_String (Addr_IPNet a)) → obeys k (AddrAdd l a).
Proof.
  intros HA. destruct l as [l|]; [|apply obeys_nil; [apply nil_link_law|stop]].
  apply obeys_mild; [|stop]. intros s. eapply wpo_sat; [apply AddrAdd_law|]. intros u s' Hs.
  exact (mild_AddrAdd _ _ _ _ _ HA Hs ltac:(done)).
Qed.
Lemma obeys_attempt_AddrAdd k l a :
  addressable R (IPNet_String (Addr_IPNet a)) → obeys k (attempt (AddrAdd (Some l) a)).
Proof.
  intros HA _ s. apply wp_attempt. eapply wp_sat; [apply AddrAdd_law|]. intros r s' Hs.
  destruct r as [u|e|]; [..|by destruct Hs as (_ & ? & _)];
    (apply ends_in, account_mild; eapply (mild_AddrAdd _ _ _ _ _ HA Hs); done).
Qed.

Lemma obeys_LinkDel `{!Drops R} k l : obeys k (LinkDel l).
Proof.
  destruct l as [l|].
  2: { apply obeys_nil; [apply nil_link_law|stop]. }
  apply obeys_mild; [|stop]. intros s. eapply wpo_sat; [apply LinkDel_law|]. intros [] s' (_ & _ & Hok).
  destruct (Hok eq_refl) as (id0 & d0 & _ & Hdel). split; [|split; [|by left]].
  - apply mild_indexed. intros id d' Hd'. rewrite Hdel in Hd'. case_bool_decide; [done|]. destruct (devs s !! id) as [d|]; [|done].
    exists d. split; [done|]. destruct (release_same _ _ _ _ Hd') as (? & ? & ? & ?). by split_and!.
  - intros id d d' a Hd Hd'. rewrite Hdel Hd in Hd'. case_bool_decide; [done|].
    rewrite (release_addrs _ _ _ _ Hd'). by left.
Qed.

Lemma obeys_LinkSetNsFd `{!Untroubled W, !Drops R} k l h : obeys k (LinkSetNsFd l h).
Proof.
  destruct l as [l|].
  2: { apply obeys_nil; [apply nil_link_law|stop]. }
  apply obeys_mild; [|stop]. intros s w r w' <- Hr. pose proof (LinkSetNsFd_apart _ _ _ _ _ Hr) as Hapart.
  pose proof (LinkSetNsFd_law _ _ _ _ _ Hr) as (_ & _ & Hok). set (s := view w) in *. set (s' := view w') in *.
  destruct r as [[]|e|]; [cbn|done..].
  destruct (Hok eq_refl) as (n & id & d & _ & (Hd & Hns & Hi) & Hdevs).
  destruct (Z.eqb_spec n (cur_ns s)) as [_|Hne]; [by apply touches_devs|].
  destruct Hdevs as (_ & d' & Hd' & _ & Hn' & Hk' & Hp' & _ & Hsub & Hidx & Hrest). split; [|split; [|by left]]; cycle 1.
  { intros i e e' a He He' Ha. left. destruct (decide (i = id)) as [->|Hid].
    - assert (e = d) as -> by congruence. assert (e' = d') as -> by congruence. by apply Hsub.
    - rewrite Hrest // He in He'. by rewrite -(release_addrs _ _ _ _ He'). }
  split; [exact Hapart|]. intros i e He. destruct (decide (i = id)) as [->|Hid].
  - exists d. assert (e = d') as -> by congruence. by split_and!.
  - rewrite Hrest // in He. destruct (devs s !! i) as [e0|] eqn:He0; [|done]. exists e0.
    destruct (release_same _ _ _ _ He) as (? & ? & ? & _). by split_and!.
Qed.

(** What makes a device. *)
Lemma obeys_LinkAdd `{!Untroubled W} k l : allowed R l → obeys (2 + k) (LinkAdd l).
Proof.
  intros HA HF s w r w' <- Hr. pose proof (LinkAdd_apart _ _ _ _ Hr) as Hu. assert (l = set_MasterIndex (link_master l) l) as Hl by by destruct l as [[] ?].
  destruct r as [l'|e|].
  { pose proof (LinkAdd_law _ _ _ _ Hr) as [_ (id & d & Hadd & _)]%LinkAdd_added. rewrite Hl in Hadd.
    exact (HA _ _ _ _ _ _ (view_wf w') Hu Hadd). }
  all: apply ends_if; [done|]; intros Hb%HF; destruct (LinkAdd_stops _ _ _ _ Hr)
    as [[? ?]|[Hd|(_ & id & d & Hadd)]]; [done|by apply account_still|exact (HA _ _ _ _ _ _ (view_wf w') Hu Hadd)].
Qed.

(** *** The settings of a device *)
Lemma obeys_setNeighSuppression k l : obeys k (setNeighSuppression l).
Proof.
  unfold setNeighSuppression. cbv zeta. apply obeys_bind0; [apply obeys_on_err|intros; apply obeys_ret].
  apply obeys_mild; [|stop]. intros s. eapply wpo_sat; [apply Execute_law|]. intros o s' (_ & _ & Hok).
  destruct (Hok (to_int32 (link_index l)) o eq_refl eq_refl) as (id & d & (Hd & _) & Hdevs).
  apply (touches_insert s s' id d _ Hd Hdevs); [done|]. by left.
Qed.

Lemma reads_File_Close f : reads (File_Close f).
Proof. eapply reads_law; [apply File_Close_law|]. by intros s r s' [_ ->]. Qed.

Lemma obeys_addrGenModeNone k l : obeys k (addrGenModeNone l).
Proof.
  intros HF s. unfold addrGenModeNone. cbv zeta. apply wp_bind, wp_on_err.
  eapply wp_sat; [apply OpenFile_law|]. intros [f|e|] s1 [_ Hs1]; cbn [on_err]; [|subst; by apply ends_in, account_still..].
  destruct Hs1 as [Hf ->]. set (s1 := set_thr _ s). apply wp_deferring, wp_on_err.
  intros w r w' Hw Hr. eapply (wp_sat _ (λ s _ s', devs s' = devs s)); [apply reads_File_Close|]. intros _ s3 Hd3.
  assert (ends b (R k s (view w')) r) as Hends; [|revert Hends; apply ends_mono; [by apply account_devs|destruct r; by eauto]].
  pose proof (File_Write_law _ _ _ _ _ Hr) as (_ & _ & Hok). rewrite Hw in Hok. destruct r as [[]|e|].
  { destruct (Hok (link_name l) eq_refl) as (id & d & (Hd & _) & Hdevs); [cbn; by rewrite lookup_insert_eq|done|].
    apply account_mild; (eapply touches_insert; [exact Hd|exact Hdevs|done|by left]). }
  all: apply ends_if; [done|]; intros Hb%HF; apply account_still;
    destruct (File_Write_stops _ _ _ _ _ Hr) as [[??]|Heq]; [done|by rewrite Heq Hw].
Qed.
End account.
Arguments obeys {W _ _} b R {T} k m.

(** What it says of the runs that end without error, and of all. *)
Lemma obeys_ok {W T} `{NetlinkLaws W, !Untroubled W} R k (m : go W T) s :
  obeys false R k m → wpo m s (λ _ s', R k s s').
Proof. intros Hm. eapply wp_mono; [by apply Hm|]. by intros []. Qed.
Lemma obeys_all {W T} `{NetlinkLaws W, HF : !FailStop W} (R : account) k (m : go W T) s :
  obeys true R k m → wp m s (λ _ s', R k s s').
Proof. intros Hm. eapply wp_mono; [by apply Hm|]. by intros []. Qed.

#[export] Hint Resolve obeys_ret obeys_fail obeys_lift obeys_LinkSetUp obeys_LinkSetMaster
  obeys_AddrDel obeys_AddrAdd obeys_attempt_AddrAdd obeys_LinkDel obeys_LinkSetNsFd
  obeys_setNeighSuppression obeys_addrGenModeNone reads_Get reads_GetFromName reads_Set reads_Close
  reads_LinkByName reads_LinkByIndex reads_LinkList reads_VethPeerIndex reads_AddrList : pierre.

(** Proves [obeys b R k m] by following the program, where all that comes before the
    last part makes no device. *)
Ltac solve_obeys :=
  repeat first
    [ solve [eauto with pierre]
    | lazymatch goal with
      | |- obeys _ _ _ (_ ≫= _) => eapply obeys_bind0; [|intros ?]
      | |- obeys _ _ _ (on_errM _ _) => eapply obeys_on_err
      | |- obeys _ _ _ (err_with_name _ _ _) => eapply obeys_err_with_name
      | |- obeys _ _ _ (attempt (lift _)) => eapply obeys_attempt_lift
      | |- obeys _ _ _ (attempt _) => eapply obeys_attempt
      | |- obeys _ _ _ (forM_ _ _) => eapply obeys_forM; intros ?
      | |- obeys _ _ _ (inNamespace _ _) => eapply obeys_inNamespace
      | |- obeys _ _ _ (deferring (ignored _) _) => eapply obeys_deferring
      | |- obeys _ _ _ (match ?x with _ => _ end) => destruct x
      | |- reads (on_errM _ _) => apply reads_on_err
      | |- reads (inNamespace _ _) => apply reads_inNamespace
      | |- forall _, _ => intros ?
      end
    | solve [eapply obeys_reads; auto with pierre]
    | progress cbv zeta ].

(** ** The setup functions *)

(** The names of the devices of a VNI. *)
Definition vni_names (params : VNIParams.t) : list string :=
  [(vethLegsForVRF (VNIParams.VRF params)).1; (vethLegsForVRF (VNIParams.VRF params)).2;
   VNIParams.VRF params; bridgeName (VNIParams.VNI params); vxLanName (VNIParams.VNI params)].

(** The requests made for it. *)
Inductive vni_request (params : VNIParams.t) : Link → Prop :=
  | request_veth : vni_request params (mkLink
      (mkAttrs 0 (vethLegsForVRF (VNIParams.VRF params)).1 0)
      (Veth (vethLegsForVRF (VNIParams.VRF params)).2))
  | request_vrf t : vni_request params (mkLink (mkAttrs 0 (VNIParams.VRF params) 0) (Vrf t))
  | request_bridge i : vni_request params (mkLink
      (mkAttrs 0 (bridgeName (VNIParams.VNI params)) i) Bridge)
  | request_vxlan i v : vni_request params (mkLink
      (mkAttrs 0 (vxLanName (VNIParams.VNI params)) i)
      (Vxlan (VNIParams.VNI params) (VNIParams.VXLanPort params) false
         (cidr_ip (VNIParams.VTEPIP params)) v)).

Section setup_account.
Context {W : Type} `{NetlinkLaws W, !Untroubled W} {b : bool} (R : account).

(** The address can be given. *)
Definition assignable (address : string) : Prop :=
  ∀ x, ParseAddr (W:=W) address = Ok x → addressable R (IPNet_String (Addr_IPNet x)).

Lemma reads_interfaceHasIP l address : reads (interfaceHasIP (W:=W) l address).
Proof.
  unfold interfaceHasIP. apply reads_bind; [apply reads_err_with_name, reads_lift|]. intros _.
  apply reads_bind; [apply reads_err_with_name, reads_AddrList|]. intros. apply reads_ret.
Qed.
Lemma obeys_assignIP k l address : assignable address → obeys b R k (assignIPToInterface (W:=W) l address).
Proof.
  intros HA. unfold assignIPToInterface. apply obeys_bind0; [apply obeys_reads, reads_interfaceHasIP|]. intros [|]; [solve_obeys|].
  intros HF s. apply wp_bind, wp_err_with_name, wp_lift. destruct (ParseAddr address) as [x|e|] eqn:Hx.
  { apply (obeys_err_with_name R k l _ (AddrAdd l x)); [by apply obeys_AddrAdd, HA|exact HF]. }
  all: intros [y| |] Hy; [by destruct (Hy y)|by apply ends_in, account_still..].
Qed.

Lemma obeys_createVeth name : 
  allowed R (mkLink (mkAttrs 0 (vethLegsForVRF name).1 0) (Veth (vethLegsForVRF name).2)) →
  obeys b R 2 (createVeth (W:=W) name).
Proof. intros HA. unfold createVeth. cbn in *. apply obeys_on_err. by apply (obeys_LinkAdd R 0). Qed.
Lemma obeys_createVRF name :
  (∀ t, allowed R (mkLink (mkAttrs 0 name 0) (Vrf t))) → obeys b R 2 (createVRF (W:=W) name).
Proof. intros HA. unfold createVRF. solve_obeys. by apply (obeys_LinkAdd R 0). Qed.
Lemma obeys_createBridge name i :
  allowed R (mkLink (mkAttrs 0 name i) Bridge) → obeys b R 2 (createBridge (W:=W) name i).
Proof. intros HA. unfold createBridge. apply obeys_on_err. by apply (obeys_LinkAdd R 0). Qed.
Lemma obeys_createVXLan params br :
  (∀ i v, allowed R (mkLink (mkAttrs 0 (vxLanName (VNIParams.VNI params)) i)
     (Vxlan (VNIParams.VNI params) (VNIParams.VXLanPort params) false
        (cidr_ip (VNIParams.VTEPIP params)) v))) → obeys b R 2 (createVXLan (W:=W) params br).
Proof. intros HA. unfold createVXLan. solve_obeys. by apply (obeys_LinkAdd R 0). Qed.

Context `{!Drops R}.

(** [ensure] makes the device at most twice. *)
Lemma obeys_ensure k ok name g g' (create : go W Link) :
  obeys b R k create → obeys b R (k + k) (ensure ok name g g' create).
Proof.
  intros Hc. unfold ensure. cbv zeta. apply obeys_bind0; [solve_obeys|]. intros found.
  apply obeys_bind.
  - destruct found; [solve_obeys|]. case_match; [|solve_obeys].
    replace k with (k + 0)%nat by lia. apply obeys_bind; [by apply obeys_on_err|solve_obeys].
  - intros link. assert (obeys b R k (_ ← on_errM (errorw "failed to delete link %v: %w" []) (LinkDel link);
      l ← on_errM g' create; mret (link, l))) as Hagain.
    { apply obeys_bind0; [solve_obeys|]. intros _. replace k with (k + 0)%nat by lia.
      apply obeys_bind; [by apply obeys_on_err|solve_obeys]. }
    destruct link; [case_match; [solve_obeys|]|]; exact Hagain.
Qed.

Lemma obeys_setupVeth name ns :
  allowed R (mkLink (mkAttrs 0 (vethLegsForVRF name).1 0) (Veth (vethLegsForVRF name).2)) →
  obeys b R 4 (setupVeth (W:=W) name ns).
Proof.
  intros HA. unfold setupVeth. cbn [vethLegsForVRF]. apply (obeys_bind _ 4 0).
  - by apply (obeys_ensure 2), obeys_createVeth.
  - solve_obeys.
Qed.
Lemma obeys_setupVRF name :
  (∀ t, allowed R (mkLink (mkAttrs 0 name 0) (Vrf t))) → obeys b R 4 (setupVRF (W:=W) name).
Proof.
  intros HA. unfold setupVRF. apply (obeys_bind _ 4 0).
  - by apply (obeys_ensure 2), obeys_createVRF.
  - solve_obeys.
Qed.
Lemma obeys_setupBridge params vrf :
  (∀ i, allowed R (mkLink (mkAttrs 0 (bridgeName (VNIParams.VNI params)) i) Bridge)) →
  obeys b R 4 (setupBridge (W:=W) params vrf).
Proof.
  intros HA. unfold setupBridge. cbv zeta. apply (obeys_bind _ 4 0).
  - by apply (obeys_ensure 2), obeys_createBridge.
  - solve_obeys.
Qed.
Lemma obeys_setupVXLan params br :
  (∀ i v, allowed R (mkLink (mkAttrs 0 (vxLanName (VNIParams.VNI params)) i)
     (Vxlan (VNIParams.VNI params) (VNIParams.VXLanPort params) false
        (cidr_ip (VNIParams.VTEPIP params)) v))) → obeys b R 6 (setupVXLan (W:=W) params br).
Proof.
  intros HA. unfold setupVXLan. cbv zeta. apply obeys_bind0; [solve_obeys|]. intros lo.
  apply (obeys_bind _ 4 2); [by apply (obeys_ensure 2), obeys_createVXLan|]. intros [link vx].
  apply obeys_bind0; [solve_obeys|]. intros c. apply (obeys_bind _ 2 0); [|solve_obeys].
  destruct c; [solve_obeys|]. apply obeys_bind0; [solve_obeys|]. intros _.
  by apply obeys_on_err, obeys_createVXLan.
Qed.
End setup_account.

(** ** Two accounts: the names, and the number *)

(** A new device has the name asked for, and so has its peer. *)
Definition request_names (l : Link) : list string :=
  link_name l :: match Kind l with Veth peer => [peer] | _ => [] end.

Definition tamed_account (N : list string) : account := {|
  sums _ := tamed N;
  addressable _ := True;
  droppable := True;
  account_generated _ _ := I;
  account_mild _ s s' Hm _ _ := mild_tamed N s s' Hm;
  account_trans _ _ := tamed_trans N |}.
#[export] Instance tamed_drops N : Drops (tamed_account N) := I.

Lemma tamed_allowed N l : request_names l ⊆ N → allowed (tamed_account N) l.
Proof.
  intros HN m k s id d s' _ Hu (_ & (_ & Hn & _) & _ & _ & Hk). cbn [sums tamed_account]. split; [exact Hu|].
  change (Kind (set_MasterIndex m l)) with (Kind l) in Hk. change (link_name (set_MasterIndex m l)) with (link_name l) in Hn.
  intros i e He. destruct (decide (i = id)) as [->|Hid].
  + left. destruct (Kind l) eqn:Ekind; try (destruct Hk as [Hp Hdevs];
      rewrite Hdevs lookup_insert_eq in He; injection He as <-; split; [rewrite Hn; apply HN; by left|congruence]).
    destruct Hk as (idp & dp & _ & Hne & _ & Hnp & _ & Hp & _ & _ & Hdevs).
    rewrite Hdevs lookup_insert_eq in He. injection He as <-.
    split; [rewrite Hn; apply HN; by left|]. intros idq dq Hq. assert (idq = idp) as -> by congruence.
    rewrite Hdevs lookup_insert_ne; [|congruence]. rewrite lookup_insert_eq. intros [= <-].
    rewrite Hnp. apply HN. unfold request_names. rewrite Ekind. by right; left.
  + destruct (Kind l) eqn:Ekind; try (destruct Hk as [Hp Hdevs];
      rewrite Hdevs lookup_insert_ne in He; [right; by exists e|congruence]).
    destruct Hk as (idp & dp & _ & Hne & _ & Hnp & _ & Hp & Hpp & _ & Hdevs).
    rewrite Hdevs lookup_insert_ne in He; [|congruence]. destruct (decide (i = idp)) as [->|Hid'].
    * rewrite lookup_insert_eq in He. injection He as <-. left.
      split; [rewrite Hnp; apply HN; unfold request_names; rewrite Ekind; by right; left|].
      intros idq dq Hq. assert (idq = id) as -> by congruence.
      rewrite Hdevs lookup_insert_eq. intros [= <-]. rewrite Hn. apply HN. by left.
    * rewrite lookup_insert_ne in He; [|congruence]. right. by exists e.
Qed.

(** [tame N m]: all that [m] makes has a name of [N]. *)
Notation tame N m := (∀ s, wpo m s (λ _ s', tamed N s s')) (only parsing).

Lemma tame_any {W A} `{NetlinkLaws W, !Untroubled W} N k (m : go W A) : obeys false (tamed_account N) k m → tame N m.
Proof. intros Hm s. exact (obeys_ok (tamed_account N) k m s Hm). Qed.

Lemma vni_request_names params req : vni_request params req → request_names req ⊆ vni_names params.
Proof. intros [|t|i|i v]; unfold request_names, vni_names; cbn; set_solver. Qed.

(** The VXLANs that use a VNI have the name the code gives it. *)
Definition vni_named (vni : Z) (s : NetState) : Prop :=
  ∀ id d p l a v, devs s !! id = Some d → Kind (dev_link d) = Vxlan vni p l a v →
    dev_name d = vxLanName vni.
Definition well_named (req : Link) : Prop :=
  match Kind req with Vxlan vni _ _ _ _ => link_name req = vxLanName vni | _ => True end.

(** At most [k] devices more, and no VXLAN under another name than its VNI's. *)
Definition grown (k : nat) (s s' : NetState) : Prop :=
  (size (devs s') ≤ size (devs s) + k)%nat ∧ ∀ vni, vni_named vni s → vni_named vni s'.

Lemma mild_grown k s s' : mild s s' → grown k s s'.
Proof.
  intros Hm. split.
  - rewrite -!size_dom. etransitivity; [|apply Nat.le_add_r]. apply subseteq_size. intros id.
    rewrite !elem_of_dom. intros [d' Hd']. destruct (mild_from _ _ Hm id d' Hd') as (d & -> & _). by eexists.
  - intros vni Hv id d' p l a v Hd' Hk. destruct (mild_from _ _ Hm id d' Hd') as (d & Hd & -> & _ & Hk').
    apply (Hv id d p l a v Hd). congruence.
Qed.

Lemma grown_trans j k s1 s2 s3 : grown j s1 s2 → grown k s2 s3 → grown (j + k) s1 s3.
Proof. intros [H1 Hv1] [H2 Hv2]. split; [lia|auto]. Qed.

Lemma size_insert_le (m : gmap positive Dev) id d : (size (<[id := d]> m) ≤ S (size m))%nat.
Proof. rewrite map_size_insert. case_match; cbn; lia. Qed.

Definition grown_account : account := {|
  sums := grown; addressable _ := True; droppable := True; account_generated _ _ := I;
  account_mild k s s' Hm _ _ := mild_grown k s s' Hm; account_trans := grown_trans |}.
#[export] Instance grown_drops : Drops grown_account := I.

Lemma grown_allowed l : well_named l → allowed grown_account l.
Proof.
  intros Hl m k s id d s' _ _ (Hnone & (_ & Hn & _ & Hkind) & _ & _ & Hk). cbn [sums grown_account].
  change (Kind (set_MasterIndex m l)) with (Kind l) in Hk, Hkind. change (link_name (set_MasterIndex m l)) with (link_name l) in Hn.
  assert (∀ vni p l' a v, Kind (dev_link d) = Vxlan vni p l' a v → dev_name d = vxLanName vni) as Hd.
  { intros vni p l0 a v Ek. rewrite Ek in Hkind. unfold well_named in Hl.
    destruct (Kind l); cbn in Hkind; try done. destruct Hkind as [-> _]. congruence. }
  destruct (Kind l) eqn:Ekind.
  3: { destruct Hk as (idp & dp & Hnp & Hne & _ & _ & Hvp & _ & _ & _ & Hdevs). split.
    - pose proof (size_insert_le (<[idp := dp]> (devs s)) id d).
      pose proof (size_insert_le (devs s) idp dp). rewrite Hdevs. lia.
    - intros vni Hv i e p l0 a v. rewrite Hdevs !lookup_insert_Some.
      intros [[_ <-]|[_ [[_ <-]|[_ He]]]] Ek; [exact (Hd _ _ _ _ _ Ek)| |exact (Hv _ _ _ _ _ _ He Ek)].
      unfold is_veth in Hvp. by rewrite Ek in Hvp. }
  all: destruct Hk as [_ Hdevs]; split;
    [pose proof (size_insert_le (devs s) id d); rewrite Hdevs; lia|].
  all: intros vni Hv i e p' l0 a v; rewrite Hdevs lookup_insert_Some;
    intros [[_ <-]|[_ He]] Ek; [exact (Hd _ _ _ _ _ Ek)|exact (Hv _ _ _ _ _ _ He Ek)].
Qed.

Lemma vni_request_well_named params req : vni_request params req → well_named req.
Proof. by intros []. Qed.
