(* ===== verification/LinkProgress.v ===== *)
(** * The functions on single devices succeed

    With a kernel that has no reason to refuse (Progress.v), the functions of
    properties.go, vrf.go, bridge.go and vxlan.go end without error where the names they
    use are free or carried by devices of the right type.  Also how many devices they
    make and how these are named. *)

From S2P Require Import Prelude GoStrings GoNet HostParams Netlink Troubles NetLogic HostLinks LinkSpecs.
From S2P Require Import Progress Faults Origins.
Local Open Scope Z_scope.

(** Every device of this name, in any namespace, passes the check. *)
Definition kinded (ok : Link → bool) (n : string) (s : NetState) : Prop :=
  ∀ id d, devs s !! id = Some d → dev_name d = n → ok (dev_link d) = true.
Definition kinded_in (ns : Z) (ok : Link → bool) (n : string) (s : NetState) : Prop :=
  ∀ id d, dev_named s ns n id d → ok (dev_link d) = true.
Lemma kinded_here ok n s ns : kinded ok n s → kinded_in ns ok n s.
Proof. intros Hk id d (Hd & _ & Hn). exact (Hk id d Hd Hn). Qed.
#[export] Hint Resolve kinded_here : pierre.

Section link_progress.
Context {W : Type} `{NetlinkLaws W, !Untroubled W} {cap : nat} `{!NetlinkProgress W cap}.

(** ** The calls *)
Lemma wp_LinkByName n s Q :
  (∀ id d, dev_named s (cur_ns s) n id d → Q (Ok (dev_link d)) s) →
  (∀ e, is_link_not_found e = true → absent s (cur_ns s) n → Q (Err e) s) →
  wp (LinkByName n) s Q.
Proof.
  intros HOk HErr w r w' <- Hr. pose proof (LinkByName_law _ _ _ _ Hr) as [-> Hl].
  pose proof (LinkByName_can _ _ _ _ Hr) as Hc. destruct r as [l|e|]; [| |done].
  - destruct Hl as (id & d & Hd & Hns & Hn & ->). by apply (HOk id d).
  - specialize (Hc e eq_refl). apply (HErr e Hc). intros id d (Hd & Hns & Hn). exact (Hl Hc id d Hd Hns Hn).
Qed.
Lemma wp_LinkByIndex i s Q :
  (∀ id d, dev_at s (cur_ns s) i id d → Q (Ok (dev_link d)) s) →
  (∀ e, is_link_not_found e = true → (∀ id d, ¬ dev_at s (cur_ns s) i id d) → Q (Err e) s) →
  wp (LinkByIndex i) s Q.
Proof.
  intros HOk HErr w r w' <- Hr. pose proof (LinkByIndex_law _ _ _ _ Hr) as [-> Hl].
  pose proof (LinkByIndex_can _ _ _ _ Hr) as Hc. destruct r as [l|e|]; [| |done].
  - destruct Hl as (id & d & Hd & Hns & Hn & ->). by apply (HOk id d).
  - specialize (Hc e eq_refl). apply (HErr e Hc). intros id d (Hd & Hns & Hn). exact (Hl Hc id d Hd Hns Hn).
Qed.
Lemma fine_LinkByName n s id d : dev_named s (cur_ns s) n id d → fine (LinkByName n) s.
Proof. intros Hd. apply wp_LinkByName; [intros; by eexists|]. intros e _ Hno. by destruct (Hno id d). Qed.
Lemma fine_LinkByIndex i s id d : dev_at s (cur_ns s) i id d → fine (LinkByIndex i) s.
Proof. intros Hd. apply wp_LinkByIndex; [intros; by eexists|]. intros e _ Hno. by destruct (Hno id d). Qed.

Lemma fine_LinkSetUp l s id d :
  devs s !! id = Some d → dev_ns d = cur_ns s → dev_index d = link_index l → fine (LinkSetUp (Some l)) s.
Proof. intros. eapply fine_can; [apply LinkSetUp_can|]. by exists id, d. Qed.

Lemma fine_interfaceHasIP l address s id d :
  readable address = true → devs s !! id = Some d → dev_ns d = cur_ns s → dev_index d = link_index l →
  fine (interfaceHasIP (Some l) address) s.
Proof.
  intros Ha Hd Hns Hi. unfold interfaceHasIP. fine_step; [do 2 fine_step; by apply ParseAddr_can|].
  apply wpo_err_with_name. wpo_step. fine_step; [fine_step|].
  - eapply fine_can; [apply AddrList_can|]. by exists id, d.
  - eapply wpo_mono; [apply wpo_true|]. intros. fine_step.
Qed.

Lemma fine_assignIP l address s id d :
  readable address = true → devs s !! id = Some d → dev_ns d = cur_ns s → dev_index d = link_index l →
  fine (assignIPToInterface (Some l) address) s.
Proof.
  intros Ha Hd Hns Hi. unfold assignIPToInterface. apply fine_wf. intros Hwf.
  fine_step; [by apply (fine_interfaceHasIP _ _ _ id d)|].
  apply wpo_interfaceHasIP; [by apply readable_canonical|]. intros id' d' Hat. rewrite -Hi in Hat.
  destruct (dev_at_unique s id d id' d' Hwf Hd Hns Hat) as [-> ->].
  case_bool_decide as Hin; [fine_step|]. fine_step; [do 2 fine_step; by apply ParseAddr_can|].
  apply wpo_err_with_name. wpo_step. fine_step. rename a into x.
  assert (IPNet_String (Addr_IPNet x) = address) as Hx by by apply (readable_canonical (W:=W) address Ha).
  intros w r w' <- Hr. destruct (AddrAdd_can _ _ _ _ _ Hr id d) as [Hok|[Hin' _]]; [by split_and!|by rewrite Hx|done|].
  by rewrite Hx in Hin'.
Qed.

Lemma fine_addrGenModeNone l s id d :
  devs s !! id = Some d → dev_ns d = cur_ns s → dev_name d = link_name l → fine (addrGenModeNone l) s.
Proof.
  intros Hd Hns Hn. unfold addrGenModeNone. fine_step.
  - fine_step. eapply fine_can; [apply (OpenFile_can (link_name l))|]. by exists id, d.
  - wpo_step. eapply wpo_sat; [apply OpenFile_law|]. intros f s' (_ & _ & ->). do 2 fine_step.
    eapply fine_can; [apply File_Write_can|]. exists (link_name l), id, d. cbn.
    by rewrite lookup_insert_eq.
Qed.

Lemma fine_setNeighSuppression l s id d idb db :
  devs s !! id = Some d → dev_ns d = cur_ns s → dev_index d = link_index l →
  dev_at s (cur_ns s) (dev_master d) idb db → is_bridge (dev_link db) = true →
  fine (setNeighSuppression l) s.
Proof.
  intros Hd Hns Hi Hb Hbk. apply fine_wf. intros Hwf. unfold setNeighSuppression. fine_step.
  - fine_step. eapply fine_can; [apply (Execute_can (to_int32 (link_index l)))|].
    exists id, d, idb, db. split_and!; try apply Hb; try done. unfold dev_at. rewrite Hi.
    pose proof (wf_index_range _ Hwf _ _ Hd) as Hr. rewrite Hi in Hr.
    split_and!; [done..|]. unfold to_int32. rewrite Z.mod_small; lia.
  - eapply wpo_mono; [apply wpo_true|]. intros. fine_step.
Qed.

Lemma fine_LinkAdd l s : addable l s → (size (devs s) + 2 ≤ cap)%nat → fine (LinkAdd l) s.
Proof. intros. by eapply fine_can; [apply LinkAdd_can|]. Qed.

(** [ensure] where the name is free or carried by a device of the right type. *)
Lemma fine_ensure ok name g g' create s :
  kinded_in (cur_ns s) ok name s →
  (absent s (cur_ns s) name → fine create s ∧ wpo create s (λ l _, ok l = true)) →
  fine (ensure ok name g g' (create : go W Link)) s.
Proof.
  intros Hk Hcreate. unfold ensure. apply wp_bind, wp_attempt. apply wp_LinkByName.
  - intros id d Hd. cbn. apply fine_bind; [fine_step|]. wpo_step.
    rewrite (Hk id d Hd). fine_step.
  - intros e He Hno. destruct (Hcreate Hno) as [Hf Hok]. cbn. rewrite He.
    apply fine_bind.
    + fine_step; [by fine_step|]. eapply wpo_mono; [apply wpo_true|]. intros. fine_step.
    + do 2 wpo_step. eapply wpo_mono; [exact Hok|]. intros l s' Hl. wpo_step. rewrite Hl. fine_step.
Qed.

(** The same with what comes after it. *)
Lemma fine_ensure_bind {B} ok name g g' create s (f : option Link * Link → go W B) :
  kinded_in (cur_ns s) ok name s →
  (∀ id d, dev_named s (cur_ns s) name id d → ok (dev_link d) = true →
     fine (f (Some (dev_link d), dev_link d)) s) →
  (absent s (cur_ns s) name → fine create s
     ∧ wpo create s (λ l s', ok l = true ∧ fine (f (Some l, l)) s')) →
  fine (ensure ok name g g' (create : go W Link) ≫= f) s.
Proof.
  intros Hk Hthere Hcreate. fine_step.
  { apply fine_ensure; [done|]. intros [Hf Hok]%Hcreate. split; [done|].
    eapply wpo_mono; [exact Hok|]. by intros l s' [? _]. }
  unfold ensure. apply wp_bind, wp_attempt. apply wp_LinkByName.
  - intros id d Hd. pose proof (Hk id d Hd) as Hok. cbn. do 2 wpo_step.
    rewrite Hok. wpo_step. by apply (Hthere id d).
  - intros e He [_ Hmade]%Hcreate. cbn. rewrite He. do 3 wpo_step.
    eapply wpo_mono; [exact Hmade|]. intros l s' [Hok Hf]. wpo_step. rewrite Hok. by wpo_step.
Qed.

(** ** vrf.go *)
Lemma findFree_more fuel k taken r x :
  findFree_loop fuel taken r = Some x → findFree_loop (fuel + k) taken r = Some x.
Proof.
  revert r. induction fuel as [|fuel IH]; intros r; [done|]. cbn.
  destruct (r <? MaxUint32); [|done]. case_bool_decide; [apply IH|done].
Qed.

(** The search ends whatever the list repeats: what counts are the tables in use. *)
Lemma findFree_Ok links (tables : gset Z) :
  takenTables links ⊆ tables → Z.of_nat (size tables) < MaxUint32 - 2 →
  ends_ok (findFreeRoutingTableID links).
Proof.
  intros Hsub Hsize. apply subseteq_size in Hsub.
  destruct (findFree_loop_spec (S (size (takenTables links))) (takenTables links) 1)
    as [(i & Hi & _)|[_ Hall]]; [lia|unfold MaxUint32 in *; lia| |].
  - exists i. unfold findFreeRoutingTableID. pose proof (size_takenTables links).
    replace (S (length links)) with (S (size (takenTables links)) + (length links - size (takenTables links)))%nat by lia.
    by rewrite (findFree_more _ _ _ _ _ Hi).
  - apply pigeon_range in Hall. lia.
Qed.

Definition tables (s : NetState) : gset Z :=
  list_to_set (omap (λ x : positive * Dev, match Kind (dev_link x.2) with Vrf t => Some t | _ => None end)
    (map_to_list (devs s))).

Lemma size_tables s : (size (tables s) ≤ size (devs s))%nat.
Proof.
  unfold tables. etransitivity; [apply size_list_le|]. rewrite -length_map_to_list.
  unfold omap. induction (map_to_list (devs s)) as [|[id d] l IH]; [done|].
  cbn [list_omap length snd]. destruct (Kind (dev_link d)); cbn [length]; lia.
Qed.

Lemma fine_createVRF name s :
  valid_ifname name = true → absent s (cur_ns s) name → (size (devs s) + 2 ≤ cap)%nat →
  fine (createVRF name) s.
Proof.
  intros Hv Hno Hroom. unfold createVRF. fine_step; [fine_step; by eapply fine_can; [apply LinkList_can|]|].
  wpo_step. eapply wpo_sat; [apply LinkList_law|]. intros ls s' (-> & _ & Hls). specialize (Hls ls eq_refl).
  fine_step.
  - fine_step. apply (findFree_Ok _ (tables s)).
    + intros t. unfold takenTables, tables. rewrite !elem_of_list_to_set !list_elem_of_omap.
      intros (l & Hl & Hk). apply Hls in Hl as (id & d & Hd & _ & ->). exists (id, d).
      split; [by apply elem_of_map_to_list|done].
    + pose proof (size_tables s). pose proof (cap_bound (W:=W)). unfold MaxUint32. lia.
  - wpo_step. fine_step. apply fine_LinkAdd; [|done]. rename a into t.
    match goal with Hf : findFreeRoutingTableID _ = _ |- _ => rename Hf into Hfree end.
    unfold findFreeRoutingTableID in Hfree. destruct (findFree_loop _ _ _) as [x|] eqn:E; [|done].
    cbn in Hfree. subst x. apply findFree_loop_Ok in E as [Ht Hni].
    split; [done|done|by left|]. cbn. unfold MaxUint32 in Ht. split; [lia|]. intros id d Hd Hns Hk.
    apply Hni. unfold takenTables. apply elem_of_list_to_set, list_elem_of_omap. exists (dev_link d).
    rewrite Hk. split; [|done]. apply Hls. by exists id, d.
Qed.

(** What was made passes the check. *)
Lemma created_ok (Rq : NetState → Link → Prop) ok create s :
  type_check ok → (∀ s req, Rq s req → ok req = true) →
  wpo (create : go W Link) s (λ l s', silent s s' ∧ ∃ req, Rq s req ∧ added req s l s') →
  wpo create s (λ l _, ok l = true).
Proof.
  intros Hok HRq Hc. eapply wpo_mono; [exact Hc|]. intros l s' (_ & req & HR & id & d & _ & ->).
  rewrite -(HRq _ _ HR). apply Hok, same_kind_refl.
Qed.

Lemma fine_setupVRF name s :
  valid_ifname name = true → kinded is_vrf name s → (size (devs s) + 2 ≤ cap)%nat →
  fine (setupVRF name) s.
Proof.
  intros Hv Hk Hroom. unfold setupVRF. fine_step.
  - apply fine_ensure; [auto with pierre|]. intros Hno. split; [by apply fine_createVRF|].
    apply (created_ok (vrf_request name)); [auto with pierre|by intros ? ? (t & -> & _)|apply wpo_createVRF].
  - apply (wpo_ensure _ _ _ _ _ (vrf_request name)); [auto with pierre| | |].
    + intros s1 _. apply wpo_createVRF.
    + by intros s1 req (t & -> & _).
    + intros link vrf id d s1 [Ht _] Hd Hns Hn _ Hi _ _ _. fine_step.
      * fine_step. apply (fine_LinkSetUp _ _ id d); [done|by rewrite Ht|done].
      * eapply wpo_mono; [apply wpo_true|]. intros. fine_step.
Qed.

(** ** bridge.go *)
Lemma fine_setupBridge params vrf s idv dv :
  let name := bridgeName (VNIParams.VNI params) in
  valid_ifname name = true → kinded is_bridge name s → (size (devs s) + 2 ≤ cap)%nat →
  dev_at s (cur_ns s) (link_index vrf) idv dv → is_vrf (dev_link dv) = true →
  fine (setupBridge params vrf) s.
Proof.
  cbv zeta. intros Hv Hk Hroom Hvrf Hvk. unfold setupBridge. fine_step.
  - apply fine_ensure; [auto with pierre|]. intros Hno. split.
    + unfold createBridge. fine_step. apply fine_LinkAdd; [|done]. split; [done|done| |done].
      right. exists idv, dv. split; [exact Hvrf|]. by rewrite Hvk.
    + apply (created_ok (λ _ req, req = mkLink (mkAttrs 0 (bridgeName (VNIParams.VNI params)) (link_index vrf)) Bridge));
        [auto with pierre|by intros _ req ->|apply wpo_createBridge].
  - apply (wpo_ensure _ _ _ _ _ (λ _ req,
      req = mkLink (mkAttrs 0 (bridgeName (VNIParams.VNI params)) (link_index vrf)) Bridge)); [auto with pierre| | |].
    + intros s1 _. apply wpo_createBridge.
    + by intros s1 req ->.
    + intros link br id d s1 [Ht _] Hd Hns Hn _ Hi Hln _ _. rewrite -Ht in Hns.
      fine_step; [fine_step; apply (fine_addrGenModeNone _ _ id d); congruence|].
      wpo_step. apply (wpo_addrGenModeNone _ _ id d); [done|done|congruence|].
      intros s2 [Ht2 _] Hd2. fine_step.
      * fine_step. apply (fine_LinkSetUp _ _ id (set_no_addr_gen d)); [by rewrite Hd2 lookup_insert_eq|by rewrite Ht2|done].
      * eapply wpo_mono; [apply wpo_true|]. intros. fine_step.
Qed.

(** ** vxlan.go *)

(** The loopback and the bridge are there, and no other VXLAN has the VNI. *)
Record vxlan_addable (params : VNIParams.t) (br : Link) (s : NetState) : Prop := {
  vx_loopback : ∃ idl dl, dev_named s (cur_ns s) UnderlayLoopback idl dl ∧ plain dl;
  vx_bridge : ∃ idb db, dev_at s (cur_ns s) (link_index br) idb db ∧ is_bridge (dev_link db) = true
    ∧ dev_name db ≠ vxLanName (VNIParams.VNI params);
  vx_name : valid_ifname (vxLanName (VNIParams.VNI params)) = true;
  vx_range : 0 ≤ VNIParams.VNI params < 2 ^ 24 ∧ 0 ≤ VNIParams.VXLanPort params < 2 ^ 16;
  vx_named : vni_named (VNIParams.VNI params) s;
  vx_room : (size (devs s) + 2 ≤ cap)%nat }.

Lemma fine_createVXLan params br s :
  vxlan_addable params br s → absent s (cur_ns s) (vxLanName (VNIParams.VNI params)) →
  fine (createVXLan params br) s.
Proof.
  intros [(idl & dl & Hl & _) (idb & db & Hb & Hbk & _) Hv [Hr1 Hr2] Hnamed Hroom] Hno.
  unfold createVXLan. fine_step; [fine_step; by apply (fine_LinkByName _ _ idl dl)|].
  wpo_step. apply wpo_LinkByName. intros idl' dl' Hl'. fine_step. apply fine_LinkAdd; [|done].
  split; [done|done| |].
  - right. exists idb, db. split; [exact Hb|]. rewrite Hbk. by rewrite orb_true_r.
  - cbn. split; [exact Hr1|]. split; [exact Hr2|]. split.
    + exists idl', dl'. destruct Hl' as (? & ? & _). by split_and!.
    + intros id d p l a v Hd Hns Hk. apply (Hno id d). split_and!; [done..|].
      exact (Hnamed id d p l a v Hd Hk).
Qed.

Lemma fine_vxlan_tail l s id d idb db g g' g'' :
  devs s !! id = Some d → dev_ns d = cur_ns s → dev_index d = link_index l → dev_name d = link_name l →
  dev_at s (cur_ns s) (dev_master d) idb db → is_bridge (dev_link db) = true → is_vxlan (dev_link d) = true →
  fine (_ ← on_errM g (addrGenModeNone l); _ ← on_errM g' (setNeighSuppression l);
        on_errM g'' (LinkSetUp (Some l))) s.
Proof.
  intros Hd Hns Hi Hn (Hb & Hbns & Hbi) Hbk Hx.
  assert (idb ≠ id) as Hne. { intros ->. assert (db = d) as -> by congruence. unfold is_bridge, is_vxlan in *. by destruct (Kind (dev_link d)). }
  fine_step; [fine_step; by apply (fine_addrGenModeNone _ _ id d)|].
  wpo_step. apply (wpo_addrGenModeNone _ _ id d); [done..|]. intros s1 [Ht1 _] Hd1.
  assert (devs s1 !! id = Some (set_no_addr_gen d)) as Hd1' by by rewrite Hd1 lookup_insert_eq.
  fine_step.
  - fine_step. apply (fine_setNeighSuppression _ _ id (set_no_addr_gen d) idb db);
      [done|by rewrite Ht1|done| |done].
    split_and!; [|by rewrite Ht1|done]. rewrite Hd1 lookup_insert_ne //. by apply not_eq_sym.
  - wpo_step. apply (wpo_setNeighSuppression _ _ id (set_no_addr_gen d)); [done|by rewrite Ht1|done|].
    intros s2 [Ht2 _] Hd2. fine_step. apply (fine_LinkSetUp _ _ id (set_neigh_suppress (set_no_addr_gen d)));
      [by rewrite Hd2 lookup_insert_eq|by rewrite Ht2 Ht1|done].
Qed.

(** Deleting a device leaves the plain ones with other names. *)
Lemma plain_after_del s id d s' i e :
  wf s → dev_named s (cur_ns s) (dev_name d) id d →
  (∀ id', devs s' !! id' = if bool_decide (id' = id ∨ dev_peer d = Some id') then None
     else devs s !! id' ≫= release (cur_ns s) (dev_index d)) →
  devs s !! i = Some e → plain e → dev_name e ≠ dev_name d →
  ∃ m, devs s' !! i = Some (set_master m e).
Proof.
  intros Hwf Hd Hdel He Hp Hn.
  destruct (spared_after_del s (dev_name d) (λ _, True) id d s' Hd I Hdel i e He) as (m & Hm & _); [|by exists m].
  exact (plain_spared s _ _ i e Hwf He Hp Hn).
Qed.

(** A VXLAN just made is what was asked for, and its settings can be made. *)
Definition vxlan_settings (vx : Link) (name : string) : go W unit :=
  _ ← on_errM (errorw "failed to set addr_gen_mode to 1 for %s: %w" [link_name vx]) (addrGenModeNone vx);
  _ ← on_errM (errorw "failed to set neigh suppression for %s: %w" [link_name vx]) (setNeighSuppression vx);
  on_errM (λ _, errorf "could not set link up for vxlan %s: %v" [name]) (LinkSetUp (Some vx)).

Lemma wpo_vxlan_made params br s idl dl name :
  vxlan_addable params br s → dev_named s (cur_ns s) UnderlayLoopback idl dl →
  wpo (createVXLan params br) s (λ vx s', is_vxlan vx = true
    ∧ checkVXLanConfigured vx (link_index br) (dev_index dl) params = Ok tt
    ∧ fine (vxlan_settings vx name) s').
Proof.
  intros [_ (idb & db & Hb & Hbk & _) _ _ _ _] Hl. apply wpo_wf. intros Hwf.
  eapply wpo_mono; [apply wpo_createVXLan|]. intros vx s' ([Ht _] & req & HR & id & d & Hadd & ->).
  pose proof Hadd as (_ & Hreal & _). pose proof Hreal as (Hns & Hn & Hm & Hk).
  assert (is_vxlan req = true ∧ link_name req = vxLanName (VNIParams.VNI params) ∧ link_master req = link_index br)
    as (Hx & Hrn & Hrm) by by destruct HR as (? & ? & _ & ->).
  split; [done|]. split.
  - apply checkVXLanConfigured_Ok, (vxlan_request_configured _ _ _ _ _ _ dl HR Hreal).
    intros i e He. assert (i = idl) as -> by exact (wf_name _ Hwf _ _ _ _ _ _ He Hl).
    destruct He as [He _], Hl as [Hl _]. congruence.
  - unfold vxlan_settings. apply (fine_vxlan_tail _ _ id d idb db); try done.
    + exact (added_dev _ _ _ _ _ Hadd).
    + by rewrite Ht.
    + rewrite Ht Hm Hrm. destruct Hb as (Hb & Hbns & Hbi). split_and!; try done.
      exact (added_frame _ _ _ _ _ _ _ Hadd Hb).
    + by rewrite (type_check_vxlan _ _ Hk).
Qed.

(** What is needed to make the VXLAN again is there after it is deleted. *)
Lemma vxlan_addable_again params br s id d s' :
  wf s → wf s' → vxlan_addable params br s → silent s s' →
  dev_named s (cur_ns s) (vxLanName (VNIParams.VNI params)) id d →
  (∀ id', devs s' !! id' = if bool_decide (id' = id ∨ dev_peer d = Some id') then None
     else devs s !! id' ≫= release (cur_ns s) (dev_index d)) →
  vxlan_addable params br s' ∧ absent s' (cur_ns s') (vxLanName (VNIParams.VNI params)).
Proof.
  intros Hwf Hwf' [(idl & dl & (Hl & Hlns & Hln) & Hlp) (idb & db & (Hb & Hbns & Hbi) & Hbk & Hbn) Hv Hr Hnamed Hroom]
    [Ht Hnm] (Hd & Hns & Hn) Hdel.
  assert (mild s s') as Hm.
  { apply mild_indexed. intros i e He. rewrite Hdel in He. case_bool_decide; [done|]. destruct (devs s !! i) as [e0|]; [|done].
    exists e0. destruct (release_same _ _ _ _ He) as (? & ? & ? & ?). by split_and!. }
  destruct (mild_grown 0 s s' Hm) as [Hsize Hvn].
  pose proof (plain_after_del s id d s') as Hkeep. rewrite Hn in Hkeep.
  specialize (λ i e, Hkeep i e Hwf (conj Hd (conj Hns Hn)) Hdel). split; [split|].
  - destruct (Hkeep idl dl Hl Hlp) as [m Hml].
    { rewrite Hln. apply not_eq_sym, (device_names_apart ""). }
    rewrite Ht. by exists idl, (set_master m dl).
  - destruct (Hkeep idb db Hb) as [m Hmb]; [by apply plain_of_bridge|done|].
    rewrite Ht. by exists idb, (set_master m db).
  - done.
  - done.
  - by apply Hvn.
  - lia.
  - intros i e (He & Hens & Hen). rewrite Ht in Hens.
    assert (origin s s') as Ho by exact (origin_after_del _ _ _ _ _ Hdel).
    destruct (Ho i e He) as (e0 & He0 & Hns0 & Hn0 & _).
    assert (i = id) as ->.
    { refine (wf_name _ Hwf (cur_ns s) (vxLanName (VNIParams.VNI params)) _ _ _ _ (conj He0 (conj _ _)) (conj Hd (conj Hns Hn))); congruence. }
    rewrite Hdel bool_decide_true in He; [done|by left].
Qed.

Lemma fine_setupVXLan params br s :
  vxlan_addable params br s → kinded is_vxlan (vxLanName (VNIParams.VNI params)) s →
  fine (setupVXLan params br) s.
Proof.
  intros Hadd Hk. pose proof Hadd as [(idl & dl & Hl & _) (idb & db & Hb & Hbk & _) _ _ _ _].
  apply fine_wf. intros Hwf. unfold setupVXLan. fine_step; [fine_step; by apply (fine_LinkByName _ _ idl dl)|].
  wpo_step. apply wpo_LinkByName. intros idl' dl' Hl'. cbv zeta. apply fine_ensure_bind; [auto with pierre| |].
  - intros id d Hd Hx. pose proof Hd as (Hd' & Hns & Hn). apply wp_bind, wp_attempt, wp_lift.
    destruct (checkVXLanConfigured (dev_link d) _ _ params) as [[]|e|] eqn:Hchk.
    + apply checkVXLanConfigured_Ok in Hchk as (src & Hkind & Hm & _).
      apply fine_bind; [fine_step|]. wpo_step. apply (fine_vxlan_tail _ _ id d idb db); try done.
      by rewrite Hm.
    + apply fine_bind; [apply fine_bind; [fine_step; eapply fine_can; [apply LinkDel_can|]|]|].
      * exists id, d. split; [by split_and!|]. unfold is_vxlan, is_other in *. by destruct (Kind (dev_link d)).
      * wpo_step. apply (wpo_LinkDel _ _ id d); [done..|]. intros s2 Hs2 _ Hdel. fine_step.
        apply fine_wf. intros Hwf2. destruct (vxlan_addable_again _ _ _ _ _ _ Hwf Hwf2 Hadd Hs2 Hd Hdel).
        by apply fine_createVXLan.
      * do 2 wpo_step. apply (wpo_LinkDel _ _ id d); [done..|]. intros s2 Hs2 _ Hdel. wpo_step.
        apply wpo_wf. intros Hwf2. destruct (vxlan_addable_again _ _ _ _ _ _ Hwf Hwf2 Hadd Hs2 Hd Hdel) as [Hadd2 _].
        pose proof Hadd2 as [(idl2 & dl2 & Hl2 & _) _ _ _ _ _].
        eapply wpo_mono; [by apply (wpo_vxlan_made _ _ _ idl2 dl2)|]. intros vx s' (_ & _ & Hf). exact Hf.
    + unfold checkVXLanConfigured, is_vxlan in *. repeat case_match; done.
  - intros Hno. split; [by apply fine_createVXLan|].
    eapply wpo_mono; [by apply (wpo_vxlan_made _ _ _ idl' dl')|]. intros vx s' (Hx & Hchk & Hf).
    split; [done|]. apply wp_bind, wp_attempt, wp_lift. rewrite Hchk. apply fine_bind; [fine_step|]. wpo_step. exact Hf.
Qed.
End link_progress.
