(* ===== verification/VethSpecs.v ===== *)
(** * The veth pair of a VRF

    [setupVeth] leaves a pair with one end in the caller's namespace and the other in
    the router's, and any closed set of devices with other names in place. *)

From S2P Require Import Prelude GoStrings GoNet HostParams Netlink Troubles NetLogic HostLinks LinkSpecs.
From S2P Require Import Held Faults Origins.
Local Open Scope Z_scope.

Section veth_specs.
Context {W : Type} `{NetlinkLaws W, !Untroubled W}.

Definition veth_request (name : string) (_ : NetState) (req : Link) : Prop :=
  req = mkLink (mkAttrs 0 (vethLegsForVRF name).1 0) (Veth (vethLegsForVRF name).2).

Lemma wpo_createVeth name s :
  wpo (createVeth name) s
    (λ l s', silent s s' ∧ ∃ req, veth_request name s req ∧ added req s l s').
Proof.
  unfold createVeth. cbn. wpo_step. eapply wpo_sat; [apply LinkAdd_law|].
  intros l s' [Hs Hadd]%LinkAdd_added. split; [done|]. eexists. by split.
Qed.

(** The veth pair of a VRF: the host's end is in the namespace of the caller,
    its peer in the target namespace. *)
Definition veth_pair (name : string) (host pe : Link) (hns tns : Z) (s : NetState) : Prop :=
  ∃ idh dh idp dp,
    devs s !! idh = Some dh ∧ dev_ns dh = hns ∧ dev_name dh = (vethLegsForVRF name).1
    ∧ is_veth (dev_link dh) = true ∧ dev_index dh = link_index host
    ∧ dev_peer dh = Some idp ∧ devs s !! idp = Some dp ∧ dev_ns dp = tns
    ∧ dev_index dp = link_index pe ∧ dev_name dp = (vethLegsForVRF name).2
    ∧ is_veth (dev_link dp) = true.

(** A pair that is there already has the names the code gives its ends. *)
Definition peer_named (name : string) (s : NetState) : Prop :=
  ∀ idh dh idp dp, devs s !! idh = Some dh → dev_name dh = (vethLegsForVRF name).1 →
    dev_peer dh = Some idp → devs s !! idp = Some dp →
    dev_name dp = (vethLegsForVRF name).2.

(** It stays so whatever is done under other names. *)
Lemma tamed_peer_named N name s s' :
  wf s' → tamed N s s' → (vethLegsForVRF name).1 ∉ N → peer_named name s → peer_named name s'.
Proof.
  intros Hwf [_ Hf] Hn Hp idh dh idp dp Hdh Hnh Hpeer Hdp.
  destruct (wf_peer _ Hwf _ _ _ _ Hdh Hdp Hpeer) as [Hback _].
  destruct (Hf _ _ Hdh) as [[HA _]|(dh0 & Hdh0 & Hn0 & Hp0 & _)]; [congruence|].
  destruct (Hf _ _ Hdp) as [[_ HA]|(dp0 & Hdp0 & Hnp0 & _)].
  - destruct Hn. rewrite -Hnh. exact (HA _ _ Hback Hdh).
  - rewrite Hnp0. apply (Hp idh dh0 idp dp0); congruence.
Qed.

(** What the first half of [setupVeth] leaves. *)
Definition host_leg (name : string) (l : Link) (s s1 : NetState) : Prop :=
  silent s s1 ∧
  (∃ id d, devs s1 !! id = Some d ∧ dev_ns d = cur_ns s
     ∧ dev_name d = (vethLegsForVRF name).1 ∧ is_veth (dev_link d) = true
     ∧ link_index l = dev_index d ∧ link_name l = (vethLegsForVRF name).1
     ∧ ∀ idp dp, dev_peer d = Some idp → devs s1 !! idp = Some dp →
         dev_name dp = (vethLegsForVRF name).2)
  ∧ frame s s1 (vethLegsForVRF name).1 (λ l, is_veth l = false).

Lemma wpo_host_leg name g g' s :
  peer_named name s →
  wpo (ensure is_veth (vethLegsForVRF name).1 g g' (createVeth name)) s
    (λ '(_, l) s1, host_leg name l s s1).
Proof.
  intros Hpn. apply wpo_wf. intros Hwf.
  apply (wpo_ensure _ _ _ _ _ (veth_request name)); [auto with pierre| | |].
  - intros s1 _. apply wpo_createVeth.
  - by intros s1 req ->.
  - intros link l id d s1 Hs1 Hd Hns Hn Hok Hi Hln Hf Hprov. split; [done|]. split.
    + exists id, d. split_and!; try done. intros idp dp Hp Hdp.
      destruct Hprov as [(-> & _)|(s0 & req & _ & -> & Hadd & _)].
      * exact (Hpn id d idp dp Hd Hn Hp Hdp).
      * destruct Hadd as (_ & _ & _ & _ & idp' & dp' & _ & Hne & _ & Hnp & _ & Hp' & _ & _ & Hdevs).
        assert (idp' = idp) as -> by congruence. apply not_eq_sym in Hne.
        rewrite Hdevs lookup_insert_ne // lookup_insert_eq in Hdp. by injection Hdp as <-.
    + intros id' d' Hd' _ Hsp. exact (Hf id' d' Hd' Hsp).
Qed.

Lemma release_veth ns i d :
  is_veth (dev_link d) = true →
  ∃ d', release ns i d = Some d' ∧ dev_ns d' = dev_ns d ∧ dev_name d' = dev_name d
    ∧ is_veth (dev_link d') = true ∧ dev_index d' = dev_index d ∧ dev_peer d' = dev_peer d.
Proof.
  intros Hv. unfold release, stacked, is_veth in *.
  destruct (Kind (dev_link d)) eqn:Ek; try done. cbn.
  case_match; eexists; (split; [done|]); cbn; rewrite ?Ek; by split_and!.
Qed.

(** A pair that is whole: the host's end [idh] in the namespace of the caller and
    its peer [idp], wherever that is. *)
Definition paired (name : string) (host : Link) (idh : positive) (dh : Dev)
    (idp : positive) (dp : Dev) (s : NetState) : Prop :=
  devs s !! idh = Some dh ∧ dev_ns dh = cur_ns s ∧ dev_name dh = (vethLegsForVRF name).1
  ∧ is_veth (dev_link dh) = true ∧ dev_index dh = link_index host
  ∧ dev_peer dh = Some idp ∧ devs s !! idp = Some dp
  ∧ dev_name dp = (vethLegsForVRF name).2 ∧ is_veth (dev_link dp) = true.

(** The router's end has a number of its own. *)
Lemma peer_alone name idh dh idp dp s id d :
  wf s → legs_apart s → devs s !! idh = Some dh → dev_peer dh = Some idp → devs s !! idp = Some dp →
  dev_name dp = (vethLegsForVRF name).2 → devs s !! id = Some d → dev_index d = dev_index dp → id = idp.
Proof.
  intros Hwf Hu Hdh Hp Hdp Hnp Hd Hi. destruct (wf_peer _ Hwf _ _ _ _ Hdh Hdp Hp) as [Hpp _].
  exact (leg_alone s idp dp id d Hu Hdp (named_router_leg dp name idh Hnp Hpp) Hd Hi).
Qed.
Lemma paired_alone name host idh dh idp dp s id d :
  wf s → legs_apart s → paired name host idh dh idp dp s → devs s !! id = Some d →
  dev_index d = dev_index dp → id = idp.
Proof.
  intros Hwf Hu (Hdh & _ & _ & _ & _ & Hp & Hdp & Hnp & _) Hd Hi.
  exact (peer_alone name idh dh idp dp s id d Hwf Hu Hdh Hp Hdp Hnp Hd Hi).
Qed.

Lemma paired_pair name host idh dh idp dp tns s :
  paired name host idh dh idp dp s → dev_ns dp = tns →
  veth_pair name host (dev_link dp) (cur_ns s) tns s.
Proof.
  intros (? & ? & ? & ? & ? & ? & ? & ? & ?) ?. exists idh, dh, idp, dp. by split_and!.
Qed.

(** Looking the peer's index up finds the peer. *)
Lemma wpo_peer_index name host l idh dh s :
  devs s !! idh = Some dh → dev_ns dh = cur_ns s → dev_name dh = (vethLegsForVRF name).1 →
  is_veth (dev_link dh) = true → link_index host = dev_index dh →
  link_name l = (vethLegsForVRF name).1 →
  (∀ idp dp, dev_peer dh = Some idp → devs s !! idp = Some dp →
     dev_name dp = (vethLegsForVRF name).2) →
  wpo (VethPeerIndex l) s
    (λ i s', s' = s ∧ ∃ idp dp, paired name host idh dh idp dp s ∧ i = dev_index dp).
Proof.
  intros Hdh Hnsh Hnh Hvh Hih Hlh Hpe. apply wpo_wf. intros Hwf.
  eapply wpo_sat; [apply VethPeerIndex_law|]. intros i s2 (-> & _ & Hpeer). split; [done|].
  destruct (Hpeer i eq_refl) as (id' & d' & idp & dp & Hnm & Hp & Hdp & ->).
  rewrite Hlh -Hnh in Hnm. destruct (dev_named_unique s idh dh id' d' Hwf Hdh Hnsh Hnm) as [-> ->].
  destruct (wf_peer _ Hwf _ _ _ _ Hdh Hdp Hp) as [Hpp _]. exists idp, dp. unfold paired. split_and!; try done.
  - exact (Hpe idp dp Hp Hdp).
  - apply (wf_peer_veth _ Hwf idp); congruence.
Qed.

(** Moving the peer that is still with the host's end to the router's namespace. *)
Lemma wpo_move_peer name host idh dh idp dp targetNS tns s :
  legs_apart s → paired name host idh dh idp dp s → dev_ns dp = cur_ns s →
  handles (thr s) !! targetNS = Some tns →
  wpo (LinkSetNsFd (Some (dev_link dp)) targetNS) s (λ _ s', silent s s'
    ∧ veth_pair name host (dev_link dp) (cur_ns s) tns s'
    ∧ ∀ K l, holds K s → within l K → (vethLegsForVRF name).2 ∉ l → held K s').
Proof.
  intros Hu Hpair Hns Hh. pose proof Hpair as (Hdh & Hnsh & Hnh & Hvh & Hih & Hp & Hdp & Hnp & Hvp).
  apply wpo_wf. intros Hwf.
  destruct (wf_peer _ Hwf _ _ _ _ Hdh Hdp Hp) as [_ Hhp].
  eapply wpo_sat; [apply LinkSetNsFd_law|]. intros [] s2 (Hs2 & _ & Hmove). split; [done|].
  destruct (Hmove eq_refl) as (n & id & d & Hn & Hat & Hdevs). clear Hmove.
  assert (n = tns) as -> by congruence.
  destruct (dev_at_unique s idp dp id d Hwf Hdp Hns Hat) as [-> ->].
  destruct (Z.eqb_spec tns (cur_ns s)) as [->|Hne].
  { split; [exists idh, dh, idp, dp; rewrite Hdevs; by split_and!|].
    intros K l HK _ _. exists K. split_and!; [apply evolves_refl|done|exact (holds_devs _ _ _ Hdevs HK)]. }
  destruct Hdevs as (_ & dp' & Hdp' & Hnsp & Hnp' & Hkp & Hpeer & _ & _ & Hidx & Hrest). split.
  - assert (dev_index dp' = dev_index dp) as Hip.
    { apply Hidx. intros id4 d4 (Hd4 & Hns4 & Hi4).
      assert (id4 = idp) as -> by exact (paired_alone _ _ _ _ _ _ _ _ _ Hwf Hu Hpair Hd4 Hi4). congruence. }
    destruct (release_veth (cur_ns s) (link_index (dev_link dp)) dh Hvh)
      as (dh' & Hrel & Hns' & Hn' & Hv' & Hi' & Hp').
    assert (is_veth (dev_link dp') = true) as Hvp' by (unfold is_veth in *; by rewrite Hkp).
    exists idh, dh', idp, dp'. rewrite Hrest // Hdh. split_and!; [exact Hrel|congruence..].
  - intros K l HK Hl Hn2.
    assert (K !! idp = None) as Hout.
    { apply (within_absent l K s idp dp Hl (proj2 HK) Hdp). congruence. }
    destruct (release_held K s s2 idp dp Hwf HK Hdp Hout) as (K2 & He2 & Hdom2 & HK2).
    { intros id' Hid. rewrite Hns. exact (Hrest id' Hid). }
    by exists K2.
Qed.

Lemma wpo_setupVeth name targetNS tns s :
  legs_apart s → peer_named name s → handles (thr s) !! targetNS = Some tns →
  wpo (setupVeth name targetNS) s (λ '(host, pe) s', silent s s'
    ∧ (∃ pe', pe = Some pe' ∧ veth_pair name host pe' (cur_ns s) tns s')
    ∧ ∀ K l, holds K s → within l K → (vethLegsForVRF name).1 ∉ l → (vethLegsForVRF name).2 ∉ l →
        held K s').
Proof.
  intros Hu Hpn Hh. apply wpo_wf. intros Hwf. unfold setupVeth. cbn [vethLegsForVRF]. wpo_step.
  eapply wpo_mono; [apply wpo_conj; [by apply (wpo_host_leg name)
    |eapply (obeys_ok (tamed_account [(vethLegsForVRF name).1; (vethLegsForVRF name).2])), (obeys_ensure (tamed_account [(vethLegsForVRF name).1; (vethLegsForVRF name).2]) 2),
       obeys_createVeth, tamed_allowed; unfold request_names; set_solver]|].
  intros [link vh] s1 [(Hs1 & (idh & dh & Hdh & Hnsh & Hnh & Hvh & Hih & Hlh & Hpe) & Hframe) [Hu1 _]].
  specialize (Hu1 Hu).
  assert (∀ K l, holds K s → within l K → (vethLegsForVRF name).1 ∉ l → held K s1) as Hheld.
  { intros K l HK Hl Hn1. exact (frame_held K s s1 l _ _ Hwf HK Hl Hn1 Hframe). }
  assert (cur_ns s1 = cur_ns s ∧ handles (thr s1) !! targetNS = Some tns) as [Hc1 Hh1]
    by by destruct Hs1 as [-> _].
  rewrite -Hc1 in Hnsh. do 2 wpo_step.
  eapply wpo_mono; [by apply (wpo_peer_index name vh _ idh dh)|].
  intros i s2 (-> & idp & dp & Hpair & ->). apply wpo_wf. intros Hwf1.
  pose proof Hpair as (_ & _ & _ & _ & _ & _ & Hdp & _).
  apply wpo_bind, wp_attempt. eapply wp_sat; [apply LinkByIndex_law|].
  intros [l|e|] s2 [-> Hlk]; cbn [on_ok]; [| |done].
  - (* the peer is still here: it is moved *)
    destruct Hlk as (id2 & d2 & Hd2 & Hns2 & Hi2 & ->).
    assert (id2 = idp) as -> by exact (paired_alone _ _ _ _ _ _ _ _ _ Hwf1 Hu1 Hpair Hd2 Hi2).
    assert (d2 = dp) as -> by congruence.
    wpo_step. apply wpo_err_with_name.
    eapply wpo_mono; [by apply (wpo_move_peer name vh idh dh idp dp targetNS tns)|].
    intros [] s2 (Hs2 & Hveth & Hkeep). do 3 wpo_step. rewrite Hc1 in Hveth.
    split_and!; [exact (silent_trans _ _ _ Hs1 Hs2)|by eexists|].
    intros K l HK Hl Hn1 Hn2. apply (held_then K l s1); [by apply (Hheld K l)|done|].
    intros K1 HK1 Hl1. by apply (Hkeep K1 l).
  - destruct (is_link_not_found e) eqn:He.
    + (* it has been moved before *)
      do 2 wpo_step. apply (wpo_inNamespace _ _ _ tns); [auto with pierre|done|].
      intros h Hfresh. eapply wpo_sat; [apply LinkByIndex_law|].
      intros l s2 [-> (id2 & d2 & Hd2 & Hns2 & Hi2 & ->)] _. wpo_step.
      cbn in Hd2, Hns2. assert (id2 = idp) as -> by exact (paired_alone _ _ _ _ _ _ _ _ _ Hwf1 Hu1 Hpair Hd2 Hi2).
      assert (d2 = dp) as -> by congruence.
      split; [exact Hs1|]. split; [|intros K l HK Hl Hn1 _; exact (Hheld K l HK Hl Hn1)].
      eexists; split; [done|]. rewrite -Hc1. exact (paired_pair _ _ _ _ _ _ _ _ Hpair Hns2).
    + wpo_step. apply wpo_err_with_name. eapply wpo_sat; [apply nil_link_law|].
      by intros [] ? [_ ?].
Qed.
End veth_specs.
