(* ===== verification/SimKernel.v ===== *)
(** * A kernel in miniature

    An implementation of the interface of the file Netlink that satisfies its
    laws: the world is the visible state itself.  It shows that the laws can hold
    together, and the theorems' witnesses run the code on it.  How indexes are
    given out is a parameter, and so is the limit its states are held to: that the devices
    are well-formed, or also that there is room for them. *)

From S2P Require Import Prelude GoStrings GoNet HostParams Netlink Troubles NetLogic HostLinks LinkSpecs.
From S2P Require Import Faults Origins.
Local Open Scope Z_scope.

(** ** Well-formed states, decidably *)
Definition wf_devs (m : gmap positive Dev) : Prop :=
  map_Forall (λ id1 d1,
    (0 < dev_index d1 ∧ dev_index d1 < 2 ^ 31) ∧ Forall (λ a, readable a = true) (dev_addrs d1)
    ∧ (dev_peer d1 ≠ None → is_veth (dev_link d1) = true)
    ∧ map_Forall (λ id2 d2,
        (dev_ns d1 = dev_ns d2 ∧ dev_index d1 = dev_index d2 → id1 = id2)
        ∧ (dev_ns d1 = dev_ns d2 ∧ dev_name d1 = dev_name d2 → id1 = id2)
        ∧ (dev_peer d1 = Some id2 → dev_peer d2 = Some id1 ∧ id1 ≠ id2)) m) m.

Lemma wf_devs_wf s : wf_devs (devs s) → wf s.
Proof.
  intros Hwf. split.
  - intros id d Hd. apply (Hwf id d Hd).
  - intros ns i id1 d1 id2 d2 (Hd1 & Hns1 & Hi1) (Hd2 & Hns2 & Hi2).
    destruct (Hwf id1 d1 Hd1) as (_ & _ & _ & Hp). apply (proj1 (Hp id2 d2 Hd2)). split; congruence.
  - intros ns i id1 d1 id2 d2 (Hd1 & Hns1 & Hi1) (Hd2 & Hns2 & Hi2).
    destruct (Hwf id1 d1 Hd1) as (_ & _ & _ & Hp). apply (proj1 (proj2 (Hp id2 d2 Hd2))).
    split; congruence.
  - intros id1 d1 id2 d2 Hd1 Hd2. destruct (Hwf id1 d1 Hd1) as (_ & _ & _ & Hp).
    exact (proj2 (proj2 (Hp id2 d2 Hd2))).
  - intros id d Hd. apply (Hwf id d Hd).
Qed.

(** The same without what the addresses are. *)
Definition wf_shape (m : gmap positive Dev) : Prop :=
  map_Forall (λ id1 d1,
    (0 < dev_index d1 ∧ dev_index d1 < 2 ^ 31) ∧ (dev_peer d1 ≠ None → is_veth (dev_link d1) = true)
    ∧ map_Forall (λ id2 d2,
        (dev_ns d1 = dev_ns d2 ∧ dev_index d1 = dev_index d2 → id1 = id2)
        ∧ (dev_ns d1 = dev_ns d2 ∧ dev_name d1 = dev_name d2 → id1 = id2)
        ∧ (dev_peer d1 = Some id2 → dev_peer d2 = Some id1 ∧ id1 ≠ id2)) m) m.

Lemma wf_shape_wf s : wf_shape (devs s) ↔ wf s.
Proof.
  split; intros Hwf.
  - split.
    + intros id d Hd. apply (Hwf id d Hd).
    + intros ns i id1 d1 id2 d2 (Hd1 & <- & <-) (Hd2 & Hns & Hi). apply (proj1 (proj2 (proj2 (Hwf _ _ Hd1)) _ _ Hd2)). by split.
    + intros ns n id1 d1 id2 d2 (Hd1 & <- & <-) (Hd2 & Hns & Hn). apply (proj1 (proj2 (proj2 (proj2 (Hwf _ _ Hd1)) _ _ Hd2))). by split.
    + intros id1 d1 id2 d2 Hd1 Hd2. apply (proj2 (proj2 (Hwf _ _ Hd1)) _ _ Hd2).
    + intros id d Hd. apply (Hwf id d Hd).
  - intros id1 d1 Hd1. split; [exact (wf_index_range _ Hwf _ _ Hd1)|]. split; [exact (wf_peer_veth _ Hwf _ _ Hd1)|].
    intros id2 d2 Hd2. split_and!.
    + intros [Hns Hi]. by apply (wf_index _ Hwf (dev_ns d2) (dev_index d2) id1 d1 id2 d2).
    + intros [Hns Hn]. by apply (wf_name _ Hwf (dev_ns d2) (dev_name d2) id1 d1 id2 d2).
    + exact (wf_peer _ Hwf _ _ _ _ Hd1 Hd2).
Qed.

Lemma wf_devs_shape m :
  wf_shape m → (∀ id d, m !! id = Some d → Forall (λ a, readable a = true) (dev_addrs d)) → wf_devs m.
Proof. intros Hs Hr id d Hd. destruct (Hs id d Hd) as (? & ? & ?). split; [done|]. by split; [exact (Hr id d Hd)|]. Qed.

(** ** What is let happen

    The kernel lets a request through when the devices it leaves are permitted. *)
Record limit := mkLimit {
  permits : gmap positive Dev → Prop;
  permits_dec m : Decision (permits m);
  permits_wf s : permits (devs s) → wf s;
  permits_empty : permits ∅ }.
#[export] Existing Instance permits_dec.

(** Anything that is well-formed. *)
#[export] Instance wf_shape_dec m : Decision (wf_shape m).
Proof. unfold wf_shape. apply _. Defined.
Definition well_formed : limit :=
  mkLimit wf_shape wf_shape_dec (λ s, proj1 (wf_shape_wf s)) (map_Forall_empty _).

(** Room for so many devices, with addresses that can be read. *)
Definition sim_ok (cap : nat) (m : gmap positive Dev) : Prop := wf_devs m ∧ (size m ≤ cap)%nat.
#[export] Instance sim_ok_dec cap m : Decision (sim_ok cap m).
Proof. unfold sim_ok, wf_devs. apply _. Defined.
Lemma sim_ok_empty cap : sim_ok cap ∅.
Proof. split; [apply map_Forall_empty|]. rewrite map_size_empty. lia. Qed.
Definition room (cap : nat) : limit :=
  mkLimit (sim_ok cap) (sim_ok_dec cap) (λ s Hs, wf_devs_wf s (proj1 Hs)) (sim_ok_empty cap).
Definition sim_cap : nat := 1000.

Definition empty_state : NetState := mkState (mkThread 0 ∅ 0 ∅) ∅ ∅ [].

Section limited.
Variable lim : limit.

(** The state shown: a world that is not permitted shows an empty one. *)
Definition limited_view : View NetState :=
  λ w, if bool_decide (permits lim (devs w)) then w else empty_state.
#[local] Existing Instance limited_view.

Lemma view_permits w : permits lim (devs (view w)).
Proof. unfold view, limited_view. case_bool_decide; [done|apply permits_empty]. Qed.
Lemma sim_view_wf w : wf (view w).
Proof. apply (permits_wf lim), view_permits. Qed.
Lemma sim_view_id s : permits lim (devs s) → view s = s.
Proof. intros Hs. unfold view, limited_view. by rewrite bool_decide_true. Qed.

(** An operation on the state; one that would break it fails. *)
Definition run {A} (f : NetState → res A * NetState) : go NetState A := λ w,
  let s := view w in
  let '(r, s') := f s in
  if bool_decide (permits lim (devs s')) then (r, s') else (Err (ExtErr "EINVAL"), s).
(** An operation that leaves the devices alone. *)
Definition run_thr {A} (f : NetState → res A * NetState) : go NetState A := λ w, f (view w).

Lemma sat_run {A} (f : NetState → res A * NetState) (R : NetState → res A → NetState → Prop) :
  (∀ s, R s (f s).1 (f s).2 ∧ R s (Err (ExtErr "EINVAL")) s) → sat (run f) R.
Proof.
  intros Hf w r w'. unfold run. destruct (Hf (view w)) as [Hok Herr].
  destruct (f (view w)) as [r0 s0]. case_bool_decide as Hwf; intros [= <- <-].
  - by rewrite (sim_view_id s0).
  - by rewrite (sim_view_id (view w)); [|apply view_permits].
Qed.

Lemma sat_run_thr {A} (f : NetState → res A * NetState) R :
  (∀ s, devs (f s).2 = devs s ∧ R s (f s).1 (f s).2) → sat (run_thr f) R.
Proof.
  intros Hf w r w'. unfold run_thr. destruct (Hf (view w)) as [Hd HR].
  destruct (f (view w)) as [r0 s0]. intros [= <- <-]. cbn in Hd, HR.
  rewrite (sim_view_id s0) //. rewrite Hd. apply view_permits.
Qed.
End limited.
#[export] Instance sim_view : View NetState := limited_view (room sim_cap).

(** ** Lookup *)
Definition find_dev (P : Dev → bool) (s : NetState) : option (positive * Dev) :=
  head (filter (λ x, (dev_ns x.2 =? cur_ns s) && P x.2 = true) (map_to_list (devs s))).

Lemma find_dev_Some P s id d :
  find_dev P s = Some (id, d) → devs s !! id = Some d ∧ dev_ns d = cur_ns s ∧ P d = true.
Proof.
  unfold find_dev. destruct (filter _ _) as [|x l] eqn:E; [done|]. intros [= ->].
  assert ((id, d) ∈ filter (λ x, (dev_ns x.2 =? cur_ns s) && P x.2 = true) (map_to_list (devs s)))
    as Hin by (rewrite E; by left).
  apply list_elem_of_filter in Hin as [[Hns%Z.eqb_eq HP]%andb_prop Hin].
  by apply elem_of_map_to_list in Hin.
Qed.

Lemma find_dev_None P s id d :
  find_dev P s = None → devs s !! id = Some d → dev_ns d = cur_ns s → P d = false.
Proof.
  unfold find_dev. destruct (filter _ _) as [|x l] eqn:E; [|done]. intros _ Hd Hns.
  destruct (P d) eqn:HP; [exfalso|done].
  assert ((id, d) ∈ filter (λ x, (dev_ns x.2 =? cur_ns s) && P x.2 = true) (map_to_list (devs s)))
    as Hin.
  { apply list_elem_of_filter. split; [by rewrite /= Hns Z.eqb_refl HP|].
    by apply elem_of_map_to_list. }
  rewrite E in Hin. by apply elem_of_nil in Hin.
Qed.

Definition by_name (n : string) (d : Dev) : bool := bool_decide (dev_name d = n).
Definition by_index (i : Z) (d : Dev) : bool := dev_index d =? i.

Definition sim_lookup (P : Dev → bool) (s : NetState) : res Link * NetState :=
  (match find_dev P s with
   | Some (_, d) => Ok (dev_link d)
   | None => Err (LinkNotFoundError "Link not found")
   end, s).

Lemma sim_lookup_spec P Q s :
  (∀ d, P d = true ↔ Q d) → lookup_spec Q s (sim_lookup P s).1 (sim_lookup P s).2.
Proof.
  intros HPQ. unfold sim_lookup, lookup_spec. cbn. split; [done|].
  destruct (find_dev P s) as [[id d]|] eqn:E.
  - apply find_dev_Some in E as (Hd & Hns & HP). exists id, d. split_and!; try done. by apply HPQ.
  - intros _ id d Hd Hns HQ%HPQ. by rewrite (find_dev_None _ _ _ _ E Hd Hns) in HQ.
Qed.

Lemma sim_lookup_err lim P w e w' :
  run_thr lim (sim_lookup P) w = (Err e, w') → is_link_not_found e = true.
Proof.
  unfold run_thr, sim_lookup. destruct (find_dev _ _) as [[? ?]|]; [discriminate|].
  intros Hr. by injection Hr as <- _.
Qed.

(** ** Changing one device *)
Definition update_dev (P : Dev → bool) (f : Dev → Dev) (s : NetState) : res unit * NetState :=
  match find_dev P s with
  | Some (id, d) => (Ok tt, set_devs (<[id := f d]> (devs s)) s)
  | None => (Err (ExtErr "ENODEV"), s)
  end.

Lemma update_dev_spec i f g s :
  (∀ d, g d (f d)) →
  update_spec i g s (update_dev (by_index i) f s).1 (update_dev (by_index i) f s).2.
Proof.
  intros Hg. unfold update_dev, update_spec. destruct (find_dev _ _) as [[id d]|] eqn:E; cbn; [|done].
  apply find_dev_Some in E as (Hd & Hns & Hi%Z.eqb_eq). split_and!; try done. intros _.
  exists id, d, (f d). by split_and!.
Qed.

(** ** The operations *)
(** A number no device has and no device has for its peer. *)
Definition fresh_id (m : gmap positive Dev) : positive :=
  Pos.succ (foldr Pos.max 1%positive ((map_to_list m).*1 ++ omap (λ x, dev_peer x.2) (map_to_list m))).
Definition fresh_key {A} (m : gmap Z A) : Z := 1 + foldr Z.max 0 (map_to_list m).*1.

Lemma foldr_max_le (l : list positive) x : x ∈ l → (x ≤ foldr Pos.max 1 l)%positive.
Proof. induction 1; cbn; lia. Qed.
Lemma fresh_id_max m x :
  x ∈ (map_to_list m).*1 ++ omap (λ x, dev_peer x.2) (map_to_list m) → x ≠ fresh_id m.
Proof. intros Hx%foldr_max_le ->. unfold fresh_id in Hx at 1. lia. Qed.
Lemma fresh_id_None m : m !! fresh_id m = None.
Proof.
  destruct (m !! fresh_id m) as [a|] eqn:E; [exfalso|done].
  apply (fresh_id_max m (fresh_id m)); [|done]. apply elem_of_app. left.
  apply list_elem_of_fmap. exists (fresh_id m, a). split; [done|]. by apply elem_of_map_to_list.
Qed.
Lemma fresh_id_peer m id d : m !! id = Some d → dev_peer d ≠ Some (fresh_id m).
Proof.
  intros Hd Hp. apply (fresh_id_max m (fresh_id m)); [|done]. apply elem_of_app. right.
  apply list_elem_of_omap. exists (id, d). split; [|done]. by apply elem_of_map_to_list.
Qed.
Lemma foldr_Zmax_le (l : list Z) x : x ∈ l → x ≤ foldr Z.max 0 l.
Proof. induction 1; cbn; lia. Qed.
Lemma fresh_key_None {A} (m : gmap Z A) : m !! fresh_key m = None.
Proof.
  destruct (m !! fresh_key m) as [a|] eqn:E; [exfalso|done].
  assert (fresh_key m ∈ (map_to_list m).*1) as Hin.
  { apply list_elem_of_fmap. exists (fresh_key m, a). split; [done|]. by apply elem_of_map_to_list. }
  apply foldr_Zmax_le in Hin. unfold fresh_key in Hin at 1. lia.
Qed.

Section sim.
(** What is let happen, and the index given to a new device in a namespace. *)
Variable lim : limit.
Variable alloc : gmap positive Dev → Z → Z.

Definition new_dev (l : Link) (kind : LinkKind) (ns i : Z) (peer : option positive) : Dev :=
  mkDev ns (mkLink (mkAttrs i (link_name l) (link_master l)) kind) false [] peer false false.

Definition sim_LinkAdd (l : Link) (s : NetState) : res Link * NetState :=
  match find_dev (by_name (link_name l)) s with
  | Some _ => (Err (ErrExist "EEXIST"), s)
  | None =>
      let ns := cur_ns s in
      let id := fresh_id (devs s) in
      let i := alloc (devs s) ns in
      match Kind l with
      | Veth peer =>
          let d0 := new_dev l (Veth "") ns i None in
          let m := <[id := d0]> (devs s) in
          let idp := fresh_id m in
          let dp := new_dev (mkLink (mkAttrs 0 peer 0) (Veth "")) (Veth "") ns (alloc m ns) (Some id) in
          let d := new_dev l (Veth "") ns i (Some idp) in
          (Ok (set_Index i l), set_devs (<[id := d]> (<[idp := dp]> (devs s))) s)
      | k => (Ok (set_Index i l), set_devs (<[id := new_dev l k ns i None]> (devs s)) s)
      end
  end.

Definition sim_LinkDel (l : option Link) (s : NetState) : res unit * NetState :=
  match l with
  | None => (Panic, s)
  | Some l =>
      match find_dev (by_index (link_index l)) s with
      | Some (id, d) =>
          let m := delete id (devs s) in
          let m := match dev_peer d with Some p => delete p m | None => m end in
          (Ok tt, set_devs (omap (release (cur_ns s) (link_index l)) m) s)
      | None => (Err (ExtErr "ENODEV"), s)
      end
  end.

Definition sim_LinkSetNsFd (l : option Link) (fd : Z) (s : NetState) : res unit * NetState :=
  match l, handles (thr s) !! fd with
  | None, _ => (Panic, s)
  | Some l, None => (Err (ExtErr "EBADF"), s)
  | Some l, Some n =>
      match find_dev (by_index (link_index l)) s with
      | None => (Err (ExtErr "ENODEV"), s)
      | Some (id, d) =>
          if n =? cur_ns s then (Ok tt, s)
          else
            let there := set_thr (set_cur n (thr s)) s in
            match find_dev (by_name (dev_name d)) there with
            | Some _ => (Err (ErrExist "EEXIST"), s)
            | None =>
                let i := match find_dev (by_index (link_index l)) there with
                         | Some _ => alloc (devs s) n | None => link_index l end in
                let d' := mkDev n (mkLink (mkAttrs i (dev_name d) 0) (Kind (dev_link d))) false []
                            (dev_peer d) (dev_no_addr_gen d) (dev_neigh_suppress d) in
                (Ok tt, set_devs (<[id := d']> (omap (release (cur_ns s) (link_index l))
                          (delete id (devs s)))) s)
            end
      end
  end.

Definition sim_VethPeerIndex (l : Link) (s : NetState) : res Z * NetState :=
  (match find_dev (by_name (link_name l)) s with
   | Some (_, d) =>
       match dev_peer d with
       | Some p => match devs s !! p with Some dp => Ok (dev_index dp) | None => Err (ExtErr "EINVAL") end
       | None => Err (ExtErr "EOPNOTSUPP")
       end
   | None => Err (ExtErr "ENODEV")
   end, s).

Definition sim_ParseAddr (a : string) : res Addr :=
  '(ip, net) ← ParseCIDR a; Ok (mkAddr (mkIPNet ip (IPNet_Mask net)) 0).
Definition print_addr (a : Addr) : string := IPNet_String (Addr_IPNet a).

Definition sim_AddrList (l : option Link) (s : NetState) : res (list Addr) * NetState :=
  match l with
  | None => (Ok [], s)
  | Some l =>
      (match find_dev (by_index (link_index l)) s with
       | Some (_, d) =>
           match traverse sim_ParseAddr (dev_addrs d) with
           | Ok as_ => if bool_decide (dev_addrs d = print_addr <$> as_) then Ok as_
                       else Err (ExtErr "EIO")
           | _ => Err (ExtErr "EIO")
           end
       | None => Err (ExtErr "ENODEV")
       end, s)
  end.

Definition sim_AddrAdd (l : option Link) (a : Addr) (s : NetState) : res unit * NetState :=
  match l with
  | None => (Err (ExtErr "ENODEV"), s)
  | Some l =>
      match find_dev (by_index (link_index l)) s with
      | Some (id, d) =>
          if bool_decide (print_addr a ∈ dev_addrs d) then (Err (ErrExist "EEXIST"), s)
          else (Ok tt, set_devs (<[id := set_addrs (dev_addrs d ++ [print_addr a]) d]> (devs s)) s)
      | None => (Err (ExtErr "ENODEV"), s)
      end
  end.

Definition on_link {A} (f : Link → NetState → res A * NetState) (l : option Link) (s : NetState)
    : res A * NetState :=
  match l with Some l => f l s | None => (Panic, s) end.

Definition neigh_request (req : NetlinkRequest) : option Z :=
  match Data req with
  | [IfInfomsg _ i; RtAttr _ [] [RtAttr 32 [1] []]] => Some i
  | _ => None
  end.

Definition sim_Execute (req : NetlinkRequest) (s : NetState) : res (list (list Z)) * NetState :=
  match neigh_request req with
  | Some i => let '(r, s') := update_dev (by_index i) set_neigh_suppress s in
              (match r with Ok _ => Ok [] | Err e => Err e | Panic => Panic end, s')
  | None => (Err (ExtErr "EOPNOTSUPP"), s)
  end.

Definition sim_open (n : Z) (s : NetState) : res Z * NetState :=
  let h := fresh_key (handles (thr s)) in
  (Ok h, set_thr (set_handles (<[h := n]> (handles (thr s))) (thr s)) s).

Definition by_file (path : string) (d : Dev) : bool :=
  bool_decide (addr_gen_mode_file (dev_name d) = path).

Definition sim_OpenFile (path : string) (s : NetState) : res Z * NetState :=
  match find_dev (by_file path) s with
  | Some _ =>
      let f := fresh_key (files (thr s)) in
      (Ok f, set_thr (set_files (<[f := path]> (files (thr s))) (thr s)) s)
  | None => (Err (ExtErr "ENOENT"), s)
  end.

Definition sim_File_Write (f : Z) (s : NetState) : res unit * NetState :=
  match files (thr s) !! f with
  | Some path => update_dev (by_file path) set_no_addr_gen s
  | None => (Err (ExtErr "EBADF"), s)
  end.

Definition route_matches (rt : Route) (x : Z * Route) (s : NetState) : bool :=
  (x.1 =? cur_ns s) && (Route_Table x.2 =? Route_Table rt)
  && Equal (IPNet_IP (Dst x.2)) (IPNet_IP (Dst rt))
  && bool_decide (Mask_String (IPNet_Mask (Dst x.2)) = Mask_String (IPNet_Mask (Dst rt))).

Definition sim_netlink : Netlink NetState := {|
  LinkByName n := run_thr lim (sim_lookup (by_name n));
  LinkByIndex i := run_thr lim (sim_lookup (by_index i));
  LinkList := run_thr lim (λ s, (Ok (dev_link <$> (filter (λ d, dev_ns d = cur_ns s) (map_to_list (devs s)).*2)), s));
  LinkAdd l := run lim (sim_LinkAdd l);
  LinkDel l := run lim (sim_LinkDel l);
  LinkSetUp := λ l, run lim (on_link (λ l, update_dev (by_index (link_index l)) (set_up [])) l);
  LinkSetMaster := λ l m, run lim (on_link (λ l,
    update_dev (by_index (link_index l)) (set_master (link_index m))) l);
  LinkSetNsFd l h := run lim (sim_LinkSetNsFd l h);
  VethPeerIndex l := run_thr lim (sim_VethPeerIndex l);
  AddrList l _ := run_thr lim (sim_AddrList l);
  AddrAdd l a := run lim (sim_AddrAdd l a);
  AddrDel := λ l a, run lim (on_link (λ l, update_dev (by_index (link_index l))
    (λ d, set_addrs (filter (.≠ print_addr a) (dev_addrs d)) d)) l);
  ParseAddr := sim_ParseAddr;
  RouteListFiltered _ rt _ := run_thr lim (λ s,
    (Ok (filter (λ x, route_matches rt x s = true) (routes s)).*2, s));
  RouteAdd rt := run_thr lim (λ s, (Ok tt, mkState (thr s) (named s) (devs s) (routes s ++ [(cur_ns s, rt)])));
  Execute req _ _ := run lim (sim_Execute req);
  netns_Get := run_thr lim (λ s, sim_open (cur_ns s) s);
  netns_GetFromName name := run_thr lim (λ s,
    match named s !! name with Some n => sim_open n s | None => (Err (ExtErr "ENOENT"), s) end);
  netns_Set h := run_thr lim (λ s, match handles (thr s) !! h with
    | Some n => (Ok tt, set_thr (set_cur n (thr s)) s) | None => (Err (ExtErr "EBADF"), s) end);
  netns_Close h := run_thr lim (λ s, (Ok tt, set_thr (set_handles (delete h (handles (thr s))) (thr s)) s));
  LockOSThread := run_thr lim (λ s, (Ok tt, set_thr (set_locks (locks (thr s) + 1) (thr s)) s));
  UnlockOSThread := run_thr lim (λ s, (Ok tt, set_thr (set_locks (locks (thr s) + -1) (thr s)) s));
  OpenFile p _ _ := run_thr lim (sim_OpenFile p);
  File_Write f _ := run lim (sim_File_Write f);
  File_Close f := run_thr lim (λ s, (Ok tt, set_thr (set_files (delete f (files (thr s))) (thr s)) s)) |}.
End sim.

(** ** The laws *)
Section sim_laws.
Variable lim : limit.
Variable alloc : gmap positive Dev → Z → Z.
#[local] Instance sim_here : View NetState := limited_view lim.

Lemma find_at P s i id d :
  (∀ d, P d = true → dev_index d = i) → find_dev P s = Some (id, d) → dev_at s (cur_ns s) i id d.
Proof. intros HP (Hd & Hns & Hi)%find_dev_Some. split_and!; auto. Qed.
Lemma find_index i s id d :
  find_dev (by_index i) s = Some (id, d) → dev_at s (cur_ns s) i id d.
Proof. apply find_at. by intros d' ?%Z.eqb_eq. Qed.

Lemma sim_LinkAdd_spec l s :
  LinkAdd_spec l s (sim_LinkAdd alloc l s).1 (sim_LinkAdd alloc l s).2.
Proof.
  unfold sim_LinkAdd, LinkAdd_spec. destruct (find_dev _ _) as [[? ?]|]; [done|].
  set (id := fresh_id (devs s)). set (i := alloc (devs s) (cur_ns s)).
  assert (devs s !! id = None) as Hid by apply fresh_id_None.
  assert (realises l (cur_ns s) (new_dev l (Kind l) (cur_ns s) i None)) as Hreal.
  { split_and!; try done. apply same_kind_refl. }
  destruct (Kind l) as [| |peer| | |] eqn:Ek; cbn; (split; [done|split; [done|]]); intros l' [= <-];
    (split; [done|]).
  3:{ set (m := <[id := _]> (devs s)). set (idp := fresh_id m).
    assert (m !! idp = None) as Hidp by apply fresh_id_None.
    assert (idp ≠ id) as Hne. { intros E. unfold m in Hidp. by rewrite E lookup_insert_eq in Hidp. }
    unfold m in Hidp. rewrite lookup_insert_ne in Hidp; [|by apply not_eq_sym].
    exists id, (new_dev l (Veth "") (cur_ns s) i (Some idp)).
    split; [done|]. split; [split_and!; [done..|by rewrite Ek]|]. split; [done|]. split; [done|].
    split; [done|]. exists idp, (new_dev (mkLink (mkAttrs 0 peer 0) (Veth "")) (Veth "")
      (cur_ns s) (alloc m (cur_ns s)) (Some id)). by split_and!. }
  all: eexists id, _; split; [done|]; split; [exact Hreal|]; by split_and!.
Qed.

Lemma sim_LinkDel_spec l s :
  LinkDel_spec l s (sim_LinkDel (Some l) s).1 (sim_LinkDel (Some l) s).2.
Proof.
  unfold sim_LinkDel, LinkDel_spec. destruct (find_dev _ _) as [[id d]|] eqn:E; cbn; [|done].
  apply find_index in E. split_and!; try done. intros _. exists id, d. split; [done|].
  intros id'. rewrite lookup_omap. case_bool_decide as Hg.
  - destruct (dev_peer d) as [p|] eqn:Ep.
    + destruct Hg as [->|[= ->]]; [|by rewrite lookup_delete_eq].
      destruct (decide (p = id)) as [->|?]; [by rewrite lookup_delete_eq|].
      by rewrite lookup_delete_ne // lookup_delete_eq.
    + destruct Hg as [->|?]; [by rewrite lookup_delete_eq|done].
  - assert (id' ≠ id ∧ dev_peer d ≠ Some id') as [Hne Hp] by tauto. destruct (dev_peer d) as [p|] eqn:Ep.
    + rewrite lookup_delete_ne; [|congruence]. rewrite lookup_delete_ne //. by apply not_eq_sym.
    + rewrite lookup_delete_ne //. by apply not_eq_sym.
Qed.

Lemma sim_LinkSetNsFd_spec l fd s :
  LinkSetNsFd_spec l fd s (sim_LinkSetNsFd alloc (Some l) fd s).1 (sim_LinkSetNsFd alloc (Some l) fd s).2.
Proof.
  unfold sim_LinkSetNsFd, LinkSetNsFd_spec. destruct (handles (thr s) !! fd) as [n|] eqn:En; [|done].
  destruct (find_dev (by_index (link_index l)) s) as [[id d]|] eqn:E; [|done].
  apply find_index in E. destruct (Z.eqb_spec n (cur_ns s)) as [->|Hne]; cbn.
  { split_and!; try done. intros _. exists (cur_ns s), id, d. by rewrite Z.eqb_refl. }
  destruct (find_dev (by_name (dev_name d)) _) as [[? ?]|] eqn:Ename; cbn; [done|].
  split_and!; try done. intros _. exists n, id, d. split_and!; try done.
  destruct (Z.eqb_spec n (cur_ns s)); [done|]. split.
  - intros id' d' (Hd' & Hns' & Hn').
    pose proof (find_dev_None _ _ id' d' Ename Hd' Hns') as Hf.
    unfold by_name in Hf. by rewrite bool_decide_true in Hf.
  - eexists. rewrite lookup_insert_eq. split; [done|]. cbn. split_and!; try done; [by apply list_subseteq_nil|..].
    + intros Hfree. destruct (find_dev (by_index (link_index l)) _) as [[id' d']|] eqn:Ei; [|done].
      apply find_index in Ei. by destruct (Hfree id' d').
    + intros id' Hid'. rewrite lookup_insert_ne; [|by apply not_eq_sym].
      rewrite lookup_omap lookup_delete_ne //. by apply not_eq_sym.
Qed.

Lemma sim_AddrAdd_spec l a s :
  AddrAdd_spec l a s (sim_AddrAdd (Some l) a s).1 (sim_AddrAdd (Some l) a s).2.
Proof.
  unfold sim_AddrAdd, AddrAdd_spec, print_addr. destruct (find_dev _ _) as [[id d]|] eqn:E; [|done].
  apply find_index in E. case_bool_decide; cbn; split_and!; try done.
  - intros _. by exists id, d.
  - by exists id, d.
Qed.

Lemma sim_AddrList_spec l s :
  AddrList_spec l s (sim_AddrList (Some l) s).1 (sim_AddrList (Some l) s).2.
Proof.
  unfold sim_AddrList, AddrList_spec. cbn. split; [done|].
  destruct (find_dev _ _) as [[id d]|] eqn:E; [|done]. apply find_index in E.
  destruct (traverse sim_ParseAddr (dev_addrs d)) as [as_|e|]; [|done..].
  case_bool_decide; [|done]. split; [done|]. intros ? [= <-]. by exists id, d.
Qed.

Lemma sim_VethPeerIndex_spec l s :
  VethPeerIndex_spec l s (sim_VethPeerIndex l s).1 (sim_VethPeerIndex l s).2.
Proof.
  unfold sim_VethPeerIndex, VethPeerIndex_spec. cbn. split; [done|].
  destruct (find_dev _ _) as [[id d]|] eqn:E; [|done].
  apply find_dev_Some in E as (Hd & Hns & Hn%bool_decide_eq_true).
  destruct (dev_peer d) as [p|] eqn:Ep; [|done].
  destruct (devs s !! p) as [dp|] eqn:Edp; [|done]. split; [done|]. intros i [= <-].
  exists id, d, p, dp. by split_and!.
Qed.

Lemma sim_Execute_spec req s :
  Execute_spec req s (sim_Execute req s).1 (sim_Execute req s).2.
Proof.
  unfold sim_Execute, Execute_spec. destruct (neigh_request req) as [j|] eqn:Ej; [|done].
  pose proof (update_dev_spec j set_neigh_suppress (λ d d', d' = set_neigh_suppress d) s
    ltac:(done)) as (Hs & Hr & Hok).
  destruct (update_dev _ _ _) as [r s']. cbn in *. split; [done|].
  split; [by destruct r|]. intros i o -> Hro. injection Ej as ->.
  destruct r as [[]| |]; try done. destruct (Hok eq_refl) as (id & d & d' & Hat & -> & Hd).
  by exists id, d.
Qed.

Lemma sim_open_spec n s :
  ∃ h, (sim_open n s).1 = Ok h ∧ handles (thr s) !! h = None
    ∧ (sim_open n s).2 = set_thr (set_handles (<[h := n]> (handles (thr s))) (thr s)) s.
Proof. eexists. split; [done|]. split; [apply fresh_key_None|done]. Qed.

Lemma sim_OpenFile_spec path s :
  OpenFile_spec path s (sim_OpenFile path s).1 (sim_OpenFile path s).2.
Proof.
  unfold sim_OpenFile, OpenFile_spec. destruct (find_dev _ _) as [x|]; [|done]. cbn.
  split; [done|]. split; [apply fresh_key_None|done].
Qed.

Lemma addr_gen_mode_file_inj n n' : addr_gen_mode_file n = addr_gen_mode_file n' → n = n'.
Proof.
  unfold addr_gen_mode_file. intros Heq%string_app_inj_r. by apply string_app_inj_l in Heq.
Qed.

Lemma sim_File_Write_spec f t s :
  File_Write_spec f t s (sim_File_Write f s).1 (sim_File_Write f s).2.
Proof.
  unfold sim_File_Write, File_Write_spec, update_dev.
  destruct (files (thr s) !! f) as [path|]; [|done].
  destruct (find_dev _ _) as [[id d]|] eqn:E; [|done].
  apply find_dev_Some in E as (Hd & Hns & Hp%bool_decide_eq_true). cbn.
  split; [done|]. split; [done|]. intros name _ [= ->] _. exists id, d.
  split; [|done]. split_and!; try done. by apply addr_gen_mode_file_inj.
Qed.

Lemma sim_LinkList_spec s :
  LinkList_spec s (Ok (dev_link <$> filter (λ d, dev_ns d = cur_ns s) (map_to_list (devs s)).*2)) s.
Proof.
  split; [done|]. split; [done|]. intros ls [= <-] l. rewrite list_elem_of_fmap. split.
  - intros (d & -> & [Hns Hd]%list_elem_of_filter). apply list_elem_of_fmap in Hd as ([id d'] & -> & Hd).
    apply elem_of_map_to_list in Hd. by exists id, d'.
  - intros (id & d & Hd & Hns & ->). exists d. split; [done|]. apply list_elem_of_filter.
    split; [done|]. apply list_elem_of_fmap. exists (id, d). split; [done|]. by apply elem_of_map_to_list.
Qed.

Lemma sim_RouteList_spec fam rt f s :
  RouteListFiltered_spec fam rt f s (Ok (filter (λ x, route_matches rt x s = true) (routes s)).*2) s.
Proof.
  split; [done|]. split; [done|]. intros rs [= <-] _ _ x. rewrite list_elem_of_fmap. split.
  - intros ([n r] & -> & [Hm Hin]%list_elem_of_filter). unfold route_matches in Hm. cbn in Hm |- *.
    apply andb_prop in Hm as [[[->%Z.eqb_eq Ht%Z.eqb_eq]%andb_prop Hip]%andb_prop Hmask%bool_decide_eq_true].
    by split_and!.
  - intros (Hin & Ht & Hip & Hmask). exists (cur_ns s, x). split; [done|].
    apply list_elem_of_filter. split; [|done]. unfold route_matches. cbn.
    by rewrite Z.eqb_refl Ht Z.eqb_refl Hip bool_decide_true.
Qed.

Lemma sat_update i f g :
  (∀ d, g d (f d)) → sat (run lim (update_dev (by_index i) f)) (update_spec i g).
Proof. intros Hg. apply sat_run. intros s. split; [by apply update_dev_spec|done]. Qed.
Lemma sat_nil {A} (R : NetState → res A → NetState → Prop) (f : Link → NetState → res A * NetState) :
  (∀ s, R s Panic s) → (∀ s e, R s (Err e) s) → sat (run lim (on_link f None)) R.
Proof. intros Hp He. apply sat_run. intros s. by split. Qed.

Lemma sim_ParseAddr_spec : ParseAddr_spec (W:=NetState) (H:=sim_netlink lim alloc).
Proof.
  intros a x _ Hx. change (sim_ParseAddr a = Ok x) in Hx. unfold sim_ParseAddr in Hx.
  inv_ok. destruct x0 as [ip net]. inv_ok. by exists ip, net.
Qed.

Lemma sim_laws : @NetlinkLaws NetState (sim_netlink lim alloc) (limited_view lim).
Proof.
  split; cbn [LinkByName LinkByIndex LinkList LinkAdd LinkDel LinkSetUp LinkSetMaster
    LinkSetNsFd VethPeerIndex AddrList AddrAdd AddrDel RouteListFiltered RouteAdd Execute
    netns_Get netns_GetFromName netns_Set netns_Close LockOSThread UnlockOSThread OpenFile
    File_Write File_Close sim_netlink].
  - intros w. apply sim_view_wf.
  - intros n. apply sat_run_thr. intros s. split; [done|]. apply sim_lookup_spec.
    intros d. apply bool_decide_eq_true.
  - intros i. apply sat_run_thr. intros s. split; [done|]. apply sim_lookup_spec.
    intros d. apply Z.eqb_eq.
  - apply sat_run_thr. intros s. split; [done|]. apply sim_LinkList_spec.
  - intros l. apply sat_run. intros s. split; [apply sim_LinkAdd_spec|done].
  - intros l. apply sat_run. intros s. split; [apply sim_LinkDel_spec|done].
  - intros l. apply sat_update. intros d. exists []. by split.
  - intros l m. by apply sat_update.
  - intros l h. apply sat_run. intros s. split; [apply sim_LinkSetNsFd_spec|done].
  - intros l. apply sat_run_thr. intros s. split; [done|]. apply sim_VethPeerIndex_spec.
  - intros l f. apply sat_run_thr. intros s. split; [done|]. apply sim_AddrList_spec.
  - intros l a. apply sat_run. intros s. split; [apply sim_AddrAdd_spec|done].
  - intros l a. by apply sat_update.
  - apply sim_ParseAddr_spec.
  - intros rt. apply sat_run_thr. intros s. by split.
  - intros fam rt f. apply sat_run_thr. intros s. split; [done|]. apply sim_RouteList_spec.
  - intros req p t. apply sat_run. intros s. split; [apply sim_Execute_spec|done].
  - apply sat_run_thr. intros s. split; [done|].
    destruct (sim_open_spec (cur_ns s) s) as (h & -> & Hh & ->). by split.
  - intros n. apply sat_run_thr. intros s.
    destruct (named s !! n) as [k|] eqn:En; [|done]. split; [done|].
    destruct (sim_open_spec k s) as (h & -> & Hh & ->). split; [done|]. by exists k.
  - intros h. apply sat_run_thr. intros s. unfold Set_spec.
    destruct (handles (thr s) !! h) as [n|]; (split; [done|]); [right; by exists n|left; by eexists].
  - intros h. apply sat_run_thr. intros s. by split.
  - apply sat_run_thr. intros s. by split.
  - apply sat_run_thr. intros s. by split.
  - intros p f m. apply sat_run_thr. intros s. split; [|apply sim_OpenFile_spec].
    unfold sim_OpenFile. by destruct (find_dev _ _).
  - intros f t. apply sat_run. intros s. split; [apply sim_File_Write_spec|done].
  - intros f. apply sat_run_thr. intros s. by split.
  - split_and!; intros; try (apply sat_nil; done).
    + apply sat_run. intros s. cbn. destruct (handles (thr s) !! h); by split.
    + apply sat_run_thr. intros s. by split.
    + apply sat_run. intros s. by split.
Qed.
End sim_laws.

(** ** Two ways of giving indexes out *)
Definition max_index (m : gmap positive Dev) : Z :=
  foldr Z.max 0 ((λ x : positive * Dev, dev_index x.2) <$> map_to_list m).
(** Never one that is in use anywhere on the machine; 0, which is none, when the
    search does not end. *)
Definition indexes (m : gmap positive Dev) : gset Z :=
  list_to_set ((λ x : positive * Dev, dev_index x.2) <$> map_to_list m).
Definition alloc_global (m : gmap positive Dev) (_ : Z) : Z :=
  match findFree_loop (S (size m)) (indexes m) 1 with
  | Some (Ok i) => i
  | _ => 0
  end.
(** Like Linux: each namespace counts on its own. *)
Definition alloc_per_ns (m : gmap positive Dev) (ns : Z) : Z :=
  1 + max_index (filter (λ x, dev_ns x.2 = ns) m).

Lemma elem_of_indexes m i : i ∈ indexes m ↔ ∃ id d, m !! id = Some d ∧ dev_index d = i.
Proof.
  unfold indexes. rewrite elem_of_list_to_set list_elem_of_fmap. split.
  - intros ([id d] & -> & Hd%elem_of_map_to_list). by exists id, d.
  - intros (id & d & Hd & <-). exists (id, d). split; [done|]. by apply elem_of_map_to_list.
Qed.

Lemma alloc_global_fresh m ns id d :
  (∀ i e, m !! i = Some e → 0 < dev_index e) → m !! id = Some d → dev_index d ≠ alloc_global m ns.
Proof.
  intros Hpos Hd Hi. unfold alloc_global in Hi.
  pose proof (Hpos id d Hd). destruct (findFree_loop _ _ _) as [[i|e|]|] eqn:E; try lia.
  apply findFree_loop_Ok in E as [_ Hni]. apply Hni, elem_of_indexes. by exists id, d.
Qed.

#[export] Instance sim_global : Netlink NetState := sim_netlink (room sim_cap) alloc_global.
#[export] Instance sim_global_laws : NetlinkLaws NetState := sim_laws (room sim_cap) alloc_global.

(** ** Numbers of their own *)
Lemma apart_insert s s' id d :
  devs s' = <[id := d]> (devs s) →
  (∀ id' d', id' ≠ id → devs s !! id' = Some d' → dev_index d' ≠ dev_index d) → legs_apart s →
  legs_apart s'.
Proof.
  intros Hs' Hne Hs. apply legs_apart_intro. intros id1 d1 id2 d2. rewrite Hs' !lookup_insert_Some.
  intros [[<- <-]|[Hn1 H1]] Hl [[<- <-]|[Hn2 H2]] Hi; [done| | |exact (leg_alone _ _ _ _ _ Hs H1 Hl H2 Hi)].
  - by destruct (Hne _ _ (not_eq_sym Hn2) H2).
  - by destruct (Hne _ _ (not_eq_sym Hn1) H1).
Qed.

Section sim_untroubled.
Variable lim : limit.
#[local] Instance sim_there : View NetState := limited_view lim.

Lemma fresh_for s ns : wf s → ∀ id d, devs s !! id = Some d → dev_index d ≠ alloc_global (devs s) ns.
Proof.
  intros Hwf id d. apply alloc_global_fresh. intros i e He. exact (proj1 (wf_index_range _ Hwf _ _ He)).
Qed.

Lemma sim_LinkAdd_apart l s :
  wf s → wf (sim_LinkAdd alloc_global l s).2 → legs_apart s → legs_apart (sim_LinkAdd alloc_global l s).2.
Proof.
  intros Hwf. unfold sim_LinkAdd. destruct (find_dev _ _); [done|].
  set (id := fresh_id (devs s)). set (i := alloc_global (devs s) (cur_ns s)).
  assert (∀ d s', devs s' = <[id := d]> (devs s) → dev_index d = i → legs_apart s → legs_apart s') as Hone.
  { intros d s' Hs' Hi. apply (apart_insert s s' id d Hs'). intros id' d' _. rewrite Hi. by apply fresh_for. }
  destruct (Kind l); intros Hwf' Hs; try (by eapply Hone).
  set (d0 := new_dev l (Veth "") (cur_ns s) i None) in *. set (m := <[id := d0]> (devs s)) in *.
  set (dp := new_dev _ _ _ (alloc_global m (cur_ns s)) _) in *. set (d := new_dev _ _ _ i (Some _)) in *.
  assert (m !! fresh_id m = None) as Hidp by apply fresh_id_None.
  assert (fresh_id m ≠ id) as Hid. { intros Heq. rewrite Heq in Hidp. unfold m in Hidp. by rewrite lookup_insert_eq in Hidp. }
  apply (apart_insert (set_devs (<[id := d]> (devs s)) s) _ (fresh_id m) dp); [by apply insert_insert_ne, not_eq_sym| |by eapply Hone].
  assert (0 < i) as Hi.
  { refine (proj1 (wf_index_range _ Hwf' id d _)). cbn. by rewrite lookup_insert_eq. }
  intros id' d' Hne. cbn [devs set_devs]. rewrite lookup_insert_Some.
  assert (∀ j e, m !! j = Some e → dev_index e ≠ dev_index dp) as Hfresh.
  { intros j e. apply alloc_global_fresh. intros k f. unfold m. rewrite lookup_insert_Some.
    intros [[_ <-]|[_ Hf]]; [done|exact (proj1 (wf_index_range _ Hwf _ _ Hf))]. }
  intros [[<- <-]|[Hn Hd']].
  - refine (Hfresh id d0 _). unfold m. by rewrite lookup_insert_eq.
  - apply (Hfresh id'). unfold m. by rewrite lookup_insert_ne.
Qed.

Lemma sim_LinkSetNsFd_apart l h s :
  wf s → legs_apart s → legs_apart (sim_LinkSetNsFd alloc_global l h s).2.
Proof.
  intros Hwf Hs. unfold sim_LinkSetNsFd. destruct l as [l|]; [|done].
  destruct (handles (thr s) !! h) as [n|]; [|done].
  destruct (find_dev (by_index (link_index l)) s) as [[id d]|] eqn:E; [|done].
  apply (find_index (link_index l)) in E as (Hd & Hns & Hi). destruct (n =? cur_ns s); [done|].
  destruct (find_dev (by_name _) _); [done|]. set (i := match find_dev _ _ with Some _ => _ | None => _ end). cbn.
  set (m := omap _ _).
  assert (∀ j e, m !! j = Some e → j ≠ id ∧ ∃ e0, devs s !! j = Some e0 ∧ dev_name e = dev_name e0
    ∧ dev_peer e = dev_peer e0 ∧ dev_index e = dev_index e0) as Hm.
  { intros j e. unfold m. rewrite lookup_omap. destruct (decide (j = id)) as [->|Hj]; [by rewrite lookup_delete_eq|].
    rewrite lookup_delete_ne; [|by apply not_eq_sym]. destruct (devs s !! j) as [e0|]; [|done]. cbn.
    intros Hr. split; [done|]. exists e0. destruct (release_same _ _ _ _ Hr) as (? & ? & ? & ?). by split_and!. }
  assert (legs_apart (set_devs m s)) as Hm'.
  { apply (legs_apart_from s); [|done]. intros j e [_ (e0 & ? & ? & ? & ?)]%Hm. by exists e0. }
  unfold i. destruct (find_dev (by_index (link_index l)) (set_thr _ _)) eqn:Et.
  - eapply (apart_insert (set_devs m s) _ id); [reflexivity| |done]. intros j e _ [_ (e0 & He0 & _ & _ & Hie)]%Hm.
    rewrite Hie. exact (fresh_for s n Hwf j e0 He0).
  - apply (legs_apart_from s); [|done]. intros j e. cbn. rewrite lookup_insert_Some.
    intros [[<- <-]|[_ [_ (e0 & ? & ? & ? & ?)]%Hm]]; [by exists d|by exists e0].
Qed.

Lemma sat_run_wf {A} (f : NetState → res A * NetState) (R : NetState → NetState → Prop) :
  (∀ s, wf s → wf (f s).2 → R s (f s).2) → (∀ s, R s s) → sat (run lim f) (λ s _ s', R s s').
Proof.
  intros Hf HR w r w'. unfold run. pose proof (Hf _ (sim_view_wf lim w)) as Hok.
  pose proof (view_permits lim w) as Hw. destruct (f (view w)) as [r0 s0]. case_bool_decide as Hs0; intros [= <- <-].
  - rewrite (sim_view_id lim s0) //. by apply Hok, (permits_wf lim).
  - by rewrite (sim_view_id lim (view w)).
Qed.

Lemma sim_untroubled : @Untroubled NetState (sim_netlink lim alloc_global) (limited_view lim).
Proof.
  split.
  - intros l. apply (sat_run_wf _ (λ s s', legs_apart s → legs_apart s')); [|done]. intros s. apply sim_LinkAdd_apart.
  - intros l h. apply (sat_run_wf _ (λ s s', legs_apart s → legs_apart s')); [|done]. intros s Hwf _.
    by apply sim_LinkSetNsFd_apart.
  - intros h. apply sat_run_thr. intros s. destruct (handles (thr s) !! h); split; done.
  - intros w r w' Hr e ->. exact (sim_lookup_err _ _ _ _ _ Hr).
Qed.

(** Its calls fail as a whole. *)
Lemma stops_run {A} (f : NetState → res A * NetState) :
  (∀ s, (∃ a, (f s).1 = Ok a) ∨ devs (f s).2 = devs s) → stops (run lim f).
Proof. intros Hf. apply sat_run. intros s. split; [apply Hf|by right]. Qed.
Lemma stops_update P f s : (∃ a, (update_dev P f s).1 = Ok a) ∨ devs (update_dev P f s).2 = devs s.
Proof. unfold update_dev. destruct (find_dev P s) as [[]|]; [left; by exists tt|by right]. Qed.
Lemma stops_on_link (f : Link → NetState → res unit * NetState) l :
  (∀ l s, (∃ a, (f l s).1 = Ok a) ∨ devs (f l s).2 = devs s) → stops (run lim (on_link f l)).
Proof. intros Hf. apply stops_run. intros s. destruct l; [apply Hf|by right]. Qed.

Lemma sim_fail_stop alloc : @FailStop NetState (sim_netlink lim alloc) (limited_view lim).
Proof.
  split; cbn [LinkAdd LinkDel LinkSetUp LinkSetMaster LinkSetNsFd AddrAdd AddrDel Execute File_Write sim_netlink].
  - intros l. apply sat_run. intros s. split; [|by right; left]. unfold sim_LinkAdd.
    destruct (find_dev _ _) as [[]|]; [by right; left|]. left. destruct (Kind l); by eexists.
  - intros l. apply stops_run. intros s. unfold sim_LinkDel.
    repeat case_match; cbn; first [by right|by left; exists tt].
  - intros l. apply stops_on_link. intros. apply stops_update.
  - intros l m. apply stops_on_link. intros. apply stops_update.
  - intros l h. apply stops_run. intros s. unfold sim_LinkSetNsFd.
    repeat case_match; cbn; first [by right|by left; exists tt].
  - intros l a. apply stops_run. intros s. unfold sim_AddrAdd.
    repeat case_match; cbn; first [by right|by left; exists tt].
  - intros l a. apply stops_on_link. intros. apply stops_update.
  - intros r p t. apply stops_run. intros s. unfold sim_Execute. destruct (neigh_request r) as [i|]; [|by right].
    destruct (stops_update (by_index i) set_neigh_suppress s) as [[a Ha]|Hd];
      destruct (update_dev _ _ s) as [x s']; cbn in *; [left; subst; by eexists|by right].
  - intros f t. apply stops_run. intros s. unfold sim_File_Write. destruct (_ !! f); [apply stops_update|by right].
Qed.
End sim_untroubled.
#[export] Instance sim_global_stop : FailStop NetState := sim_fail_stop (room sim_cap) alloc_global.
#[export] Instance sim_global_untroubled : Untroubled NetState := sim_untroubled (room sim_cap).

(** ** A node for the witnesses

    Namespace 0 is the host's, namespace 1 the router's, where [SetupUnderlay]
    has made the loopback.  Each has a device 1, as on Linux. *)
Definition sample_dev (ns i : Z) (n : string) (k : LinkKind) (addrs : list string) : Dev :=
  mkDev ns (mkLink (mkAttrs i n 0) k) true addrs None false false.
Definition sample_host : list (positive * Dev) :=
  [(20%positive, sample_dev 0 1 "lo" (OtherLink "device") ["127.0.0.1/8"; "::1/128"]);
   (21%positive, sample_dev 1 1 "lo" (OtherLink "device") ["127.0.0.1/8"; "::1/128"]);
   (1%positive, sample_dev 0 2 "eth0" (OtherLink "device") ["10.0.0.1/24"]);
   (2%positive, sample_dev 0 3 "toswitch" (OtherLink "device") ["192.168.11.3/24"])].
Definition sample_state (l : list (positive * Dev)) : NetState :=
  mkState (mkThread 0 ∅ 0 ∅) {["router" := 1]} (list_to_map (sample_host ++ l)) [].
Definition ready_state : NetState :=
  sample_state [(3%positive, sample_dev 1 4 "lound" Dummy ["100.65.0.0/32"])].
Definition sample_params : VNIParams.t :=
  VNIParams.mk "red" "router" "100.65.0.0/32" "192.169.10.1/24" "192.169.10.0/24"
    100 4789.

(** Facts about every device of a concrete state, by computation. *)
Lemma each_dev (P : positive → Dev → Prop) (m : gmap positive Dev)
    `{!∀ id d, Decision (P id d)} :
  bool_decide (map_Forall P m) = true → ∀ id d, m !! id = Some d → P id d.
Proof. intros Hb%bool_decide_eq_true. exact Hb. Qed.

Lemma two_devs (P : positive → Dev → positive → Dev → Prop) (m : gmap positive Dev)
    `{!∀ i d j e, Decision (P i d j e)} :
  bool_decide (map_Forall (λ i d, map_Forall (P i d) m) m) = true →
  ∀ i d j e, m !! i = Some d → m !! j = Some e → P i d j e.
Proof. intros Hb%bool_decide_eq_true i d j e Hi. exact (Hb i d Hi j e). Qed.

Lemma sample_canonical a ip net :
  no_char " " a = true → ParseCIDR a = Ok (ip, net) →
  IPNet_String (mkIPNet ip (IPNet_Mask net)) = a → canonical_addr NetState a.
Proof. apply canonical_of_net. Qed.
Ltac solve_canonical := eapply sample_canonical; [vm_compute; reflexivity..].
