(* ===== verification/SimProgress.v ===== *)
(** * The kernel in miniature refuses nothing without a reason

    The kernel of the file SimKernel grants what the documented conditions of the file
    Progress say a kernel grants, with room for a thousand devices: the conditions can
    hold together with the laws. *)

From S2P Require Import Prelude GoStrings GoNet HostParams Netlink Troubles NetLogic HostLinks LinkSpecs.
From S2P Require Import Progress SimKernel.
Local Open Scope Z_scope.

Section sim_progress.
Variable cap : nat.
Hypothesis (Hcap : Z.of_nat cap + 1 < 2 ^ 31).
#[local] Instance sim_spot : View NetState := limited_view (room cap).
Notation sim_ok := (sim_ok cap).
Notation run := (run (room cap)).
Notation run_thr := (run_thr (room cap)).
Lemma sim_view_ok w : sim_ok (devs (view w)).
Proof. exact (view_permits (room cap) w). Qed.

(** ** Operations that end *)
Lemma can_run {A} (f : NetState → res A * NetState) pre :
  (∀ s, sim_ok (devs s) → pre s → ends_ok (f s).1 ∧ sim_ok (devs (f s).2)) → can (run f) pre.
Proof.
  intros Hf w r w'. unfold run. intros Hr Hpre. destruct (Hf _ (sim_view_ok w) Hpre) as [Hok Hs].
  destruct (f (view w)) as [x s']. cbn in *. rewrite bool_decide_true // in Hr. by injection Hr as <- _.
Qed.
Lemma can_run_thr {A} (f : NetState → res A * NetState) (pre : NetState → Prop) :
  (∀ s, sim_ok (devs s) → pre s → ends_ok (f s).1) → can (run_thr f) pre.
Proof.
  intros Hf w r w'. unfold run_thr. intros Hr Hpre. specialize (Hf _ (sim_view_ok w) Hpre).
  by rewrite Hr in Hf.
Qed.

(** ** Lookup finds *)
Lemma find_dev_found P s id d :
  devs s !! id = Some d → dev_ns d = cur_ns s → P d = true →
  ∃ id' d', find_dev P s = Some (id', d').
Proof.
  intros Hd Hns HP. destruct (find_dev P s) as [[id' d']|] eqn:E; [by exists id', d'|].
  pose proof (find_dev_None _ _ _ _ E Hd Hns). congruence.
Qed.
Lemma find_dev_absent P s :
  (∀ id d, devs s !! id = Some d → dev_ns d = cur_ns s → P d = false) → find_dev P s = None.
Proof.
  intros Hno. destruct (find_dev P s) as [[id d]|] eqn:E; [|done].
  apply find_dev_Some in E as (Hd & Hns & HP). rewrite (Hno _ _ Hd Hns) in HP. done.
Qed.
Lemma find_index_at s i id d :
  sim_ok (devs s) → dev_at s (cur_ns s) i id d → find_dev (by_index i) s = Some (id, d).
Proof.
  intros [Hwf%wf_devs_wf _] Hat. pose proof Hat as (Hd & Hns & Hi).
  destruct (find_dev_found (by_index i) s id d) as (id' & d' & E); [done..|by apply Z.eqb_eq|].
  rewrite E. apply find_index in E. assert (id' = id) as -> by exact (wf_index _ Hwf _ _ _ _ _ _ E Hat).
  destruct E as [E _]. congruence.
Qed.
Lemma find_name_at s n id d :
  sim_ok (devs s) → dev_named s (cur_ns s) n id d → find_dev (by_name n) s = Some (id, d).
Proof.
  intros [Hwf%wf_devs_wf _] Hat. pose proof Hat as (Hd & Hns & Hn).
  destruct (find_dev_found (by_name n) s id d) as (id' & d' & E);
    [done..|by unfold by_name; rewrite bool_decide_true|].
  rewrite E. apply find_dev_Some in E as (Hd' & Hns' & Hn'%bool_decide_eq_true).
  assert (id' = id) as -> by (apply (wf_name _ Hwf (cur_ns s) n id' d' id d); [by split_and!|exact Hat]). congruence.
Qed.
Lemma find_name_absent s n : absent s (cur_ns s) n → find_dev (by_name n) s = None.
Proof.
  intros Hno. apply find_dev_absent. intros id d Hd Hns. unfold by_name. apply bool_decide_eq_false.
  intros Hn. by apply (Hno id d).
Qed.

(** ** Well-formed devices stay so *)
Definition dev_ok (d : Dev) : Prop :=
  (0 < dev_index d ∧ dev_index d < 2 ^ 31) ∧ Forall (λ a, readable a = true) (dev_addrs d)
  ∧ (dev_peer d ≠ None → is_veth (dev_link d) = true).
Definition pair_ok (id1 : positive) (d1 : Dev) (id2 : positive) (d2 : Dev) : Prop :=
  (dev_ns d1 = dev_ns d2 ∧ dev_index d1 = dev_index d2 → id1 = id2)
  ∧ (dev_ns d1 = dev_ns d2 ∧ dev_name d1 = dev_name d2 → id1 = id2)
  ∧ (dev_peer d1 = Some id2 → dev_peer d2 = Some id1 ∧ id1 ≠ id2).

Lemma wf_devs_alt m : wf_devs m ↔
  (∀ id d, m !! id = Some d → dev_ok d)
  ∧ ∀ id1 d1 id2 d2, m !! id1 = Some d1 → m !! id2 = Some d2 → pair_ok id1 d1 id2 d2.
Proof.
  split.
  - intros Hwf. split.
    + intros id d Hd. destruct (Hwf id d Hd) as (? & ? & ? & _). unfold dev_ok. tauto.
    + intros id1 d1 id2 d2 Hd1 Hd2. destruct (Hwf id1 d1 Hd1) as (_ & _ & _ & Hp). exact (Hp id2 d2 Hd2).
  - intros [Ho Hp] id d Hd. destruct (Ho id d Hd) as (? & ? & ?). split_and!; try done; try tauto.
    intros id2 d2 Hd2. exact (Hp id d id2 d2 Hd Hd2).
Qed.

(** Devices that go, or keep their identity. *)
Definition same_place (d d' : Dev) : Prop :=
  dev_ns d' = dev_ns d ∧ dev_index d' = dev_index d ∧ dev_name d' = dev_name d
  ∧ dev_peer d' = dev_peer d ∧ Kind (dev_link d') = Kind (dev_link d).
Lemma wf_devs_image m m' :
  wf_devs m →
  (∀ id d', m' !! id = Some d' → ∃ d, m !! id = Some d ∧ same_place d d'
    ∧ Forall (λ a, readable a = true) (dev_addrs d')) →
  wf_devs m'.
Proof.
  rewrite !wf_devs_alt. intros [Ho Hp] Him. split.
  - intros id d' Hd'. destruct (Him id d' Hd') as (d & Hd & (Hns & Hi & Hn & Hpe & Hk) & Ha).
    destruct (Ho id d Hd) as (Hr & _ & Hv). split_and!; rewrite ?Hi; try apply Hr; [done|].
    rewrite Hpe. unfold is_veth in *. by rewrite Hk.
  - intros id1 d1' id2 d2' Hd1' Hd2'.
    destruct (Him _ _ Hd1') as (d1 & Hd1 & (E1 & E2 & E3 & E4 & _) & _).
    destruct (Him _ _ Hd2') as (d2 & Hd2 & (F1 & F2 & F3 & F4 & _) & _).
    unfold pair_ok. rewrite E1 E2 E3 E4 F1 F2 F3 F4. exact (Hp _ _ _ _ Hd1 Hd2).
Qed.
Lemma wf_devs_insert m id d :
  wf_devs m → dev_ok d → dev_peer d ≠ Some id →
  (∀ id2 d2, m !! id2 = Some d2 → id2 ≠ id → pair_ok id d id2 d2 ∧ pair_ok id2 d2 id d) →
  wf_devs (<[id := d]> m).
Proof.
  rewrite !wf_devs_alt. intros [Ho Hp] Hd Hnp Hpair. split.
  - intros id1 d1. rewrite lookup_insert_Some. intros [[<- <-]|[_ Hd1]]; [done|exact (Ho _ _ Hd1)].
  - intros id1 d1 id2 d2. rewrite !lookup_insert_Some.
    intros [[<- <-]|[Hn1 H1]] [[<- <-]|[Hn2 H2]].
    + split_and!; done.
    + exact (proj1 (Hpair _ _ H2 ltac:(congruence))).
    + exact (proj2 (Hpair _ _ H1 ltac:(congruence))).
    + exact (Hp _ _ _ _ H1 H2).
Qed.

Lemma release_place ns i d d' :
  release ns i d = Some d' → same_place d d' ∧ dev_addrs d' = dev_addrs d.
Proof. unfold release. repeat case_match; try done; by intros [= <-]. Qed.

Lemma size_omap_le {A} (f : A → option A) (m : gmap positive A) : (size (omap f m) ≤ size m)%nat.
Proof. rewrite -!size_dom. apply subseteq_size, dom_omap_subseteq. Qed.

(** One device changes, and keeps its identity and readable addresses. *)
Lemma update_ok P f s id d :
  sim_ok (devs s) → find_dev P s = Some (id, d) → same_place d (f d) →
  Forall (λ a, readable a = true) (dev_addrs (f d)) →
  ends_ok (update_dev P f s).1 ∧ sim_ok (devs (update_dev P f s).2).
Proof.
  intros [Hwf Hsize] Hfind Hf Ha. unfold update_dev. rewrite Hfind. cbn.
  apply find_dev_Some in Hfind as (Hd & _ & _). split; [by eexists|]. split.
  - apply (wf_devs_image (devs s)); [done|]. intros id' d'. rewrite lookup_insert_Some.
    intros [[<- <-]|[_ Hd']]; [by exists d|]. exists d'. split; [done|]. split; [by split_and!|].
    apply (Hwf _ _ Hd').
  - rewrite map_size_insert Hd. cbn. exact Hsize.
Qed.
Lemma addrs_readable s id d :
  sim_ok (devs s) → devs s !! id = Some d → Forall (λ a, readable a = true) (dev_addrs d).
Proof. intros [Hwf _] Hd. apply (Hwf id d Hd). Qed.

(** ** New indexes *)
Lemma size_indexes m : (size (indexes m) ≤ size m)%nat.
Proof.
  unfold indexes. rewrite -length_map_to_list. generalize (map_to_list m). intros l.
  induction l as [|x l IH]; cbn; [rewrite size_empty; lia|].
  rewrite size_union_alt size_singleton. etransitivity; [|apply le_n_S, IH].
  apply le_n_S, subseteq_size. set_solver.
Qed.
Lemma pigeon_from (taken : gset Z) r (n : nat) :
  (∀ j, r ≤ j < r + Z.of_nat n → j ∈ taken) → (n ≤ size taken)%nat.
Proof.
  intros Hall. assert (list_to_set (C:=gset Z) (seqZ r (Z.of_nat n)) ⊆ taken) as Hsub.
  { intros j Hj%elem_of_list_to_set%elem_of_seqZ. apply Hall. lia. }
  apply subseteq_size in Hsub. rewrite size_list_to_set in Hsub; [|apply NoDup_seqZ].
  by rewrite length_seqZ Nat2Z.id in Hsub.
Qed.
Lemma alloc_global_bounds m ns :
  (size m ≤ cap)%nat → 0 < alloc_global m ns ∧ alloc_global m ns < 2 ^ 31.
Proof.
  intros Hsize. unfold alloc_global. pose proof (size_indexes m) as Hle.
  destruct (findFree_loop_spec (S (size m)) (indexes m) 1)
    as [(i & -> & Hi & _)|[_ Hall]]; [lia|unfold MaxUint32; lia|lia|].
  apply pigeon_from in Hall. lia.
Qed.
Lemma alloc_fresh m ns id d :
  wf_devs m → m !! id = Some d → dev_index d ≠ alloc_global m ns.
Proof. intros Hwf Hd. eapply alloc_global_fresh; [|exact Hd]. intros i e He. apply (Hwf _ _ He). Qed.

(** A device that was not there is added. *)
Lemma add_ok m id d :
  wf_devs m → m !! id = None → dev_ok d →
  (∀ id2 d2, m !! id2 = Some d2 →
    (dev_ns d2 = dev_ns d → dev_index d2 ≠ dev_index d) ∧ (dev_ns d2 = dev_ns d → dev_name d2 ≠ dev_name d)
    ∧ (dev_peer d2 = Some id ↔ dev_peer d = Some id2)) →
  dev_peer d ≠ Some id → wf_devs (<[id := d]> m).
Proof.
  intros Hwf Hno Hd Hnew Hp. apply wf_devs_insert; try done. intros id2 d2 Hd2 Hne.
  destruct (Hnew _ _ Hd2) as (Hi & Hn & Hpe). unfold pair_ok.
  split; split_and!.
  - intros [H1 H2]. by destruct (Hi (eq_sym H1)).
  - intros [H1 H2]. by destruct (Hn (eq_sym H1)).
  - intros H. split; [by apply Hpe|by apply not_eq_sym].
  - intros [H1 H2]. by destruct (Hi H1).
  - intros [H1 H2]. by destruct (Hn H1).
  - intros H. split; [by apply Hpe|done].
Qed.

(** ** Making, deleting and moving a device *)
Lemma new_dev_ok l k ns i p :
  0 < i ∧ i < 2 ^ 31 → (p ≠ None → ∃ n, k = Veth n) → dev_ok (new_dev l k ns i p).
Proof. intros Hi Hp. split_and!; try apply Hi; [constructor|]. intros Hne. by destruct (Hp Hne) as [n ->]. Qed.

Lemma sim_LinkAdd_ok l s :
  sim_ok (devs s) → addable l s → (size (devs s) + 2 ≤ cap)%nat →
  ends_ok (sim_LinkAdd alloc_global l s).1 ∧ sim_ok (devs (sim_LinkAdd alloc_global l s).2).
Proof.
  intros [Hwf Hsize] [_ Hfree _ Hk] Hroom. unfold sim_LinkAdd. rewrite (find_name_absent _ _ Hfree).
  set (id := fresh_id (devs s)). set (i := alloc_global (devs s) (cur_ns s)).
  assert (devs s !! id = None) as Hid by apply fresh_id_None.
  assert (∀ k, wf_devs (<[id := new_dev l k (cur_ns s) i None]> (devs s))) as Hone.
  { intros k. apply add_ok; [done|done| | |done].
    - apply new_dev_ok; [by apply alloc_global_bounds|done].
    - intros id2 d2 Hd2. split; [intros _; exact (alloc_fresh _ _ _ _ Hwf Hd2)|]. split.
      + intros Hns Hn. by apply (Hfree id2 d2).
      + split; [|done]. intros Hp. by destruct (fresh_id_peer _ _ _ Hd2). }
  assert (∀ d, size (<[id := d]> (devs s)) = S (size (devs s))) as Hs1
    by (intros d; by rewrite map_size_insert Hid).
  destruct (Kind l) as [| |peer| | |]; cbn; (split; [by eexists|]); try (split; [apply Hone|rewrite Hs1; lia]).
  destruct Hk as (_ & Hne & Hpeer). set (m := <[id := _]> (devs s)). set (idp := fresh_id m).
  assert (m !! idp = None) as Hidp by apply fresh_id_None.
  assert (idp ≠ id) as Hnid by (intros E; unfold m in Hidp; by rewrite E lookup_insert_eq in Hidp).
  unfold m in Hidp. rewrite lookup_insert_ne in Hidp; [|by apply not_eq_sym].
  pose proof (Hone (Veth "")) as Hwfm. fold m in Hwfm.
  assert (size m = S (size (devs s))) as Hsm by apply Hs1.
  set (dp := new_dev _ _ _ (alloc_global m (cur_ns s)) _). set (d := new_dev _ _ _ i (Some _)).
  assert (∀ id2 d2, devs s !! id2 = Some d2 → m !! id2 = Some d2) as Hm.
  { intros id2 d2 Hd2. unfold m. rewrite lookup_insert_ne //. intros Heq. congruence. }
  split.
  - apply add_ok; [apply add_ok; [done|done| | |]|by rewrite lookup_insert_ne| | |].
    + apply new_dev_ok; [apply alloc_global_bounds; lia|eauto].
    + intros id2 d2 Hd2. split; [intros _; exact (alloc_fresh _ _ _ _ Hwfm (Hm _ _ Hd2))|]. split.
      * intros Hns Hn. by apply (Hpeer id2 d2).
      * split; [intros Hp; by destruct (fresh_id_peer m id2 d2 (Hm _ _ Hd2))|]. cbn. congruence.
    + cbn. congruence.
    + apply new_dev_ok; [by apply alloc_global_bounds|eauto].
    + intros id2 d2. rewrite lookup_insert_Some. intros [[<- <-]|[Hn2 Hd2]].
      * split; [|split; [|done]]; cbn; intros _.
        -- intros Heq. apply (alloc_fresh m (cur_ns s) id (new_dev l (Veth "") (cur_ns s) i None) Hwfm);
           [apply lookup_insert_eq|by symmetry].
        -- congruence.
      * split; [intros _; exact (alloc_fresh _ _ _ _ Hwf Hd2)|]. split.
        -- intros Hns Hn. by apply (Hfree id2 d2).
        -- split; [intros Hp; by destruct (fresh_id_peer _ _ _ Hd2)|]. cbn. congruence.
    + cbn. congruence.
  - rewrite map_size_insert lookup_insert_ne // Hid map_size_insert Hidp. lia.
Qed.

(** Devices that are left, as they were or released. *)
Lemma released_ok ns i m m' :
  wf_devs m → (∀ id d', m' !! id = Some d' → ∃ d, m !! id = Some d ∧ release ns i d = Some d') →
  wf_devs m'.
Proof.
  intros Hwf Hr. apply (wf_devs_image m); [done|]. intros id d' Hd'.
  destruct (Hr _ _ Hd') as (d & Hd & [Hs Ha]%release_place). exists d. rewrite Ha.
  split; [done|]. split; [done|]. apply (Hwf _ _ Hd).
Qed.

Lemma sim_LinkDel_ok l s id d :
  sim_ok (devs s) → dev_at s (cur_ns s) (link_index l) id d →
  ends_ok (sim_LinkDel (Some l) s).1 ∧ sim_ok (devs (sim_LinkDel (Some l) s).2).
Proof.
  intros Hok Hat. unfold sim_LinkDel. rewrite (find_index_at _ _ _ _ Hok Hat). cbn.
  destruct Hok as [Hwf Hsize]. split; [by eexists|]. set (m := match dev_peer d with Some p => _ | None => _ end).
  assert (m ⊆ devs s) as Hsub.
  { unfold m. destruct (dev_peer d); [|apply delete_subseteq].
    etransitivity; apply delete_subseteq. }
  split.
  - apply (released_ok (cur_ns s) (link_index l) (devs s)); [done|]. intros id' d'. rewrite lookup_omap.
    destruct (m !! id') as [e|] eqn:He; [|done]. intros Hr. exists e.
    split; [exact (lookup_weaken _ _ _ _ He Hsub)|exact Hr].
  - etransitivity; [apply size_omap_le|]. etransitivity; [|exact Hsize]. by apply map_subseteq_size.
Qed.

Lemma sim_LinkSetNsFd_ok l h s n id d :
  sim_ok (devs s) → handles (thr s) !! h = Some n → dev_at s (cur_ns s) (link_index l) id d →
  n = cur_ns s ∨ absent s n (dev_name d) →
  ends_ok (sim_LinkSetNsFd alloc_global (Some l) h s).1
  ∧ sim_ok (devs (sim_LinkSetNsFd alloc_global (Some l) h s).2).
Proof.
  intros Hok Hh Hat Hfree. unfold sim_LinkSetNsFd. rewrite Hh (find_index_at _ _ _ _ Hok Hat).
  destruct (Z.eqb_spec n (cur_ns s)) as [->|Hne]; [by split; [eexists|]|].
  destruct Hfree as [Hfree|Hfree]; [done|]. set (there := set_thr (set_cur n (thr s)) s).
  rewrite (find_name_absent there) //. set (i := match find_dev _ there with Some _ => _ | None => _ end). cbn.
  destruct Hok as [Hwf Hsize]. pose proof (proj1 (wf_devs_alt _) Hwf) as [Ho Hp].
  pose proof Hat as (Hd & Hns & Hi). split; [by eexists|]. split.
  - set (m := omap _ _).
    assert (∀ id' d', m !! id' = Some d' → id' ≠ id ∧ ∃ e, devs s !! id' = Some e ∧ same_place e d') as Hm.
    { intros id' d'. unfold m. rewrite lookup_omap.
      destruct (decide (id' = id)) as [->|Hn]; [by rewrite lookup_delete_eq|].
      rewrite lookup_delete_ne; [|by apply not_eq_sym]. destruct (devs s !! id') as [e|]; [|done].
      intros [Hpl _]%release_place.
      split; [done|by exists e]. }
    assert (0 < i ∧ i < 2 ^ 31) as Hib.
    { unfold i. destruct (find_dev _ _); [by apply alloc_global_bounds|]. rewrite -Hi. exact (proj1 (Ho _ _ Hd)). }
    assert (∀ id' e, devs s !! id' = Some e → dev_ns e = n → dev_index e ≠ i) as Hif.
    { intros id' e He Hen Hei. unfold i in Hei. destruct (find_dev _ there) eqn:E.
      - by apply (alloc_fresh _ _ _ _ Hwf He) in Hei.
      - pose proof (find_dev_None _ _ _ _ E He Hen) as Hb. unfold by_index in Hb.
        rewrite Hei Z.eqb_refl in Hb. done. }
    apply add_ok.
    + apply (released_ok (cur_ns s) (link_index l) (devs s)); [done|]. intros id' d' Hd'.
      unfold m in Hd'. rewrite lookup_omap in Hd'. destruct (delete id (devs s) !! id') as [e|] eqn:He; [|done].
      exists e. split; [|exact Hd']. by apply lookup_delete_Some in He as [_ He].
    + destruct (m !! id) as [d'|] eqn:E; [|done]. by destruct (Hm _ _ E).
    + split_and!; try apply Hib; [constructor|]. apply (Ho _ _ Hd).
    + intros id' d' Hd'. destruct (Hm _ _ Hd') as (Hn & e & He & (E1 & E2 & E3 & E4 & _)).
      rewrite E1 E2 E3 E4. cbn. split; [exact (Hif _ _ He)|]. split.
      * intros Hen Hnm. by apply (Hfree id' e).
      * split; intros Hpe; [exact (proj1 (proj2 (proj2 (Hp _ _ _ _ He Hd)) Hpe))|exact (proj1 (proj2 (proj2 (Hp _ _ _ _ Hd He)) Hpe))].
    + cbn. intros Hpe. by destruct (proj2 (proj2 (proj2 (Hp _ _ _ _ Hd Hd)) Hpe)).
  - assert (size (delete id (devs s)) = Nat.pred (size (devs s))) as Hdel by by rewrite map_size_delete Hd.
    assert (0 < size (devs s))%nat by (apply Nat.neq_0_lt_0; intros Hz; apply map_size_empty_iff in Hz; by rewrite Hz in Hd).
    pose proof (size_omap_le (release (cur_ns s) (link_index l)) (delete id (devs s))) as Hle.
    rewrite map_size_insert. destruct (omap _ _ !! id); cbn; lia.
Qed.

(** ** Addresses *)
Lemma sim_ParseAddr_readable a :
  readable a = true → ∃ x, sim_ParseAddr a = Ok x ∧ print_addr x = a.
Proof.
  intros (_ & ip & net & Hp & Hs)%readable_spec. eexists. unfold sim_ParseAddr. rewrite Hp. cbn.
  split; [reflexivity|]. exact Hs.
Qed.
Lemma traverse_readable l :
  Forall (λ a, readable a = true) l → ∃ xs, traverse sim_ParseAddr l = Ok xs ∧ l = print_addr <$> xs.
Proof.
  induction 1 as [|a l Ha _ (xs & Hxs & ->)]; [by exists []|].
  destruct (sim_ParseAddr_readable a Ha) as (x & Hx & Hpx). exists (x :: xs). cbn [traverse].
  rewrite Hx. cbn. rewrite Hxs. cbn. by rewrite Hpx.
Qed.

Lemma sim_AddrList_ok l s id d :
  sim_ok (devs s) → dev_at s (cur_ns s) (link_index l) id d → ends_ok (sim_AddrList (Some l) s).1.
Proof.
  intros Hok Hat. unfold sim_AddrList. rewrite (find_index_at _ _ _ _ Hok Hat). cbn.
  destruct (traverse_readable (dev_addrs d)) as (xs & -> & Heq); [exact (addrs_readable _ _ _ Hok (proj1 Hat))|].
  rewrite bool_decide_true //. by eexists.
Qed.

Lemma sim_AddrAdd_ok l a s id d :
  sim_ok (devs s) → dev_at s (cur_ns s) (link_index l) id d → readable (print_addr a) = true →
  (ends_ok (sim_AddrAdd (Some l) a s).1 ∧ sim_ok (devs (sim_AddrAdd (Some l) a s).2))
  ∨ print_addr a ∈ dev_addrs d ∧ ∃ e, sim_AddrAdd (Some l) a s = (Err (ErrExist e), s).
Proof.
  intros Hok Hat Ha. unfold sim_AddrAdd. rewrite (find_index_at _ _ _ _ Hok Hat).
  case_bool_decide as Hin; [by right; split; [|eexists]|left].
  pose proof (update_ok (by_index (link_index l)) (λ d, set_addrs (dev_addrs d ++ [print_addr a]) d) s id d Hok
    (find_index_at _ _ _ _ Hok Hat)) as Hup.
  unfold update_dev in Hup. rewrite (find_index_at _ _ _ _ Hok Hat) in Hup. apply Hup; [done|].
  cbn. apply Forall_app. split; [exact (addrs_readable _ _ _ Hok (proj1 Hat))|by constructor].
Qed.

(** ** What is asked in messages and files *)
Lemma neigh_suppress_asks i : neigh_request (neigh_suppress_request i) = Some i.
Proof. reflexivity. Qed.

Lemma sim_Execute_suppresses s i id d :
  sim_ok (devs s) → dev_at s (cur_ns s) i id d →
  ends_ok (sim_Execute (neigh_suppress_request i) s).1
  ∧ sim_ok (devs (sim_Execute (neigh_suppress_request i) s).2).
Proof.
  intros Hok Hat. unfold sim_Execute. rewrite neigh_suppress_asks.
  pose proof (update_ok _ set_neigh_suppress s id d Hok (find_index_at _ _ _ _ Hok Hat) ltac:(done)
    (addrs_readable _ _ _ Hok (proj1 Hat))) as [[[] Hr] Hs].
  destruct (update_dev _ _ _) as [x s']. cbn in *. subst x. split; [by eexists|done].
Qed.

Lemma sim_file_found s id d :
  devs s !! id = Some d → dev_ns d = cur_ns s →
  ∃ i' d', find_dev (by_file (addr_gen_mode_file (dev_name d))) s = Some (i', d').
Proof.
  intros Hd Hns. apply (find_dev_found _ s id d); [done..|by unfold by_file; rewrite bool_decide_true].
Qed.

(** ** The instance *)
Lemma sim_progress : @NetlinkProgress NetState (sim_netlink (room cap) alloc_global) (limited_view (room cap)) cap.
Proof.
  split; cbn [LinkByName LinkByIndex LinkList LinkAdd LinkDel LinkSetUp LinkSetMaster
    LinkSetNsFd VethPeerIndex AddrList AddrAdd AddrDel ParseAddr Execute netns_Get netns_GetFromName OpenFile
    File_Write sim_netlink].
  - exact Hcap.
  - intros w. apply sim_view_ok.
  - intros w id d a Hd Ha. pose proof (addrs_readable _ _ _ (sim_view_ok w) Hd) as Hall.
    rewrite list.Forall_forall in Hall. by apply Hall.
  - intros n w r w' Hr e ->. exact (sim_lookup_err _ _ _ _ _ Hr).
  - intros i w r w' Hr e ->. exact (sim_lookup_err _ _ _ _ _ Hr).
  - apply can_run_thr. intros s _ _. by eexists.
  - intros l. apply can_run. intros s Hok [Hadd Hroom]. by apply sim_LinkAdd_ok.
  - intros l. apply can_run. intros s Hok (id & d & Hat & _). by apply (sim_LinkDel_ok l s id d).
  - intros l. apply can_run. intros s Hok (id & d & Hat). cbn [on_link].
    apply (update_ok _ _ _ id d Hok (find_index_at _ _ _ _ Hok Hat)); [done|].
    cbn. rewrite app_nil_r. exact (addrs_readable _ _ _ Hok (proj1 Hat)).
  - intros l m. apply can_run. intros s Hok ((id & d & Hat & _) & _). cbn [on_link].
    apply (update_ok _ _ _ id d Hok (find_index_at _ _ _ _ Hok Hat)); [done|].
    exact (addrs_readable _ _ _ Hok (proj1 Hat)).
  - intros l h. apply can_run. intros s Hok (n & id & d & Hh & Hat & _ & Hfree).
    by apply (sim_LinkSetNsFd_ok l h s n id d).
  - intros l. apply can_run_thr. intros s Hok (id & d & idp & dp & Hn & Hp & Hdp). unfold sim_VethPeerIndex.
    rewrite (find_name_at _ _ _ _ Hok Hn) Hp Hdp. by eexists.
  - intros l f. apply can_run_thr. intros s Hok (id & d & Hat). by apply (sim_AddrList_ok l s id d).
  - intros l a w r w'. unfold run. intros Hr id d Hat Ha.
    destruct (sim_AddrAdd_ok l a _ id d (sim_view_ok w) Hat Ha) as [[He Hs]|(Hin & e & He)].
    + left. destruct (sim_AddrAdd (Some l) a (view w)) as [x s']. rewrite bool_decide_true // in Hr.
      by injection Hr as <- _.
    + right. split; [done|]. rewrite He bool_decide_true in Hr; [|apply sim_view_ok].
      injection Hr as <- _. by eexists.
  - intros l a. apply can_run. intros s Hok (id & d & Hat & _). cbn [on_link].
    apply (update_ok _ _ _ id d Hok (find_index_at _ _ _ _ Hok Hat)); [done|].
    cbn. apply list.Forall_forall. intros x [_ Hx]%list_elem_of_filter.
    pose proof (addrs_readable _ _ _ Hok (proj1 Hat)) as Hall. rewrite list.Forall_forall in Hall. by apply Hall.
  - intros a Ha. destruct (sim_ParseAddr_readable a Ha) as (x & Hx & _). by exists x.
  - intros i p t. apply can_run. intros s Hok (id & d & _ & _ & Hat & _).
    by apply (sim_Execute_suppresses s i id d).
  - apply can_run_thr. intros s _ _. by eexists.
  - intros n. apply can_run_thr. intros s _ [k Hk]. rewrite Hk. by eexists.
  - intros n f m. apply can_run_thr. intros s Hok (id & d & Hd & Hns & <-). unfold sim_OpenFile.
    destruct (sim_file_found s id d Hd Hns) as (i' & d' & ->). by eexists.
  - intros f t. apply can_run. intros s Hok (n & id & d & Hf & Hd & Hns & <-). unfold sim_File_Write.
    rewrite Hf. destruct (sim_file_found s id d Hd Hns) as (i' & d' & E).
    apply (update_ok _ _ _ i' d' Hok E); [done|]. apply find_dev_Some in E as [E _].
    exact (addrs_readable _ _ _ Hok E).
Qed.
End sim_progress.
#[export] Instance sim_global_progress : NetlinkProgress NetState sim_cap := sim_progress sim_cap ltac:(unfold sim_cap; lia).
