(* ===== verification/Refusals.v ===== *)
(** * A kernel that refuses

    Any kernel, made to refuse some of its calls.  It still satisfies the laws, and its
    calls fail as the file Faults says if they did before. *)

From S2P Require Import Prelude GoStrings GoNet HostParams Netlink Troubles NetLogic LinkSpecs Faults.
Local Open Scope Z_scope.

(** ** Calls that are refused *)

(** The kernel sets no masters of devices that are there, or of those it just made, it
    does not add some addresses, or it does not let the thread into some namespaces. *)
Record refusals := mkRefusals {
  refuse_masters : bool;
  refuse_enslaved : bool;
  refuse_address : string → bool;
  refuse_entry : Z → bool }.

Definition refused {W A} (b : bool) (m : go W A) : go W A := if b then fail (ExtErr "EPERM") else m.

Section refusing.
Context {W : Type} `{View W} (x : refusals) (kernel : Netlink W).

Definition refusing : Netlink W := {|
  LinkByName := LinkByName; LinkByIndex := LinkByIndex; LinkList := LinkList;
  LinkAdd l :=
    if refuse_enslaved x && negb (link_master l =? 0)
    then _ ← LinkAdd (set_MasterIndex 0 l); fail (ExtErr "EBUSY") else LinkAdd l;
  LinkDel := LinkDel; LinkSetUp := LinkSetUp;
  LinkSetMaster l m := refused (refuse_masters x) (LinkSetMaster l m);
  LinkSetNsFd := LinkSetNsFd; VethPeerIndex := VethPeerIndex; AddrList := AddrList;
  AddrAdd l a := refused (refuse_address x (IPNet_String (Addr_IPNet a))) (AddrAdd l a);
  AddrDel := AddrDel; ParseAddr := ParseAddr (W:=W); RouteListFiltered := RouteListFiltered;
  RouteAdd := RouteAdd; Execute := Execute; netns_Get := netns_Get; netns_GetFromName := netns_GetFromName;
  netns_Set h := λ w, refused (default false (refuse_entry x <$> handles (thr (view w)) !! h)) (netns_Set h) w;
  netns_Close := netns_Close; LockOSThread := LockOSThread;
  UnlockOSThread := UnlockOSThread; OpenFile := OpenFile; File_Write := File_Write; File_Close := File_Close |}.

Lemma sat_refused {A} b (m : go W A) R :
  sat m R → (∀ s, R s (Err (ExtErr "EPERM")) s) → sat (refused b m) R.
Proof. intros Hm HR. destruct b; [|done]. intros w r w' Hr. injection Hr as <- <-. apply HR. Qed.

Lemma refusing_laws : @NetlinkLaws W kernel _ → @NetlinkLaws W refusing _.
Proof.
  intros HL. pose proof HL as [L1 L2 L3 L4 L5 L6 L7 L8 L9 L10 L11 L12 L13 L14 L15 L16 L17 L18 L19 L20 L21 L22 L23 L24 L25 L26 L27].
  split; try assumption.
  - intros l. unfold LinkAdd, refusing. destruct (_ && _); [|apply L5]. apply sat_wp. intros s. apply wp_bind.
    eapply wp_sat; [apply L5|]. intros [l'|e|] s' (Hs & Hr & _); [apply wp_fail|..]; by split_and!.
  - intros l m. by apply sat_refused.
  - intros l a. by apply sat_refused.
  - intros h w r w'. unfold netns_Set, refusing, refused. destruct (default _ _); [|apply L20].
    intros Hr. injection Hr as <- <-. left. by eexists.
  - destruct L27 as (N1 & N2 & N3 & N4 & N5 & N6 & N7).
    split_and!; try assumption; intros; apply sat_refused; auto; done.
Qed.
Lemma refusing_stops :
  @NetlinkLaws W kernel _ → @FailStop W kernel _ → @FailStop W refusing _.
Proof.
  intros HL [S1 S2 S3 S4 S5 S6 S7 S8 S9]. split; try assumption.
  - intros l. unfold LinkAdd, refusing. destruct (refuse_enslaved x && _) eqn:Hb; [|apply S1].
    apply andb_prop in Hb as [_ Hm%negb_true_iff%Z.eqb_neq]. intros w r w' Hr. unfold mbind, go_bind in Hr.
    destruct (LinkAdd _ w) as [y w1] eqn:E. destruct (S1 _ _ _ _ E) as [[l' ->]|[Hd|[Hno _]]]; [| |done].
    + injection Hr as _ <-. right; right. split; [done|].
      pose proof (LinkAdd_law _ _ _ _ E) as [_ (id & d & Hadd & _)]%LinkAdd_added.
      by exists id, d.
    + right; left. destruct y; by injection Hr as _ <-.
  - intros l m. apply sat_refused; [apply S4|by right].
  - intros l a. apply sat_refused; [apply S6|by right].
Qed.
End refusing.
