(* ===== verification/Twins.v ===== *)
(** * Programs that cannot tell two kernels apart

    A function of the code is a program over the kernel interface, whatever the kernel.
    Run with two kernels whose calls answer alike and keep their worlds related, it ends
    alike in related worlds; or, where the first kernel may be [off] the track, once it is
    off it stays off.  One rule per construct of the code, then one lemma per function of
    the files HostLinks and HostNetwork. *)

From S2P Require Import Prelude GoStrings GoNet HostParams Netlink HostLinks HostNetwork.
Local Open Scope Z_scope.

(** ** Two runs *)
Section follows.
Context {W1 W2 : Type} (off : W1 → Prop) (R : W1 → W2 → Prop).

Record follows {A} (m1 : go W1 A) (m2 : go W2 A) : Prop := {
  follows_off w : off w → off (m1 w).2;
  follows_run w1 w2 : R w1 w2 →
    off (m1 w1).2 ∨ (m2 w2).1 = (m1 w1).1 ∧ R (m1 w1).2 (m2 w2).2 }.

Lemma follows_lift {A} (x y : res A) : x = y → follows (lift x) (lift y).
Proof. intros ->. split; [done|]. intros w1 w2 HR. by right. Qed.
Lemma follows_ret {A} (a : A) : follows (mret a) (mret a).
Proof. by apply (follows_lift (Ok a)). Qed.
Lemma follows_fail {A} e : follows (@fail W1 A e) (fail e).
Proof. by apply (follows_lift (Err e)). Qed.

Lemma follows_bind {A B} (m1 : go W1 A) m2 (f1 : A → go W1 B) f2 :
  follows m1 m2 → (∀ a, follows (f1 a) (f2 a)) → follows (m1 ≫= f1) (m2 ≫= f2).
Proof.
  intros [Ho Hr] Hf. unfold mbind, go_bind. split.
  - intros w Hw. specialize (Ho w Hw). destruct (m1 w) as [[a|e|] w1]; [|exact Ho..].
    by apply (follows_off _ _ (Hf a)).
  - intros w1 w2 HR. specialize (Hr w1 w2 HR). destruct (m1 w1) as [x w1'], (m2 w2) as [y w2']. cbn in Hr.
    destruct Hr as [Hoff|[-> HR']].
    + left. destruct x as [a|e|]; [by apply (follows_off _ _ (Hf a))|exact Hoff..].
    + destruct x as [a|e|]; [by apply (follows_run _ _ (Hf a))|by right..].
Qed.

(** What only changes the outcome. *)
Lemma follows_outcome {A B} (g : res A → res B) (m1 : go W1 A) m2 (n1 : go W1 B) n2 :
  follows m1 m2 → (∀ w, n1 w = (g (m1 w).1, (m1 w).2)) → (∀ w, n2 w = (g (m2 w).1, (m2 w).2)) →
  follows n1 n2.
Proof.
  intros [Ho Hr] H1 H2. split; [intros w; rewrite H1; apply Ho|].
  intros w1 w2 HR. rewrite H1 H2. cbn. destruct (Hr w1 w2 HR) as [?|[-> ?]]; [by left|by right].
Qed.
Lemma follows_on_err {A} g (m1 : go W1 A) m2 : follows m1 m2 → follows (on_errM g m1) (on_errM g m2).
Proof.
  intros Hm. apply (follows_outcome (on_err g) m1 m2); [done|..];
    (intros w; unfold on_errM; by destruct (_ w)).
Qed.
Lemma follows_attempt {A} (m1 : go W1 A) m2 : follows m1 m2 → follows (attempt m1) (attempt m2).
Proof.
  intros Hm. apply (follows_outcome (λ r, match r with
    | Ok a => Ok (inl a) | Err e => Ok (inr e) | Panic => Panic end) m1 m2); [done|..];
    (intros w; unfold attempt; by destruct (_ w) as [[]]).
Qed.

Lemma follows_deferring {A B} (d1 : go W1 B) d2 (m1 : go W1 A) m2 :
  follows d1 d2 → follows m1 m2 →
  follows (deferring (ignored d1) m1) (deferring (ignored d2) m2).
Proof.
  intros [Hdo Hdr] [Ho Hr]. unfold deferring, ignored. split.
  - intros w Hw. specialize (Ho w Hw). destruct (m1 w) as [x w']. by apply Hdo.
  - intros w1 w2 HR. specialize (Hr w1 w2 HR). destruct (m1 w1) as [x w1'], (m2 w2) as [y w2']. cbn in *.
    destruct Hr as [Hoff|[-> HR']]; [left; by apply Hdo|].
    destruct (Hdr _ _ HR') as [?|[_ ?]]; [by left|by right].
Qed.
Lemma follows_forM {A} (f1 : A → go W1 unit) f2 l :
  (∀ x, follows (f1 x) (f2 x)) → follows (forM_ f1 l) (forM_ f2 l).
Proof. intros Hf. induction l as [|x l IH]; cbn [forM_]; [apply follows_ret|]. by apply follows_bind. Qed.

(** ** Two kernels *)
Class Twins `{Netlink W1, Netlink W2} : Prop := {
  twin_LinkByName n : follows (LinkByName n) (LinkByName n);
  twin_LinkByIndex i : follows (LinkByIndex i) (LinkByIndex i);
  twin_LinkList : follows LinkList LinkList;
  twin_LinkAdd l : follows (LinkAdd l) (LinkAdd l);
  twin_LinkDel l : follows (LinkDel l) (LinkDel l);
  twin_LinkSetUp l : follows (LinkSetUp l) (LinkSetUp l);
  twin_LinkSetMaster l m : follows (LinkSetMaster l m) (LinkSetMaster l m);
  twin_LinkSetNsFd l h : follows (LinkSetNsFd l h) (LinkSetNsFd l h);
  twin_VethPeerIndex l : follows (VethPeerIndex l) (VethPeerIndex l);
  twin_AddrList l f : follows (AddrList l f) (AddrList l f);
  twin_AddrAdd l a : follows (AddrAdd l a) (AddrAdd l a);
  twin_AddrDel l a : follows (AddrDel l a) (AddrDel l a);
  twin_ParseAddr a : ParseAddr (W:=W1) a = ParseAddr (W:=W2) a;
  twin_RouteListFiltered f r m : follows (RouteListFiltered f r m) (RouteListFiltered f r m);
  twin_RouteAdd r : follows (RouteAdd r) (RouteAdd r);
  twin_Execute r p t : follows (Execute r p t) (Execute r p t);
  twin_Get : follows netns_Get netns_Get;
  twin_GetFromName n : follows (netns_GetFromName n) (netns_GetFromName n);
  twin_Set h : follows (netns_Set h) (netns_Set h);
  twin_Close h : follows (netns_Close h) (netns_Close h);
  twin_Lock : follows LockOSThread LockOSThread;
  twin_Unlock : follows UnlockOSThread UnlockOSThread;
  twin_OpenFile p f m : follows (OpenFile p f m) (OpenFile p f m);
  twin_File_Write f t : follows (File_Write f t) (File_Write f t);
  twin_File_Close f : follows (File_Close f) (File_Close f) }.
End follows.
Arguments Twins {W1 W2} off R {_ _}.

Create HintDb twins.
#[export] Hint Resolve twin_LinkByName twin_LinkByIndex twin_LinkList twin_LinkAdd twin_LinkDel
  twin_LinkSetUp twin_LinkSetMaster twin_LinkSetNsFd twin_VethPeerIndex twin_AddrList twin_AddrAdd
  twin_AddrDel twin_RouteListFiltered twin_RouteAdd twin_Execute twin_Get
  twin_GetFromName twin_Set twin_Close twin_Lock twin_Unlock twin_OpenFile twin_File_Write
  twin_File_Close follows_ret follows_fail follows_lift : twins.
#[export] Hint Extern 1 (ParseAddr _ = ParseAddr _) => eapply twin_ParseAddr; eassumption : twins.

(** Follows both programs. *)
Ltac solve_follows :=
  repeat first
    [ solve [auto with twins]
    | lazymatch goal with
      | |- follows _ _ (_ ≫= _) _ => apply follows_bind; [|intros ?]
      | |- follows _ _ (on_errM _ _) _ => apply follows_on_err
      | |- follows _ _ (attempt _) _ => apply follows_attempt
      | |- follows _ _ (deferring (ignored _) _) _ => apply follows_deferring
      | |- follows _ _ (err_with_name _ _ _) _ => unfold err_with_name
      | |- follows _ _ (inNamespace _ _) _ => unfold inNamespace
      | |- follows _ _ (ensure _ _ _ _ _) _ => unfold ensure
      | |- follows _ _ (forM_ _ _) _ => apply follows_forM; intros ?
      | |- follows _ _ (match ?x with _ => _ end) _ => destruct x
      end
    | progress cbv beta iota zeta ].

(** ** The functions of the code *)
Section programs.
Context {W1 W2 : Type} (off : W1 → Prop) (R : W1 → W2 → Prop) `{Twins W1 W2 off R}.
Notation follows := (follows off R).

Lemma follows_err_with_name {A} l f (m1 : go W1 A) m2 :
  follows m1 m2 → follows (err_with_name l f m1) (err_with_name l f m2).
Proof. intros Hm. unfold err_with_name. solve_follows. Qed.
Lemma follows_inNamespace {A} ns (m1 : go W1 A) m2 :
  follows m1 m2 → follows (inNamespace ns m1) (inNamespace ns m2).
Proof. intros Hm. unfold inNamespace. solve_follows. Qed.
Hint Resolve follows_err_with_name follows_inNamespace : twins.

Lemma follows_interfaceHasIP l a : follows (interfaceHasIP l a) (interfaceHasIP l a).
Proof. unfold interfaceHasIP. solve_follows. Qed.
Hint Resolve follows_interfaceHasIP : twins.
Lemma follows_assignIP l a : follows (assignIPToInterface l a) (assignIPToInterface l a).
Proof. unfold assignIPToInterface. solve_follows. Qed.
Lemma follows_addrGenModeNone l : follows (addrGenModeNone l) (addrGenModeNone l).
Proof. unfold addrGenModeNone. solve_follows. Qed.
Lemma follows_setNeighSuppression l : follows (setNeighSuppression l) (setNeighSuppression l).
Proof. unfold setNeighSuppression. solve_follows. Qed.
Lemma follows_restoreAddress l a : follows (restoreAddress l a) (restoreAddress l a).
Proof. unfold restoreAddress. solve_follows. Qed.
Hint Resolve follows_assignIP follows_addrGenModeNone follows_setNeighSuppression
  follows_restoreAddress : twins.

Lemma follows_moveNic nic ns : follows (moveNicToNamespace nic ns) (moveNicToNamespace nic ns).
Proof. unfold moveNicToNamespace. solve_follows. Qed.

Lemma follows_ensure ok n g g' (c1 : go W1 Link) c2 :
  follows c1 c2 → follows (ensure ok n g g' c1) (ensure ok n g g' c2).
Proof. intros Hc. unfold ensure. solve_follows. Qed.
Lemma follows_createVRF name : follows (createVRF name) (createVRF name).
Proof. unfold createVRF. solve_follows. Qed.
Lemma follows_createBridge name i : follows (createBridge name i) (createBridge name i).
Proof. unfold createBridge. solve_follows. Qed.
Lemma follows_createVXLan p b : follows (createVXLan p b) (createVXLan p b).
Proof. unfold createVXLan. solve_follows. Qed.
Lemma follows_createVeth name : follows (createVeth name) (createVeth name).
Proof. unfold createVeth. solve_follows. Qed.
Hint Resolve follows_moveNic follows_ensure follows_createVRF follows_createBridge
  follows_createVXLan follows_createVeth : twins.

Lemma follows_setupVRF name : follows (setupVRF name) (setupVRF name).
Proof. unfold setupVRF. solve_follows. Qed.
Lemma follows_setupBridge p v : follows (setupBridge p v) (setupBridge p v).
Proof. unfold setupBridge. solve_follows. Qed.
Lemma follows_setupVXLan p b : follows (setupVXLan p b) (setupVXLan p b).
Proof. unfold setupVXLan. solve_follows. Qed.
Lemma follows_setupVeth name ns : follows (setupVeth name ns) (setupVeth name ns).
Proof. unfold setupVeth. solve_follows. Qed.
Hint Resolve follows_setupVRF follows_setupBridge follows_setupVXLan follows_setupVeth : twins.

Lemma follows_setupVNIInNamespace p pe : follows (setupVNIInNamespace p pe) (setupVNIInNamespace p pe).
Proof. unfold setupVNIInNamespace. solve_follows. Qed.
Hint Resolve follows_setupVNIInNamespace : twins.
Lemma follows_SetupVNI p : follows (SetupVNI p) (SetupVNI p).
Proof. unfold SetupVNI. solve_follows. Qed.

Lemma follows_clearHostLegs vrfs ls : follows (clearHostLegs vrfs ls) (clearHostLegs vrfs ls).
Proof. unfold clearHostLegs. solve_follows. Qed.
Lemma follows_clearLinks ty vnis ls f : follows (clearLinks ty vnis ls f) (clearLinks ty vnis ls f).
Proof. unfold clearLinks. solve_follows. Qed.
Lemma follows_clearVRFs vrfs ls : follows (clearVRFs vrfs ls) (clearVRFs vrfs ls).
Proof. unfold clearVRFs. solve_follows. Qed.
Hint Resolve follows_SetupVNI follows_clearHostLegs follows_clearLinks follows_clearVRFs : twins.
Lemma follows_RemoveNonConfiguredVNIs ns ps :
  follows (RemoveNonConfiguredVNIs ns ps) (RemoveNonConfiguredVNIs ns ps).
Proof. unfold RemoveNonConfiguredVNIs. solve_follows. Qed.

Lemma follows_findUnderlay ls : follows (findUnderlay ls) (findUnderlay ls).
Proof. induction ls as [|l ls IH]; cbn [findUnderlay]; solve_follows. Qed.
Hint Resolve follows_findUnderlay : twins.
Lemma follows_oldUnderlayInterface ns : follows (oldUnderlayInterface ns) (oldUnderlayInterface ns).
Proof. unfold oldUnderlayInterface. solve_follows. Qed.
Lemma follows_removeUnderlayInterface old ns :
  follows (removeUnderlayInterface old ns) (removeUnderlayInterface old ns).
Proof. unfold removeUnderlayInterface. solve_follows. Qed.
Hint Resolve follows_oldUnderlayInterface follows_removeUnderlayInterface : twins.
Lemma follows_moveUnderlayNic nic ns : follows (moveUnderlayNic nic ns) (moveUnderlayNic nic ns).
Proof. unfold moveUnderlayNic. solve_follows. Qed.
Lemma follows_setupLoopback v : follows (setupLoopback v) (setupLoopback v).
Proof. unfold setupLoopback. solve_follows. Qed.
Hint Resolve follows_moveUnderlayNic follows_setupLoopback : twins.
Lemma follows_SetupUnderlay p : follows (SetupUnderlay p) (SetupUnderlay p).
Proof. unfold SetupUnderlay. solve_follows. Qed.
End programs.
#[export] Hint Resolve follows_SetupVNI follows_RemoveNonConfiguredVNIs follows_SetupUnderlay : twins.
