(* ===== verification/Detour.v ===== *)
(** * Runs in which nothing goes wrong

    The lemmas of this development are proved for kernels where what the file Troubles
    lists never happens ([Untroubled]).  Any kernel can be made one of these: the [detour]
    follows it as long as nothing happens, and instead of the call in which something
    would happen it goes on with a spare kernel, which takes over the devices as they are
    and is never troubled.  A run without [troubles] never gets there, so what is proved
    of the detour's run is so of the kernel's own ([detour_run]). *)

From S2P Require Import Prelude GoStrings GoNet HostParams Netlink Troubles NetLogic HostLinks HostNetwork.
From S2P Require Import LinkSpecs Progress Faults Origins SimKernel SimProgress Twins.
Local Open Scope Z_scope.

(** ** The detour *)

(** A kernel that can take over in any state the other one shows. *)
Class Refuge (W F : Type) `{View W, View F} := {
  refuge : NetState → F;
  refuge_view (w : W) : view (refuge (view w)) = view w }.

Section detour.
Context {W F : Type} `{Netlink W, View W, Netlink F, View F, !Refuge W F}.

Definition detour {A} (seen : NetState → res A → NetState → list trouble) (m : go W A) (spare : go F A)
    : go (W + F) A := λ x,
  match x with
  | inl w =>
      let '(r, w1) := m w in
      match seen (view w) r (view w1) with
      | [] => (r, inl w1)
      | _ => let '(r, f) := spare (refuge (view w)) in (r, inr f)
      end
  | inr f => let '(r, f) := spare f in (r, inr f)
  end.
Notation straight m f := (detour nothing_seen m f) (only parsing).

#[export] Instance detour_view : View (W + F) :=
  λ x, match x with inl w => view w | inr f => view f end.
#[export] Instance detour_netlink : Netlink (W + F) := {|
  LinkByName n := detour (lookup_seen n) (LinkByName n) (LinkByName n);
  LinkByIndex i := straight (LinkByIndex i) (LinkByIndex i);
  LinkList := straight LinkList LinkList;
  LinkAdd l := detour clash_seen (LinkAdd l) (LinkAdd l);
  LinkDel l := straight (LinkDel l) (LinkDel l);
  LinkSetUp l := straight (LinkSetUp l) (LinkSetUp l);
  LinkSetMaster l m := straight (LinkSetMaster l m) (LinkSetMaster l m);
  LinkSetNsFd l h := detour clash_seen (LinkSetNsFd l h) (LinkSetNsFd l h);
  VethPeerIndex l := straight (VethPeerIndex l) (VethPeerIndex l);
  AddrList l f := straight (AddrList l f) (AddrList l f);
  AddrAdd l a := straight (AddrAdd l a) (AddrAdd l a);
  AddrDel l a := straight (AddrDel l a) (AddrDel l a);
  ParseAddr := ParseAddr (W:=W);
  RouteListFiltered f r m := straight (RouteListFiltered f r m) (RouteListFiltered f r m);
  RouteAdd r := straight (RouteAdd r) (RouteAdd r);
  Execute r p t := straight (Execute r p t) (Execute r p t);
  netns_Get := straight netns_Get netns_Get;
  netns_GetFromName n := straight (netns_GetFromName n) (netns_GetFromName n);
  netns_Set h := detour (entry_seen h) (netns_Set h) (netns_Set h);
  netns_Close h := straight (netns_Close h) (netns_Close h);
  LockOSThread := straight LockOSThread LockOSThread;
  UnlockOSThread := straight UnlockOSThread UnlockOSThread;
  OpenFile p f m := straight (OpenFile p f m) (OpenFile p f m);
  File_Write f t := straight (File_Write f t) (File_Write f t);
  File_Close f := straight (File_Close f) (File_Close f) |}.

(** ** It behaves like a kernel *)
Lemma sat_detour_seen {A} seen (m : go W A) (spare : go F A) (R R' : NetState → res A → NetState → Prop) :
  sat m R → sat spare R' → (∀ s r s', R s r s' → seen s r s' = [] → R' s r s') →
  sat (detour seen m spare) R'.
Proof.
  intros Hm Hf Hseen [w|f] r x; unfold detour.
  - destruct (m w) as [r1 w1] eqn:E. destruct (seen (view w) r1 (view w1)) eqn:Es.
    + intros [= <- <-]. exact (Hseen _ _ _ (Hm _ _ _ E) Es).
    + destruct (spare (refuge (view w))) as [r2 f2] eqn:E2. intros [= <- <-].
      specialize (Hf _ _ _ E2). by rewrite refuge_view in Hf.
  - destruct (spare f) as [r1 f1] eqn:E. intros [= <- <-]. exact (Hf _ _ _ E).
Qed.
Lemma sat_detour {A} seen (m : go W A) (spare : go F A) R :
  sat m R → sat spare R → sat (detour seen m spare) R.
Proof. intros Hm Hf. by apply (sat_detour_seen _ _ _ R). Qed.

#[export] Instance detour_laws `{!NetlinkLaws W, !NetlinkLaws F} : NetlinkLaws (W + F).
Proof.
  split; try (intros; apply sat_detour); try apply LinkByName_law; try apply LinkByIndex_law;
    try apply LinkList_law; try apply LinkAdd_law; try apply LinkDel_law; try apply LinkSetUp_law;
    try apply LinkSetMaster_law; try apply LinkSetNsFd_law; try apply VethPeerIndex_law;
    try apply AddrList_law; try apply AddrAdd_law; try apply AddrDel_law; try apply RouteAdd_law;
    try apply RouteListFiltered_law; try apply Execute_law; try apply Get_law; try apply GetFromName_law;
    try apply Set_law; try apply Close_law; try apply Lock_law; try apply Unlock_law;
    try apply OpenFile_law; try apply File_Write_law; try apply File_Close_law.
  - intros [w|f]; [exact (view_wf w)|exact (view_wf f)].
  - exact (ParseAddr_law (W:=W)).
  - pose proof (nil_link_law (W:=W)) as (A1 & A2 & A3 & A4 & A5 & A6 & A7).
    pose proof (nil_link_law (W:=F)) as (B1 & B2 & B3 & B4 & B5 & B6 & B7).
    split_and!; intros; by apply sat_detour.
Qed.

#[export] Instance detour_untroubled `{!NetlinkLaws W, !Untroubled F} : Untroubled (W + F).
Proof.
  assert (∀ (s s' : NetState) (P : Prop), (if bool_decide (legs_apart s') then [] else [IndexClash]) = [] →
    legs_apart s → legs_apart s') as Hclash by (intros s s' _; by case_bool_decide).
  split.
  - intros l. apply (sat_detour_seen _ _ _ (λ _ _ _, True)); [done|apply LinkAdd_apart|].
    intros s r s' _ Hs. by apply (Hclash s s' True).
  - intros l h. apply (sat_detour_seen _ _ _ (λ _ _ _, True)); [done|apply LinkSetNsFd_apart|].
    intros s r s' _ Hs. by apply (Hclash s s' True).
  - intros h. eapply sat_detour_seen; [apply Set_law|apply Set_enters|]. intros s r s' Hs Hseen n Hn.
    destruct Hs as [(e & -> & _)|(m & _ & -> & _)]; [|done]. unfold entry_seen in Hseen. by rewrite Hn in Hseen.
  - apply (sat_detour_seen _ _ _ (λ _ _ _, True)); [done|apply loopback_known|].
    intros s r s' _ Hseen e ->. unfold lookup_seen in Hseen. rewrite bool_decide_true // in Hseen.
    by destruct (is_link_not_found e).
Qed.

#[export] Instance detour_stops `{!FailStop W, !FailStop F} : FailStop (W + F).
Proof.
  split; intros; apply sat_detour;
    (apply LinkAdd_stops || apply LinkDel_stops || apply LinkSetUp_stops || apply LinkSetMaster_stops
     || apply LinkSetNsFd_stops || apply AddrAdd_stops || apply AddrDel_stops || apply Execute_stops
     || apply File_Write_stops).
Qed.

#[export] Instance detour_progress {cap} `{!NetlinkProgress W cap, !NetlinkProgress F cap} :
  NetlinkProgress (W + F) cap.
Proof.
  split; try (intros; apply sat_detour); try apply LinkByName_can; try apply LinkByIndex_can;
    try apply LinkList_can; try apply LinkAdd_can; try apply LinkDel_can; try apply LinkSetUp_can;
    try apply LinkSetMaster_can; try apply LinkSetNsFd_can; try apply VethPeerIndex_can;
    try apply AddrList_can; try apply AddrAdd_can; try apply AddrDel_can; try apply Execute_can;
    try apply Get_can; try apply GetFromName_can; try apply OpenFile_can; try apply File_Write_can.
  - exact (cap_bound (W:=W)).
  - intros [w|f]; [exact (view_room w)|exact (view_room f)].
  - intros [w|f]; [exact (view_readable w)|exact (view_readable f)].
  - exact (ParseAddr_can (W:=W)).
Qed.
End detour.

(** ** Its runs

    A program over the kernel interface, for any kernel. *)
Definition program (A : Type) : Type := ∀ W, Netlink W → go W A.
Definition uniform {A} (f : program A) : Prop :=
  ∀ W1 W2 (off : W1 → Prop) (R : W1 → W2 → Prop) K1 K2, Twins off R → follows off R (f W1 K1) (f W2 K2).

Section runs.
Context {W : Type} `{Netlink W, View W}.

Lemma watch_follows {A} seen (m : go W A) :
  follows (λ _, False) (λ x w, x.1 = w) (watch seen m) m.
Proof.
  split; [done|]. intros [w l] ? <-. right. unfold watch. cbn. by destruct (m w) as [r w1].
Qed.
Lemma watched_twins : Twins (W1:=watched W) (λ _, False) (λ x (w : W), x.1 = w).
Proof. split; intros; solve [reflexivity|apply watch_follows]. Qed.

(** Being watched changes nothing. *)
Lemma watched_run {A} (f : program A) w r w' :
  uniform f → f W _ w = (r, w') →
  f (watched W) _ (w, []) = (r, (w', troubles (f (watched W) _) w)).
Proof.
  intros Hf Hr. destruct (follows_run _ _ _ _ (Hf _ _ _ _ _ _ watched_twins) (w, []) w eq_refl) as [[]|[H1 H2]].
  unfold troubles. rewrite Hr in H1, H2. cbn in H1, H2. by destruct (f (watched W) _ _) as [r1 [w1 l]]; subst.
Qed.

Context {F : Type} `{Netlink F, View F, !Refuge W F}.

Lemma detour_follows {A} seen (m : go W A) (spare : go F A) :
  follows (λ x, x.2 ≠ []) (λ x y, x.2 = [] ∧ y = inl x.1) (watch seen m) (detour seen m spare).
Proof.
  split.
  - intros [w l] Hl. unfold watch. cbn in *. destruct (m w) as [r w1]. cbn. by destruct l.
  - intros [w l] ? [Hl ->]. cbn in Hl. subst l. unfold watch, detour. cbn. destruct (m w) as [r w1].
    cbn. destruct (seen _ _ _); cbn; [by right|by left].
Qed.
Lemma detour_twins :
  Twins (W1:=watched W) (λ x, x.2 ≠ []) (λ x (y : W + F), x.2 = [] ∧ y = inl x.1).
Proof. split; intros; solve [reflexivity|apply detour_follows]. Qed.

(** Without troubles the detour is not taken. *)
Lemma detour_run {A} (f : program A) w r w' :
  uniform f → f W _ w = (r, w') → troubles (f (watched W) _) w = [] →
  f (W + F)%type _ (inl w) = (r, inl w').
Proof.
  intros Hf Hr Ht. pose proof (watched_run f w r w' Hf Hr) as Hw. rewrite Ht in Hw.
  destruct (follows_run _ _ _ _ (Hf _ _ _ _ _ _ detour_twins) (w, []) (inl w) (conj eq_refl eq_refl)) as [Ho|[H1' H2']].
  - by rewrite Hw in Ho.
  - rewrite Hw in H1', H2'. destruct (f (W + F)%type _ _) as [r1 y]. cbn in *. destruct H2' as [_ ->]. by subst.
Qed.
Lemma from_detour {A} (f : program A) w r x :
  uniform f → troubles (f (watched W) _) w = [] → f (W + F)%type _ (inl w) = (r, x) →
  ∃ w', f W _ w = (r, w') ∧ x = inl w'.
Proof.
  intros Hf Ht Hr. rewrite (detour_run f w _ _ Hf (surjective_pairing _) Ht) in Hr. injection Hr as <- <-.
  eexists. split; [apply surjective_pairing|done].
Qed.
End runs.

(** ** The spare kernel *)

(** The kernel in miniature, which numbers a new device like no other. *)
Definition spare (lim : limit) : Type := NetState.
#[global] Typeclasses Opaque spare.
#[export] Instance spare_view lim : View (spare lim) := limited_view lim.
#[export] Instance spare_netlink lim : Netlink (spare lim) := sim_netlink lim alloc_global.
#[export] Instance spare_laws lim : NetlinkLaws (spare lim) := sim_laws lim alloc_global.
#[export] Instance spare_untroubled lim : Untroubled (spare lim) := sim_untroubled lim.
#[export] Instance spare_stops lim : FailStop (spare lim) := sim_fail_stop lim alloc_global.

(** Any kernel can be followed by one that only minds that the devices are well-formed... *)
#[export] Program Instance spare_refuge `{NetlinkLaws W} : Refuge W (spare well_formed) := {| refuge := λ s, s |}.
Next Obligation. intros W K V HL w. apply (sim_view_id well_formed), wf_shape_wf, view_wf. Qed.

(** ... and one that has no reason to refuse by one that has as much room. *)
Lemma progress_room `{NetlinkLaws W} {cap} `{!NetlinkProgress W cap} (w : W) : sim_ok cap (devs (view w)).
Proof.
  split; [|apply view_room]. apply wf_devs_shape; [apply wf_shape_wf, view_wf|].
  intros id d Hd. apply list.Forall_forall. intros a. by apply (view_readable w id d a).
Qed.
#[export] Program Instance spare_room `{NetlinkLaws W} {cap} `{!NetlinkProgress W cap} :
  Refuge W (spare (room cap)) := {| refuge := λ s, s |}.
Next Obligation. intros W K V HL cap HP w. apply (sim_view_id (room cap)), progress_room. Qed.
#[export] Instance spare_progress `{NetlinkLaws W} {cap} `{!NetlinkProgress W cap} : NetlinkProgress (spare (room cap)) cap.
Proof. apply sim_progress, (cap_bound (W:=W)). Qed.

Notation detoured W lim := (W + spare lim)%type.

(** Addresses are read alike. *)
Lemma detour_canonical `{NetlinkLaws W} {F} `{NetlinkLaws F, !Refuge W F} a :
  canonical_addr W a → canonical_addr (W + F) a.
Proof. done. Qed.
#[export] Hint Resolve detour_canonical : pierre.

(** A run of [f] without troubles is one of the detour. *)
Ltac uniform := let off := fresh "off" in intros ? ? off ? ? ? ?; solve_follows.
Ltac by_detour lim f Hr Ht :=
  apply (detour_run (F:=spare lim) f) in Hr; [|uniform|exact Ht].
(** And the other way: what the detour did is done by [f]. *)
Ltac from_detour f Hr Ht w' :=
  eapply (from_detour f) in Hr as (w' & Hr & ->); [|uniform|exact Ht].
