(* ===== verification/HostSpecs.v ===== *)
(** * Package [internal/hostnetwork]: threads, handles and removal

    What the functions of the file HostNetwork do to the thread and its handles, what
    [RemoveNonConfiguredVNIs] removes and keeps, what is reused and what is fresh. *)

From S2P Require Import Prelude GoStrings GoNet HostParams Netlink Troubles NetLogic HostLinks LinkSpecs.
From S2P Require Import Faults Origins SimKernel Refusals HostNetwork Twins Detour.
Local Open Scope Z_scope.

(** ** The thread and the handles *)
Section threads.
Context {W : Type} `{NetlinkLaws W, !Untroubled W}.

(** Opening a named namespace for a quiet body. *)
Lemma wp_with_handle {A} name g (k : NsHandle → go W A) s :
  (∀ ns, quiet (k ns)) →
  wp (ns ← on_errM g (netns_GetFromName name); k ns) s (λ r s',
    (silent s s' ∧ ∀ a, r ≠ Ok a)
    ∨ ∃ h n, named s !! name = Some n ∧ handles (thr s) !! h = None
        ∧ thr s' = set_handles (<[h := n]> (handles (thr s))) (thr s) ∧ named s' = named s).
Proof.
  intros Hk. apply wp_bind, wp_on_err. eapply wp_sat; [apply GetFromName_law|].
  intros [h|e|] s1 [_ Hs1]; cbn [on_err]; [|by subst; left..].
  destruct Hs1 as (n & Hn & Hfresh & ->). eapply wp_sat; [apply Hk|].
  intros r s2 [Ht Hnm]. right. exists h, n. split_and!; [done..|exact Ht|exact Hnm].
Qed.

Lemma quiet_setupVNIInNamespace params pe : quiet (setupVNIInNamespace (W:=W) params pe).
Proof. unfold setupVNIInNamespace. solve_quiet. Qed.
Hint Resolve quiet_setupVNIInNamespace : pierre.

Lemma SetupVNI_handle params w r w' :
  SetupVNI (W:=W) params w = (r, w') →
  cur_ns (view w') = cur_ns (view w) ∧ locks (thr (view w')) = locks (thr (view w))
  ∧ files (thr (view w')) = files (thr (view w))
  ∧ match (netns_GetFromName (VNIParams.TargetNS params) w).1 with
    | Ok h => ∃ n, named (view w) !! VNIParams.TargetNS params = Some n ∧ handles (thr (view w)) !! h = None
        ∧ handles (thr (view w')) = <[h := n]> (handles (thr (view w)))
    | _ => handles (thr (view w')) = handles (thr (view w)) ∧ r ≠ Ok tt
    end.
Proof.
  unfold SetupVNI. unfold mbind at 1, go_bind, on_errM at 1.
  destruct (netns_GetFromName _ w) as [x w1] eqn:E. destruct (GetFromName_law _ _ _ _ E) as [_ Hs1].
  destruct x as [h|e|]; cbn [on_err fst]; [|intros Hr; injection Hr as <- <-; by rewrite Hs1..].
  destruct Hs1 as (n & Hn & Hfresh & Hs1). intros Hr.
  assert (silent (view w1) (view w')) as [Ht _].
  { revert Hr. match goal with |- ?m w1 = _ → _ => assert (quiet m) as Hq; [|apply Hq] end. solve_quiet. }
  rewrite Ht Hs1. cbn. split_and!; [done..|]. by exists n.
Qed.

(** ** Removing what is not configured *)
Lemma quiet_RemoveNonConfiguredVNIs ns params :
  quiet (RemoveNonConfiguredVNIs (W:=W) ns params).
Proof.
  unfold RemoveNonConfiguredVNIs, clearHostLegs, clearLinks, clearVRFs. solve_quiet.
Qed.

(** Every device of [s'] is one of [s], up to its master. *)
Definition shrink (s s' : NetState) : Prop :=
  ∀ id d', devs s' !! id = Some d' → ∃ d m, devs s !! id = Some d ∧ d' = set_master m d.

Lemma shrink_refl s : shrink s s.
Proof. intros id d Hd. exists d, (dev_master d). by rewrite set_master_same. Qed.
Lemma shrink_trans s1 s2 s3 : shrink s1 s2 → shrink s2 s3 → shrink s1 s3.
Proof.
  intros H12 H23 id d3 (d2 & m2 & Hd2 & ->)%H23. apply H12 in Hd2 as (d1 & m1 & Hd1 & ->).
  by exists d1, m2.
Qed.

Lemma shrink_after_del s ns i (gone : positive → Prop) `{∀ id, Decision (gone id)} s' :
  (∀ id', devs s' !! id' =
     if bool_decide (gone id') then None else devs s !! id' ≫= release ns i) →
  shrink s s'.
Proof.
  intros Hdevs id d' Hd'. rewrite Hdevs in Hd'. case_bool_decide; [done|].
  destruct (devs s !! id) as [d|]; [|done]. exists d. cbn in Hd'. revert Hd'.
  unfold release. repeat case_match; intros [= <-]; [by exists 0|].
  exists (dev_master d). by rewrite set_master_same.
Qed.

(** [survives sel ls s id d]: no link of [ls] that [sel] selects is the device,
    its peer, or what it runs over. *)
Definition survives (sel : Link → bool) (ls : list Link) (s : NetState) (id : positive)
    (d : Dev) : Prop :=
  ∀ l id0 d0, l ∈ ls → sel l = true → dev_at s (cur_ns s) (link_index l) id0 d0 →
    id0 ≠ id ∧ dev_peer d0 ≠ Some id ∧ stacked (cur_ns s) (link_index l) d = false.

Definition cleared (sel : Link → bool) (ls : list Link) (s s' : NetState) : Prop :=
  silent s s' ∧ shrink s s'
  ∧ (∀ l id d, l ∈ ls → sel l = true → devs s' !! id = Some d → dev_ns d = cur_ns s →
       dev_index d ≠ link_index l)
  ∧ ∀ id d, devs s !! id = Some d → survives sel ls s id d → ∃ m, devs s' !! id = Some (set_master m d).

(** A loop that deletes the links it selects. *)
Lemma wpo_delete_loop (sel : Link → bool) (f : Link → go W unit) ls s :
  (∀ l s1, wpo (f l) s1 (λ _ s2,
     (sel l = false ∧ s2 = s1) ∨ (sel l = true ∧ LinkDel_spec l s1 (Ok tt) s2))) →
  wpo (forM_ f ls) s (λ _ s', cleared sel ls s s').
Proof.
  intros Hf. revert s; induction ls as [|l ls IH]; intros s; cbn [forM_].
  { wpo_step. split_and!; [done|apply shrink_refl|set_solver|].
    intros id d Hd _. exists (dev_master d). by rewrite set_master_same. }
  wpo_step. apply wpo_wf. intros Hwf.
  eapply wpo_mono; [apply Hf|]. intros [] s1 [[Hsel ->]|[Hsel (Hs1 & _ & Hdel)]].
  - eapply wpo_mono; [apply IH|]. intros [] s' (Hs' & Hsh & Hgone & Hsurv).
    split_and!; [done..| |].
    + intros l' id d [->|Hl']%elem_of_cons; [congruence|]. by apply Hgone.
    + intros id d Hd Hsafe. apply Hsurv; [done|]. intros l' id0 d0 Hl'. apply Hsafe. by right.
  - destruct (Hdel eq_refl) as (id1 & d1 & Hat1 & Hdevs).
    assert (cur_ns s1 = cur_ns s) as Hc1 by (destruct Hs1 as [-> _]; done).
    assert (shrink s s1) as Hsh1 by exact (shrink_after_del _ _ _ _ _ Hdevs).
    eapply wpo_mono; [apply IH|]. intros [] s' (Hs' & Hsh & Hgone & Hsurv). rewrite Hc1 in Hgone.
    split_and!; [exact (silent_trans _ _ _ Hs1 Hs')|exact (shrink_trans _ _ _ Hsh1 Hsh)| |].
    + intros l' id d [->|Hl']%elem_of_cons Hsel' Hd Hns; [|exact (Hgone l' id d Hl' Hsel' Hd Hns)].
      intros Hi. apply Hsh in Hd as (d2 & m2 & Hd2 & ->).
      pose proof Hd2 as (d0 & m0 & Hd0 & ->)%Hsh1.
      assert (id = id1) as -> by exact (wf_index _ Hwf _ _ _ _ _ _ (conj Hd0 (conj Hns Hi)) Hat1).
      rewrite Hdevs bool_decide_true in Hd2; [done|by left].
    + intros id d Hd Hsafe. destruct (Hsafe l id1 d1) as (Hne & Hp & Hst); [by left|done..|].
      destruct (release_unstacked _ _ _ Hst) as (m & Hrel & _).
      destruct (Hsurv id (set_master m d)) as (m' & Hm'); [| |by exists m'].
      { rewrite Hdevs bool_decide_false; [by rewrite Hd|]. intros [->|?]; done. }
      intros l' id0 d0 Hl' Hsel' (Hd0 & Hns0 & Hi0). rewrite Hc1 in Hns0 |- *.
      apply Hsh1 in Hd0 as (d00 & m0 & Hd00 & ->).
      exact (Hsafe l' id0 d00 (proj2 (elem_of_cons _ _ _) (or_intror Hl')) Hsel'
               (conj Hd00 (conj Hns0 Hi0))).
Qed.

Lemma wpo_forM_each {A} (f : A → go W unit) (R : A → Prop) l s :
  (∀ x s1, wpo (f x) s1 (λ _ _, R x)) → wpo (forM_ f l) s (λ _ _, Forall R l).
Proof.
  intros Hf. revert s. induction l as [|x l IH]; intros s; cbn [forM_].
  { wpo_step. apply Forall_nil_2. }
  wpo_step. eapply wpo_mono; [apply Hf|]. intros [] s1 HR.
  eapply wpo_mono; [apply IH|]. intros [] s2 Hl. by apply Forall_cons_2.
Qed.

(** The links the three loops delete. *)
Definition stale_leg (vrfs : gset string) (l : Link) : bool :=
  bool_decide (link_Type l = "veth") && HasPrefix (link_name l) HostVethPrefix
  && negb (bool_decide (vrfForHostLeg (link_name l) ∈ vrfs)).
Definition stale_vni (ty : string) (vnis : gset Z) (parse : string → res Z) (l : Link) : bool :=
  bool_decide (link_Type l = ty)
  && match parse (link_name l) with Ok v => negb (bool_decide (v ∈ vnis)) | _ => false end.
Definition stale_vrf (vrfs : gset string) (l : Link) : bool :=
  bool_decide (link_Type l = "vrf") && bool_decide (link_name l ∉ vrfs).

Lemma wpo_LinkDel_spec g l s : wpo (on_errM g (LinkDel (Some l))) s (λ _ s', LinkDel_spec l s (Ok tt) s').
Proof. wpo_step. eapply wpo_sat; [apply LinkDel_law|]. by intros [] s'. Qed.

Lemma wpo_clearHostLegs vrfs ls s :
  wpo (clearHostLegs vrfs ls) s (λ _ s', cleared (stale_leg vrfs) ls s s').
Proof.
  apply wpo_delete_loop. intros l s1. unfold stale_leg.
  destruct (bool_decide (link_Type l = "veth") && HasPrefix (link_name l) HostVethPrefix); cbn [andb].
  - case_bool_decide; cbn [negb]; [by wpo_step; left|].
    eapply wpo_mono; [apply wpo_LinkDel_spec|]. by right.
  - by wpo_step; left.
Qed.

Lemma wpo_clearVRFs vrfs ls s :
  wpo (clearVRFs vrfs ls) s (λ _ s', cleared (stale_vrf vrfs) ls s s').
Proof.
  apply wpo_delete_loop. intros l s1. unfold stale_vrf. destruct (_ && _).
  - eapply wpo_mono; [apply wpo_LinkDel_spec|]. by right.
  - by wpo_step; left.
Qed.

(** [clearLinks] also fails when a link of the type has a name it cannot parse. *)
Lemma wpo_clearLinks ty vnis ls parse s :
  wpo (clearLinks ty vnis ls parse) s (λ _ s', cleared (stale_vni ty vnis parse) ls s s'
    ∧ Forall (λ l, link_Type l = ty → ∃ v, parse (link_name l) = Ok v) ls).
Proof.
  apply wpo_conj.
  - apply wpo_delete_loop. intros l s1. unfold stale_vni. case_bool_decide; cbn [andb].
    + do 3 wpo_step. match goal with Hp : parse _ = Ok _ |- _ => rewrite Hp end.
      case_bool_decide; cbn [negb]; [by wpo_step; left|].
      eapply wpo_mono; [apply wpo_LinkDel_spec|]. by right.
    + by wpo_step; left.
  - apply wpo_forM_each. intros l s1. case_bool_decide as Hty; [|by wpo_step].
    do 3 wpo_step. intros w r w' _ _. destruct r; simpl; eauto.
Qed.

(** After the loop no device of the namespace is selected. *)
Lemma cleared_none sel ls s0 s s' :
  (∀ m d, sel (dev_link (set_master m d)) = sel (dev_link d)) →
  (∀ l, l ∈ ls ↔ ∃ id d, devs s0 !! id = Some d ∧ dev_ns d = cur_ns s0 ∧ l = dev_link d) →
  shrink s0 s → cur_ns s = cur_ns s0 → cleared sel ls s s' →
  ∀ id d, devs s' !! id = Some d → dev_ns d = cur_ns s0 → sel (dev_link d) = false.
Proof.
  intros Hsel Hls Hsh Hc (_ & Hsh' & Hgone & _) id d Hd Hns.
  destruct (sel (dev_link d)) eqn:Hs; [exfalso|done].
  pose proof (shrink_trans _ _ _ Hsh Hsh' id d Hd) as (d0 & m & Hd0 & ->).
  rewrite Hsel in Hs. refine (Hgone (dev_link d0) id _ _ Hs Hd _ eq_refl); [|by rewrite Hc].
  apply Hls. by exists id, d0.
Qed.

(** The devices [RemoveNonConfiguredVNIs] is after: the host legs in the
    caller's namespace, the VXLANs, bridges and VRFs in the router's. *)
Definition stale_in_ns (vrfs : gset string) (vnis : gset Z) (l : Link) : bool :=
  stale_vni "vxlan" vnis vniFromVXLanName l || stale_vni "bridge" vnis vniFromBridgeName l
  || stale_vrf vrfs l.
Definition stale (hns tns : Z) (vrfs : gset string) (vnis : gset Z) (d : Dev) : bool :=
  (dev_ns d =? hns) && stale_leg vrfs (dev_link d)
  || (dev_ns d =? tns) && stale_in_ns vrfs vnis (dev_link d).

(** A device that is not stale, whose peer is not, and that does not run over
    one that is. *)
Definition out_of_reach (hns tns : Z) (vrfs : gset string) (vnis : gset Z) (s : NetState)
    (id : positive) (d : Dev) : Prop :=
  stale hns tns vrfs vnis d = false
  ∧ ∀ id0 d0, devs s !! id0 = Some d0 → stale hns tns vrfs vnis d0 = true →
      dev_peer d0 ≠ Some id ∧ stacked (dev_ns d0) (dev_index d0) d = false.

Lemma stale_sel hns tns vrfs vnis d (sel : Link → bool) n :
  (n = hns ∧ (∀ l, sel l = true → stale_leg vrfs l = true))
  ∨ (n = tns ∧ (∀ l, sel l = true → stale_in_ns vrfs vnis l = true)) →
  dev_ns d = n → sel (dev_link d) = true → stale hns tns vrfs vnis d = true.
Proof.
  unfold stale. intros [[-> Hsel]|[-> Hsel]] Hns Hd; rewrite (Hsel _ Hd) Hns Z.eqb_refl; [done|].
  apply orb_true_r.
Qed.

(** One loop keeps what is out of reach. *)
Lemma reach_survives hns tns vrfs vnis s0 s sel ls id d :
  (cur_ns s = hns ∧ (∀ l, sel l = true → stale_leg vrfs l = true))
  ∨ (cur_ns s = tns ∧ (∀ l, sel l = true → stale_in_ns vrfs vnis l = true)) →
  (∀ m d, sel (dev_link (set_master m d)) = sel (dev_link d)) →
  (∀ l id0 d0, l ∈ ls → sel l = true → dev_at s (cur_ns s) (link_index l) id0 d0 →
     sel (dev_link d0) = true) →
  shrink s0 s → devs s0 !! id = Some d → out_of_reach hns tns vrfs vnis s0 id d →
  ∀ m, survives sel ls s id (set_master m d).
Proof.
  intros Hn Hsel Hls Hsh Hd [Hst Hreach] m l id0 d0 Hl Hsl Hat.
  pose proof (Hls l id0 d0 Hl Hsl Hat) as Hsel0. destruct Hat as (Hd0 & Hns0 & <-).
  apply Hsh in Hd0 as (d00 & m0 & Hd00 & ->). rewrite Hsel in Hsel0. cbn in Hns0.
  assert (stale hns tns vrfs vnis d00 = true) as Hst0 by exact (stale_sel _ _ _ _ _ _ _ Hn Hns0 Hsel0).
  destruct (Hreach id0 d00 Hd00 Hst0) as [Hp Hstk]. split_and!; [|done|].
  - intros ->. rewrite Hd in Hd00. injection Hd00 as <-. congruence.
  - rewrite -Hns0. exact Hstk.
Qed.

Lemma stale_vni_false ty vnis parse l v :
  stale_vni ty vnis parse l = false → link_Type l = ty → parse (link_name l) = Ok v → v ∈ vnis.
Proof.
  unfold stale_vni. intros Hst Hty Hv. rewrite Hv (bool_decide_true _ Hty) /= in Hst.
  by apply negb_false_iff, bool_decide_eq_true_1 in Hst.
Qed.

Definition listing (s : NetState) (ls : list Link) : Prop :=
  ∀ l, l ∈ ls ↔ ∃ id d, devs s !! id = Some d ∧ dev_ns d = cur_ns s ∧ l = dev_link d.

(** What one loop over the links listed in [sL] does, [s0] being the state before
    the first loop. *)
Lemma loop_step hns tns vrfs vnis s0 sL s s' sel ls :
  (cur_ns sL = hns ∧ (∀ l, sel l = true → stale_leg vrfs l = true))
  ∨ (cur_ns sL = tns ∧ (∀ l, sel l = true → stale_in_ns vrfs vnis l = true)) →
  (∀ m d, sel (dev_link (set_master m d)) = sel (dev_link d)) →
  wf sL → listing sL ls → shrink s0 sL → shrink sL s → cur_ns s = cur_ns sL →
  cleared sel ls s s' →
  shrink sL s' ∧ cur_ns s' = cur_ns sL
  ∧ (∀ id d, devs s' !! id = Some d → dev_ns d = cur_ns sL → sel (dev_link d) = false)
  ∧ ∀ id d m, devs s0 !! id = Some d → out_of_reach hns tns vrfs vnis s0 id d →
      devs s !! id = Some (set_master m d) → ∃ m', devs s' !! id = Some (set_master m' d).
Proof.
  intros Hn Hsel Hwf Hls Hsh0 Hsh Hc Hcl. pose proof Hcl as ([Ht _] & Hsh' & _ & Hsurv).
  split_and!; [exact (shrink_trans _ _ _ Hsh Hsh')|by rewrite Ht|exact (cleared_none _ _ _ _ _ Hsel Hls Hsh Hc Hcl)|].
  intros id d m Hd0 Hreach Hd. destruct (Hsurv id (set_master m d) Hd) as (m' & Hm'); [|by exists m'].
  eapply (reach_survives hns tns vrfs vnis s0); try done; rewrite ?Hc; [done| |exact (shrink_trans _ _ _ Hsh0 Hsh)].
  intros l id0 d0 Hl Hsl (Hd1 & Hns1 & Hi1).
  apply Hsh in Hd1 as (dL & mL & HdL & ->). rewrite Hsel.
  apply Hls in Hl as (idl & dl & Hdl & Hnsl & ->).
  assert (id0 = idl) as -> by exact (wf_index _ Hwf _ _ _ _ _ _ (conj HdL (conj Hns1 Hi1))
    (conj Hdl (conj Hnsl eq_refl))).
  congruence.
Qed.

(** The result in terms of what the loops select. *)
Definition cleaned (tns : Z) (vrfs : gset string) (vnis : gset Z) (s s' : NetState) : Prop :=
  silent s s' ∧ shrink s s'
  ∧ (∀ id d, devs s' !! id = Some d → dev_ns d = cur_ns s → stale_leg vrfs (dev_link d) = false)
  ∧ (∀ id d, devs s' !! id = Some d → dev_ns d = tns →
       stale_in_ns vrfs vnis (dev_link d) = false
       ∧ (link_Type (dev_link d) = "vxlan" → ∃ v, vniFromVXLanName (dev_name d) = Ok v)
       ∧ (link_Type (dev_link d) = "bridge" → ∃ v, vniFromBridgeName (dev_name d) = Ok v))
  ∧ ∀ id d, devs s !! id = Some d → out_of_reach (cur_ns s) tns vrfs vnis s id d →
      ∃ m, devs s' !! id = Some (set_master m d).

(** The three loops in the router's namespace. *)
Lemma wpo_clear_namespace tns vrfs vnis s0 sL ls :
  cur_ns sL = tns → wf sL → listing sL ls → shrink s0 sL →
  wpo (_ ← clearLinks "vxlan" vnis ls vniFromVXLanName;
       _ ← clearLinks "bridge" vnis ls vniFromBridgeName; clearVRFs vrfs ls) sL
    (λ _ s', shrink sL s'
      ∧ (∀ id d, devs s' !! id = Some d → dev_ns d = tns →
           stale_in_ns vrfs vnis (dev_link d) = false
           ∧ (link_Type (dev_link d) = "vxlan" → ∃ v, vniFromVXLanName (dev_name d) = Ok v)
           ∧ (link_Type (dev_link d) = "bridge" → ∃ v, vniFromBridgeName (dev_name d) = Ok v))
      ∧ ∀ id d m, devs s0 !! id = Some d → out_of_reach (cur_ns s0) tns vrfs vnis s0 id d →
          devs sL !! id = Some (set_master m d) → ∃ m', devs s' !! id = Some (set_master m' d)).
Proof.
  intros Hc Hwf Hls Hsh0.
  assert (∀ ty parse l, stale_vni ty vnis parse l = true →
    (ty, parse) = ("vxlan", vniFromVXLanName) ∨ (ty, parse) = ("bridge", vniFromBridgeName) →
    stale_in_ns vrfs vnis l = true) as Hvni.
  { intros ty parse l Hl [[= -> ->]|[= -> ->]]; unfold stale_in_ns; rewrite Hl; [done|].
    by rewrite orb_true_r. }
  wpo_step. eapply wpo_mono; [apply wpo_clearLinks|]. intros [] s1 [Hcl1 Hp1].
  destruct (loop_step (cur_ns s0) tns vrfs vnis s0 sL sL s1
    (stale_vni "vxlan" vnis vniFromVXLanName) ls
    ltac:(right; split; [done|]; intros l Hl; apply (Hvni _ _ _ Hl); by left) ltac:(done)
    Hwf Hls Hsh0 (shrink_refl sL) eq_refl Hcl1) as (Hsh1 & Hc1 & Hno1 & Hk1).
  wpo_step. eapply wpo_mono; [apply wpo_clearLinks|]. intros [] s2 [Hcl2 Hp2].
  destruct (loop_step (cur_ns s0) tns vrfs vnis s0 sL s1 s2
    (stale_vni "bridge" vnis vniFromBridgeName) ls
    ltac:(right; split; [done|]; intros l Hl; apply (Hvni _ _ _ Hl); by right) ltac:(done)
    Hwf Hls Hsh0 Hsh1 Hc1 Hcl2) as (Hsh2 & Hc2 & Hno2 & Hk2).
  eapply wpo_mono; [apply wpo_clearVRFs|]. intros [] s3 Hcl3.
  destruct (loop_step (cur_ns s0) tns vrfs vnis s0 sL s2 s3
    (stale_vrf vrfs) ls
    ltac:(right; split; [done|]; intros l Hl; unfold stale_in_ns; rewrite Hl; apply orb_true_r) ltac:(done)
    Hwf Hls Hsh0 Hsh2 Hc2 Hcl3) as (Hsh3 & Hc3 & Hno3 & Hk3).
  split_and!; [done| |].
  - intros id d Hd Hns. rewrite -Hc in Hns.
    pose proof (proj1 (proj2 Hcl3) id d Hd) as (d2 & m2 & Hd2 & ->).
    pose proof (proj1 (proj2 Hcl2) id d2 Hd2) as (d1 & m1 & Hd1 & ->).
    pose proof (Hsh1 id d1 Hd1) as (dL & mL & HdL & ->).
    split_and!.
    + unfold stale_in_ns. apply orb_false_iff. split; [|exact (Hno3 _ _ Hd Hns)].
      apply orb_false_iff. split; [exact (Hno1 _ _ Hd1 Hns)|exact (Hno2 _ _ Hd2 Hns)].
    + rewrite Forall_forall in Hp1. apply (Hp1 (dev_link dL)), list_elem_of_In, Hls. by exists id, dL.
    + rewrite Forall_forall in Hp2. apply (Hp2 (dev_link dL)), list_elem_of_In, Hls. by exists id, dL.
  - intros id d m Hd Hr Hm. destruct (Hk1 _ _ _ Hd Hr Hm) as [m1 Hm1].
    destruct (Hk2 _ _ _ Hd Hr Hm1) as [m2 Hm2]. exact (Hk3 _ _ _ Hd Hr Hm2).
Qed.

Lemma wpo_RemoveNonConfiguredVNIs ns tns params s :
  handles (thr s) !! ns = Some tns →
  wpo (RemoveNonConfiguredVNIs ns params) s (λ _ s',
    cleaned tns (list_to_set (VNIParams.VRF <$> params)) (list_to_set (VNIParams.VNI <$> params)) s s').
Proof.
  intros Hh. unfold RemoveNonConfiguredVNIs. cbv zeta. set (vrfs := list_to_set _). set (vnis := list_to_set _).
  apply wpo_wf. intros Hwf. do 2 wpo_step. eapply wpo_sat; [apply LinkList_law|].
  intros hls s1 (-> & _ & Hls). specialize (Hls hls eq_refl).
  wpo_step. eapply wpo_mono; [apply wpo_clearHostLegs|]. intros [] s1 Hcl.
  destruct (loop_step (cur_ns s) tns vrfs vnis s s s s1 (stale_leg vrfs) hls
    ltac:(by left) ltac:(done)
    Hwf Hls (shrink_refl s) (shrink_refl s) eq_refl Hcl) as (Hsh1 & Hc1 & Hno & Hk).
  assert (thr s1 = thr s) as Ht1 by apply Hcl.
  apply (wpo_inNamespace _ _ _ tns); [unfold clearLinks, clearVRFs; solve_quiet|congruence|].
  intros h _. do 2 wpo_step. apply wpo_wf. intros Hwf1. eapply wpo_sat; [apply LinkList_law|].
  intros ls s2 (-> & _ & Hls2). specialize (Hls2 ls eq_refl).
  eapply wpo_mono; [apply (wpo_clear_namespace tns vrfs vnis s (enter tns h s1) ls eq_refl Hwf1 Hls2 Hsh1)|].
  intros [] s2 (Hsh2 & Hin & Hk2) [_ Hnm]. split; [|split; [|split; [|split]]].
  - split; [exact Ht1|]. transitivity (named s1); [exact Hnm|apply Hcl].
  - exact (shrink_trans _ _ _ Hsh1 Hsh2).
  - intros id d Hd Hns. apply (Hsh2 id d) in Hd as (d1 & m & Hd1 & ->). exact (Hno id d1 Hd1 Hns).
  - exact Hin.
  - intros id d Hd Hr. destruct (Hk id d (dev_master d) Hd Hr) as [m Hm].
    { by rewrite set_master_same. }
    exact (Hk2 id d m Hd Hr Hm).
Qed.

End threads.

Section theorems.
Context {W : Type} `{NetlinkLaws W}.

(** C29. As long as every switch of namespace is let through and no router's leg shares
    its index with another device, [SetupVNI], however it ends, leaves the thread in the
    namespace it was called in, locked as often as before, with the files open that were.
    But the handle of the router's namespace is never closed: whenever opening it succeeds,
    and so on every success, one more handle is open afterwards, that one; when opening it
    fails the handles are as before and [SetupVNI] fails. *)
Theorem SetupVNI_leaks_handle params w r w' :
  SetupVNI params w = (r, w') → troubles (SetupVNI params) w = [] →
  cur_ns (view w') = cur_ns (view w) ∧ locks (thr (view w')) = locks (thr (view w))
  ∧ files (thr (view w')) = files (thr (view w))
  ∧ match (netns_GetFromName (VNIParams.TargetNS params) w).1 with
    | Ok h => ∃ n, named (view w) !! VNIParams.TargetNS params = Some n ∧ handles (thr (view w)) !! h = None
        ∧ handles (thr (view w')) = <[h := n]> (handles (thr (view w)))
    | _ => handles (thr (view w')) = handles (thr (view w)) ∧ r ≠ Ok tt
    end.
Proof.
  intros Hr Ht. by_detour well_formed (λ W (_ : Netlink W), SetupVNI params) Hr Ht.
  pose proof (SetupVNI_handle (W:=detoured W well_formed) params _ _ _ Hr) as Hh.
  cbn in Hh. by destruct (netns_GetFromName _ w) as [[] ?].
Qed.

(** C16. [RemoveNonConfiguredVNIs], when it succeeds and every switch of namespace was let
    through, leaves exactly what is configured: no host leg of another VRF in the caller's namespace, and in
    the router's namespace only VXLANs and bridges whose names parse to a
    configured VNI and VRFs that are configured.  It creates nothing, and what
    is neither stale, nor the peer of a stale leg, nor a VXLAN running over a
    stale device is still there, unchanged up to its master. *)
Theorem RemoveNonConfiguredVNIs_spec ns tns params w w' :
  let s := view w in let s' := view w' in
  let vrfs := list_to_set (C:=gset string) (VNIParams.VRF <$> params) in
  let vnis := list_to_set (C:=gset Z) (VNIParams.VNI <$> params) in
  handles (thr s) !! ns = Some tns →
  RemoveNonConfiguredVNIs ns params w = (Ok tt, w') →
  troubles (RemoveNonConfiguredVNIs ns params) w = [] →
  silent s s' ∧ shrink s s'
  ∧ (∀ id d, devs s' !! id = Some d → dev_ns d = cur_ns s →
       link_Type (dev_link d) = "veth" → HasPrefix (dev_name d) HostVethPrefix = true →
       vrfForHostLeg (dev_name d) ∈ VNIParams.VRF <$> params)
  ∧ (∀ id d, devs s' !! id = Some d → dev_ns d = tns →
       (link_Type (dev_link d) = "vxlan" →
          ∃ v, vniFromVXLanName (dev_name d) = Ok v ∧ v ∈ VNIParams.VNI <$> params)
       ∧ (link_Type (dev_link d) = "bridge" →
          ∃ v, vniFromBridgeName (dev_name d) = Ok v ∧ v ∈ VNIParams.VNI <$> params)
       ∧ (link_Type (dev_link d) = "vrf" → dev_name d ∈ VNIParams.VRF <$> params))
  ∧ ∀ id d, devs s !! id = Some d → out_of_reach (cur_ns s) tns vrfs vnis s id d →
      ∃ m, devs s' !! id = Some (set_master m d).
Proof.
  cbv zeta. intros Hh Hrun Ht. by_detour well_formed (λ W (_ : Netlink W), RemoveNonConfiguredVNIs ns params) Hrun Ht.
  destruct (wpo_Ok (W:=detoured W well_formed) _ _ _ _ _ (wpo_RemoveNonConfiguredVNIs ns tns params (view w) Hh) Hrun)
    as (Hs & Hsh & Hleg & Hin & Hk).
  split_and!; [exact Hs|exact Hsh| | |exact Hk].
  - intros id d Hd Hns Hty Hpre. specialize (Hleg id d Hd Hns). unfold stale_leg in Hleg.
    rewrite Hty Hpre /= in Hleg. apply negb_false_iff, bool_decide_eq_true_1 in Hleg.
    by apply elem_of_list_to_set in Hleg.
  - intros id d Hd Hns. destruct (Hin id d Hd Hns) as (Hst & Hx & Hb). unfold stale_in_ns in Hst.
    apply orb_false_iff in Hst as [[Hst1 Hst2]%orb_false_iff Hst3]. split_and!.
    + intros Hty. destruct (Hx Hty) as [v Hv]. exists v. split; [done|].
      apply (stale_vni_false _ _ _ _ v Hst1 Hty) in Hv. by apply elem_of_list_to_set in Hv.
    + intros Hty. destruct (Hb Hty) as [v Hv]. exists v. split; [done|].
      apply (stale_vni_false _ _ _ _ v Hst2 Hty) in Hv. by apply elem_of_list_to_set in Hv.
    + intros Hty. unfold stale_vrf in Hst3. rewrite Hty /= in Hst3.
      apply bool_decide_eq_false_1, dec_stable in Hst3. by apply elem_of_list_to_set in Hst3.
Qed.
End theorems.

(** ** Witnesses *)
Definition entered_state : NetState := set_thr (mkThread 0 {[7 := 1]} 0 ∅) ready_state.

Lemma LinkList_keeps `{NetlinkLaws W} :
  sat (LinkList (W:=W)) (λ s _ s', handles (thr s) ⊆ handles (thr s') ∧ locks (thr s') = locks (thr s)).
Proof. intros w r w' Hr. destruct (LinkList_law w r w' Hr) as [-> _]. by split. Qed.

Lemma inNamespace_restores_witness :
  let w' := (inNamespace 7 (LinkList (W:=NetState)) entered_state).2 in
  locks (thr (view w')) = 0 ∧ {[7 := 1]} ⊆ handles (thr (view w')) ∧ cur (thr w') = 0.
Proof.
  cbv zeta. destruct (inNamespace_restores 7 (LinkList (W:=NetState)) entered_state _ _ LinkList_keeps
    (surjective_pairing _)) as (Hl & Hh & _).
  split; [exact Hl|]. split; [exact Hh|]. vm_compute. reflexivity.
Defined.

(** A kernel that lets no thread into namespace 0, where the thread comes from: the call
    succeeds, and the thread is unlocked in namespace 1. *)
Example inNamespace_strands :
  let kernel := refusing (mkRefusals false false (λ _, false) (λ n, n =? 0)) sim_global in
  let run := inNamespace (H:=kernel) 7 (LinkList (W:=NetState) (Netlink:=kernel)) entered_state in
  @NetlinkLaws NetState kernel _ ∧ (∃ ls, run.1 = Ok ls)
  ∧ cur_ns (view run.2) = 1 ∧ locks (thr (view run.2)) = 0.
Proof. split; [apply refusing_laws, _|]. vm_compute. split; [by eexists|done]. Qed.

(** A node with a VNI that is not configured any more. *)
Definition stale_state : NetState :=
  set_thr (mkThread 0 {[7 := 1]} 0 ∅)
    (sample_state [(3%positive, sample_dev 1 4 "lound" Dummy ["100.65.0.0/32"]);
       (4%positive, sample_dev 1 5 "red" (Vrf 1) []); (5%positive, sample_dev 1 6 "blue" (Vrf 2) []);
       (6%positive, sample_dev 1 7 "br100" Bridge []); (7%positive, sample_dev 1 8 "br200" Bridge []);
       (8%positive, sample_dev 1 9 "vni200" (Vxlan 200 4789 false [] 4) []);
       (9%positive, sample_dev 0 10 "hostblue" (Veth "") []);
       (10%positive, sample_dev 0 11 "hostred" (Veth "") [])]).

Lemma RemoveNonConfiguredVNIs_spec_witness :
  let w' := (RemoveNonConfiguredVNIs 7 [sample_params] stale_state).2 in
  ((λ d, dev_name d) <$> (map_to_list (devs w')).*2 ≡ₚ
     ["lo"; "lo"; "eth0"; "toswitch"; "lound"; "red"; "br100"; "hostred"])
  ∧ shrink (view stale_state) (view w').
Proof.
  cbv zeta.
  assert ((RemoveNonConfiguredVNIs 7 [sample_params] stale_state).1 = Ok tt) as Hr
    by (vm_compute; reflexivity).
  split.
  - apply (bool_decide_eq_true_1 _). vm_compute. reflexivity.
  - refine (proj1 (proj2 (RemoveNonConfiguredVNIs_spec 7 1 [sample_params] stale_state _ _ _ _))).
    + vm_compute. reflexivity.
    + rewrite -Hr. apply surjective_pairing.
    + vm_compute. reflexivity.
Defined.

(** ** Indexes that clash

    With a kernel that counts each namespace's indexes on its own, as Linux does,
    the router's leg can get a new index when it moves, and [SetupVNI] goes on
    with the old one. *)
Definition clash_state : NetState :=
  sample_state [(3%positive, sample_dev 1 4 "lound" Dummy ["100.65.0.0/32"]);
                (4%positive, sample_dev 1 5 "uplink" (OtherLink "device") ["192.168.12.3/24"])].
Definition addr_of (n : string) (s : NetState) : list (list string * Z) :=
  (λ d, (dev_addrs d, dev_master d)) <$> filter (λ d, dev_name d = n) (map_to_list (devs s)).*2.

(** Where indexes repeat between namespaces, [SetupVNI] reports success
    although it has configured a device that has nothing to do with the VNI: the
    router's other interface gets the veth address and is enslaved to the VRF,
    and the router's leg gets neither. *)
Theorem SetupVNI_index_clash :
  let W := sim_netlink (room sim_cap) alloc_per_ns in
  let run := SetupVNI (H:=W) sample_params clash_state in
  @NetlinkLaws NetState W sim_view ∧ run.1 = Ok tt
  ∧ troubles (SetupVNI (H:=@watched_netlink _ W _) sample_params) clash_state = [IndexClash]
  ∧ addr_of "uplink" run.2 = [(["192.168.12.3/24"; "192.169.10.0/24"], 7)]
  ∧ addr_of "pered" run.2 = [([], 0)]
  ∧ (λ d, dev_index d) <$> filter (λ d, dev_name d = "red") (map_to_list (devs run.2)).*2 = [7].
Proof. split; [apply (sim_laws (room sim_cap) alloc_per_ns)|]. vm_compute. by split_and!. Qed.

(** ** What is reused and what is fresh *)
Section reuse.
Context {W : Type} `{NetlinkLaws W, !Untroubled W}.

(** A bridge that exists is used as it is: [setupBridge] sets it up and
    stops it from generating addresses, and does not look at its master, so a
    bridge that is not enslaved to the VRF stays so. *)
Theorem setupBridge_reuses params vrf w id d br w' :
  let s := view w in
  dev_named s (cur_ns s) (bridgeName (VNIParams.VNI params)) id d → is_bridge (dev_link d) = true →
  setupBridge params vrf w = (Ok br, w') →
  br = dev_link d ∧ ∃ d', devs (view w') = <[id := d']> (devs s)
    ∧ dev_link d' = dev_link d ∧ dev_up d' = true ∧ dev_no_addr_gen d' = true
    ∧ dev_master d' = dev_master d.
Proof.
  cbv zeta. intros Hat Hb Hrun. pose proof Hat as (Hd & Hns & Hn).
  refine (wpo_Ok _ (λ br s', br = dev_link d ∧ ∃ d', devs s' = <[id := d']> (devs (view w))
    ∧ dev_link d' = dev_link d ∧ dev_up d' = true ∧ dev_no_addr_gen d' = true
    ∧ dev_master d' = dev_master d) _ _ _ _ Hrun).
  unfold setupBridge. cbv zeta. wpo_step. apply (wpo_ensure_existing _ _ _ _ _ _ id d); [done..|].
  do 2 wpo_step. apply (wpo_addrGenModeNone _ _ id d); [done..|]. intros s1 Hs1 Hd1. do 2 wpo_step.
  apply (wpo_LinkSetUp _ _ id (set_no_addr_gen d));
    [by rewrite Hd1 lookup_insert_eq|by destruct Hs1 as [-> _]|done|].
  intros ex s2 Hs2 Hd2. wpo_step. split; [done|].
  exists (set_up ex (set_no_addr_gen d)). by rewrite Hd2 Hd1 insert_insert_eq.
Qed.

(** A VRF [createVRF] makes has a routing table of its own: no device of
    the namespace was a VRF with that table, and nothing else changes. *)
Theorem createVRF_fresh_table name w l w' :
  let s := view w in let s' := view w' in
  createVRF name w = (Ok l, w') →
  ∃ t id d, 1 ≤ t < MaxUint32 ∧ Kind (dev_link d) = Vrf t
    ∧ dev_named s' (cur_ns s) name id d ∧ link_index l = dev_index d
    ∧ devs s !! id = None ∧ devs s' = <[id := d]> (devs s)
    ∧ ∀ id' d', devs s !! id' = Some d' → dev_ns d' = cur_ns s → Kind (dev_link d') ≠ Vrf t.
Proof.
  cbv zeta. intros Hrun.
  destruct (wpo_Ok _ _ _ _ _ (wpo_createVRF name (view w)) Hrun)
    as (_ & req & (t & -> & Ht & Hfree) & id & d & (Hnone & (Hns & Hn & _ & Hk) & _ & _ & _ & Hd) & ->).
  exists t, id, d. cbn in Hk. split_and!; try done; try lia.
  unfold dev_named. rewrite Hd lookup_insert_eq. by split_and!.
Qed.

(** [addRouteToHost] leaves a route to the host's address through the
    router's leg in the VRF's table, and never a second one: it adds the route
    only when no listed route is the same. *)
Theorem addRouteToHost_once vrf dst pe w w' :
  let s := view w in let s' := view w' in
  addRouteToHost vrf dst pe w = (Ok tt, w') →
  ∃ rt, hostIPToRoute vrf dst pe = Ok rt ∧ LinkIndex rt = link_index pe
    ∧ ((routes s' = routes s ∧ ∃ x, (cur_ns s, x) ∈ routes s ∧ same_route rt x = true)
       ∨ (routes s' = routes s ++ [(cur_ns s, rt)]
          ∧ ∀ x, (cur_ns s, x) ∈ routes s → same_route rt x = false)).
Proof.
  cbv zeta. intros Hrun.
  refine (wpo_Ok _ (λ _ s', ∃ rt, hostIPToRoute vrf dst pe = Ok rt ∧ LinkIndex rt = link_index pe
    ∧ ((routes s' = routes (view w) ∧ ∃ x, (cur_ns (view w), x) ∈ routes (view w) ∧ same_route rt x = true)
       ∨ (routes s' = routes (view w) ++ [(cur_ns (view w), rt)]
          ∧ ∀ x, (cur_ns (view w), x) ∈ routes (view w) → same_route rt x = false))) _ _ _ _ Hrun).
  unfold addRouteToHost. do 2 wpo_step. rename a into rt. unfold checkRouteIsPresent. do 2 wpo_step.
  wpo_step. eapply wpo_sat; [apply RouteListFiltered_law|]. intros rs s1 (-> & _ & Hrs).
  specialize (Hrs rs eq_refl eq_refl eq_refl). wpo_step.
  assert (LinkIndex rt = link_index pe) as Hli.
  { match goal with Hr : hostIPToRoute _ _ _ = Ok _ |- _ => rename Hr into Hrt end.
    unfold hostIPToRoute in Hrt. inv_ok. destruct x as [ip cidr]. destruct (Mask_Size _). by inv_ok. }
  destruct (existsb (same_route rt) rs) eqn:Hex.
  - wpo_step. exists rt. split; [done|]. split; [done|]. left. split; [done|].
    apply List.existsb_exists in Hex as (x & Hx & Hs). exists x. split; [|done].
    by apply list_elem_of_In, Hrs in Hx as [Hx _].
  - wpo_step. eapply wpo_sat; [apply RouteAdd_law|]. intros [] s2 (_ & _ & _ & Hadd).
    exists rt. split; [done|]. split; [done|]. right. split; [by apply Hadd|].
    intros x Hx. destruct (same_route rt x) eqn:Hs; [exfalso|done].
    assert (existsb (same_route rt) rs = true); [|congruence].
    apply List.existsb_exists. exists x. split; [|done]. apply list_elem_of_In, Hrs.
    split; [done|]. unfold same_route in Hs.
    apply andb_prop in Hs as [[[Hip Hm%bool_decide_eq_true]%andb_prop _]%andb_prop Ht%Z.eqb_eq].
    by split_and!.
Qed.
End reuse.

Lemma SetupVNI_leaks_handle_witness :
  let w' := (SetupVNI sample_params ready_state).2 in
  handles (thr w') = {[1 := 1]}
  ∧ cur_ns (view w') = cur_ns (view ready_state).
Proof.
  cbv zeta. split; [vm_compute; reflexivity|].
  refine (proj1 (SetupVNI_leaks_handle sample_params ready_state _ _ (surjective_pairing _) _)).
  vm_compute. reflexivity.
Defined.

(** The router already has the bridge, without a master. *)
Definition bridge_state : NetState :=
  set_thr (mkThread 1 ∅ 0 ∅) (sample_state [(3%positive, sample_dev 1 4 "br100" Bridge [])]).

Lemma setupBridge_reuses_witness :
  ∃ d', devs (view (setupBridge sample_params (mkLink (mkAttrs 9 "red" 0) (Vrf 1)) bridge_state).2) !! 3%positive = Some d'
    ∧ dev_master d' = 0.
Proof.
  set (m := setupBridge sample_params (mkLink (mkAttrs 9 "red" 0) (Vrf 1)) bridge_state).
  set (d := sample_dev 1 4 "br100" Bridge []).
  assert (m.1 = Ok (dev_link d)) as Hr by (vm_compute; reflexivity).
  destruct (setupBridge_reuses sample_params (mkLink (mkAttrs 9 "red" 0) (Vrf 1)) bridge_state
    3%positive d (dev_link d) m.2) as (_ & d' & Hd & _ & _ & _ & Hm).
  - split_and!; vm_compute; reflexivity.
  - reflexivity.
  - rewrite -Hr. apply surjective_pairing.
  - exists d'. split; [|exact Hm]. rewrite Hd. apply lookup_insert_eq.
Defined.

Lemma createVRF_fresh_table_witness :
  let w := set_thr (mkThread 1 ∅ 0 ∅) stale_state in
  ∃ t, Kind <$> match (createVRF "green" w).1 with Ok l => Some l | _ => None end = Some (Vrf t)
    ∧ 1 ≤ 3 < MaxUint32 ∧ ∃ t' id d, dev_named (view (createVRF "green" w).2) (cur_ns (view w)) "green" id d
        ∧ Kind (dev_link d) = Vrf t'.
Proof.
  cbv zeta. set (w := set_thr _ stale_state). set (m := createVRF "green" w). exists 3.
  split; [vm_compute; reflexivity|]. split; [unfold MaxUint32; lia|].
  destruct (createVRF_fresh_table "green" w (mkLink (mkAttrs 12 "green" 0) (Vrf 3)) m.2)
    as (t' & id & d & _ & Hk & Hat & _).
  - assert (m.1 = Ok (mkLink (mkAttrs 12 "green" 0) (Vrf 3))) as <- by (vm_compute; reflexivity).
    apply surjective_pairing.
  - exists t', id, d. split; [exact Hat|exact Hk].
Defined.

Lemma addRouteToHost_once_witness :
  let vrf := mkLink (mkAttrs 5 "red" 0) (Vrf 1) in
  let pe := mkLink (mkAttrs 6 "pered" 5) (Veth "") in
  let w1 := (addRouteToHost vrf "192.169.10.1/24" pe ready_state).2 in
  length (routes (addRouteToHost vrf "192.169.10.1/24" pe w1).2) = 1%nat
  ∧ ∃ rt, hostIPToRoute vrf "192.169.10.1/24" pe = Ok rt ∧ LinkIndex rt = 6.
Proof.
  cbv zeta. set (vrf := mkLink (mkAttrs 5 "red" 0) (Vrf 1)). set (pe := mkLink _ _).
  split; [vm_compute; reflexivity|].
  assert ((addRouteToHost vrf "192.169.10.1/24" pe ready_state).1 = Ok tt) as Hr by (vm_compute; reflexivity).
  destruct (addRouteToHost_once vrf "192.169.10.1/24" pe ready_state
    (addRouteToHost vrf "192.169.10.1/24" pe ready_state).2) as (rt & Hrt & Hli & _).
  - rewrite -Hr. apply surjective_pairing.
  - exists rt. split; [exact Hrt|exact Hli].
Defined.
