(* ===== verification/VniSpecs.v ===== *)
(** * What [SetupVNI] establishes

    One call, and the calls for all VNIs in a row: each VNI is configured at the end,
    not only when its own call returns. *)

From S2P Require Import Prelude GoStrings GoNet HostParams Netlink Troubles NetLogic HostLinks LinkSpecs.
From S2P Require Import Held Faults Origins VethSpecs SimKernel HostNetwork Twins Detour HostSpecs.
Local Open Scope Z_scope.

(** ** A configured VNI *)

(** What a configured VNI is: the veth pair between the host and the router's
    namespace with its two addresses, the router's leg enslaved to the VRF, and
    in the router's namespace the bridge and the VXLAN, which runs over the
    underlay's loopback and is enslaved to the bridge; all of them up. *)
Definition configured_in (params : VNIParams.t) (hns tns : Z) (K : gmap positive Dev) : Prop :=
  let vrf := VNIParams.VRF params in
  (∃ idh dh idp dp idv dv,
     K !! idh = Some dh ∧ dev_ns dh = hns ∧ dev_name dh = (vethLegsForVRF vrf).1
     ∧ dev_up dh = true ∧ VNIParams.VethHostIP params ∈ dev_addrs dh ∧ dev_peer dh = Some idp
     ∧ K !! idp = Some dp ∧ dev_ns dp = tns ∧ dev_name dp = (vethLegsForVRF vrf).2
     ∧ dev_up dp = true ∧ VNIParams.VethNSIP params ∈ dev_addrs dp
     ∧ K !! idv = Some dv ∧ dev_ns dv = tns ∧ dev_name dv = vrf
     ∧ is_vrf (dev_link dv) = true ∧ dev_up dv = true ∧ dev_master dp = dev_index dv)
  ∧ ∃ idb db idx dx idl dl,
     K !! idb = Some db ∧ dev_ns db = tns ∧ dev_name db = bridgeName (VNIParams.VNI params)
     ∧ is_bridge (dev_link db) = true ∧ dev_up db = true ∧ dev_no_addr_gen db = true
     ∧ K !! idl = Some dl ∧ dev_ns dl = tns ∧ dev_name dl = UnderlayLoopback
     ∧ K !! idx = Some dx ∧ dev_ns dx = tns ∧ dev_name dx = vxLanName (VNIParams.VNI params)
     ∧ vxlan_configured (dev_link dx) (dev_index db) (dev_index dl) params
     ∧ dev_up dx = true ∧ dev_no_addr_gen dx = true ∧ dev_neigh_suppress dx = true.
Definition vni_configured (params : VNIParams.t) (hns tns : Z) (s : NetState) : Prop :=
  configured_in params hns tns (devs s).

(** It stays configured as long as its devices stay, up to masters outside. *)
Lemma configured_evolves params hns tns K K' :
  evolves K K' → configured_in params hns tns K → configured_in params hns tns K'.
Proof.
  intros He [(idh & dh & idp & dp & idv & dv & Hdh & Hh1 & Hh2 & Hh3 & Hh4 & Hh5 & Hdp & Hp1 & Hp2
      & Hp3 & Hp4 & Hdv & Hv1 & Hv2 & Hv3 & Hv4 & Hm)
    (idb & db & idx & dx & idl & dl & Hdb & Hb1 & Hb2 & Hb3 & Hb4 & Hb5 & Hdl & Hl1 & Hl2 & Hdx
      & Hx1 & Hx2 & Hx3 & Hx4 & Hx5 & Hx6)].
  destruct (He _ _ Hdh) as (mh & Hmh & _), (He _ _ Hdp) as (mp & Hmp & Hkp), (He _ _ Hdv) as (mv & Hmv & _).
  destruct (He _ _ Hdb) as (mb & Hmb & _), (He _ _ Hdx) as (mx & Hmx & Hkx), (He _ _ Hdl) as (ml & Hml & _).
  assert (mp = dev_master dp) as ->. { apply Hkp. exists idv, dv. split_and!; [done|congruence..]. }
  assert (mx = dev_master dx) as ->.
  { apply Hkx. exists idb, db. destruct Hx3 as (_ & _ & Hxm & _). split_and!; [done|congruence|done]. }
  rewrite set_master_same in Hmp. rewrite set_master_same in Hmx. split.
  - exists idh, (set_master mh dh), idp, dp, idv, (set_master mv dv). by split_and!.
  - exists idb, (set_master mb db), idx, dx, idl, (set_master ml dl). by split_and!.
Qed.

Lemma subset_evolves K K' : K ⊆ K' → evolves K K'.
Proof.
  intros Hs id d Hd. exists (dev_master d). rewrite set_master_same.
  split; [exact (lookup_weaken _ _ _ _ Hd Hs)|done].
Qed.

Section setup_vni.
Context {W : Type} `{NetlinkLaws W, !Untroubled W}.

Lemma wpo_set_vrf vrf pe s idp dp idv dv g P :
  devs s !! idp = Some dp → dev_ns dp = cur_ns s → dev_index dp = link_index pe →
  link_index vrf = dev_index dv →
  (∀ s', silent s s' → devs s' = <[idp := set_master (dev_index dv) dp]> (devs s) → P tt s') →
  devs s !! idv = Some dv →
  wpo (err_with_name (Some pe) g (LinkSetMaster (Some pe) vrf)) s P.
Proof.
  intros Hdp Hns Hi Hv HP _. apply wpo_err_with_name.
  apply (wpo_LinkSetMaster _ _ _ idp dp); [done..|]. intros s' Hs Hd. rewrite Hv in Hd. by apply HP.
Qed.

(** The devices of the pair and the loopback, as [SetupVNI] finds them in the
    router's namespace. *)
Record legs (params : VNIParams.t) (pe : Link) (hns tns : Z) (K : gmap positive Dev)
    (idh idp idl : positive) (dh dp dl : Dev) : Prop := {
  legs_dh : K !! idh = Some dh;
  legs_host : dev_ns dh = hns ∧ dev_name dh = (vethLegsForVRF (VNIParams.VRF params)).1
    ∧ dev_peer dh = Some idp;
  legs_dp : K !! idp = Some dp;
  legs_pe : dev_ns dp = tns ∧ dev_name dp = (vethLegsForVRF (VNIParams.VRF params)).2
    ∧ dev_index dp = link_index pe;
  legs_dl : K !! idl = Some dl;
  legs_lo : dev_ns dl = tns ∧ dev_name dl = UnderlayLoopback;
  legs_ne : idp ≠ idh ∧ idp ≠ idl ∧ idh ≠ idl }.
Arguments legs_dh {_ _ _ _ _ _ _ _ _ _ _} _.
Arguments legs_host {_ _ _ _ _ _ _ _ _ _ _} _.
Arguments legs_dp {_ _ _ _ _ _ _ _ _ _ _} _.
Arguments legs_pe {_ _ _ _ _ _ _ _ _ _ _} _.
Arguments legs_dl {_ _ _ _ _ _ _ _ _ _ _} _.
Arguments legs_lo {_ _ _ _ _ _ _ _ _ _ _} _.

Lemma legs_evolves params pe hns tns K K' idh idp idl dh dp dl :
  legs params pe hns tns K idh idp idl dh dp dl → evolves K K' →
  ∃ mh mp ml,
    legs params pe hns tns K' idh idp idl (set_master mh dh) (set_master mp dp) (set_master ml dl)
    ∧ (mastered K dp → mp = dev_master dp).
Proof.
  intros [Hdh Hh Hdp Hp Hdl Hl Hne] He.
  destruct (He _ _ Hdh) as (mh & Hmh & _), (He _ _ Hdp) as (mp & Hmp & HC), (He _ _ Hdl) as (ml & Hml & _).
  by exists mh, mp, ml.
Qed.

Lemma legs_mono params pe hns tns K K' idh idp idl dh dp dl :
  legs params pe hns tns K idh idp idl dh dp dl → K ⊆ K' → legs params pe hns tns K' idh idp idl dh dp dl.
Proof. intros [] Hs. split; eauto using lookup_weaken. Qed.

(** One end is changed. *)
Lemma legs_update_host params pe hns tns K idh idp idl dh dp dl dh' :
  legs params pe hns tns K idh idp idl dh dp dl → same_shape dh dh' →
  legs params pe hns tns (<[idh := dh']> K) idh idp idl dh' dp dl.
Proof.
  intros [Hdh (Hh1 & Hh2 & Hh3) Hdp Hp Hdl Hl (Hne1 & Hne2 & Hne3)] (Hns & Hn & Hi & _ & Hpeer). split; try done.
  - by rewrite lookup_insert_eq.
  - by rewrite Hns Hn Hpeer.
  - rewrite lookup_insert_ne; [done|congruence].
  - by rewrite lookup_insert_ne.
Qed.
Lemma legs_update_router params pe hns tns K idh idp idl dh dp dl dp' :
  legs params pe hns tns K idh idp idl dh dp dl → same_shape dp dp' →
  legs params pe hns tns (<[idp := dp']> K) idh idp idl dh dp' dl.
Proof.
  intros [Hdh Hh Hdp (Hp1 & Hp2 & Hp3) Hdl Hl (Hne1 & Hne2 & Hne3)] (Hns & Hn & Hi & _). split; try done.
  - by rewrite lookup_insert_ne.
  - by rewrite lookup_insert_eq.
  - by rewrite Hns Hn Hi.
  - by rewrite lookup_insert_ne.
Qed.

(** Both, with what is known of the others. *)
Lemma router_step params pe hns tns K0 l K s s' idh idp idl dh dp dl dp' :
  tracks K0 l K s → legs params pe hns tns K idh idp idl dh dp dl → K0 !! idp = None →
  same_shape dp dp' → devs s' = <[idp := dp']> (devs s) →
  tracks K0 l (<[idp := dp']> K) s' ∧ legs params pe hns tns (<[idp := dp']> K) idh idp idl dh dp' dl.
Proof.
  intros Ht Hlegs Hout Hsh Hd. split; [exact (tracks_update _ _ _ _ _ _ _ _ Ht (legs_dp Hlegs) Hout Hsh Hd)|].
  exact (legs_update_router _ _ _ _ _ _ _ _ _ _ _ _ Hlegs Hsh).
Qed.
Lemma host_step params pe hns tns K0 l K s s' idh idp idl dh dp dl dh' :
  tracks K0 l K s → legs params pe hns tns K idh idp idl dh dp dl → K0 !! idh = None →
  same_shape dh dh' → devs s' = <[idh := dh']> (devs s) →
  tracks K0 l (<[idh := dh']> K) s' ∧ legs params pe hns tns (<[idh := dh']> K) idh idp idl dh' dp dl.
Proof.
  intros Ht Hlegs Hout Hsh Hd. split; [exact (tracks_update _ _ _ _ _ _ _ _ Ht (legs_dh Hlegs) Hout Hsh Hd)|].
  exact (legs_update_host _ _ _ _ _ _ _ _ _ _ _ _ Hlegs Hsh).
Qed.

Lemma based_vxlan K d idl dl bi li params :
  vxlan_configured (dev_link d) bi li params → K !! idl = Some dl → dev_index dl = li →
  dev_ns dl = dev_ns d → based K d ∧ is_veth (dev_link d) = false.
Proof.
  intros (src & Hk & _) Hdl <- Hns. split; [|unfold is_veth; by rewrite Hk].
  intros vid port learn src' vtep Hk'. rewrite Hk in Hk'. injection Hk' as <- <- <- <- <-.
  by exists idl, dl.
Qed.

(** *** In the router's namespace *)

Definition host_ready (params : VNIParams.t) (dh : Dev) : Prop :=
  dev_up dh = true ∧ VNIParams.VethHostIP params ∈ dev_addrs dh.

(** The first part: the router's leg has its address, is up and enslaved to the VRF. *)
Definition leg_ready (params : VNIParams.t) (hns tns : Z) (K0 : gmap positive Dev) (l : list string)
    (idh idp idl : positive) (s : NetState) : Prop :=
  ∃ pe K dh dp dl idv dv, tracks K0 (VNIParams.VRF params :: l) K s
    ∧ legs params pe hns tns K idh idp idl dh dp dl ∧ host_ready params dh
    ∧ dev_up dp = true ∧ VNIParams.VethNSIP params ∈ dev_addrs dp
    ∧ K !! idv = Some dv ∧ dev_ns dv = tns ∧ dev_name dv = VNIParams.VRF params
    ∧ is_vrf (dev_link dv) = true ∧ dev_up dv = true ∧ dev_master dp = dev_index dv.

Lemma wpo_leg params pe hns tns s K0 K l idh idp idl dh dp dl g g' (k : Link → go W unit) P :
  canonical_addr W (VNIParams.VethNSIP params) → VNIParams.VRF params ∉ l →
  cur_ns s = tns → tracks K0 l K s → K0 !! idp = None →
  legs params pe hns tns K idh idp idl dh dp dl → host_ready params dh →
  (∀ vrf s', silent s s' → leg_ready params hns tns K0 l idh idp idl s' → wpo (k vrf) s' P) →
  wpo (_ ← assignIPToInterface (Some pe) (VNIParams.VethNSIP params);
       _ ← on_errM g (LinkSetUp (Some pe));
       vrf ← setupVRF (VNIParams.VRF params);
       _ ← err_with_name (Some pe) (g' vrf) (LinkSetMaster (Some pe) vrf);
       k vrf) s P.
Proof.
  intros Hcan Hvrf Hcur Ht Hout Hlegs Hready HP. destruct (legs_pe Hlegs) as (Hpns & Hpn & Hpi).
  wpo_step. apply (wpo_assignIP _ _ _ idp dp);
    [done|exact (tracks_lookup _ _ _ _ _ _ Ht (legs_dp Hlegs))|congruence|done|].
  intros ex1 s1 Hs1 _ Hin Hd1. set (dp1 := set_addrs (dev_addrs dp ++ ex1) dp) in *.
  destruct (router_step _ _ _ _ _ _ _ _ s1 _ _ _ _ _ _ dp1 Ht Hlegs Hout ltac:(by split_and!) Hd1) as [Ht1 Hlegs1].
  assert (cur_ns s1 = tns) as Hcur1 by (destruct Hs1 as [-> _]; exact Hcur).
  do 2 wpo_step. apply (wpo_LinkSetUp _ _ idp dp1);
    [exact (tracks_lookup _ _ _ _ _ _ Ht1 (legs_dp Hlegs1))|cbn; congruence|done|].
  intros ex2 s2 Hs2 Hd2. set (dp2 := set_up ex2 dp1) in *.
  destruct (router_step _ _ _ _ _ _ _ _ s2 _ _ _ _ _ _ dp2 Ht1 Hlegs1 Hout ltac:(by split_and!) Hd2) as [Ht2 Hlegs2].
  assert (cur_ns s2 = tns) as Hcur2 by (destruct Hs2 as [-> _]; exact Hcur1).
  wpo_step. apply wpo_wf. intros Hwf2. eapply wpo_mono; [apply wpo_setupVRF|].
  intros vrf s3 (Hs3 & Hf3 & idv & dv & Hdv & Hvns & Hvn & Hvk & Hvi & Hvup).
  destruct (tracks_frame _ _ _ _ _ _ _ Hwf2 Ht2 Hvrf Hf3) as (K3 & Ht3 & He3 & _).
  destruct (legs_evolves _ _ _ _ _ _ _ _ _ _ _ _ Hlegs2 He3) as (mh & mp & ml & Hlegs3 & _).
  assert (cur_ns s3 = tns) as Hcur3 by (destruct Hs3 as [-> _]; exact Hcur2).
  wpo_step. apply wpo_wf. intros Hwf3. rewrite Hcur2 in Hvns.
  apply (wpo_set_vrf vrf pe s3 idp (set_master mp dp2) idv dv);
    [exact (tracks_lookup _ _ _ _ _ _ Ht3 (legs_dp Hlegs3))|cbn; congruence|done|done| |done].
  intros s4 Hs4 Hd4. set (dp4 := set_master (dev_index dv) (set_master mp dp2)) in *.
  destruct (router_step _ _ _ _ _ _ _ _ s4 _ _ _ _ _ _ dp4 Ht3 Hlegs3 Hout ltac:(by split_and!) Hd4) as [Ht4 Hlegs4].
  assert (idp ≠ idv) as Hpv.
  { intros <-. rewrite (tracks_lookup _ _ _ _ _ _ Ht3 (legs_dp Hlegs3)) in Hdv. injection Hdv as <-.
    apply Hvrf. rewrite -Hvn. exact (tracks_names Ht3 _ _ (legs_dp Hlegs3)). }
  assert (devs s4 !! idv = Some dv) as Hdv4 by by rewrite Hd4 lookup_insert_ne.
  destruct (plain_of_vrf _ Hvk) as [Hv1 Hv2].
  apply wpo_wf. intros Hwf4. apply (HP vrf); [exact (silent_trans _ _ _ Hs1 (silent_trans _ _ _ Hs2 (silent_trans _ _ _ Hs3 Hs4)))|].
  destruct (tracks_add _ _ _ s4 idv dv Hwf4 Ht4 Hdv4 Hv1 (unbased _ _ Hv2)) as (Ht5 & Hdv5 & _).
  rewrite Hvn in Ht5.
  exists pe, (<[idp := dp4]> K3 ∪ {[idv := dv]}), (set_master mh dh), dp4, (set_master ml dl), idv, dv.
  pose proof (legs_mono _ _ _ _ _ _ _ _ _ _ _ _ Hlegs4 (map_union_subseteq_l _ {[idv := dv]})).
  split_and!; try done. cbn. apply elem_of_app. by left.
Qed.

(** The second part: the bridge and the VXLAN. *)
Lemma wpo_overlay params vrf hns tns s K0 l idh idp idl :
  bridgeName (VNIParams.VNI params) ∉ VNIParams.VRF params :: l →
  vxLanName (VNIParams.VNI params) ∉ bridgeName (VNIParams.VNI params) :: VNIParams.VRF params :: l →
  cur_ns s = tns → leg_ready params hns tns K0 l idh idp idl s →
  wpo (bridge ← setupBridge params vrf; setupVXLan params bridge) s (λ _ s', ∃ K',
    tracks K0 (vxLanName (VNIParams.VNI params) :: bridgeName (VNIParams.VNI params)
               :: VNIParams.VRF params :: l) K' s'
    ∧ configured_in params hns tns K').
Proof.
  intros Hbr Hvx Hcur (pe & K & dh & dp & dl & idv & dv & Ht & Hlegs & [Hhup Hhin] & Hpup & Hpin & Hdv & Hvns & Hvn & Hvk & Hvup & Hpm).
  destruct (legs_pe Hlegs) as (Hpns & Hpn & Hpi). wpo_step. apply wpo_wf. intros Hwf.
  eapply wpo_mono; [apply wpo_setupBridge|].
  intros br s1 (Hs1 & Hf1 & idb & db & Hdb & Hbns & Hbn & Hbk & Hbi & Hbup & Hbgen).
  destruct (tracks_frame _ _ _ _ _ _ _ Hwf Ht Hbr Hf1) as (K1 & Ht1 & He1 & _).
  assert (cur_ns s1 = tns) as Hcur1 by (destruct Hs1 as [-> _]; exact Hcur). rewrite Hcur in Hbns.
  apply wpo_wf. intros Hwf1. destruct (plain_of_bridge _ Hbk) as [Hb1 Hb2].
  destruct (tracks_add _ _ _ s1 idb db Hwf1 Ht1 Hdb Hb1 (unbased _ _ Hb2)) as (Ht1' & Hdb1 & He1').
  rewrite Hbn in Ht1'. pose proof (evolves_trans _ _ _ He1 He1') as He.
  set (K1' := K1 ∪ {[idb := db]}) in *.
  destruct (legs_evolves _ _ _ _ _ _ _ _ _ _ _ _ Hlegs He) as (mh & mp & ml & Hlegs1 & HC).
  assert (mp = dev_master dp) as ->. { apply HC. exists idv, dv. split_and!; [done|congruence..]. }
  destruct (He _ _ Hdv) as (mv & Hdv1 & _).
  eapply wpo_mono; [apply wpo_wf_post, wpo_setupVXLan|].
  intros _ s2 [Hwf2 Hset]. destruct Hset as (idl' & dl' & vx & Hdl' & Hs2 & Hf2 & idx & dx & Hdx & Hxns & Hxn & _ & _ & Hxcfg & Hxup & Hxgen & Hxsup).
  rewrite Hcur1 in Hdl', Hxns. destruct (legs_lo Hlegs1) as (Hlns & Hln).
  pose proof (tracks_lookup _ _ _ _ _ _ Ht1' (legs_dl Hlegs1)) as Hdl1.
  assert (idl' = idl) as -> by exact (wf_name _ Hwf1 _ _ _ _ _ _ Hdl' (conj Hdl1 (conj Hlns Hln))).
  assert (dl' = set_master ml dl) as -> by (destruct Hdl' as [? _]; congruence).
  destruct (tracks_frame _ _ _ _ _ _ _ Hwf1 Ht1' Hvx Hf2) as (K2 & Ht2 & He2 & _).
  destruct (legs_evolves _ _ _ _ _ _ _ _ _ _ _ _ Hlegs1 He2) as (mh2 & mp2 & ml2 & Hlegs2 & HC2).
  assert (mp2 = dev_master dp) as ->. { apply HC2. exists idv, (set_master mv dv). split_and!; [done|cbn; congruence..]. }
  destruct (legs_lo Hlegs2) as (Hlns2 & Hln2).
  destruct (based_vxlan K2 dx idl _ _ _ _ Hxcfg (legs_dl Hlegs2) eq_refl) as [Hbase Hxv]; [by rewrite Hxns|].
  destruct (tracks_add _ _ _ s2 idx dx Hwf2 Ht2 Hdx Hxv Hbase) as (Ht3 & Hdx3 & He3). rewrite Hxn in Ht3.
  exists (K2 ∪ {[idx := dx]}). split; [exact Ht3|].
  destruct (He2 _ _ Hdv1) as (mv2 & Hdv2 & _), (He2 _ _ Hdb1) as (mb2 & Hdb2 & _).
  pose proof (legs_mono _ _ _ _ _ _ _ _ _ _ _ _ Hlegs2 (map_union_subseteq_l K2 {[idx := dx]})) as Hlegs3.
  assert (∀ i e, K2 !! i = Some e → (K2 ∪ {[idx := dx]}) !! i = Some e) as Hin
    by (intros; by apply lookup_union_Some_l).
  destruct (legs_host Hlegs3) as (Hh1 & Hh2 & Hh3). split.
  - exists idh, (set_master mh2 (set_master mh dh)), idp, (set_master (dev_master dp) (set_master (dev_master dp) dp)), idv, (set_master mv2 (set_master mv dv)).
    split_and!; try done; [exact (legs_dh Hlegs3)|exact (legs_dp Hlegs3)|exact (Hin _ _ Hdv2)].
  - rewrite Hbi in Hxcfg. exists idb, (set_master mb2 db), idx, dx, idl, (set_master ml2 (set_master ml dl)).
    split_and!; try done; [exact (Hin _ _ Hdb2)|exact (legs_dl Hlegs3)].
Qed.

(** *** The whole call *)

(** The conditions under which [SetupVNI] can do its work: the router's
    namespace exists, the router's legs have indexes of their own, a pair that is already there
    has the expected names, the addresses are written as the kernel prints them and
    the names do not clash. *)
Record vni_possible (params : VNIParams.t) (tns : Z) (s : NetState) : Prop := {
  possible_ns : named s !! VNIParams.TargetNS params = Some tns;
  possible_index : legs_apart s;
  possible_peer : peer_named (VNIParams.VRF params) s;
  possible_addrs : canonical_addr W (VNIParams.VethHostIP params)
    ∧ canonical_addr W (VNIParams.VethNSIP params);
  possible_names : VNIParams.VRF params ≠ bridgeName (VNIParams.VNI params)
    ∧ VNIParams.VRF params ≠ vxLanName (VNIParams.VNI params) }.

Lemma wpo_setupVNIInNamespace params pe hns tns s K0 K l idh idp idl dh dp dl :
  canonical_addr W (VNIParams.VethNSIP params) →
  VNIParams.VRF params ∉ l → bridgeName (VNIParams.VNI params) ∉ VNIParams.VRF params :: l →
  vxLanName (VNIParams.VNI params) ∉ bridgeName (VNIParams.VNI params) :: VNIParams.VRF params :: l →
  cur_ns s = tns → tracks K0 l K s → K0 !! idp = None → legs params pe hns tns K idh idp idl dh dp dl →
  host_ready params dh →
  wpo (setupVNIInNamespace params (Some pe)) s (λ _ s', ∃ K',
    tracks K0 (vxLanName (VNIParams.VNI params) :: bridgeName (VNIParams.VNI params)
               :: VNIParams.VRF params :: l) K' s'
    ∧ configured_in params hns tns K').
Proof.
  intros Hcan Hvrf Hbr Hvx Hcur Ht Hout Hlegs Hready. unfold setupVNIInNamespace.
  eapply (wpo_leg params pe hns tns s K0 K l idh idp idl dh dp dl); [done..|].
  intros vrf s1 [Ht1 _] Hleg. apply (wpo_overlay params vrf hns tns s1 K0 l idh idp idl); try done.
  by rewrite Ht1.
Qed.

(** The veth pair, next to the devices of the others and the loopback. *)
Lemma wpo_pair params ns tns s K0 l idl dl :
  legs_apart s → peer_named (VNIParams.VRF params) s → handles (thr s) !! ns = Some tns →
  tracks K0 l K0 s → (vethLegsForVRF (VNIParams.VRF params)).1 ∉ l →
  (vethLegsForVRF (VNIParams.VRF params)).2 ∉ l →
  K0 !! idl = Some dl → dev_ns dl = tns → dev_name dl = UnderlayLoopback →
  wpo (setupVeth (VNIParams.VRF params) ns) s (λ '(host, pe) s', silent s s' ∧
    ∃ pe' K idh dh idp dp dl', pe = Some pe'
      ∧ tracks K0 ((vethLegsForVRF (VNIParams.VRF params)).1
                   :: (vethLegsForVRF (VNIParams.VRF params)).2 :: l) K s'
      ∧ legs params pe' (cur_ns s) tns K idh idp idl dh dp dl'
      ∧ dev_index dh = link_index host ∧ K0 !! idh = None ∧ K0 !! idp = None).
Proof.
  intros Hu Hpn Hh Ht0 Hf1 Hf2 Hdl Hlns Hln.
  eapply wpo_mono; [apply wpo_wf_post, (wpo_setupVeth _ _ tns); done|].
  intros [host pe] s1 (Hwf & Hs & (pe' & -> & idh & dh & idp & dp & Hdh & Hhns & Hhn & Hhv & Hhi
    & Hhp & Hdp & Hpns & Hpi & Hpname & Hpv) & Hheld). split; [done|].
  destruct (tracks_held _ _ _ _ _ Ht0 (Hheld _ _ (tracks_holds Ht0) (tracks_names Ht0) Hf1 Hf2))
    as (K1 & HK1 & He1 & Hdom1).
  destruct (tracks_pair _ _ _ _ _ _ _ _ Hwf HK1 Hdh Hdp Hhp Hhv Hpv) as (K & HK & Hsub & Kh & Kp).
  rewrite Hhn Hpname in HK.
  pose proof (λ i e Hi, within_absent l K1 s1 i e (tracks_names HK1) (proj2 (tracks_holds HK1)) Hi) as Hout.
  assert (K1 !! idh = None) as Oh by (apply (Hout _ _ Hdh); by rewrite Hhn).
  assert (K1 !! idp = None) as Op by (apply (Hout _ _ Hdp); by rewrite Hpname).
  assert (∀ i, K1 !! i = None → K0 !! i = None) as Hnone.
  { intros i Hi. apply not_elem_of_dom. rewrite -Hdom1. by apply not_elem_of_dom. }
  destruct (He1 _ _ Hdl) as (ml & Hml & _), (wf_peer _ Hwf _ _ _ _ Hdh Hdp Hhp) as [_ Hne].
  exists pe', K, idh, dh, idp, dp, (set_master ml dl). split_and!; [done|done|split|done|auto..].
  - done.
  - by split_and!.
  - done.
  - by split_and!.
  - exact (lookup_weaken _ _ _ _ Hml Hsub).
  - done.
  - split_and!; congruence.
Qed.

(** The devices of the others stay, and the loopback is one of them. *)
Lemma wpo_SetupVNI params tns s K0 l idl dl :
  vni_possible params tns s → tracks K0 l K0 s →
  Forall (λ n, n ∉ l) (vni_names params) →
  K0 !! idl = Some dl → dev_ns dl = tns → dev_name dl = UnderlayLoopback →
  wpo (SetupVNI params) s (λ _ s', ∃ K',
    tracks K0 (vni_names params ++ l) K' s' ∧ configured_in params (cur_ns s) tns K').
Proof.
  intros [Hns Hu Hpn [Hc1 Hc2] [Hn1 Hn2]] Ht0 Hfree Hdl Hlns Hln.
  rewrite !list.Forall_cons in Hfree. destruct Hfree as (Hf1 & Hf2 & Hf3 & Hf4 & Hf5 & _).
  destruct (device_names_apart (VNIParams.VRF params) (VNIParams.VNI params))
    as (Ha1 & Ha2 & Ha3 & Ha4 & _ & Ha6 & Ha7 & Ha8 & _).
  unfold SetupVNI. do 2 wpo_step. eapply wpo_sat; [apply GetFromName_law|].
  intros ns s1 (_ & n & Hn & Hfresh & ->). assert (n = tns) as -> by congruence.
  set (s1 := set_thr _ s). pose proof (tracks_devs _ _ _ s s1 eq_refl Ht0) as Ht1.
  assert (handles (thr s1) !! ns = Some tns) as Hh1 by (cbn; by rewrite lookup_insert_eq).
  wpo_step. eapply wpo_mono; [apply (wpo_pair params ns tns s1 K0 l idl dl); done|].
  intros [host pe] s2 [Hs2 (pe' & K & idh & dh & idp & dp & dl' & -> & HK & Hlegs & Hhi & Oh & Op)].
  change (cur_ns s1) with (cur_ns s) in Hlegs. assert (thr s2 = thr s1) as Ht2 by apply Hs2.
  destruct (legs_host Hlegs) as (Hhns & _). wpo_step.
  apply (wpo_assignIP _ _ _ idh dh);
    [done|exact (tracks_lookup _ _ _ _ _ _ HK (legs_dh Hlegs))|rewrite Ht2; exact Hhns|done|].
  intros ex1 s3 Hs3 _ Hin Hd3. do 2 wpo_step. assert (thr s3 = thr s1) as Ht3 by (rewrite -Ht2; apply Hs3).
  destruct (host_step _ _ _ _ _ _ _ _ s3 _ _ _ _ _ _ (set_addrs (dev_addrs dh ++ ex1) dh) HK Hlegs Oh
    ltac:(by split_and!) Hd3) as [HK3 Hlegs3].
  eapply (wpo_LinkSetUp _ _ idh); [exact (tracks_lookup _ _ _ _ _ _ HK3 (legs_dh Hlegs3))
    |rewrite Ht3; exact Hhns|exact Hhi|].
  intros ex2 s4 Hs4 Hd4. assert (thr s4 = thr s1) as Ht4 by (rewrite -Ht3; apply Hs4).
  destruct (host_step _ _ _ _ _ _ _ _ s4 _ _ _ _ _ _ (set_up ex2 (set_addrs (dev_addrs dh ++ ex1) dh)) HK3
    Hlegs3 Oh ltac:(by split_and!) Hd4) as [HK4 Hlegs4].
  apply (wpo_inNamespace _ _ _ tns); [unfold setupVNIInNamespace; solve_quiet|by rewrite Ht4|].
  intros h Hh. eapply wpo_mono.
  { eapply (wpo_setupVNIInNamespace params pe' (cur_ns s) tns (enter tns h s4) K0 _ _ idh idp idl _ dp dl' Hc2);
      [..|exact (tracks_devs _ _ _ s4 (enter tns h s4) eq_refl HK4)|exact Op|exact Hlegs4|];
      rewrite ?not_elem_of_cons; [by split_and!|split_and!; congruence..|reflexivity|].
    split; [done|]. cbn. rewrite !elem_of_app in Hin |- *. by left. }
  intros [] s5 (K' & HK' & Hcfg) _. exists K'. split; [|exact Hcfg].
  destruct HK' as [Hho Hot Hw]. split; [exact (holds_devs _ s5 _ eq_refl Hho)|done|]. refine (within_mono _ _ _ Hw _).
  unfold vni_names. clear. set_solver.
Qed.

Lemma tracks_self l K s : holds K s → within l K → tracks K l K s.
Proof. intros. split; [done|apply evolves_refl|done]. Qed.

(** [SetupVNI] can do its work, and the underlay's loopback is there. *)
Record vni_ready (params : VNIParams.t) (tns : Z) (s : NetState) : Prop := {
  ready_possible : vni_possible params tns s;
  ready_name : VNIParams.VRF params ≠ UnderlayLoopback;
  ready_loopback : ∃ idl dl, dev_named s tns UnderlayLoopback idl dl ∧ plain dl }.

Lemma holds_loopback s idl dl :
  wf s → devs s !! idl = Some dl → plain dl → holds {[idl := dl]} s.
Proof.
  intros Hwf Hdl Hpl. split; [|by apply map_singleton_subseteq_l].
  apply map_Forall_singleton. split; [exact (plain_peered _ _ _ _ Hwf Hdl Hpl)|apply unbased, Hpl].
Qed.

Lemma SetupVNI_configures params tns w w' :
  vni_ready params tns (view w) → SetupVNI params w = (Ok tt, w') →
  vni_configured params (cur_ns (view w)) tns (view w').
Proof.
  intros [Hp Hn (idl & dl & (Hdl & Hns & Hname) & Hpl)].
  pose proof (holds_loopback _ _ _ (view_wf w) Hdl Hpl) as HK.
  destruct (device_names_apart (VNIParams.VRF params) (VNIParams.VNI params))
    as (_ & _ & _ & _ & H5 & _ & _ & _ & H9 & H10 & H11).
  refine (wpo_Ok _ (λ _ s', vni_configured params (cur_ns (view w)) tns s') w tt w' _).
  eapply wpo_mono; [apply (wpo_SetupVNI params tns _ {[idl := dl]} [UnderlayLoopback] idl dl Hp)|].
  - apply tracks_self; [done|]. apply map_Forall_singleton. rewrite Hname. by left.
  - unfold vni_names. rewrite !list.Forall_cons !list_elem_of_singleton. split_and!; try congruence. by constructor.
  - by rewrite lookup_singleton_eq.
  - done.
  - done.
  - intros [] s' (K' & [[_ Hs] _ _] & Hcfg). exact (configured_evolves _ _ _ _ _ (subset_evolves _ _ Hs) Hcfg).
Qed.

(** ** All VNIs *)
Lemma obeys_setupVNIInNamespace {b : bool} (R : account) `{!Drops R} params pe :
  (∀ req, vni_request params req → is_veth req = false → allowed R req) →
  assignable (W:=W) R (VNIParams.VethNSIP params) → obeys b R 14 (setupVNIInNamespace (W:=W) params pe).
Proof.
  intros HA Hn. unfold setupVNIInNamespace. apply obeys_bind0; [by apply obeys_assignIP|]. intros _.
  apply obeys_bind0; [solve_obeys|]. intros _.
  apply (obeys_bind _ 4 10); [apply (obeys_setupVRF R); intros; apply HA; [apply request_vrf|done]|]. intros vrf.
  apply obeys_bind0; [solve_obeys|]. intros _.
  apply (obeys_bind _ 4 6); [apply (obeys_setupBridge R); intros; apply HA; [apply request_bridge|done]|]. intros br.
  apply (obeys_setupVXLan R). intros. apply HA; [apply request_vxlan|done].
Qed.

Lemma obeys_SetupVNI {b : bool} (R : account) `{!Drops R} params :
  (∀ req, vni_request params req → allowed R req) →
  assignable (W:=W) R (VNIParams.VethHostIP params) → assignable (W:=W) R (VNIParams.VethNSIP params) →
  obeys b R 18 (SetupVNI (W:=W) params).
Proof.
  intros HA Hh Hn. unfold SetupVNI. apply obeys_bind0; [solve_obeys|]. intros ns.
  apply (obeys_bind _ 4 14); [apply (obeys_setupVeth R); apply HA, request_veth|]. intros [host pe].
  apply obeys_bind0; [by apply obeys_assignIP|]. intros _. apply obeys_bind0; [solve_obeys|]. intros _.
  apply obeys_inNamespace, (obeys_setupVNIInNamespace R); [|done]. intros req Hreq _. by apply HA.
Qed.

Lemma tame_SetupVNI params : tame (vni_names params) (SetupVNI (W:=W) params).
Proof.
  apply (tame_any _ 18), (obeys_SetupVNI (tamed_account _)); [|done..]. intros req Hreq. by apply tamed_allowed, vni_request_names.
Qed.

(** It makes five devices; the count of 18 is generous: two for each request, and a
    request may be made twice. *)
Lemma grown_SetupVNI params s : wpo (SetupVNI (W:=W) params) s (λ _ s', grown 18 s s').
Proof. apply (obeys_ok grown_account 18), (obeys_SetupVNI grown_account); [|done..]. intros req Hreq. exact (grown_allowed _ (vni_request_well_named _ _ Hreq)). Qed.

Lemma wp_SetupVNI_thread params s :
  wp (SetupVNI params) s (λ _ s', cur_ns s' = cur_ns s ∧ named s' = named s).
Proof.
  eapply wp_mono; [apply wp_with_handle; intros ns; solve_quiet; apply quiet_setupVNIInNamespace|].
  intros r s' [[[Ht Hn] _]|(h & n & _ & _ & Ht & Hn)]; by rewrite Ht.
Qed.
Lemma wpo_SetupVNI_thread params s :
  wpo (SetupVNI params) s (λ _ s', cur_ns s' = cur_ns s ∧ named s' = named s).
Proof. eapply wp_mono; [apply wp_SetupVNI_thread|]. by intros []. Qed.

(** No device of one VNI has the name of a device of another, or the loopback's. *)
Fixpoint names_free (l : list string) (vps : list VNIParams.t) : Prop :=
  match vps with
  | [] => True
  | p :: vps => Forall (λ n, n ∉ l) (vni_names p) ∧ names_free (vni_names p ++ l) vps
  end.

Lemma names_free_legs l vps p :
  names_free l vps → p ∈ vps → Forall (λ n, n ∉ l) (vni_names p).
Proof.
  revert l. induction vps as [|q vps IH]; intros l Hf; [by intros ?%elem_of_nil|].
  destruct Hf as [Hq Hf]. intros [->|Hp]%elem_of_cons; [done|].
  eapply Forall_impl; [|exact (IH _ Hf Hp)]. intros n Hn Hl. apply Hn. apply elem_of_app. by right.
Qed.

Lemma possible_after p q tns s s' :
  vni_possible q tns s → wf s' → tamed (vni_names p) s s' → named s' = named s →
  (vethLegsForVRF (VNIParams.VRF q)).1 ∉ vni_names p → vni_possible q tns s'.
Proof.
  intros [Hns Hu Hp Ha Hn] Hwf Ht Hnm Hleg. split; [by rewrite Hnm|by apply Ht| |done|done].
  exact (tamed_peer_named _ _ _ _ Hwf Ht Hleg Hp).
Qed.

(** The loop over the VNIs: whatever else was there stays. *)
Lemma wpo_SetupVNIs vps tns s K l idl dl :
  Forall (λ p, vni_possible p tns s) vps → names_free l vps → holds K s → within l K →
  K !! idl = Some dl → dev_ns dl = tns → dev_name dl = UnderlayLoopback →
  wpo (forM_ SetupVNI vps) s (λ _ s', ∃ K', evolves K K' ∧ holds K' s'
    ∧ Forall (λ p, configured_in p (cur_ns s) tns K') vps).
Proof.
  revert s K l dl. induction vps as [|p vps IH]; intros s K l dl Hps Hf HK Hl Hdl Hns Hn; cbn [forM_].
  { wpo_step. exists K. split_and!; [apply evolves_refl|done|constructor]. }
  apply list.Forall_cons in Hps as [Hp Hps]. destruct Hf as [Hfp Hf]. wpo_step.
  eapply wpo_mono; [apply wpo_wf_post, wpo_conj; [exact (wpo_SetupVNI p tns s K l idl dl Hp (tracks_self _ _ _ HK Hl) Hfp Hdl Hns Hn)|
    apply wpo_conj; [apply tame_SetupVNI|apply wpo_SetupVNI_thread]]|].
  intros [] s1 (Hwf1 & (K1 & [HK1 He1 Hl1] & Hcfg) & Htame & Hcur & Hnm).
  destruct (He1 _ _ Hdl) as (m & Hm & _).
  eapply wpo_mono; [eapply (IH s1 K1 (vni_names p ++ l) (set_master m dl)); try done|].
  - apply list.Forall_forall. intros q Hq. rewrite list.Forall_forall in Hps.
    apply (possible_after p q tns s s1 (Hps q Hq) Hwf1 Htame Hnm).
    pose proof (names_free_legs _ _ _ Hf Hq) as Hfree. apply list.Forall_cons in Hfree as [Hleg _].
    intros Hin. apply Hleg. apply elem_of_app. by left.
  - intros [] s2 (K2 & He2 & HK2 & Hcfgs). exists K2. rewrite Hcur in Hcfgs.
    split_and!; [exact (evolves_trans _ _ _ He1 He2)|done|]. constructor; [|done].
    exact (configured_evolves _ _ _ _ _ He2 Hcfg).
Qed.

Lemma SetupVNIs_configure vps tns w w' K l idl dl :
  Forall (λ p, vni_possible p tns (view w)) vps → names_free l vps →
  holds K (view w) → within l K →
  K !! idl = Some dl → dev_ns dl = tns → dev_name dl = UnderlayLoopback →
  forM_ SetupVNI vps w = (Ok tt, w') →
  Forall (λ p, vni_configured p (cur_ns (view w)) tns (view w')) vps
  ∧ ∃ K', evolves K K' ∧ K' ⊆ devs (view w').
Proof.
  intros Hps Hf HK Hl Hdl Hns Hn Hr.
  destruct (wpo_Ok _ _ w tt w' (wpo_SetupVNIs vps tns (view w) K l idl dl Hps Hf HK Hl Hdl Hns Hn) Hr)
    as (K' & He & [_ Hs] & Hcfg).
  split; [|by exists K']. eapply Forall_impl; [|exact Hcfg]. intros p Hp.
  exact (configured_evolves _ _ _ _ _ (subset_evolves _ _ Hs) Hp).
Qed.
End setup_vni.

(** ** The theorems *)
Section theorems.
Context {W : Type} `{NetlinkLaws W}.

Lemma detour_possible {F} `{NetlinkLaws F, !Refuge W F} p tns s :
  vni_possible (W:=W) p tns s → vni_possible (W:=(W + F)) p tns s.
Proof. intros []. by split. Qed.
Lemma detour_ready {F} `{NetlinkLaws F, !Refuge W F} p tns s :
  vni_ready (W:=W) p tns s → vni_ready (W:=(W + F)) p tns s.
Proof. intros [Hp ? ?]. split; [exact (detour_possible _ _ _ Hp)|done..]. Qed.

(** C11. What a successful [SetupVNI] establishes, when the router's namespace exists, the
    underlay's loopback is in it, the pair of the VRF, if it is there, has the expected
    names, the addresses are written as the kernel prints them and the names do not clash:
    the veth pair, with its two addresses, from the caller's namespace to the router's, the
    router's leg enslaved to the VRF, the bridge, and the VXLAN configured as asked, over
    the underlay's loopback and enslaved to the bridge; all up, and without generated
    addresses on bridge and VXLAN.  This holds as long as the run meets no trouble the
    code does not see: no router's leg shares its index with another device, at the start
    or when a device is made or moved, every switch of namespace is let through, and
    looking the loopback up fails only when it is not there.  The first is needed: see
    [SetupVNI_index_clash]. *)
Theorem SetupVNI_establishes params tns w w' :
  vni_ready params tns (view w) → SetupVNI params w = (Ok tt, w') →
  troubles (SetupVNI params) w = [] →
  vni_configured params (cur_ns (view w)) tns (view w').
Proof.
  intros Hready Hr Ht. by_detour well_formed (λ W (_ : Netlink W), SetupVNI params) Hr Ht.
  exact (SetupVNI_configures (W:=detoured W well_formed) _ _ _ _ (detour_ready _ _ _ Hready) Hr).
Qed.

(** C9. Configuring all VNIs, one after the other: when every call succeeds every VNI
    is configured at the end, the first as well as the last; and any set of other
    devices that contains the peers of its devices and what its VXLANs run over, the
    loopback among them, is left in place.  The conditions are those of a single call, for
    each VNI, and names that do not clash; and the run meets no trouble the code does not
    see: no router's leg shares its index with another device, every switch of namespace
    is let through, and looking the loopback up fails only when it is not there. *)
Theorem SetupVNIs_establish vps tns w w' K l idl dl :
  Forall (λ p, vni_possible p tns (view w)) vps → names_free l vps →
  holds K (view w) → within l K →
  K !! idl = Some dl → dev_ns dl = tns → dev_name dl = UnderlayLoopback →
  forM_ SetupVNI vps w = (Ok tt, w') → troubles (forM_ SetupVNI vps) w = [] →
  Forall (λ p, vni_configured p (cur_ns (view w)) tns (view w')) vps
  ∧ ∃ K', evolves K K' ∧ K' ⊆ devs (view w').
Proof.
  intros Hps Hf HK Hl Hdl Hns Hn Hr Ht. by_detour well_formed (λ W (_ : Netlink W), forM_ SetupVNI vps) Hr Ht.
  refine (SetupVNIs_configure (W:=detoured W well_formed) vps tns _ _ K l idl dl _ Hf HK Hl Hdl Hns Hn Hr).
  eapply Forall_impl; [|exact Hps]. intros p. apply detour_possible.
Qed.
End theorems.

(** ** Witnesses *)
Definition second_params : VNIParams.t :=
  VNIParams.mk "blue" "router" "100.65.0.0/32" "192.169.11.1/24" "192.169.11.0/24"
    200 4789.
Definition sample_lo : Dev := sample_dev 1 4 "lound" Dummy ["100.65.0.0/32"].

Lemma sample_possible p :
  p = sample_params ∨ p = second_params → vni_possible (W:=NetState) p 1 (view ready_state).
Proof.
  intros Hp. split.
  - by destruct Hp as [-> | ->]; vm_compute.
  - apply (bool_decide_eq_true_1 _). vm_compute. reflexivity.
  - intros i d j e Hi Hn _ _. exfalso.
    refine (each_dev (λ _ d, dev_name d ∉ ["hostred"; "hostblue"]) _ _ i d Hi _); [by vm_compute|].
    rewrite Hn. destruct Hp as [-> | ->]; vm_compute; [left|right; left].
  - destruct Hp as [-> | ->]; split; solve_canonical.
  - by destruct Hp as [-> | ->]; split; vm_compute.
Qed.

Lemma SetupVNI_establishes_witness :
  (SetupVNI sample_params ready_state).1 = Ok tt ∧
  vni_configured sample_params (cur_ns (view ready_state)) 1
    (view (SetupVNI sample_params ready_state).2).
Proof.
  assert ((SetupVNI sample_params ready_state).1 = Ok tt) as Hr by (vm_compute; reflexivity).
  split; [exact Hr|].
  apply (SetupVNI_establishes sample_params 1 ready_state).
  - split; [apply sample_possible; by left|vm_compute; discriminate|].
    exists 3%positive, sample_lo. split; [split_and!; vm_compute; reflexivity|split; reflexivity].
  - rewrite -Hr. apply surjective_pairing.
  - vm_compute. reflexivity.
Defined.

Lemma SetupVNIs_establish_witness :
  let run := forM_ SetupVNI [sample_params; second_params] ready_state in
  run.1 = Ok tt
  ∧ Forall (λ p, vni_configured p 0 1 (view run.2)) [sample_params; second_params].
Proof.
  cbv zeta. set (run := forM_ SetupVNI _ ready_state).
  assert (run.1 = Ok tt) as Hr by (vm_compute; reflexivity).
  split; [exact Hr|].
  refine (proj1 (SetupVNIs_establish [sample_params; second_params] 1 ready_state run.2
    {[3%positive := sample_lo]} [UnderlayLoopback] 3%positive sample_lo _ _ _ _ _ _ _ _ _)).
  - constructor; [apply sample_possible; by left|]. constructor; [apply sample_possible; by right|constructor].
  - do 2 (split; [apply (bool_decide_eq_true_1 _); vm_compute; reflexivity|]). exact I.
  - apply holds_loopback; [apply (view_wf ready_state)|vm_compute; reflexivity|by split].
  - apply map_Forall_singleton. by left.
  - vm_compute. reflexivity.
  - reflexivity.
  - reflexivity.
  - rewrite -Hr. apply surjective_pairing.
  - vm_compute. reflexivity.
Defined.

(** A VRF may be called like the router's leg of another one.  Setting it up deletes that
    leg, and with it the other end, and reports no error. *)
Definition pered_params : VNIParams.t :=
  VNIParams.mk "pered" "router" "100.65.0.0/32" "192.169.12.1/24" "192.169.12.0/24" 300 4789.
Example vrf_takes_leg :
  let called name s := existsb (λ x, bool_decide (dev_name x.2 = name)) (map_to_list (devs s)) in
  let one := SetupVNI sample_params ready_state in
  let both := forM_ SetupVNI [sample_params; pered_params] ready_state in
  one.1 = Ok tt ∧ called "hostred" (view one.2) = true
  ∧ both.1 = Ok tt ∧ called "hostred" (view both.2) = false.
Proof. vm_compute. by split_and!. Qed.
