(* ===== verification/VniProgress.v ===== *)
(** * [SetupVNI] succeeds

    With a kernel that has no reason to refuse (Progress.v), [SetupVNI] ends without
    error on a node where the names of the VNI's devices are free or carried by devices
    of the right types; and a node on which all VNIs can be set up stays one while they
    are set up one after the other. *)

From S2P Require Import Prelude GoStrings GoNet HostParams Netlink Troubles NetLogic HostLinks LinkSpecs.
From S2P Require Import Progress Held Faults Origins LinkProgress VethSpecs SimKernel SimProgress HostNetwork Twins Detour HostSpecs VniSpecs.
Local Open Scope Z_scope.

(** ** The veth pair *)

(** No device has the name of an end of the pair; or the pair is there, its router's end
    in the router's namespace or still in the host's. *)
Definition legs_absent (name : string) (s : NetState) : Prop :=
  ∀ id d, devs s !! id = Some d →
    dev_name d ≠ (vethLegsForVRF name).1 ∧ dev_name d ≠ (vethLegsForVRF name).2.
Record legs_there (name : string) (hns tns : Z) (s : NetState)
    (idh : positive) (dh : Dev) (idp : positive) (dp : Dev) : Prop := {
  there_host : dev_named s hns (vethLegsForVRF name).1 idh dh;
  there_peer : dev_peer dh = Some idp;
  there_router : devs s !! idp = Some dp;
  there_name : dev_name dp = (vethLegsForVRF name).2;
  there_ns : dev_ns dp = tns ∨ dev_ns dp = hns
    ∧ ∀ id d, devs s !! id = Some d → dev_name d = (vethLegsForVRF name).2 → id = idp }.
Definition legs_ready (name : string) (hns tns : Z) (s : NetState) : Prop :=
  legs_absent name s ∨ ∃ idh dh idp dp, legs_there name hns tns s idh dh idp dp.

Lemma legs_ready_devs name hns tns s s' :
  devs s' = devs s → legs_ready name hns tns s → legs_ready name hns tns s'.
Proof.
  intros Hd. unfold legs_ready, legs_absent. rewrite Hd.
  intros [?|(idh & dh & idp & dp & [[??] ????])]; [by left|right]. exists idh, dh, idp, dp.
  split; try done; unfold dev_named; by rewrite Hd.
Qed.

Section vni_progress.
Context {W : Type} `{NetlinkLaws W, !Untroubled W} {cap : nat} `{!NetlinkProgress W cap}.

Lemma veth_ends s idh dh idp dp :
  wf s → devs s !! idh = Some dh → dev_peer dh = Some idp → devs s !! idp = Some dp →
  is_veth (dev_link dh) = true ∧ is_veth (dev_link dp) = true.
Proof.
  intros Hwf Hh Hp Hdp. destruct (wf_peer _ Hwf _ _ _ _ Hh Hdp Hp) as [Hp' _].
  split; eapply (wf_peer_veth _ Hwf); eauto; congruence.
Qed.

(** A pair that was just made is there. *)
Lemma made_legs name tns s l s' :
  legs_absent name s → silent s s' → (∃ req, veth_request name s req ∧ added req s l s') →
  link_name l = (vethLegsForVRF name).1
  ∧ ∃ idh dh idp dp, legs_there name (cur_ns s') tns s' idh dh idp dp.
Proof.
  intros Hno [Ht _] (req & -> & idh & dh & (Hfresh & (Hns & Hn & _) & _ & _ & Hk) & ->).
  split; [done|]. cbn in Hk. destruct Hk as (idp & dp & Hfp & Hne & Hpns & Hpn & _ & Hp & _ & _ & Hdevs).
  assert (devs s' !! idp = Some dp) as Hdp by (rewrite Hdevs lookup_insert_ne ?lookup_insert_eq //; congruence).
  exists idh, dh, idp, dp. rewrite Ht. split; try done.
  - split_and!; [by rewrite Hdevs lookup_insert_eq|done|done].
  - right. split; [done|]. intros id d Hd Hnd. rewrite Hdevs in Hd.
    apply lookup_insert_Some in Hd as [[_ <-]|[_ Hd]].
    + exfalso. rewrite Hn in Hnd. revert Hnd. cbn. unfold HostVethPrefix, PEVethPrefix.
      rewrite !string_app_cons. discriminate.
    + apply lookup_insert_Some in Hd as [[-> _]|[_ Hd]]; [done|]. by destruct (Hno id d Hd).
Qed.

(** Finding the router's end and moving it. *)
Lemma fine_peer name ns tns s vh idh dh idp dp g g1 g2 g3 (m : go W (Link * option Link)) :
  legs_apart s → legs_there name (cur_ns s) tns s idh dh idp dp →
  handles (thr s) !! ns = Some tns → link_name vh = (vethLegsForVRF name).1 →
  fine (peerIndex ← on_errM g (VethPeerIndex vh);
        found ← attempt (LinkByIndex peerIndex);
        match found with
        | inl l => _ ← err_with_name (Some l) g1 (LinkSetNsFd (Some l) ns);
                   _ ← lift (attrs_Name (Some l)); mret (g2 l)
        | inr e => if is_link_not_found e
                   then l ← on_errM g3 (inNamespace ns (LinkByIndex peerIndex)); mret (vh, Some l)
                   else m
        end) s.
Proof.
  intros Hu [Hh Hp Hdp Hpn Hpns] Hns Hvh. apply fine_wf. intros Hwf. pose proof Hh as (Hdh & Hhns & Hhn).
  destruct (veth_ends _ _ _ _ _ Hwf Hdh Hp Hdp) as [_ Hveth]. fine_step.
  { fine_step. eapply fine_can; [apply VethPeerIndex_can|]. exists idh, dh, idp, dp. by rewrite Hvh. }
  wpo_step. eapply wpo_sat; [apply VethPeerIndex_law|]. intros i s1 (-> & _ & Hi).
  destruct (Hi i eq_refl) as (idh' & dh' & idp' & dp' & Hh' & Hp' & Hdp' & ->). rewrite Hvh in Hh'.
  assert (idh' = idh) as -> by exact (wf_name _ Hwf _ _ _ _ _ _ Hh' Hh).
  assert (dh' = dh) as -> by (destruct Hh' as [? _]; congruence).
  assert (idp' = idp) as -> by congruence. assert (dp' = dp) as -> by congruence. clear Hi Hh' Hp' Hdp'.
  apply wp_bind, wp_attempt. apply wp_LinkByIndex.
  - intros id d (Hd & Hdns & Hdi). assert (id = idp) as -> by exact (peer_alone _ _ _ _ _ _ _ _ Hwf Hu Hdh Hp Hdp Hpn Hd Hdi).
    assert (d = dp) as -> by congruence. fine_step.
    + fine_step. eapply fine_can; [apply LinkSetNsFd_can|]. exists tns, idp, dp.
      split_and!; [done|done|by rewrite Hveth|]. destruct Hpns as [<-|[Heq Honly]]; [by left|].
      destruct (decide (tns = cur_ns s)) as [|Hne]; [by left|right]. intros id e (He & Hens & Hen).
      assert (id = idp) as -> by (apply (Honly id e He); congruence). congruence.
    + eapply wpo_mono; [apply wpo_true|]. intros _ s1 _. fine_step; [by fine_step; eexists|].
      eapply wpo_mono; [apply wpo_true|]. intros. fine_step.
  - intros e He Hno. rewrite He. fine_step.
    + fine_step. destruct Hpns as [Hpns|[Hpns _]]; [|by destruct (Hno idp dp)].
      eapply (fine_inNamespace _ _ _ tns); [auto with pierre|done|]. intros h _.
      apply (fine_LinkByIndex _ _ idp dp). by split_and!.
    + eapply wpo_mono; [apply wpo_true|]. intros. fine_step.
Qed.

Lemma fine_setupVeth name ns tns s :
  valid_ifname (vethLegsForVRF name).1 = true → valid_ifname (vethLegsForVRF name).2 = true →
  legs_apart s → legs_ready name (cur_ns s) tns s → handles (thr s) !! ns = Some tns →
  (size (devs s) + 2 ≤ cap)%nat → fine (setupVeth name ns) s.
Proof.
  intros Hv1 Hv2 Hu Hlegs Hns Hroom. apply fine_wf. intros Hwf. unfold setupVeth. cbn [vethLegsForVRF].
  apply fine_ensure_bind.
  - destruct Hlegs as [Hno|(idh & dh & idp & dp & [Hh Hp Hdp _ _])].
    + intros id d (Hd & _ & Hn). by destruct (Hno id d Hd).
    + intros id d Hd. assert (id = idh) as -> by exact (wf_name _ Hwf _ _ _ _ _ _ Hd Hh).
      destruct Hh as (Hh & _). assert (d = dh) as -> by (destruct Hd as [? _]; congruence).
      by destruct (veth_ends _ _ _ _ _ Hwf Hh Hp Hdp).
  - intros id d Hd _. destruct Hlegs as [Hno|(idh & dh & idp & dp & Hthere)].
    { destruct Hd as (Hd & _ & Hn). by destruct (Hno id d Hd). }
    eapply (fine_peer name ns tns s (dev_link d) idh dh idp dp); [done..|]. apply Hd.
  - intros Hno. destruct Hlegs as [Habs|(idh & dh & idp & dp & [Hh _ _ _ _])]; [|by destruct (Hno idh dh)].
    split.
    + unfold createVeth. cbn. fine_step. apply fine_LinkAdd; [|done]. split; [done|done|by left|].
      cbn. split_and!; [done| |].
      * unfold HostVethPrefix, PEVethPrefix. rewrite !string_app_cons. discriminate.
      * intros id d (Hd & _ & Hn). by destruct (Habs id d Hd).
    + eapply wpo_mono; [apply wpo_conj; [apply wpo_createVeth
        |eapply (obeys_ok (tamed_account [(vethLegsForVRF name).1; (vethLegsForVRF name).2])), (obeys_createVeth (tamed_account [(vethLegsForVRF name).1; (vethLegsForVRF name).2])),
           tamed_allowed; unfold request_names; set_solver]|].
      intros l s1 [[Hs1 Hmade] [Hu1 _]].
      assert (is_veth l = true) as Hveth by (destruct Hmade as (req & -> & ? & ? & _ & ->); done).
      split; [done|]. destruct (made_legs name tns s l s1 Habs Hs1 Hmade) as [Hln (idh & dh & idp & dp & Hthere)].
      eapply (fine_peer name ns tns s1 l idh dh idp dp); [by apply Hu1|done| |done].
      by destruct Hs1 as [-> _].
Qed.

(** ** The rest of the devices *)

(** An end of the pair gets its address and goes up. *)
Lemma fine_address_up {B} l address s id d g (k : go W B) :
  readable address = true → devs s !! id = Some d → dev_ns d = cur_ns s → dev_index d = link_index l →
  (∀ d' s', silent s s' → same_shape d d' → devs s' = <[id := d']> (devs s) → fine k s') →
  fine (_ ← assignIPToInterface (Some l) address; _ ← on_errM g (LinkSetUp (Some l)); k) s.
Proof.
  intros Ha Hd Hns Hi Hk. fine_step; [by apply (fine_assignIP _ _ _ id d)|].
  apply (wpo_assignIP _ _ _ id d); [by apply readable_canonical|done..|]. intros ex s1 Hs1 _ _ Hd1.
  assert (devs s1 !! id = Some (set_addrs (dev_addrs d ++ ex) d)) as Hl1 by by rewrite Hd1 lookup_insert_eq.
  assert (cur_ns s1 = cur_ns s) as Hc1 by by destruct Hs1 as [-> _].
  fine_step; [fine_step; apply (fine_LinkSetUp _ _ id (set_addrs (dev_addrs d ++ ex) d)); [done|by rewrite Hc1|done]|].
  wpo_step. eapply (wpo_LinkSetUp _ _ id); [exact Hl1|by rewrite Hc1|done|]. intros ex2 s2 Hs2 Hd2.
  eapply Hk; [exact (silent_trans _ _ _ Hs1 Hs2)| |by rewrite Hd2 Hd1 insert_insert_eq]. by split_and!.
Qed.

(** The names of the router's devices carry devices of the right types, and the machine
    has room for [k] devices more. *)
Record router_ready (params : VNIParams.t) (k : nat) (s : NetState) : Prop := {
  router_bridge : kinded is_bridge (bridgeName (VNIParams.VNI params)) s;
  router_vxlan : kinded is_vxlan (vxLanName (VNIParams.VNI params)) s;
  router_named : vni_named (VNIParams.VNI params) s;
  router_room : (size (devs s) + k ≤ cap)%nat }.

Lemma kinded_tamed ok n N s s' : type_check ok → tamed N s s' → n ∉ N → kinded ok n s → kinded ok n s'.
Proof.
  intros Hok [_ Hf] Hn Hk id d' Hd' Hnd. destruct (Hf id d' Hd') as [[HA _]|(d & Hd & Hn' & _ & Hkd)]; [congruence|].
  rewrite -(Hk id d Hd); [|congruence]. apply Hok. rewrite Hkd. apply same_kind_refl.
Qed.

Lemma router_after N j k params s s' :
  tamed N s s' → grown j s s' → bridgeName (VNIParams.VNI params) ∉ N →
  vxLanName (VNIParams.VNI params) ∉ N → router_ready params (j + k) s → router_ready params k s'.
Proof.
  intros Ht [Hsize Hv] ?? [Hk1 Hk2 Hnm Hroom].
  split; [eapply kinded_tamed; eauto with pierre..|by apply Hv|lia].
Qed.

Lemma router_mild k params s s' : mild s s' → router_ready params k s → router_ready params k s'.
Proof.
  intros Hm. apply (router_after [] 0); [by apply mild_tamed|by apply mild_grown|set_solver..].
Qed.

Lemma mild_same_shape s s' id d d' :
  devs s !! id = Some d → same_shape d d' → devs s' = <[id := d']> (devs s) → mild s s'.
Proof. intros Hd (_ & Hn & Hi & Hk & Hp) Hs. by apply (mild_insert s s' id d d'). Qed.

(** What [setupVRF] and [setupBridge] did, as the three accounts see it. *)
Lemma wpo_setupVRF_all name s : wpo (setupVRF (W:=W) name) s (λ vrf s',
  settled name is_vrf (λ l, is_vrf l = false) (λ d, dev_up d = true) vrf s s'
  ∧ tamed [name] s s' ∧ grown 4 s s').
Proof.
  apply wpo_conj; [apply wpo_setupVRF|apply wpo_conj].
  - eapply (obeys_ok (tamed_account [name])), (obeys_setupVRF (tamed_account [name])). intros t. apply tamed_allowed. unfold request_names. set_solver.
  - eapply (obeys_ok grown_account), (obeys_setupVRF grown_account). intros t. by apply grown_allowed.
Qed.
Lemma wpo_setupBridge_all params vrf s : wpo (setupBridge (W:=W) params vrf) s (λ br s',
  settled (bridgeName (VNIParams.VNI params)) is_bridge (λ l, is_bridge l = false)
    (λ d, dev_up d = true ∧ dev_no_addr_gen d = true) br s s'
  ∧ tamed [bridgeName (VNIParams.VNI params)] s s' ∧ grown 4 s s').
Proof.
  apply wpo_conj; [apply wpo_setupBridge|apply wpo_conj].
  - eapply (obeys_ok (tamed_account [bridgeName (VNIParams.VNI params)])), (obeys_setupBridge (tamed_account [bridgeName (VNIParams.VNI params)])). intros t.
    apply tamed_allowed. unfold request_names. set_solver.
  - eapply (obeys_ok grown_account), (obeys_setupBridge grown_account). intros t. by apply grown_allowed.
Qed.

Definition leg_names (params : VNIParams.t) : list string :=
  [(vethLegsForVRF (VNIParams.VRF params)).1; (vethLegsForVRF (VNIParams.VRF params)).2].

(** What the configuration has to keep to: addresses as the kernel prints them, names the
    kernel takes, numbers in their ranges. *)
Definition vni_valid (p : VNIParams.t) : bool :=
  readable (VNIParams.VethHostIP p) && readable (VNIParams.VethNSIP p)
  && forallb valid_ifname (vni_names p)
  && ((0 <=? VNIParams.VNI p) && (VNIParams.VNI p <? 2 ^ 24))
  && ((0 <=? VNIParams.VXLanPort p) && (VNIParams.VXLanPort p <? 2 ^ 16))
  && bool_decide (VNIParams.VRF p ∉ [UnderlayLoopback; bridgeName (VNIParams.VNI p); vxLanName (VNIParams.VNI p)]).

Lemma vni_valid_spec p : vni_valid p = true →
  (readable (VNIParams.VethHostIP p) = true ∧ readable (VNIParams.VethNSIP p) = true)
  ∧ Forall (λ n, valid_ifname n = true) (vni_names p)
  ∧ (0 ≤ VNIParams.VNI p < 2 ^ 24 ∧ 0 ≤ VNIParams.VXLanPort p < 2 ^ 16)
  ∧ VNIParams.VRF p ≠ UnderlayLoopback ∧ VNIParams.VRF p ≠ bridgeName (VNIParams.VNI p)
  ∧ VNIParams.VRF p ≠ vxLanName (VNIParams.VNI p).
Proof.
  unfold vni_valid. intros [[[[[Ha1 Ha2]%andb_prop Hnames]%andb_prop [Hv1 Hv2]%andb_prop]%andb_prop
    [Hp1 Hp2]%andb_prop]%andb_prop Hn%bool_decide_eq_true]%andb_prop.
  rewrite !not_elem_of_cons in Hn. destruct Hn as (Hn1 & Hn2 & Hn3 & _).
  split; [exact (conj Ha1 Ha2)|]. split; [|split; [split; lia|exact (conj Hn1 (conj Hn2 Hn3))]].
  apply list.Forall_forall. intros n Hn%list_elem_of_In. exact (proj1 (List.forallb_forall _ _) Hnames n Hn).
Qed.

(** *** In the router's namespace *)
Lemma fine_overlay params vrf s idv dv idl dl :
  vni_valid params = true → dev_at s (cur_ns s) (link_index vrf) idv dv → is_vrf (dev_link dv) = true →
  dev_named s (cur_ns s) UnderlayLoopback idl dl → plain dl → router_ready params 6 s →
  fine (bridge ← setupBridge params vrf; setupVXLan params bridge) s.
Proof.
  intros (_ & Hnames & [Hr1 Hr2] & _)%vni_valid_spec Hv Hvk (Hl & Hlns & Hln) Hlp Hready.
  rewrite !list.Forall_cons in Hnames. destruct Hnames as (_ & _ & _ & Hvb & Hvx & _).
  destruct (device_names_apart (VNIParams.VRF params) (VNIParams.VNI params))
    as (_ & _ & _ & _ & Hbl & Hbx & _ & _ & Hxl & _).
  pose proof Hready as [Hkb Hkx Hnm Hroom]. apply fine_wf. intros Hwf. fine_step.
  { apply (fine_setupBridge _ _ _ idv dv); [done|done|lia|done..]. }
  eapply wpo_mono; [apply wpo_setupBridge_all|].
  intros br s1 (([Ht _] & Hf & idb & db & Hb & Hbns & Hbn & Hbk & Hbi & _) & Htame & [Hgr Hgv]).
  destruct (Hf idl dl Hl) as (m & Hml & _).
  { intros [_ Hn]. congruence. }
  { apply (plain_spared s _ _ idl dl Hwf Hl Hlp). congruence. }
  apply fine_setupVXLan; [split|].
  - exists idl, (set_master m dl). rewrite Ht. by split_and!.
  - exists idb, db. rewrite Ht Hbi. split_and!; [done..|congruence].
  - done.
  - exact (conj Hr1 Hr2).
  - by apply Hgv.
  - lia.
  - eapply kinded_tamed; [auto with pierre|exact Htame| |done]. by rewrite list_elem_of_singleton.
Qed.

Lemma fine_setupVNIInNamespace params pe s K l idp dp idl dl :
  vni_valid params = true → holds K s → within l K → VNIParams.VRF params ∉ l →
  K !! idp = Some dp → dev_ns dp = cur_ns s → dev_index dp = link_index pe → is_veth (dev_link dp) = true →
  K !! idl = Some dl → dev_ns dl = cur_ns s → dev_name dl = UnderlayLoopback → plain dl →
  kinded is_vrf (VNIParams.VRF params) s → router_ready params 10 s →
  fine (setupVNIInNamespace params (Some pe)) s.
Proof.
  intros Hvalid HK Hl Hvrf Hdp Hpns Hpi Hpv Hdl Hlns Hln Hlp Hkv Hready.
  pose proof (vni_valid_spec _ Hvalid) as ([_ Haddr] & Hnames & _ & Hvl & Hvb & Hvx).
  rewrite !list.Forall_cons in Hnames. destruct Hnames as (_ & _ & Hvn & _).
  unfold setupVNIInNamespace.
  pose proof (lookup_weaken _ _ _ _ Hdp (proj2 HK)) as Hdp0.
  apply (fine_address_up pe _ s idp dp); [done..|]. intros dp1 s1 [Ht1 _] Hsh Hd1.
  pose proof (mild_same_shape _ _ _ _ _ Hdp0 Hsh Hd1) as Hm1.
  assert (holds (<[idp := dp1]> K) s1) as HK1 by exact (holds_update _ _ _ _ _ _ HK Hdp Hsh Hd1).
  assert (within l (<[idp := dp1]> K)) as Hl1.
  { apply within_insert; [done|]. destruct Hsh as (_ & -> & _). exact (Hl _ _ Hdp). }
  pose proof (router_mild _ _ _ _ Hm1 Hready) as Hready1.
  assert (kinded is_vrf (VNIParams.VRF params) s1) as Hkv1.
  { eapply (kinded_tamed _ _ []); [auto with pierre|exact (mild_tamed _ _ _ Hm1)|set_solver|done]. }
  assert (idp ≠ idl) as Hne.
  { intros ->. destruct Hlp as [Hlv _]. congruence. }
  apply fine_wf. intros Hwf1. fine_step.
  { apply fine_setupVRF; [done|done|]. destruct Hready1 as [_ _ _ Hroom]. lia. }
  eapply wpo_mono; [apply wpo_setupVRF_all|].
  intros vrf s2 (([Ht2 _] & Hf & idv & dv & Hv & Hvns & Hvnm & Hvk & Hvi & _) & Htame & Hgr).
  destruct (frame_held _ _ _ l _ _ Hwf1 HK1 Hl1 Hvrf Hf) as (K2 & He2 & Hdom2 & HK2).
  destruct (He2 idp dp1) as (mp & Hp2 & _); [by rewrite lookup_insert_eq|].
  destruct (He2 idl dl) as (ml & Hl2 & _); [by rewrite lookup_insert_ne|].
  pose proof (lookup_weaken _ _ _ _ Hp2 (proj2 HK2)) as Hps2.
  pose proof (lookup_weaken _ _ _ _ Hl2 (proj2 HK2)) as Hls2.
  assert (router_ready params 6 s2) as Hready2.
  { apply (router_after _ 4 6 _ s1 s2 Htame Hgr); rewrite ?list_elem_of_singleton; [congruence..|done]. }
  destruct Hsh as (Hshn & Hshm & Hshi & Hshk & _).
  assert (is_veth (dev_link dp1) = true) as Hpv1 by (unfold is_veth in *; by rewrite Hshk).
  assert (dev_ns (set_master mp dp1) = cur_ns s2 ∧ dev_index (set_master mp dp1) = link_index pe) as [Hpns2 Hpi2].
  { cbn. rewrite Hshn Hshi Ht2 Ht1. by split. }
  assert (dev_ns dv = cur_ns s2) as Hvns2 by by rewrite Ht2.
  fine_step.
  { fine_step. eapply fine_can; [apply LinkSetMaster_can|]. split.
    - exists idp, (set_master mp dp1). by split_and!.
    - exists idv, dv. by split_and!. }
  apply wpo_err_with_name. apply (wpo_LinkSetMaster _ _ _ idp (set_master mp dp1)); [done..|].
  intros s3 [Ht3 _] Hd3.
  assert (idp ≠ idv) as Hvp.
  { intros <-. assert (dv = set_master mp dp1) as -> by congruence. unfold is_vrf, is_veth in *. cbn in Hvk.
    by destruct (Kind (dev_link dp1)). }
  apply (fine_overlay params vrf s3 idv dv idl (set_master ml dl)); try done.
  - split_and!; [by rewrite Hd3 lookup_insert_ne|by rewrite Ht3|done].
  - split_and!; [by rewrite Hd3 lookup_insert_ne|by rewrite Ht3 Ht2 Ht1|done].
  - refine (router_mild _ _ _ _ _ Hready2). by apply (mild_insert s2 s3 idp (set_master mp dp1) _ Hps2 Hd3).
Qed.

(** ** The whole call *)

(** The conditions under which [SetupVNI] succeeds: those under which what it leaves is
    right ([vni_possible]), a configuration within the kernel's limits, and names that are
    free or carried by devices of the right types. *)
Record vni_startable (params : VNIParams.t) (hns tns : Z) (s : NetState) : Prop := {
  start_valid : vni_valid params = true;
  start_ns : named s !! VNIParams.TargetNS params = Some tns;
  start_index : legs_apart s;
  start_peer : peer_named (VNIParams.VRF params) s;
  start_legs : legs_ready (VNIParams.VRF params) hns tns s;
  start_vrf : kinded is_vrf (VNIParams.VRF params) s;
  start_bridge : kinded is_bridge (bridgeName (VNIParams.VNI params)) s;
  start_vxlan : kinded is_vxlan (vxLanName (VNIParams.VNI params)) s;
  start_named : vni_named (VNIParams.VNI params) s }.

Lemma startable_possible params hns tns s : vni_startable params hns tns s → vni_possible (W:=W) params tns s.
Proof.
  intros [([Ha1 Ha2] & _ & _ & _ & Hn)%vni_valid_spec Hns Hu Hp _ _ _ _ _].
  split; [done|done|done|split; by apply readable_canonical|done].
Qed.

(** What [setupVeth] did, as the accounts see it. *)
Lemma wpo_setupVeth_all params ns tns s idl dl :
  legs_apart s → peer_named (VNIParams.VRF params) s → handles (thr s) !! ns = Some tns →
  dev_named s tns UnderlayLoopback idl dl → plain dl →
  wpo (setupVeth (W:=W) (VNIParams.VRF params) ns) s (λ '(host, pe) s2,
    (silent s s2 ∧ ∃ pe' K idh dh idp dp dl', pe = Some pe' ∧ holds K s2
       ∧ within (leg_names params ++ [UnderlayLoopback]) K
       ∧ legs params pe' (cur_ns s) tns K idh idp idl dh dp dl' ∧ dev_index dh = link_index host
       ∧ is_veth (dev_link dp) = true ∧ plain dl')
    ∧ tamed (leg_names params) s s2 ∧ grown 4 s s2).
Proof.
  intros Hu Hpn Hh (Hl & Hlns & Hln) Hlp. apply wpo_wf. intros Hwf. pose proof (holds_loopback _ _ _ Hwf Hl Hlp) as HK0.
  destruct (device_names_apart (VNIParams.VRF params) (VNIParams.VNI params))
    as (_ & _ & _ & _ & _ & _ & _ & _ & _ & Hl1 & Hl2).
  assert (within [UnderlayLoopback] {[idl := dl]}) as Hw0 by (apply map_Forall_singleton; rewrite Hln; by left).
  eapply wpo_mono; [apply wpo_wf_post, wpo_conj;
    [apply (wpo_pair params ns tns s {[idl := dl]} [UnderlayLoopback] idl dl);
      try done; [by apply tracks_self|rewrite list_elem_of_singleton; by apply not_eq_sym
      |rewrite list_elem_of_singleton; by apply not_eq_sym|by rewrite lookup_singleton_eq]
    |apply wpo_conj; [eapply (obeys_ok (tamed_account (leg_names params))), (obeys_setupVeth (tamed_account (leg_names params))), tamed_allowed; unfold request_names, leg_names; set_solver
      |by eapply (obeys_ok grown_account), (obeys_setupVeth grown_account), grown_allowed]]|].
  intros [host pe] s2 (Hwf2 & [Hs (pe' & K & idh & dh & idp & dp & dl' & -> & HK & Hlg & Hhi & _)] & Hrest).
  split; [|exact Hrest]. split; [exact Hs|]. exists pe', K, idh, dh, idp, dp, dl'. pose proof HK as [HK1 He Hw].
  split_and!; [done|exact HK1|exact Hw|exact Hlg|done| |].
  - destruct (legs_host _ _ _ _ _ _ _ _ _ _ _ Hlg) as (_ & _ & Hpe).
    by destruct (veth_ends s2 idh dh idp dp Hwf2 (tracks_lookup _ _ _ _ _ _ HK (legs_dh _ _ _ _ _ _ _ _ _ _ _ Hlg)) Hpe
      (tracks_lookup _ _ _ _ _ _ HK (legs_dp _ _ _ _ _ _ _ _ _ _ _ Hlg))).
  - destruct (He idl dl) as (m & Hm & _); [by rewrite lookup_singleton_eq|].
    pose proof (legs_dl _ _ _ _ _ _ _ _ _ _ _ Hlg). by assert (dl' = set_master m dl) as -> by congruence.
Qed.

(** After it the router's side can be set up. *)
Lemma router_after_veth params hns tns s s' :
  vni_startable params hns tns s → (size (devs s) + 18 ≤ cap)%nat →
  tamed (leg_names params) s s' → grown 4 s s' →
  kinded is_vrf (VNIParams.VRF params) s' ∧ router_ready params 10 s'.
Proof.
  intros [(_ & _ & _ & Hvl & _)%vni_valid_spec _ _ _ _ Hkv Hkb Hkx Hnm] Hroom Ht Hg.
  destruct (device_names_apart (VNIParams.VRF params) (VNIParams.VNI params))
    as (Hc1 & Hc2 & Hb1 & Hb2 & _ & _ & Hx1 & Hx2 & _).
  unfold leg_names in Ht. split.
  - eapply kinded_tamed; [auto with pierre|exact Ht| |exact Hkv].
    rewrite !not_elem_of_cons. split_and!; [done..|apply not_elem_of_nil].
  - apply (router_after _ 4 10 _ s s' Ht Hg); [..|by split; [..|lia]];
      rewrite !not_elem_of_cons; (split_and!; [done..|apply not_elem_of_nil]).
Qed.

Lemma fine_SetupVNI params tns s idl dl :
  vni_startable params (cur_ns s) tns s → dev_named s tns UnderlayLoopback idl dl → plain dl →
  (size (devs s) + 18 ≤ cap)%nat → fine (SetupVNI params) s.
Proof.
  intros Hstart Hl Hlp Hroom. pose proof Hstart as [Hvalid Hns Hu Hpn Hlegs _ _ _ _].
  pose proof (vni_valid_spec _ Hvalid) as ([Ha1 Ha2] & Hnames & _ & Hvl & _).
  rewrite !list.Forall_cons in Hnames. destruct Hnames as (Hv1 & Hv2 & _).
  destruct (device_names_apart (VNIParams.VRF params) (VNIParams.VNI params)) as (Hc1 & Hc2 & _).
  unfold SetupVNI. fine_step; [fine_step; eapply fine_can; [apply GetFromName_can|]; by exists tns|].
  wpo_step. eapply wpo_sat; [apply GetFromName_law|]. intros ns s1 (_ & n & Hn & Hfresh & ->).
  assert (n = tns) as -> by congruence. set (s1 := set_thr _ s).
  assert (handles (thr s1) !! ns = Some tns) as Hh by (cbn; by rewrite lookup_insert_eq).
  fine_step; [apply (fine_setupVeth _ _ tns); [done..|exact (legs_ready_devs _ _ _ s s1 eq_refl Hlegs)|done|]; cbn; lia|].
  eapply wpo_mono; [by apply (wpo_setupVeth_all params ns tns s1 idl dl)|].
  intros [host pe] s2 [[[Ht2 _] (pe' & K & idh & dh & idp & dp & dl' & -> & HK & Hw & Hlg & Hhi & Hveth & Hlp')] [Htame Hgr]].
  pose proof (legs_dh _ _ _ _ _ _ _ _ _ _ _ Hlg) as Kh.
  pose proof (lookup_weaken _ _ _ _ Kh (proj2 HK)) as Hdh.
  destruct (legs_host _ _ _ _ _ _ _ _ _ _ _ Hlg) as (Hhns & _ & _), (legs_pe _ _ _ _ _ _ _ _ _ _ _ Hlg) as (Hpns & _ & Hpi).
  destruct (legs_ne _ _ _ _ _ _ _ _ _ _ _ Hlg) as (Hne1 & _ & Hne3), (legs_lo _ _ _ _ _ _ _ _ _ _ _ Hlg) as [Hlns Hln].
  apply (fine_address_up host _ s2 idh dh); [done|done|by rewrite Ht2 Hhns|done|].
  intros dh' s3 [Ht3 _] Hsh Hd3. pose proof (mild_same_shape _ _ _ _ _ Hdh Hsh Hd3) as Hm3.
  destruct (router_after_veth params _ tns s s3 Hstart Hroom) as [Hkv Hready].
  { exact (tamed_trans _ _ _ _ (mild_tamed _ s s1 (mild_devs s s1 eq_refl)) (tamed_trans _ _ _ _ Htame (mild_tamed _ _ _ Hm3))). }
  { exact (grown_trans 0 4 _ _ _ (mild_grown 0 s s1 (mild_devs s s1 eq_refl)) (grown_trans 4 0 _ _ _ Hgr (mild_grown 0 _ _ Hm3))). }
  eapply (fine_inNamespace _ _ _ tns); [apply quiet_setupVNIInNamespace|by rewrite Ht3 Ht2|]. intros h _.
  eapply (fine_setupVNIInNamespace params pe' _ (<[idh := dh']> K) _ idp dp idl dl' Hvalid);
    [|apply within_insert; [exact Hw|]|..]; try done.
  - exact (holds_devs _ s3 _ eq_refl (holds_update _ _ _ _ _ _ HK Kh Hsh Hd3)).
  - destruct Hsh as (_ & -> & _). exact (Hw _ _ Kh).
  - rewrite !not_elem_of_cons. split_and!; [done..|apply not_elem_of_nil].
  - rewrite lookup_insert_ne; [apply Hlg|by apply not_eq_sym].
  - rewrite lookup_insert_ne; [apply Hlg|done].
  - apply (router_mild 10 _ s3); [by apply mild_devs|exact Hready].
Qed.

(** ** One after the other *)

(** No device of a VNI is called like the underlay's loopback. *)
Lemma loopback_apart p : UnderlayLoopback ∉ vni_names p ↔ VNIParams.VRF p ≠ UnderlayLoopback.
Proof.
  destruct (device_names_apart (VNIParams.VRF p) (VNIParams.VNI p))
    as (_ & _ & _ & _ & Hb & _ & _ & _ & Hx & Hl1 & Hl2).
  unfold vni_names. rewrite !not_elem_of_cons. split; [naive_solver|]. intros Hv.
  split_and!; [congruence..|apply not_elem_of_nil].
Qed.

(** What other devices are made for leaves a VNI startable, when its veth pair stays. *)
Lemma legs_there_after N name hns tns s s' idh dh dh' idp dp dp' :
  legs_there name hns tns s idh dh idp dp → tamed N s s' → (vethLegsForVRF name).2 ∉ N →
  devs s' !! idh = Some dh' → devs s' !! idp = Some dp' → same_shape dh dh' → same_shape dp dp' →
  legs_there name hns tns s' idh dh' idp dp'.
Proof.
  intros [(_ & Hhns & Hhn) Hp _ Hpn Hpns] [_ Hfrom] Hfree Hdh Hdp (Sns & Sn & _ & _ & Sp) (Tns & Tn & _).
  split; [split_and!; [done|congruence|congruence]|congruence|done|congruence|]. rewrite Tns.
  destruct Hpns as [?|[? Honly]]; [by left|right]. split; [done|]. intros id d' Hd' Hnd.
  destruct (Hfrom id d' Hd') as [[HA _]|(d & Hd & Hn & _)]; [congruence|]. apply (Honly id d Hd). congruence.
Qed.

Lemma startable_after N k q hns tns s s' :
  vni_startable q hns tns s → wf s' → tamed N s s' → grown k s s' → named s' = named s →
  Forall (λ n, n ∉ N) (vni_names q) → legs_absent (VNIParams.VRF q) s ∨ legs_ready (VNIParams.VRF q) hns tns s' →
  vni_startable q hns tns s'.
Proof.
  intros [Hvalid Hns Hu Hpn _ Hkv Hkb Hkx Hnm] Hwf Htame [_ Hgv] Hnamed Hfree Hlegs.
  rewrite !list.Forall_cons in Hfree. destruct Hfree as (Hf1 & Hf2 & Hf3 & Hf4 & Hf5 & _). split; try done.
  - by rewrite Hnamed.
  - by apply Htame.
  - exact (tamed_peer_named _ _ _ _ Hwf Htame Hf1 Hpn).
  - destruct Hlegs as [Habs|]; [left|done]. intros id d' Hd'.
    destruct Htame as [_ Hfrom]. destruct (Hfrom id d' Hd') as [[HA _]|(d & Hd & -> & _)]; [|exact (Habs id d Hd)].
    split; congruence.
  - eapply kinded_tamed; eauto with pierre.
  - eapply kinded_tamed; eauto with pierre.
  - eapply kinded_tamed; eauto with pierre.
  - by apply Hgv.
Qed.

(** The pair as a closed set of devices. *)
Lemma legs_held name hns tns s idh dh idp dp K0 l :
  wf s → legs_there name hns tns s idh dh idp dp → holds K0 s → within l K0 →
  ∃ K, holds K s ∧ within ((vethLegsForVRF name).1 :: (vethLegsForVRF name).2 :: l) K ∧ K0 ⊆ K
    ∧ K !! idh = Some dh ∧ K !! idp = Some dp.
Proof.
  intros Hwf [(Hdh & Hhns & Hhn) Hpe Hdp Hpn _] HK0 Hw0.
  destruct (veth_ends _ _ _ _ _ Hwf Hdh Hpe Hdp) as [Hvh Hvp].
  destruct (tracks_pair _ _ _ s idh dh idp dp Hwf (tracks_self _ _ _ HK0 Hw0) Hdh Hdp Hpe Hvh Hvp)
    as (K & [HK _ Hw] & Hsub & Kh & Kp).
  rewrite Hhn Hpn in Hw. by exists K.
Qed.

(** Setting one VNI up leaves another one startable. *)
Lemma wpo_startable p q tns s idl dl :
  vni_startable p (cur_ns s) tns s → vni_startable q (cur_ns s) tns s →
  dev_named s tns UnderlayLoopback idl dl → plain dl → Forall (λ n, n ∉ vni_names p) (vni_names q) →
  wpo (SetupVNI p) s (λ _ s', vni_startable q (cur_ns s) tns s').
Proof.
  intros Hp Hq (Hl & Hlns & Hln) Hlp Hfree.
  apply wpo_wf. intros Hwf. pose proof (holds_loopback _ _ _ Hwf Hl Hlp) as HK0.
  assert (within [UnderlayLoopback] {[idl := dl]}) as Hw0 by (apply map_Forall_singleton; rewrite Hln; by left).
  assert (wpo (SetupVNI p) s (λ _ s', tamed (vni_names p) s s' ∧ (legs_absent (VNIParams.VRF q) s
      ∨ legs_ready (VNIParams.VRF q) (cur_ns s) tns s'))) as Hrest.
  { destruct (start_legs _ _ _ _ Hq) as [Habs|(idh & dh & idp & dp & Hthere)].
    { eapply wpo_mono; [apply tame_SetupVNI|]. intros [] s' Ht. split; [exact Ht|by left]. }
    destruct (legs_held _ _ _ s idh dh idp dp _ _ Hwf Hthere HK0 Hw0) as (K & HK & Hw & Hsub & Kh & Kp).
    rewrite !list.Forall_cons in Hfree. destruct Hfree as (Hf1 & Hf2 & _).
    eapply wpo_mono; [apply wpo_conj; [apply tame_SetupVNI|
      apply (wpo_SetupVNI p tns s K _ idl dl (startable_possible _ _ _ _ Hp) (tracks_self _ _ _ HK Hw))]|].
    - apply list.Forall_forall. intros n Hn. rewrite !not_elem_of_cons.
      pose proof (proj2 (loopback_apart p) (proj1 (proj2 (proj2 (proj2 (vni_valid_spec _ (start_valid _ _ _ _ Hp))))))).
      split_and!; [congruence..|apply not_elem_of_nil].
    - exact (lookup_weaken _ _ _ _ (lookup_singleton_eq _ _) Hsub).
    - done.
    - done.
    - intros [] s' [Ht (K' & [[_ Hs] He _] & _)]. split; [exact Ht|]. right. right.
      destruct (He _ _ Kh) as (mh & Hmh & _), (He _ _ Kp) as (mp & Hmp & _).
      exists idh, (set_master mh dh), idp, (set_master mp dp).
      exact (legs_there_after _ _ _ _ _ _ _ _ _ _ _ _ Hthere Ht Hf2 (lookup_weaken _ _ _ _ Hmh Hs)
        (lookup_weaken _ _ _ _ Hmp Hs) ltac:(by split_and!) ltac:(by split_and!)). }
  eapply wpo_mono; [apply wpo_wf_post, wpo_conj; [exact Hrest|
    apply wpo_conj; [apply grown_SetupVNI|apply wpo_SetupVNI_thread]]|].
  intros [] s' (Hwf' & [Htame Hlegs'] & Hgr & _ & Hnamed).
  exact (startable_after _ _ _ _ _ _ _ Hq Hwf' Htame Hgr Hnamed Hfree Hlegs').
Qed.

(** The loop over the VNIs: that none is configured in the way of another is the names'
    business. *)
Lemma fine_SetupVNIs vps tns s l idl dl :
  Forall (λ p, vni_startable p (cur_ns s) tns s) vps → UnderlayLoopback ∈ l → names_free l vps →
  dev_named s tns UnderlayLoopback idl dl → plain dl →
  (size (devs s) + 18 * length vps ≤ cap)%nat → fine (forM_ SetupVNI vps) s.
Proof.
  revert s l dl. induction vps as [|p vps IH]; intros s l dl Hps Hlo Hf Hl Hlp Hroom; cbn [forM_]; [fine_step|].
  apply list.Forall_cons in Hps as [Hp Hps]. destruct Hf as [Hfp Hf]. cbn [length] in Hroom.
  fine_step; [apply (fine_SetupVNI p tns s idl dl); [done..|lia]|].
  assert (∀ q, q ∈ vps → vni_startable q (cur_ns s) tns s ∧ Forall (λ n, n ∉ vni_names p) (vni_names q)) as Hqs.
  { intros q Hq. split; [by rewrite list.Forall_forall in Hps; apply Hps|].
    eapply Forall_impl; [|exact (names_free_legs _ _ _ Hf Hq)]. intros n Hn Hin. apply Hn, elem_of_app. by left. }
  pose proof Hl as (Hdl & Hlns & Hln). apply wpo_wf. intros Hwf.
  pose proof (holds_loopback _ _ _ Hwf Hdl Hlp) as HK0.
  eapply wpo_mono; [apply wpo_conj; [apply (wpo_forall _ _ (λ (q : {q | q ∈ vps}) _ s', vni_startable (`q) (cur_ns s) tns s'))|
    apply wpo_conj; [apply grown_SetupVNI|apply wpo_conj; [apply wpo_SetupVNI_thread|
      apply (wpo_SetupVNI p tns s {[idl := dl]} [UnderlayLoopback] idl dl (startable_possible _ _ _ _ Hp))]]]|].
  - intros [q Hq]. cbn. destruct (Hqs q Hq) as [Hsq Hfq]. by apply (wpo_startable p q tns s idl dl).
  - apply tracks_self; [done|]. apply map_Forall_singleton. rewrite Hln. by left.
  - eapply Forall_impl; [|exact Hfp]. intros n Hn. rewrite list_elem_of_singleton. congruence.
  - by rewrite lookup_singleton_eq.
  - done.
  - done.
  - intros _ s' (Hstart & [Hsize _] & [Hcur _] & (K' & [[_ Hs] He _] & _)).
    destruct (He idl dl) as (m & Hm & _); [by rewrite lookup_singleton_eq|].
    apply (IH s' (vni_names p ++ l) (set_master m dl)).
    + rewrite Hcur. apply list.Forall_forall. intros q Hq. exact (Hstart (exist _ q Hq)).
    + apply elem_of_app. by right.
    + done.
    + split_and!; [exact (lookup_weaken _ _ _ _ Hm Hs)|done|done].
    + done.
    + lia.
Qed.

Lemma SetupVNIs_fine vps tns w idl dl :
  Forall (λ p, vni_startable p (cur_ns (view w)) tns (view w)) vps → names_free [UnderlayLoopback] vps →
  dev_named (view w) tns UnderlayLoopback idl dl → plain dl →
  (size (devs (view w)) + 18 * length vps ≤ cap)%nat →
  ∃ w', forM_ SetupVNI vps w = (Ok tt, w')
    ∧ Forall (λ p, vni_configured p (cur_ns (view w)) tns (view w')) vps.
Proof.
  intros Hps Hf Hl Hlp Hroom.
  destruct (fine_run (forM_ SetupVNI vps) w) as ([] & w' & Hr).
  { apply (fine_SetupVNIs vps tns _ [UnderlayLoopback] idl dl); [done|by left|done..]. }
  exists w'. split; [done|]. pose proof Hl as (Hdl & Hlns & Hln).
  refine (wpo_Ok _ (λ _ s', Forall (λ p, vni_configured p (cur_ns (view w)) tns s') vps) w tt w' _ Hr).
  eapply wpo_mono; [apply (wpo_SetupVNIs vps tns _ {[idl := dl]} [UnderlayLoopback] idl dl)|].
  - eapply Forall_impl; [|exact Hps]. intros p. apply startable_possible.
  - done.
  - by apply holds_loopback; [apply view_wf|..].
  - apply map_Forall_singleton. rewrite Hln. by left.
  - by rewrite lookup_singleton_eq.
  - done.
  - done.
  - intros _ s' (K' & _ & [_ Hs] & Hcfg). eapply Forall_impl; [|exact Hcfg]. intros p Hp.
    exact (configured_evolves _ _ _ _ _ (subset_evolves _ _ Hs) Hp).
Qed.
End vni_progress.

(** C10. Setting up the VNIs of a node succeeds and leaves every one of them configured,
    where the kernel grants what its documented conditions allow: addresses the kernel
    reads back, names of at most 15 characters, VNI numbers and ports in range, names that
    do not clash, the underlay's loopback in the router's namespace, and each device of
    a VNI either not there yet or there with the right type - so it succeeds again after
    a run that stopped half way.  Beyond these the run meets no trouble the code does not
    see: no router's leg shares its index with another device, at the start or when a
    device is made or moved, and every switch of namespace is let through. *)
Theorem SetupVNIs_succeed `{NetlinkLaws W} {cap} `{!NetlinkProgress W cap} vps tns w idl dl :
  Forall (λ p, vni_startable p (cur_ns (view w)) tns (view w)) vps → names_free [UnderlayLoopback] vps →
  dev_named (view w) tns UnderlayLoopback idl dl → plain dl →
  (size (devs (view w)) + 18 * length vps ≤ cap)%nat →
  troubles (forM_ SetupVNI vps) w = [] →
  ∃ w', forM_ SetupVNI vps w = (Ok tt, w')
    ∧ Forall (λ p, vni_configured p (cur_ns (view w)) tns (view w')) vps.
Proof.
  intros Hps Hf Hl Hlp Hroom Ht.
  destruct (SetupVNIs_fine (W:=detoured W (room cap)) vps tns (inl w) idl dl Hps Hf Hl Hlp Hroom) as (x & Hr & Hcfg).
  from_detour (λ W (_ : Netlink W), forM_ SetupVNI vps) Hr Ht w'. by exists w'.
Qed.

(** ** Witness *)

(** A VNI none of whose devices is there yet. *)
Lemma fresh_startable params hns tns s :
  vni_valid params = true → named s !! VNIParams.TargetNS params = Some tns → legs_apart s →
  (∀ id d, devs s !! id = Some d → dev_name d ∉ vni_names params ∧ is_vxlan (dev_link d) = false) →
  vni_startable params hns tns s.
Proof.
  intros Hv Hns Hu Hno.
  assert (∀ n, n ∈ vni_names params → ∀ id d, devs s !! id = Some d → dev_name d ≠ n) as Habs.
  { intros n Hn id d Hd <-. by destruct (Hno id d Hd). }
  assert (∀ ok n, n ∈ vni_names params → kinded ok n s) as Hk.
  { intros ok n Hn id d Hd Hdn. by destruct (Habs n Hn id d Hd). }
  split; [done|done|done| |left|apply Hk|apply Hk|apply Hk|].
  - intros idh dh idp dp Hd Hn. exfalso. refine (Habs _ _ _ _ Hd Hn). by left.
  - intros id d Hd. split; refine (Habs _ _ _ _ Hd); unfold vni_names; cbn; set_solver.
  - unfold vni_names. set_solver.
  - unfold vni_names. set_solver.
  - unfold vni_names. set_solver.
  - intros id d p l a v Hd Hx. destruct (Hno id d Hd) as [_ Hn]. unfold is_vxlan in Hn. by rewrite Hx in Hn.
Qed.

Lemma SetupVNIs_succeed_witness :
  ∃ w', forM_ SetupVNI [sample_params; second_params] ready_state = (Ok tt, w')
    ∧ Forall (λ p, vni_configured p 0 1 (view w')) [sample_params; second_params].
Proof.
  assert (cur_ns (view ready_state) = 0) as Hcur by (vm_compute; reflexivity). rewrite -Hcur.
  apply (SetupVNIs_succeed [sample_params; second_params] 1 ready_state 3 sample_lo); rewrite ?Hcur.
  - assert (∀ p, p = sample_params ∨ p = second_params → vni_startable p 0 1 (view ready_state)) as Hp.
    { intros p Hp. apply fresh_startable.
      - by destruct Hp as [-> | ->]; vm_compute.
      - by destruct Hp as [-> | ->]; vm_compute.
      - apply (bool_decide_eq_true_1 _). vm_compute. reflexivity.
      - intros i d Hd. refine (each_dev (λ _ d, dev_name d ∉ vni_names p ∧ is_vxlan (dev_link d) = false) _ _ i d Hd).
        by destruct Hp as [-> | ->]; vm_compute. }
    constructor; [apply Hp; by left|]. constructor; [apply Hp; by right|constructor].
  - do 2 (split; [apply (bool_decide_eq_true_1 _); vm_compute; reflexivity|]). exact I.
  - split_and!; vm_compute; reflexivity.
  - split; vm_compute; reflexivity.
  - apply Nat.leb_le. vm_compute. reflexivity.
  - vm_compute. reflexivity.
Defined.
