(* ===== verification/Underlay.v ===== *)
(** * What [SetupUnderlay] establishes

    The proofs about properties.go's [moveNicToNamespace] and about underlay.go. *)

From S2P Require Import Prelude GoStrings GoNet HostParams Netlink Troubles NetLogic HostLinks LinkSpecs.
From S2P Require Import Held SimKernel HostNetwork Twins Detour.
Local Open Scope Z_scope.

Section underlay.
Context {W : Type} `{NetlinkLaws W, !Untroubled W}.

(** ** Moving a device *)
Lemma wpo_restoreAddress l id a s d P :
  devs s !! id = Some d → dev_ns d = cur_ns s → dev_index d = link_index l →
  (∀ extra s', silent s s' → IPNet_String (Addr_IPNet a) ∈ dev_addrs d ++ extra →
     devs s' = <[id := set_addrs (dev_addrs d ++ extra) d]> (devs s) → P tt s') →
  wpo (restoreAddress l a) s P.
Proof.
  intros Hd Hns Hi HP. apply wpo_wf. intros Hwf. unfold restoreAddress. cbv zeta.
  apply wpo_bind, wp_attempt. eapply wp_sat; [apply AddrAdd_law|].
  intros [u|e|] s1 (Hs & _ & Hadd); cbn [on_ok]; [| |done].
  - destruct Hadd as (id' & d' & Hat & Hdevs). rewrite -Hi in Hat.
    destruct (dev_at_unique s id d id' d' Hwf Hd Hns Hat) as [-> ->]. wpo_step.
    eapply HP; [done| |exact Hdevs]. cbn. set_solver.
  - destruct Hadd as [Hdevs Hex]. destruct (os_IsExist e); [|by wpo_step]. wpo_step.
    destruct (Hex eq_refl) as (id' & d' & Hat & Hin). rewrite -Hi in Hat.
    destruct (dev_at_unique s id d id' d' Hwf Hd Hns Hat) as [-> ->].
    apply (HP []); [done|by rewrite app_nil_r|]. rewrite app_nil_r Hdevs.
    symmetry. apply insert_id. rewrite Hd. by destruct d.
Qed.

Lemma wpo_restore_loop l id as_ s d P :
  devs s !! id = Some d → dev_ns d = cur_ns s → dev_index d = link_index l →
  (∀ extra s', silent s s' →
     (λ a, IPNet_String (Addr_IPNet a)) <$> as_ ⊆ dev_addrs d ++ extra →
     devs s' = <[id := set_addrs (dev_addrs d ++ extra) d]> (devs s) → P tt s') →
  wpo (forM_ (restoreAddress l) as_) s P.
Proof.
  revert s d P. induction as_ as [|a as_ IH]; intros s d P Hd Hns Hi HP; cbn [forM_].
  { wpo_step. apply (HP []); [done|set_solver|]. rewrite app_nil_r. symmetry.
    apply insert_id. rewrite Hd. by destruct d. }
  wpo_step. apply (wpo_restoreAddress _ id _ _ d); [done..|]. intros ex1 s1 Hs1 Hin Hd1.
  apply (IH s1 (set_addrs (dev_addrs d ++ ex1) d));
    [by rewrite Hd1 lookup_insert_eq|by destruct Hs1 as [-> _]|done|].
  intros ex2 s2 Hs2 Hsub Hd2. cbn [dev_addrs set_addrs] in Hsub.
  apply (HP (ex1 ++ ex2)); [exact (silent_trans _ _ _ Hs1 Hs2)| |].
  - rewrite fmap_cons app_assoc. intros x [->|Hx]%elem_of_cons; [|by apply Hsub].
    rewrite elem_of_app. by left.
  - by rewrite Hd2 Hd1 insert_insert_eq /= app_assoc.
Qed.

(** The device is not one of the set. *)
Definition apart (K : gmap positive Dev) (n : Z) (nic : string) (s : NetState) : Prop :=
  ∀ id d, dev_named s n nic id d → K !! id = None.

(** The device was there already and nothing changed, or the device of that name
    in the caller's namespace is moved: it is up and has its addresses again.  Any closed
    set of other devices stays. *)
Definition nic_moved (nic : string) (n : Z) (s s' : NetState) : Prop :=
  silent s s' ∧ (∀ K, holds K s → apart K (cur_ns s) nic s → held K s') ∧
  ((devs s' = devs s ∧ ∃ id d, dev_named s n nic id d)
   ∨ ∃ id d d', dev_named s (cur_ns s) nic id d ∧ devs s' !! id = Some d'
       ∧ dev_ns d' = n ∧ dev_name d' = nic ∧ dev_up d' = true ∧ dev_addrs d ⊆ dev_addrs d').

(** Setting the moved device up and restoring its addresses. *)
Lemma wpo_arrive nic as_ s id d g g' P :
  dev_named s (cur_ns s) nic id d →
  (∀ d' s', silent s s' → devs s' = <[id := d']> (devs s) → dev_ns d' = dev_ns d →
     dev_name d' = nic → dev_up d' = true →
     (λ a, IPNet_String (Addr_IPNet a)) <$> as_ ⊆ dev_addrs d' → P tt s') →
  wpo (nsLink ← on_errM g (LinkByName nic); _ ← on_errM (g' nsLink) (LinkSetUp (Some nsLink));
       forM_ (restoreAddress nsLink) as_) s P.
Proof.
  intros Hat HP. apply wpo_wf. intros Hwf. do 2 wpo_step. apply wpo_LinkByName.
  intros id' d' Hat'. assert (id' = id) as -> by exact (wf_name _ Hwf _ _ _ _ _ _ Hat' Hat).
  destruct Hat as (Hd & Hns & Hn). assert (d' = d) as -> by (destruct Hat' as [? _]; congruence).
  do 2 wpo_step. apply (wpo_LinkSetUp _ _ id d); [done..|]. intros ex s1 Hs1 Hd1.
  apply (wpo_restore_loop _ id _ _ (set_up ex d)); [by rewrite Hd1 lookup_insert_eq
    |by destruct Hs1 as [-> _]|done|].
  intros ex2 s2 Hs2 Hsub Hd2. eapply HP; [exact (silent_trans _ _ _ Hs1 Hs2)
    |by rewrite Hd2 Hd1 insert_insert_eq|done..|exact Hsub].
Qed.

Lemma set_thr_enter n h s : set_thr (thr s) (enter n h s) = s.
Proof. by destruct s. Qed.

(** Looking the device up in the target namespace changes nothing. *)
Lemma wp_look_inside nic ns n g s :
  handles (thr s) !! ns = Some n →
  wp (inNamespace ns (on_errM g (LinkByName nic))) s (λ r s',
    s' = s ∧ ∀ l, r = Ok l → ∃ id d, dev_named s n nic id d ∧ l = dev_link d).
Proof.
  intros Hh. apply wp_inNamespace_quiet; [solve_quiet|done|done|].
  intros n' h Hn' Hfresh. rewrite lookup_insert_ne in Hn'; [|congruence].
  assert (n' = n) as -> by congruence.
  apply wp_on_err. eapply wp_sat; [apply LinkByName_law|].
  intros [l|e|] s1 [-> Hlk]; cbn [on_err]; [| |done].
  - destruct Hlk as (id & d & Hd & Hns & Hname & ->). intros _.
    rewrite set_thr_enter. split; [done|]. intros a [= <-]. exists id, d. by split.
  - intros _. by rewrite set_thr_enter.
Qed.

Lemma wpo_moveNic nic ns n s :
  handles (thr s) !! ns = Some n →
  wpo (moveNicToNamespace nic ns) s (λ _ s', nic_moved nic n s s').
Proof.
  intros Hh. apply wpo_wf. intros Hwf. unfold moveNicToNamespace. apply wp_bind, wp_attempt.
  eapply wp_mono; [apply (wp_look_inside nic ns n _ s Hh)|].
  intros r s1 [-> Hin]. destruct r as [l|e|]; cbn [on_ok]; [| |done].
  { destruct (Hin l eq_refl) as (id & d & Hat & _). wpo_step. split; [done|].
    split; [intros K HK _; by apply held_refl|]. left. split; [done|]. by exists id, d. }
  clear Hin. do 2 wpo_step. apply wpo_LinkByName. intros id d Hat.
  pose proof Hat as (Hd & Hns & Hn). do 2 wpo_step.
  eapply wpo_sat; [apply AddrList_law|]. intros as_ s1 (-> & _ & Has).
  destruct (Has as_ eq_refl) as (id1 & d1 & Hat1 & Haddrs).
  destruct (dev_at_unique s id d id1 d1 Hwf Hd Hns Hat1) as [-> ->].
  do 2 wpo_step. eapply wpo_sat; [apply LinkSetNsFd_law|]. intros [] s1 (Hs1 & _ & Hmove).
  destruct (Hmove eq_refl) as (n1 & id2 & d2 & Hn1 & Hat2 & Hdevs). clear Hmove.
  assert (n1 = n) as -> by congruence.
  destruct (dev_at_unique s id d id2 d2 Hwf Hd Hns Hat2) as [-> ->].
  (* where the device is now *)
  assert ((∃ d3, dev_named s1 n nic id d3)
    ∧ ∀ K, holds K s → K !! id = None → held K s1) as [[d3 Hat3] Hheld].
  { destruct (Z.eqb_spec n (cur_ns s)) as [->|Hne].
    - split; [exists d; unfold dev_named; by rewrite Hdevs|]. intros K HK _.
      apply held_refl. exact (holds_devs _ _ _ Hdevs HK).
    - destruct Hdevs as (_ & d3 & Hd3 & Hns3 & Hn3 & _ & _ & _ & _ & Hrest). split.
      + exists d3. split_and!; [..|congruence]; done.
      + intros K HK Hout. apply (release_held K s s1 id d Hwf HK Hd Hout). intros id' Hid. rewrite Hns. by apply Hrest. }
  apply (wpo_inNamespace _ _ _ n); [solve_quiet|by destruct Hs1 as [-> _]|].
  intros h _. apply (wpo_arrive nic as_ _ id d3); [exact Hat3|].
  intros d4 s2 Hs2 Hd4 Hns4 Hn4 Hup Hsub [_ Hnm]. split_and!.
  - split; [apply Hs1|]. transitivity (named s1); [exact Hnm|apply Hs1].
  - intros K HK Hout. exact (held_insert K s1 _ id d4 (Hheld K HK (Hout id d Hat)) (Hout id d Hat) Hd4).
  - right. destruct Hat3 as (_ & Hns3 & _). exists id, d, d4. cbn. rewrite Hd4 lookup_insert_eq.
    split_and!; try done; [congruence|by rewrite Haddrs].
Qed.

(** ** Finding the old underlay interface *)
Definition special : string := underlayNicSpecialAddr.

(** Nothing carries the special address, or the device of this name does. *)
Definition underlay_found (n : Z) (s : NetState) (name : string) : Prop :=
  name = "" ∨ ∃ id d, dev_named s n name id d ∧ special ∈ dev_addrs d.

Lemma wpo_findUnderlay links s :
  canonical_addr W special → wf s →
  (∀ l, l ∈ links → ∃ id d, devs s !! id = Some d ∧ dev_ns d = cur_ns s ∧ l = dev_link d) →
  wpo (findUnderlay links) s (λ name s', s' = s ∧ underlay_found (cur_ns s) s name).
Proof.
  intros Hcan Hwf. induction links as [|l links IH]; intros Hls; cbn [findUnderlay].
  { wpo_step. split; [done|by left]. }
  wpo_step. apply wp_attempt. eapply wp_sat; [apply AddrList_law|].
  assert (wpo (hasIP ← interfaceHasIP (Some l) underlayNicSpecialAddr;
      if hasIP : bool then mret (link_name l) else findUnderlay links) s
    (λ name s', s' = s ∧ underlay_found (cur_ns s) s name)) as Hrest.
  { wpo_step. apply wpo_interfaceHasIP; [done|]. intros id d Hat.
    case_bool_decide as Hin; [|by apply IH; intros l' Hl'; apply Hls; right].
    wpo_step. split; [done|]. right. destruct (Hls l) as (id' & d' & Hd' & Hns' & ->); [by left|].
    destruct (dev_at_unique s id' d' id d Hwf Hd' Hns' Hat) as [-> ->].
    exists id', d'. by split_and!. }
  intros [as_|e|] s1 [-> _]; [exact Hrest|exact Hrest|done].
Qed.

Lemma wpo_oldUnderlayInterface ns n s :
  canonical_addr W special → handles (thr s) !! ns = Some n →
  wpo (oldUnderlayInterface ns) s (λ name s', s' = s ∧ underlay_found n s name).
Proof.
  intros Hcan Hh. unfold oldUnderlayInterface.
  apply (wpo_inNamespace _ _ _ n); [|done|].
  { apply quiet_bind; [solve_quiet|]. intros ls. induction ls as [|l ls IH]; cbn [findUnderlay]; [solve_quiet|].
    unfold interfaceHasIP. repeat (apply quiet_err_with_name || solve_quiet). }
  intros h _. do 2 wpo_step. apply wpo_wf. intros Hwf. eapply wpo_sat; [apply LinkList_law|].
  intros ls s1 (-> & _ & Hls). eapply wpo_mono; [apply wpo_findUnderlay; [done..|]|].
  - intros l Hl. exact (proj1 (Hls ls eq_refl l) Hl).
  - intros name s2 [-> Hf] _. rewrite set_thr_enter. split; [done|exact Hf].
Qed.

(** ** Moving the old interface back *)

Definition opened (n : Z) (s s' : NetState) : Prop :=
  ∃ h, handles (thr s) !! h = None
    ∧ thr s' = set_handles (<[h := n]> (handles (thr s))) (thr s) ∧ named s' = named s.

Lemma quiet_removal_body old c :
  quiet (W:=W) (oldLink ← on_errM (errorw "failed to get old underlay by name %s under ns %s: %w" [old])
                (LinkByName old);
    addr ← on_errM (errorw "failed to parse special addr %s: %w" [])
             (lift (ParseAddr (W:=W) underlayNicSpecialAddr));
    _ ← on_errM (errorw "failed to remove special addr from %s %s: %w" [link_name oldLink])
          (AddrDel (Some oldLink) addr);
    moveNicToNamespace (link_name oldLink) c).
Proof. solve_quiet. Qed.

Lemma wpo_removeUnderlayInterface old ns n s :
  handles (thr s) !! ns = Some n →
  wpo (removeUnderlayInterface old ns) s (λ _ s', opened (cur_ns s) s s'
    ∧ ∀ K, holds K s → apart K n old s → held K s').
Proof.
  intros Hh. unfold removeUnderlayInterface. do 2 wpo_step.
  eapply wpo_sat; [apply Get_law|]. intros c s1 (_ & Hfresh & Hs1).
  assert (handles (thr s1) !! ns = Some n ∧ devs s1 = devs s) as [Hh1 Hd1].
  { subst s1. cbn. rewrite lookup_insert_ne //. congruence. }
  apply (wpo_inNamespace _ _ _ n); [apply quiet_removal_body|done|].
  intros h Hh'. do 2 wpo_step. apply wpo_LinkByName. intros ido dold Hat. apply wpo_wf. intros Hwf.
  pose proof Hat as (Hd & Hns & Hn). do 3 wpo_step. do 2 wpo_step.
  eapply wpo_sat; [apply AddrDel_law|]. intros [] s2 (Hs2 & _ & Hdel).
  destruct (Hdel eq_refl) as (id' & d' & d2 & Hat' & Hd2 & Hdevs). clear Hdel.
  destruct (dev_at_unique _ ido dold id' d' Hwf Hd Hns Hat') as [-> ->].
  assert (handles (thr s2) !! c = Some (cur_ns s)) as Hc.
  { destruct Hs2 as [-> _]. subst s1. cbn. rewrite lookup_insert_ne; [by rewrite lookup_insert_eq|].
    intros ->. cbn in Hh'. by rewrite lookup_insert_eq in Hh'. }
  apply wpo_wf. intros Hwf2. eapply wpo_mono; [by apply (wpo_moveNic _ _ (cur_ns s))|].
  intros [] s3 (Hs3 & Hheld & _) [_ Hnm]. split.
  { exists c. subst s1. split_and!; [done..|]. transitivity (named s3); [done|].
    transitivity (named s2); [apply Hs3|apply Hs2]. }
  intros K HK Hout. cbn in Hdevs, Hd. rewrite Hd1 in Hdevs, Hd.
  specialize (Hout ido dold (conj Hd (conj Hns Hn))).
  apply Hheld; [exact (holds_insert K s s2 ido d2 HK Hout Hdevs)|].
  intros id' e Hid. assert (id' = ido) as ->; [|done].
  refine (wf_name _ Hwf2 _ _ _ _ _ _ Hid (conj _ (conj _ _))).
  - by rewrite Hdevs lookup_insert_eq.
  - rewrite Hd2. destruct Hs2 as [-> _]. exact Hns.
  - by rewrite Hd2.
Qed.

(** ** Moving the new interface in *)
Lemma quiet_special_body nic :
  quiet (W:=W) (underlay ← on_errM (errorw "failed to get underlay nic by name %s: %w" [nic])
                   (LinkByName nic);
      _ ← assignIPToInterface (Some underlay) underlayNicSpecialAddr;
      on_errM (λ _, errorf "could not set link up for VRF %s: %v" [link_name underlay])
        (LinkSetUp (Some underlay))).
Proof. solve_quiet. Qed.

(** What moving the interface in leaves: it is marked, and the others are there. *)
Definition nic_marked (nic : string) (n : Z) (K : gmap positive Dev) (s' : NetState) : Prop :=
  held K s' ∧ ∃ id d, dev_named s' n nic id d ∧ special ∈ dev_addrs d.

(** The part of [moveUnderlayNic] after the old interface is gone. *)
Lemma wpo_new_nic nic ns n s K l :
  canonical_addr W special → handles (thr s) !! ns = Some n →
  holds K s → within l K → nic ∉ l →
  wpo (_ ← moveNicToNamespace nic ns;
       inNamespace ns (
         underlay ← on_errM (errorw "failed to get underlay nic by name %s: %w" [nic])
                      (LinkByName nic);
         _ ← assignIPToInterface (Some underlay) underlayNicSpecialAddr;
         on_errM (λ _, errorf "could not set link up for VRF %s: %v" [link_name underlay])
           (LinkSetUp (Some underlay)))) s
    (λ _ s', nic_marked nic n K s').
Proof.
  intros Hcan Hh HK Hl Hnic. wpo_step.
  eapply wpo_mono; [by apply (wpo_moveNic _ _ n)|]. intros [] s1 (Hs1 & Hheld & _).
  destruct (Hheld K HK) as (K1 & He & Hdom & HK1).
  { intros id d (Hd & _ & Hn). apply (within_absent l K s id d Hl (proj2 HK) Hd). congruence. }
  pose proof (within_held _ _ _ Hl He Hdom) as Hl1.
  apply (wpo_inNamespace _ _ _ n); [apply quiet_special_body|by destruct Hs1 as [-> _]|].
  intros h _. do 2 wpo_step. apply wpo_LinkByName. intros id d (Hd & Hns & Hn).
  assert (K1 !! id = None) as Hout.
  { apply (within_absent l K1 s1 id d Hl1 (proj2 HK1) Hd). congruence. }
  wpo_step. apply (wpo_assignIP _ _ _ id d); [done..|]. intros ex s2 Hs2 _ Hin Hd2. wpo_step.
  apply (wpo_LinkSetUp _ _ id (set_addrs (dev_addrs d ++ ex) d));
    [by rewrite Hd2 lookup_insert_eq|by destruct Hs2 as [-> _]|done|].
  intros ex2 s3 Hs3 Hd3 _. split.
  - exists K1. split_and!; [done..|]. eapply (holds_insert K1 s2); [|exact Hout|exact Hd3].
    exact (holds_insert K1 s1 s2 id _ HK1 Hout Hd2).
  - eexists id, _. unfold dev_named. cbn. rewrite Hd3 lookup_insert_eq.
    split; [by split_and!|]. apply elem_of_app. by left.
Qed.

(** None of the devices is marked. *)
Definition unmarked (K : gmap positive Dev) : Prop := map_Forall (λ _ d, special ∉ dev_addrs d) K.

Lemma wpo_moveUnderlayNic nic ns n s K l :
  canonical_addr W special → handles (thr s) !! ns = Some n →
  holds K s → within l K → nic ∉ l → unmarked K →
  wpo (moveUnderlayNic nic ns) s (λ _ s', nic_marked nic n K s').
Proof.
  intros Hcan Hh HK Hl Hnic Hun. unfold moveUnderlayNic. do 2 wpo_step.
  apply wpo_wf. intros Hwf.
  eapply wpo_mono; [by apply (wpo_oldUnderlayInterface _ n)|]. intros old s1 [-> Hfound].
  destruct (bool_decide (old ≠ "") && bool_decide (old = nic)) eqn:Hsame.
  { apply andb_prop in Hsame as [Hn1%bool_decide_eq_true ->%bool_decide_eq_true]. wpo_step.
    split; [by apply held_refl|]. by destruct Hfound. }
  wpo_step. destruct (bool_decide (old ≠ "") && bool_decide (old ≠ nic)) eqn:Hdiff; cycle 1.
  { wpo_step. by apply (wpo_new_nic _ _ _ _ _ l). }
  apply andb_prop in Hdiff as [Hn1%bool_decide_eq_true _]. destruct Hfound as [?|Hfound]; [done|].
  eapply wpo_mono; [by apply (wpo_removeUnderlayInterface _ _ n)|].
  intros [] s1 [(h & Hfresh & Ht1 & _) Hheld].
  destruct (Hheld K HK) as (K1 & He1 & Hdom1 & HK1).
  { intros id d Hd. destruct Hfound as (ido & dold & Hold & Hmark).
    assert (id = ido) as -> by exact (wf_name _ Hwf _ _ _ _ _ _ Hd Hold).
    destruct (K !! ido) as [e|] eqn:E; [|done]. pose proof (lookup_weaken _ _ _ _ E (proj2 HK)).
    assert (e = dold) as -> by (destruct Hold as [? _]; congruence). by destruct (Hun _ _ E). }
  eapply wpo_mono; [apply (wpo_new_nic _ _ n _ K1 l); [done| |done|exact (within_held _ _ _ Hl He1 Hdom1)|done]|].
  - rewrite Ht1. cbn. rewrite lookup_insert_ne //. congruence.
  - intros [] s2 [(K2 & He2 & Hdom2 & HK2) Hmark]. split; [|done].
    exists K2. split_and!; [exact (evolves_trans _ _ _ He1 He2)|congruence|done].
Qed.

(** ** The loopback *)
Lemma quiet_setupLoopback vtep : quiet (setupLoopback (W:=W) vtep).
Proof. unfold setupLoopback. solve_quiet. Qed.

Lemma wp_loopback s :
  wp (LinkByName UnderlayLoopback) s (λ r s', LinkByName_spec UnderlayLoopback s r s'
    ∧ ∀ e, r = Err e → is_link_not_found e = true).
Proof. apply wp_conj; [by eapply wp_sat; [apply LinkByName_law|]|by eapply wp_sat; [apply loopback_known|]]. Qed.

(** The loopback of the set has addresses more. *)
Definition addressed (vtep : string) (K K' : gmap positive Dev) : Prop :=
  K' = K ∨ ∃ id d ex, K !! id = Some d ∧ dev_name d = UnderlayLoopback ∧ ex ⊆ [vtep]
    ∧ K' = <[id := set_addrs (dev_addrs d ++ ex) d]> K.

Lemma addressed_within vtep l K K' : addressed vtep K K' → within l K → within l K'.
Proof.
  intros [->|(id & d & ex & Hd & _ & _ & ->)] Hl; [done|].
  apply within_insert; [done|]. exact (Hl _ _ Hd).
Qed.
Lemma addressed_unmarked vtep K K' : vtep ≠ special → addressed vtep K K' → unmarked K → unmarked K'.
Proof.
  intros Hne [->|(id & d & ex & Hd & _ & Hex & ->)] Hun; [done|].
  apply map_Forall_insert_2; [|done]. cbn. rewrite elem_of_app. intros [?|Hin%Hex].
  - by destruct (Hun _ _ Hd).
  - apply list_elem_of_singleton in Hin. by apply Hne.
Qed.

Lemma addressed_lookup vtep K K' id d :
  addressed vtep K K' → K !! id = Some d → ∃ ex, K' !! id = Some (set_addrs (dev_addrs d ++ ex) d).
Proof.
  intros [->|(i & e & ex & He & _ & _ & ->)] Hd.
  - exists []. rewrite app_nil_r Hd. by destruct d.
  - destruct (decide (id = i)) as [->|Hne].
    + exists ex. assert (e = d) as -> by congruence. by rewrite lookup_insert_eq.
    + exists []. rewrite lookup_insert_ne; [|by apply not_eq_sym]. rewrite app_nil_r Hd. by destruct d.
Qed.

(** Only devices called like the loopback are new or changed. *)
Definition others_same (s s' : NetState) : Prop :=
  ∀ id d, devs s' !! id = Some d → dev_name d ≠ UnderlayLoopback → devs s !! id = Some d.

Lemma others_same_insert s s1 s2 id d :
  others_same s s1 → dev_name d = UnderlayLoopback → devs s2 = <[id := d]> (devs s1) → others_same s s2.
Proof.
  intros Ho Hn Hd i e He Hne. rewrite Hd in He. apply lookup_insert_Some in He as [[_ <-]|[_ He]]; [done|].
  by apply Ho.
Qed.

Lemma wpo_setupLoopback vtep s K :
  canonical_addr W vtep → vtep ≠ special →
  (∀ id d, dev_named s (cur_ns s) UnderlayLoopback id d →
     plain d ∧ special ∉ dev_addrs d) →
  holds K s →
  wpo (setupLoopback vtep) s (λ _ s', silent s s'
    ∧ (∃ id d, dev_named s' (cur_ns s) UnderlayLoopback id d ∧ vtep ∈ dev_addrs d
         ∧ plain d ∧ special ∉ dev_addrs d)
    ∧ others_same s s' ∧ ∃ K', addressed vtep K K' ∧ holds K' s').
Proof.
  intros Hcan Hne Hlo HK. unfold setupLoopback.
  assert (∀ l s1 id d, silent s s1 → dev_named s1 (cur_ns s) UnderlayLoopback id d →
    dev_index d = link_index l → plain d → special ∉ dev_addrs d → holds K s1 → others_same s s1 →
    wpo (assignIPToInterface (Some l) vtep) s1 (λ _ s', silent s s'
      ∧ (∃ id d, dev_named s' (cur_ns s) UnderlayLoopback id d ∧ vtep ∈ dev_addrs d
           ∧ plain d ∧ special ∉ dev_addrs d)
      ∧ others_same s s' ∧ ∃ K', addressed vtep K K' ∧ holds K' s')) as Hassign.
  { intros l s1 id d Hs1 (Hd & Hns & Hn) Hi Hx Hsp HK1 Ho.
    apply (wpo_assignIP _ _ _ id d); [done|done|by destruct Hs1 as [-> _]|done|].
    intros ex s2 Hs2 Hex Hin Hd2. split; [exact (silent_trans _ _ _ Hs1 Hs2)|].
    split; [|split; [by apply (others_same_insert s s1 s2 id (set_addrs (dev_addrs d ++ ex) d))|]].
    - eexists id, _. unfold dev_named. rewrite Hd2 lookup_insert_eq. split; [by split_and!|].
      split; [done|]. split; [done|]. cbn. rewrite elem_of_app. intros [?|Hc%Hex]; [done|].
      apply list_elem_of_singleton in Hc. congruence.
    - destruct (K !! id) as [e|] eqn:E; [|exists K; split; [by left|exact (holds_insert _ _ _ _ _ HK1 E Hd2)]].
      pose proof (lookup_weaken _ _ _ _ E (proj2 HK1)). assert (e = d) as -> by congruence.
      exists (<[id := set_addrs (dev_addrs d ++ ex) d]> K). split; [right; by exists id, d, ex|].
      apply (holds_update K s1 s2 id d); [done..|by split_and!|done]. }
  wpo_step. apply wp_attempt. eapply wp_mono; [apply wp_loopback|].
  intros [l|e|] s1 ([-> Hlk] & Hnf); cbn [on_ok]; [| |done].
  - destruct Hlk as (id & d & Hd & Hns & Hn & ->). do 2 wpo_step.
    destruct (Hlo id d) as [Hx Hsp]; [by split_and!|].
    apply (Hassign _ s id d); [done..|by intros i e He _].
  - wpo_step. rewrite (Hnf e eq_refl). do 2 wpo_step. eapply wpo_sat; [apply LinkAdd_law|].
    intros l s1 [Hs1 (id & d & Hadd & ->)]%LinkAdd_added. wpo_step.
    pose proof (added_dev _ _ _ _ _ Hadd) as Hd.
    assert (holds K s1) as HK1.
    { split; [apply HK|]. apply map_subseteq_spec. intros i e' He.
      exact (added_frame _ _ _ _ _ _ _ Hadd (lookup_weaken _ _ _ _ He (proj2 HK))). }
    destruct Hadd as (_ & (Hns & Hn & _ & Hk) & _ & Haddrs & _ & Hdevs).
    apply (Hassign _ s1 id d); [done|by split_and!|done| | |done|].
    + split; [by rewrite (type_check_veth _ _ Hk)|by rewrite (type_check_vxlan _ _ Hk)].
    + rewrite Haddrs. set_solver.
    + apply (others_same_insert s s s1 id d); [by intros i e' He _|exact Hn|exact Hdevs].
Qed.

(** The conditions under which [SetupUnderlay] can do its work in the namespace [n]:
    a device called like the loopback is neither a VXLAN nor an end of a veth pair nor
    marked as the underlay. *)
Record underlay_possible (params : UnderlayParams.t) (n : Z) (s : NetState) : Prop := {
  up_ns : named s !! UnderlayParams.TargetNS params = Some n;
  up_vtep : canonical_addr W (UnderlayParams.VtepIP params);
  up_special : canonical_addr W underlayNicSpecialAddr;
  up_apart : UnderlayParams.VtepIP params ≠ underlayNicSpecialAddr
    ∧ UnderlayParams.MainNic params ≠ UnderlayLoopback;
  up_loopback id d : dev_named s n UnderlayLoopback id d →
    plain d ∧ underlayNicSpecialAddr ∉ dev_addrs d }.

Definition underlay_set (params : UnderlayParams.t) (n : Z) (s : NetState) : Prop :=
  (∃ id d, dev_named s n UnderlayLoopback id d ∧ UnderlayParams.VtepIP params ∈ dev_addrs d ∧ plain d)
  ∧ ∃ id d, dev_named s n (UnderlayParams.MainNic params) id d ∧ underlayNicSpecialAddr ∈ dev_addrs d.

(** The underlay is set, and a closed set of other devices, the loopback possibly among
    them, is there as before but for the addresses of the loopback. *)
Lemma wpo_SetupUnderlay_keeps params n s K l :
  underlay_possible params n s →
  holds K s → within l K → UnderlayParams.MainNic params ∉ l → unmarked K →
  wpo (SetupUnderlay params) s (λ _ s', underlay_set params n s'
    ∧ ∃ K1 K2, addressed (UnderlayParams.VtepIP params) K K1 ∧ evolves K1 K2 ∧ holds K2 s'
      ∧ within (UnderlayLoopback :: l) K2).
Proof.
  intros [Hn Hcv Hcs [Hne Hnic] Hlo] HK Hl Hnl Hun.
  unfold SetupUnderlay. do 2 wpo_step. eapply wpo_sat; [apply GetFromName_law|].
  intros ns s1 (_ & n' & Hn' & Hfresh & Hs1). assert (n' = n) as -> by congruence.
  assert (handles (thr s1) !! ns = Some n ∧ devs s1 = devs s) as [Hh Hd1].
  { subst s1. cbn. by rewrite lookup_insert_eq. }
  apply wp_deferring. apply (wp_mono _ _ (on_ok (λ _ s', underlay_set params n s'
    ∧ ∃ K1 K2, addressed (UnderlayParams.VtepIP params) K K1 ∧ evolves K1 K2 ∧ holds K2 s'
      ∧ within (UnderlayLoopback :: l) K2))).
  2:{ intros r s2 HQ. eapply wp_sat; [apply Close_law|]. intros ? s3 [_ ->]. destruct r; [|done..].
      destruct HQ as [Hset (K1 & K2 & Ha & He & HK2 & Hw)]. split; [exact Hset|]. exists K1, K2.
      split_and!; [done..|exact (holds_devs _ s2 _ eq_refl HK2)|done]. }
  wpo_step. apply (wpo_inNamespace _ _ _ n); [apply quiet_setupLoopback|done|].
  intros h _. eapply wpo_mono; [apply wpo_wf_post, (wpo_setupLoopback _ _ K Hcv Hne)|].
  { intros id d (Hd & Hns & Hname). apply (Hlo id d). unfold dev_named. by rewrite -Hd1. }
  { exact (holds_devs K s _ Hd1 HK). }
  intros [] s2 (Hwf & [_ _] & (id & d & (Hd & Hns & Hname) & Hin & Hx & Hsp) & _ & K1 & HK1 & Hh1) _.
  set (s2' := set_thr (thr s1) s2).
  assert (holds (K1 ∪ {[id := d]}) s2') as HK2.
  { apply (holds_devs _ s2 s2' eq_refl). by apply holds_plain. }
  assert (within (UnderlayLoopback :: l) (K1 ∪ {[id := d]})) as Hw.
  { apply within_union; [|apply map_Forall_singleton; rewrite Hname; by left].
    refine (within_mono _ _ _ (addressed_within _ _ _ _ HK1 Hl) _). set_solver. }
  eapply wpo_mono; [apply (wpo_moveUnderlayNic _ _ n _ (K1 ∪ {[id := d]}) (UnderlayLoopback :: l)); try done|].
  - rewrite not_elem_of_cons. by split.
  - apply map_Forall_union_2; [exact (addressed_unmarked _ _ _ Hne HK1 Hun)|by apply map_Forall_singleton].
  - intros [] s3 [(K3 & He3 & Hdom & HK3) Hmark].
    assert (is_Some ((K1 ∪ {[id := d]}) !! id)) as [e He].
    { rewrite lookup_union_is_Some lookup_singleton_is_Some. by right. }
    pose proof (lookup_weaken _ _ _ _ He (proj2 HK2)) as He'. cbn in He'. assert (e = d) as -> by congruence.
    destruct (He3 id d He) as (m & Hm & _). split; [split; [|exact Hmark]|].
    + exists id, (set_master m d). split; [|by split]. split_and!; [exact (lookup_weaken _ _ _ _ Hm (proj2 HK3))|done|done].
    + exists K1, K3. split_and!; [done|exact (evolves_trans _ _ _ (evolves_union _ _) He3)|done|exact (within_held _ _ _ Hw He3 Hdom)].
Qed.

Lemma holds_empty s : holds ∅ s.
Proof. split; [by intros ???|apply map_empty_subseteq]. Qed.

Lemma wpo_SetupUnderlay params n s :
  underlay_possible params n s → wpo (SetupUnderlay params) s (λ _ s', underlay_set params n s').
Proof.
  intros Hp. eapply wpo_mono; [apply (wpo_SetupUnderlay_keeps params n s ∅ [] Hp (holds_empty s))|].
  - by intros ???.
  - apply not_elem_of_nil.
  - by intros ???.
  - by intros [] s' [? _].
Qed.

(** ** The thread and the handles *)
Definition quiet_or_opened (s s' : NetState) : Prop := silent s s' ∨ opened (cur_ns s) s s'.

Lemma opened_silent n s s1 s2 : opened n s s1 → silent s1 s2 → opened n s s2.
Proof. intros (h & Hh & Ht & Hn) [Ht' Hn']. exists h. split_and!; congruence. Qed.

Lemma quiet_findUnderlay ls : quiet (findUnderlay (W:=W) ls).
Proof.
  induction ls as [|l ls IH]; cbn [findUnderlay]; [solve_quiet|].
  unfold interfaceHasIP. repeat (apply quiet_err_with_name || solve_quiet).
Qed.
Hint Resolve quiet_findUnderlay : pierre.
Lemma quiet_oldUnderlayInterface ns : quiet (oldUnderlayInterface (W:=W) ns).
Proof. unfold oldUnderlayInterface. solve_quiet. Qed.

Lemma sat_removeUnderlayInterface old ns :
  sat (removeUnderlayInterface (W:=W) old ns) (λ s _ s', quiet_or_opened s s').
Proof.
  apply sat_wp. intros s. unfold removeUnderlayInterface. apply wp_bind, wp_on_err.
  eapply wp_sat; [apply Get_law|]. intros [c|e|] s1 [_ Hs1]; cbn [on_err]; [|by subst; left..].
  destruct Hs1 as [Hfresh ->].
  eapply wp_sat; [apply quiet_inNamespace, quiet_removal_body|].
  intros r s2 Hs2. right. eapply opened_silent; [|exact Hs2]. by exists c.
Qed.

Lemma sat_moveUnderlayNic nic ns :
  sat (moveUnderlayNic (W:=W) nic ns) (λ s _ s', quiet_or_opened s s').
Proof.
  apply sat_wp. intros s. unfold moveUnderlayNic. apply wp_bind, wp_on_err.
  eapply wp_sat; [apply quiet_oldUnderlayInterface|].
  intros [old|e|] s1 Hs1; cbn [on_err]; [|by left..].
  assert (cur_ns s1 = cur_ns s) as Hc by (destruct Hs1 as [-> _]; done).
  assert (∀ s2, quiet_or_opened s1 s2 → quiet_or_opened s s2) as Hback.
  { intros s2 [Hq|(h & Hh & Ht & Hn)]; [left; exact (silent_trans _ _ _ Hs1 Hq)|].
    right. destruct Hs1 as [Ht1 Hn1]. exists h. rewrite -Ht1 -Hn1. by split_and!. }
  destruct (_ && _); [apply wp_ret; by left|].
  apply wp_bind. apply (wp_mono _ _ (λ _ s2, quiet_or_opened s1 s2)).
  { destruct (_ && _); [eapply wp_sat; [apply sat_removeUnderlayInterface|done]|].
    apply wp_ret. by left. }
  intros [u|e|] s2 Hs2; [|by apply Hback..].
  eapply wp_sat; [apply quiet_bind; [apply quiet_moveNic|]; intros ?;
    apply quiet_inNamespace, quiet_special_body|].
  intros r s3 Hs3. apply Hback. destruct Hs2 as [Hs2|Hs2].
  - left. exact (silent_trans _ _ _ Hs2 Hs3).
  - right. exact (opened_silent _ _ _ _ Hs2 Hs3).
Qed.

Lemma sat_SetupUnderlay_thread params :
  sat (SetupUnderlay (W:=W) params) (λ s _ s',
    cur_ns s' = cur_ns s ∧ locks (thr s') = locks (thr s) ∧ files (thr s') = files (thr s)
    ∧ (handles (thr s') = handles (thr s)
       ∨ ∃ h, handles (thr s) !! h = None
           ∧ handles (thr s') = <[h := cur_ns s]> (handles (thr s)))).
Proof.
  apply sat_wp. intros s. unfold SetupUnderlay. apply wp_bind, wp_on_err.
  eapply wp_sat; [apply GetFromName_law|].
  intros [ns|e|] s1 [_ Hs1]; cbn [on_err]; [|subst; split_and!; auto..].
  destruct Hs1 as (n & Hn & Hfresh & ->). apply wp_deferring, wp_bind.
  set (s1 := set_thr _ s).
  assert (∀ s2, quiet_or_opened s1 s2 →
    wp (netns_Close ns) s2 (λ _ s', cur_ns s' = cur_ns s ∧ locks (thr s') = locks (thr s)
      ∧ files (thr s') = files (thr s) ∧ (handles (thr s') = handles (thr s)
       ∨ ∃ h, handles (thr s) !! h = None
           ∧ handles (thr s') = <[h := cur_ns s]> (handles (thr s))))) as Hclose.
  { intros s2 Hq. eapply wp_sat; [apply Close_law|]. intros r s3 [_ ->].
    destruct Hq as [[Ht _]|(h & Hh & Ht & _)]; cbn; rewrite Ht; cbn; (split_and!; [done..|]).
    - left. by rewrite delete_insert_id.
    - cbn in Hh. assert (h ≠ ns). { intros ->. by rewrite lookup_insert_eq in Hh. }
      rewrite lookup_insert_ne in Hh; [|by apply not_eq_sym].
      right. exists h. split; [done|].
      rewrite delete_insert_ne; [|by apply not_eq_sym]. by rewrite delete_insert_id. }
  eapply wp_sat; [apply quiet_inNamespace, quiet_setupLoopback|].
  intros [u|e|] s2 Hs2; [|apply Hclose; by left..].
  eapply wp_sat; [apply sat_moveUnderlayNic|]. intros r s3 Hs3. apply Hclose.
  destruct Hs2 as [Ht2 Hn2]. destruct Hs3 as [[Ht3 Hn3]|(h & Hh & Ht3 & Hn3)].
  - left. split; congruence.
  - right. exists h. rewrite Ht2 in Hh, Ht3. split_and!; [done|done|congruence].
Qed.
End underlay.

(** ** The theorems *)
Section theorems.
Context {W : Type} `{NetlinkLaws W}.

Lemma detour_underlay {F} `{NetlinkLaws F, !Refuge W F} params n s :
  underlay_possible (W:=W) params n s → underlay_possible (W:=(W + F)) params n s.
Proof. intros []. by split. Qed.

(** C15. What a successful [SetupUnderlay] establishes: in the router's namespace the
    loopback carries the VTEP address and the underlay interface carries the
    special address it is recognised by, whatever interface was the underlay
    before.  Before, the router's namespace is there, the addresses are written as the
    kernel prints them and differ, the interface is not called like the loopback, and what
    is called like the loopback is no VXLAN, no end of a veth pair and not marked as the
    underlay.  And the run meets no trouble the code does not see: looking the loopback up
    fails only when it is not there - after any other error [SetupUnderlay] goes on without
    a loopback -, every switch of namespace is let through, and no router's leg shares its
    index with another device. *)
Theorem SetupUnderlay_establishes params n w w' :
  underlay_possible params n (view w) → SetupUnderlay params w = (Ok tt, w') →
  troubles (SetupUnderlay params) w = [] →
  underlay_set params n (view w').
Proof.
  intros Hp Hr Ht. by_detour well_formed (λ W (_ : Netlink W), SetupUnderlay params) Hr Ht.
  exact (wpo_Ok (W:=detoured W well_formed) _ _ _ _ _ (wpo_SetupUnderlay params n _ (detour_underlay _ _ _ Hp)) Hr).
Qed.

(** C30. However [SetupUnderlay] ends, in a run in which every switch of namespace is let
    through, looking the loopback up fails only when it is not there and no router's leg
    shares its index with another device: the thread is in the namespace it was
    called in, locked as often as before, with the files open that were, and the handle of
    the router's namespace is closed again; at most one handle, of the caller's own
    namespace, stays open: the one [removeUnderlayInterface] takes and never closes. *)
Theorem SetupUnderlay_thread params w r w' :
  SetupUnderlay params w = (r, w') → troubles (SetupUnderlay params) w = [] →
  let s := view w in let s' := view w' in
  cur_ns s' = cur_ns s ∧ locks (thr s') = locks (thr s) ∧ files (thr s') = files (thr s)
  ∧ (handles (thr s') = handles (thr s)
     ∨ ∃ h, handles (thr s) !! h = None
         ∧ handles (thr s') = <[h := cur_ns s]> (handles (thr s))).
Proof.
  intros Hr Ht. by_detour well_formed (λ W (_ : Netlink W), SetupUnderlay params) Hr Ht.
  exact (sat_SetupUnderlay_thread (W:=detoured W well_formed) params _ _ _ Hr).
Qed.
End theorems.

(** ** Witnesses *)
Definition underlay_params : UnderlayParams.t :=
  UnderlayParams.mk "toswitch" "100.65.0.0/32" "router".

Lemma sample_underlay_possible : underlay_possible (W:=NetState) underlay_params 1 (sample_state []).
Proof.
  split.
  - vm_compute. reflexivity.
  - solve_canonical.
  - solve_canonical.
  - split; vm_compute; discriminate.
  - intros i d (Hi & Hns & Hn). exfalso.
    refine (each_dev (λ _ d, dev_name d ≠ UnderlayLoopback) _ _ i d Hi Hn). vm_compute. reflexivity.
Qed.

Lemma SetupUnderlay_establishes_witness :
  (SetupUnderlay underlay_params (sample_state [])).1 = Ok tt
  ∧ underlay_set underlay_params 1 (view (SetupUnderlay underlay_params (sample_state [])).2).
Proof.
  assert ((SetupUnderlay underlay_params (sample_state [])).1 = Ok tt) as Hr by (vm_compute; reflexivity).
  split; [exact Hr|].
  apply (SetupUnderlay_establishes underlay_params 1 (sample_state [])); [exact sample_underlay_possible| |].
  - rewrite -Hr. apply surjective_pairing.
  - vm_compute. reflexivity.
Defined.

Lemma SetupUnderlay_thread_witness :
  cur_ns (view (SetupUnderlay underlay_params (sample_state [])).2) = cur_ns (view (sample_state []))
  ∧ handles (thr (SetupUnderlay underlay_params (sample_state [])).2) = ∅.
Proof.
  split; [|vm_compute; reflexivity].
  refine (proj1 (SetupUnderlay_thread underlay_params (sample_state []) _ _ (surjective_pairing _) _)).
  vm_compute. reflexivity.
Defined.
