(* ===== verification/UnderlayProgress.v ===== *)
(** * [SetupUnderlay] succeeds

    With a kernel that has no reason to refuse (Progress.v), [SetupUnderlay] ends without
    error when the interface of the underlay is on the node and what was the underlay
    before can be moved; and it leaves the VNIs as ready to be set up as they were. *)

From S2P Require Import Prelude GoStrings GoNet HostParams Netlink Troubles NetLogic HostLinks LinkSpecs.
From S2P Require Import Progress Held Faults Origins LinkProgress VethSpecs SimKernel HostNetwork Twins Detour HostSpecs VniSpecs.
From S2P Require Import VniProgress Underlay.
Local Open Scope Z_scope.

(** A device that can be moved to another namespace. *)
Definition movable (d : Dev) : bool := is_veth (dev_link d) || is_other (dev_link d).

Section underlay_progress.
Context {W : Type} `{NetlinkLaws W, !Untroubled W} {cap : nat} `{!NetlinkProgress W cap}.

(** ** The loopback *)
Lemma fine_setupLoopback vtep s :
  readable vtep = true → (size (devs s) + 2 ≤ cap)%nat → fine (setupLoopback vtep) s.
Proof.
  intros Hv Hroom. unfold setupLoopback. apply wp_bind, wp_attempt. apply wp_LinkByName.
  - intros id d (Hd & Hns & Hn). apply fine_bind; [fine_step|]. wpo_step. by apply (fine_assignIP _ _ _ id d).
  - intros e He Hno. cbn. rewrite He. apply fine_bind.
    + fine_step; [fine_step; apply fine_LinkAdd; [|done]; split; [done|done|by left|done]|].
      eapply wpo_mono; [apply wpo_true|]. intros. fine_step.
    + do 2 wpo_step. eapply wpo_sat; [apply LinkAdd_law|].
      intros l s1 [[Ht _] (id & d & Hadd & ->)]%LinkAdd_added. wpo_step.
      pose proof (added_dev _ _ _ _ _ Hadd) as Hd. destruct Hadd as (_ & (Hns & _) & _).
      apply (fine_assignIP _ _ _ id d); [done|done|by rewrite Ht|done].
Qed.

(** ** Moving an interface *)
Lemma fine_restoreAddress l a s id d :
  devs s !! id = Some d → dev_ns d = cur_ns s → dev_index d = link_index l →
  readable (IPNet_String (Addr_IPNet a)) = true → fine (restoreAddress l a) s.
Proof.
  intros Hd Hns Hi Ha. unfold restoreAddress. cbv zeta. apply wp_bind, wp_attempt.
  intros w r w' <- Hr.
  destruct (AddrAdd_can _ _ _ _ _ Hr id d) as [[u ->]|(_ & e & -> & He)]; [by split_and!|done|..].
  - apply wp_ret. by eexists.
  - rewrite He. apply wp_ret. by eexists.
Qed.

Lemma fine_restore_loop l as_ s id d :
  devs s !! id = Some d → dev_ns d = cur_ns s → dev_index d = link_index l →
  Forall (λ a, readable (IPNet_String (Addr_IPNet a)) = true) as_ → fine (forM_ (restoreAddress l) as_) s.
Proof.
  intros Hd Hns Hi Ha.
  apply (fine_forM _ (λ as_ s, Forall (λ a, readable (IPNet_String (Addr_IPNet a)) = true) as_
    ∧ ∃ d, devs s !! id = Some d ∧ dev_ns d = cur_ns s ∧ dev_index d = link_index l)); [| |by split; [|exists d]].
  - intros a l0 s0 [[Ha0 _]%list.Forall_cons (d0 & Hd0 & Hns0 & Hi0)]. by apply (fine_restoreAddress _ _ _ id d0).
  - intros a l0 s0 [[_ Ha0]%list.Forall_cons (d0 & Hd0 & Hns0 & Hi0)].
    apply (wpo_restoreAddress _ id _ _ d0); [done..|]. intros ex s1 [Ht _] _ Hd1. split; [done|].
    exists (set_addrs (dev_addrs d0 ++ ex) d0). rewrite Hd1 lookup_insert_eq Ht. by split_and!.
Qed.

Lemma fine_arrive nic as_ s id d g g' :
  dev_named s (cur_ns s) nic id d → Forall (λ a, readable (IPNet_String (Addr_IPNet a)) = true) as_ →
  fine (nsLink ← on_errM g (LinkByName nic); _ ← on_errM (g' nsLink) (LinkSetUp (Some nsLink));
       forM_ (restoreAddress nsLink) as_) s.
Proof.
  intros Hat Ha. apply fine_wf. intros Hwf. fine_step; [fine_step; by apply (fine_LinkByName _ _ id d)|].
  wpo_step. apply wpo_LinkByName. intros id' d' (Hd' & Hns' & Hn').
  fine_step; [fine_step; by apply (fine_LinkSetUp _ _ id' d')|].
  wpo_step. apply (wpo_LinkSetUp _ _ id' d'); [done..|]. intros ex s1 [Ht _] Hd1.
  apply (fine_restore_loop _ _ _ id' (set_up ex d')); [by rewrite Hd1 lookup_insert_eq|by rewrite Ht|done|done].
Qed.

(** The interface is in the target namespace, or where the caller is and can be moved. *)
Definition within_reach (nic : string) (n : Z) (s : NetState) : Prop :=
  ∃ id d, dev_named s n nic id d ∨ dev_named s (cur_ns s) nic id d ∧ movable d = true.

Lemma fine_look_inside nic ns n g s :
  handles (thr s) !! ns = Some n →
  wp (inNamespace ns (on_errM g (LinkByName nic))) s (λ r s',
    s' = s ∧ returns r ∧ ∀ e, r = Err e → absent s n nic).
Proof.
  intros Hh. assert (can_enter (W:=W) ns s) as Hcan.
  { split; [by exists n|]. intros w r w' Hr. exact (Get_can _ _ _ Hr I). }
  apply wp_inNamespace_quiet; [solve_quiet|intros e Hno; by destruct Hno|intros Hno; by destruct Hno|].
  intros n' h Hn' Hfresh. rewrite lookup_insert_ne in Hn'; [|congruence].
  assert (n' = n) as -> by congruence. apply wp_on_err, wp_LinkByName.
  - intros id d _ _. rewrite set_thr_enter. by split_and!.
  - intros e _ Hno _. rewrite set_thr_enter. split_and!; [done|done|]. intros e' _. exact Hno.
Qed.

Lemma fine_moveNic nic ns n s :
  handles (thr s) !! ns = Some n → within_reach nic n s → fine (moveNicToNamespace nic ns) s.
Proof.
  intros Hh (ido & dold & Hreach). apply fine_wf. intros Hwf. unfold moveNicToNamespace. apply wp_bind, wp_attempt.
  eapply wp_mono; [apply (fine_look_inside nic ns n _ s Hh)|].
  intros r s1 (-> & Hret & Hno). destruct r as [l|e|]; [apply wp_ret; by eexists| |done].
  specialize (Hno e eq_refl). destruct Hreach as [Hat|[Hat Hmv]]; [by destruct (Hno ido dold)|].
  fine_step; [fine_step; by apply (fine_LinkByName _ _ ido dold)|].
  wpo_step. apply wpo_LinkByName. intros id d Hat'.
  assert (id = ido) as -> by exact (wf_name _ Hwf _ _ _ _ _ _ Hat' Hat).
  assert (d = dold) as -> by (destruct Hat' as [? _], Hat as [? _]; congruence). clear Hat'.
  pose proof Hat as (Hd & Hns & Hn).
  fine_step; [fine_step; eapply fine_can; [apply AddrList_can|]; by exists ido, dold|].
  wpo_step. eapply (wpo_sat _ (λ s r s', AddrList_spec (dev_link dold) s r s' ∧ ∀ as_, r = Ok as_ →
    Forall (λ a, readable (IPNet_String (Addr_IPNet a)) = true) as_)).
  { intros w x w' Hr. pose proof (AddrList_law _ _ _ _ _ Hr) as Hlaw. split; [done|]. intros as_ ->.
    destruct Hlaw as (_ & _ & Hl). destruct (Hl as_ eq_refl) as (i & e1 & (Hi & _) & Haddrs).
    apply list.Forall_forall. intros a Ha. apply (view_readable w i e1); [done|]. rewrite Haddrs.
    apply list_elem_of_fmap. by exists a. }
  intros as_ s1 [(-> & _ & _) Has]. specialize (Has as_ eq_refl). fine_step.
  { fine_step. eapply fine_can; [apply LinkSetNsFd_can|]. exists n, ido, dold. split_and!; try done. right. by rewrite Hn. }
  wpo_step. eapply wpo_sat; [apply LinkSetNsFd_law|]. intros [] s1 ([Ht1 _] & _ & Hmove).
  destruct (Hmove eq_refl) as (n1 & id2 & d2 & Hn1 & Hat2 & Hdevs). clear Hmove.
  assert (n1 = n) as -> by congruence.
  destruct (dev_at_unique s ido dold id2 d2 Hwf Hd Hns Hat2) as [-> ->].
  assert (∃ d3, dev_named s1 n nic ido d3) as [d3 Hat3].
  { destruct (Z.eqb_spec n (cur_ns s)) as [->|Hne].
    - exists dold. unfold dev_named. by rewrite Hdevs.
    - destruct Hdevs as (_ & d3 & Hd3 & Hns3 & Hn3 & _). exists d3. unfold dev_named. split_and!; [done|done|congruence]. }
  eapply (fine_inNamespace _ _ _ n); [solve_quiet|by rewrite Ht1|]. intros h _.
  by apply (fine_arrive nic as_ _ ido d3).
Qed.

(** ** The old interface *)
Lemma special_readable : readable special = true.
Proof. vm_compute. reflexivity. Qed.

Lemma fine_findUnderlay links s :
  (∀ l, l ∈ links → ∃ id d, devs s !! id = Some d ∧ dev_ns d = cur_ns s ∧ l = dev_link d) →
  fine (findUnderlay links) s.
Proof.
  induction links as [|l links IH]; intros Hls; cbn [findUnderlay]; [fine_step|].
  destruct (Hls l) as (id & d & Hd & Hns & ->); [by left|].
  fine_step.
  { apply fine_attempt. eapply wp_sat; [apply AddrList_law|]. by intros r s' (_ & ? & _). }
  apply wp_attempt. eapply wp_sat; [apply AddrList_law|]. intros r s1 (-> & Hret & _).
  assert (fine (hasIP ← interfaceHasIP (Some (dev_link d)) underlayNicSpecialAddr;
      if hasIP : bool then mret (dev_name d) else findUnderlay links) s) as Hrest.
  { fine_step; [by apply (fine_interfaceHasIP _ _ _ id d); [exact special_readable|..]|].
    apply wpo_interfaceHasIP; [exact (readable_canonical _ special_readable)|]. intros id' d' _.
    case_bool_decide; [fine_step|]. apply IH. intros l' Hl'. apply Hls. by right. }
  by destruct r.
Qed.

Lemma fine_oldUnderlayInterface ns n s :
  handles (thr s) !! ns = Some n → fine (oldUnderlayInterface ns) s.
Proof.
  intros Hh. unfold oldUnderlayInterface. eapply (fine_inNamespace _ _ _ n); [|done|].
  { apply quiet_bind; [solve_quiet|]. intros ls. apply quiet_findUnderlay. }
  intros h _. fine_step; [fine_step; by eapply fine_can; [apply LinkList_can|]|].
  wpo_step. eapply wpo_sat; [apply LinkList_law|]. intros ls s1 (-> & _ & Hls).
  apply fine_findUnderlay. intros l Hl. by apply (Hls ls).
Qed.

Lemma fine_removeUnderlayInterface old ns n s :
  handles (thr s) !! ns = Some n →
  (∃ id d, dev_named s n old id d ∧ special ∈ dev_addrs d ∧ movable d = true) →
  fine (removeUnderlayInterface old ns) s.
Proof.
  intros Hh (ido & dold & (Hdo & Hnso & Hno) & Hmark & Hmv). unfold removeUnderlayInterface.
  fine_step; [fine_step; by eapply fine_can; [apply Get_can|]|].
  wpo_step. eapply wpo_sat; [apply Get_law|]. intros c s1 (_ & Hfresh & ->). set (s1 := set_thr _ s).
  assert (handles (thr s1) !! ns = Some n) as Hh1 by (cbn; rewrite lookup_insert_ne //; congruence).
  eapply (fine_inNamespace _ _ _ n); [apply quiet_removal_body|done|]. intros h Hh'.
  apply fine_wf. intros Hwf.
  assert (dev_named (enter n h s1) (cur_ns (enter n h s1)) old ido dold) as Hat by by split_and!.
  fine_step; [fine_step; by apply (fine_LinkByName _ _ ido dold)|].
  wpo_step. apply wpo_LinkByName. intros id d Hat'.
  assert (id = ido) as -> by exact (wf_name _ Hwf _ _ _ _ _ _ Hat' Hat).
  assert (d = dold) as -> by (destruct Hat' as [? _], Hat as [? _]; congruence). clear Hat'.
  fine_step; [do 2 fine_step; apply ParseAddr_can, special_readable|].
  wpo_step. wpo_step. rename a into x.
  assert (IPNet_String (Addr_IPNet x) = special) as Hx
    by (apply (readable_canonical (W:=W) _ special_readable); assumption).
  fine_step; [fine_step; eapply fine_can; [apply AddrDel_can|]; exists ido, dold; split; [by split_and!|by rewrite Hx]|].
  wpo_step. eapply wpo_sat; [apply AddrDel_law|]. intros [] s2 ([Ht2 _] & _ & Hdel).
  destruct (Hdel eq_refl) as (id' & d' & d2 & Hat' & Hd2 & Hdevs). clear Hdel.
  pose proof Hat as (Hd & Hns & Hn).
  destruct (dev_at_unique _ ido dold id' d' Hwf Hd Hns Hat') as [-> ->].
  apply (fine_moveNic _ _ (cur_ns s)).
  - rewrite Ht2. cbn. rewrite lookup_insert_ne; [by rewrite lookup_insert_eq|].
    intros ->. cbn in Hh'. by rewrite lookup_insert_eq in Hh'.
  - exists ido, d2. right. subst d2. split; [split_and!|done].
    + by rewrite Hdevs lookup_insert_eq.
    + by rewrite Ht2.
    + done.
Qed.

(** ** The new interface *)
Lemma fine_new_nic nic ns n s :
  handles (thr s) !! ns = Some n → within_reach nic n s →
  fine (_ ← moveNicToNamespace nic ns;
       inNamespace ns (
         underlay ← on_errM (errorw "failed to get underlay nic by name %s: %w" [nic])
                      (LinkByName nic);
         _ ← assignIPToInterface (Some underlay) underlayNicSpecialAddr;
         on_errM (λ _, errorf "could not set link up for VRF %s: %v" [link_name underlay])
           (LinkSetUp (Some underlay)))) s.
Proof.
  intros Hh Hreach. fine_step; [by apply (fine_moveNic _ _ n)|].
  eapply wpo_mono; [by apply (wpo_moveNic _ _ n)|]. intros [] s1 ([Ht1 _] & _ & Hmoved).
  assert (∃ id d, dev_named s1 n nic id d) as (id & d & Hat).
  { destruct Hmoved as [[Hd (id & d & Hat)]|(id & _ & d & _ & Hd & Hns & Hn & _)]; exists id, d;
      unfold dev_named in *; [by rewrite Hd|by split_and!]. }
  eapply (fine_inNamespace _ _ _ n); [apply quiet_special_body|by rewrite Ht1|]. intros h _.
  fine_step; [fine_step; by apply (fine_LinkByName _ _ id d)|].
  wpo_step. apply wpo_LinkByName. intros id' d' (Hd' & Hns' & Hn').
  fine_step; [by apply (fine_assignIP _ _ _ id' d'); [exact special_readable|..]|].
  apply (wpo_assignIP _ _ _ id' d'); [exact (readable_canonical _ special_readable)|done..|].
  intros ex s2 [Ht2 _] _ _ Hd2. fine_step.
  apply (fine_LinkSetUp _ _ id' (set_addrs (dev_addrs d' ++ ex) d')); [by rewrite Hd2 lookup_insert_eq|by rewrite Ht2|done].
Qed.

(** What takes the place of the underlay can be moved, and so can what it was before. *)
Record nics_movable (nic : string) (tns : Z) (s : NetState) : Prop := {
  new_nic : ∃ id d, plain d ∧ (dev_named s tns nic id d ∨ dev_named s (cur_ns s) nic id d ∧ movable d = true);
  old_nic id d : devs s !! id = Some d → dev_ns d = tns → special ∈ dev_addrs d →
    dev_name d ≠ nic → movable d = true }.

Lemma fine_moveUnderlayNic nic ns n s :
  handles (thr s) !! ns = Some n → nics_movable nic n s → fine (moveUnderlayNic nic ns) s.
Proof.
  intros Hh [(idn & dn & Hnp & Hnew) Hold]. apply fine_wf. intros Hwf. unfold moveUnderlayNic.
  fine_step; [fine_step; by apply (fine_oldUnderlayInterface _ n)|].
  wpo_step. eapply wpo_mono; [apply (wpo_oldUnderlayInterface _ n); [exact (readable_canonical _ special_readable)|exact Hh]|].
  intros old s1 [-> Hfound].
  destruct (bool_decide (old ≠ "") && bool_decide (old = nic)) eqn:Hsame; [fine_step|].
  assert (within_reach nic n s) as Hreach by (exists idn, dn; done).
  destruct (bool_decide (old ≠ "") && bool_decide (old ≠ nic)) eqn:Hdiff; cycle 1.
  { fine_step; [fine_step|]. wpo_step. by apply (fine_new_nic _ _ n). }
  apply andb_prop in Hdiff as [Hn1%bool_decide_eq_true Hn2%bool_decide_eq_true].
  destruct Hfound as [?|(ido & dold & Hat & Hmark)]; [done|]. pose proof Hat as (Hdo & Hnso & Hno).
  fine_step.
  { apply (fine_removeUnderlayInterface _ _ n _ Hh). exists ido, dold. split_and!; [done..|].
    apply (Hold ido dold); [done..|congruence]. }
  eapply wpo_mono; [by apply (wpo_removeUnderlayInterface _ _ n)|].
  intros [] s1 [(h & Hfresh & Ht1 & _) Hheld].
  assert (devs s !! idn = Some dn ∧ dev_name dn = nic) as [Hdn Hnn].
  { destruct Hnew as [(?&?&?)|[(?&?&?) _]]; done. }
  destruct (Hheld {[idn := dn]}) as (K1 & He1 & _ & HK1).
  { by apply holds_loopback. }
  { intros id d (Hd & _ & Hn). apply lookup_singleton_ne. congruence. }
  destruct (He1 idn dn) as (m & Hm & _); [by rewrite lookup_singleton_eq|].
  pose proof (lookup_weaken _ _ _ _ Hm (proj2 HK1)) as Hd1.
  apply (fine_new_nic _ _ n).
  - rewrite Ht1. cbn. rewrite lookup_insert_ne //. congruence.
  - exists idn, (set_master m dn). rewrite Ht1. destruct Hnew as [(_ & Hns & _)|[(_ & Hns & _) Hmv]]; [left|right].
    + by split_and!.
    + split; [by split_and!|exact Hmv].
Qed.

(** ** The whole call *)
Lemma fine_SetupUnderlay params n s :
  underlay_possible (W:=W) params n s → readable (UnderlayParams.VtepIP params) = true →
  nics_movable (UnderlayParams.MainNic params) n s → (size (devs s) + 2 ≤ cap)%nat →
  fine (SetupUnderlay params) s.
Proof.
  intros [Hn Hcv _ [Hne Hnl] Hlo] Hv [(idn & dn & Hnp & Hnew) Hold] Hroom. unfold SetupUnderlay.
  fine_step; [fine_step; eapply fine_can; [apply GetFromName_can|]; by exists n|].
  wpo_step. eapply wpo_sat; [apply GetFromName_law|]. intros ns s1 (_ & n' & Hn' & Hfresh & ->).
  assert (n' = n) as -> by congruence. set (s1 := set_thr _ s). fine_step.
  assert (handles (thr s1) !! ns = Some n) as Hh by (cbn; by rewrite lookup_insert_eq).
  fine_step.
  { eapply (fine_inNamespace _ _ _ n); [apply quiet_setupLoopback|done|]. intros h _. by apply fine_setupLoopback. }
  assert (devs s !! idn = Some dn ∧ dev_name dn = UnderlayParams.MainNic params) as [Hdn Hnn].
  { destruct Hnew as [(?&?&?)|[(?&?&?) _]]; done. }
  apply (wpo_inNamespace _ _ _ n); [apply quiet_setupLoopback|done|]. intros h _. apply wpo_wf. intros Hwf.
  eapply wpo_mono; [apply wpo_wf_post, (wpo_setupLoopback _ _ {[idn := dn]} Hcv Hne)|].
  { intros id d Hd. exact (Hlo id d Hd). }
  { by apply holds_loopback. }
  intros [] s2 (Hwf2 & [Ht2 _] & (idl & dl & Hl & _ & _ & Hls) & Hsame & K1 & HK1 & Hh1) _.
  set (s2' := set_thr (thr s1) s2). apply (fine_moveUnderlayNic _ _ n); [done|]. split.
  - assert (K1 = {[idn := dn]}) as ->.
    { destruct HK1 as [->|(i & e & ex & He & Hen & _)]; [done|].
      apply lookup_singleton_Some in He as [-> ->]. congruence. }
    pose proof (lookup_weaken _ _ _ _ (lookup_singleton_eq idn dn) (proj2 Hh1)) as Hd2.
    exists idn, dn. split; [done|]. destruct Hnew as [(_ & Hns & _)|[(_ & Hns & _) Hmv]]; [left|right].
    + by split_and!.
    + split; [by split_and!|exact Hmv].
  - intros id d Hd Hns Hin Hnm. cbn in Hd.
    destruct (decide (dev_name d = UnderlayLoopback)) as [Heq|Hneq].
    + assert (id = idl) as -> by exact (wf_name _ Hwf2 _ _ _ _ _ _ (conj Hd (conj Hns Heq)) Hl).
      destruct Hl as [Hl _]. assert (d = dl) as -> by congruence. done.
    + exact (Hold id d (Hsame id d Hd Hneq) Hns Hin Hnm).
Qed.
End underlay_progress.
