(* ===== verification/Reload.v ===== *)
(** * Reloading FRR: packages [internal/frrconfig], [cmd/reloader], [internal/logging]

    The controller writes the configuration to a file it shares with the router
    pod and posts a request; the reloader answers it by running FRR's reload
    script on the file, first as a test and then for real. *)

From S2P Require Import Prelude GoStrings.
Local Open Scope Z_scope.

(** ** internal/logging *)
Definition LevelDebug : string := "debug".
Definition LevelInfo : string := "info".
Definition LevelWarn : string := "warn".
Definition LevelError : string := "error".

(** [slog]'s levels are integers; an invalid name comes with the level [Info]. *)
Definition levelToSlog (level : string) : Z * option error :=
  if bool_decide (level = LevelDebug) then (-4, None)
  else if bool_decide (level = LevelInfo) then (0, None)
  else if bool_decide (level = LevelWarn) then (4, None)
  else if bool_decide (level = LevelError) then (8, None)
  else (0, Some (errorf
    "invalid log level %s: possible values are [debug, info, warn, error]" [level])).

(** [New]: the level of the logger that becomes the default. *)
Definition New (level : string) : res Z :=
  match levelToSlog level with
  | (_, Some err) => Err err
  | (logLevel, None) => Ok logLevel
  end.

(** ** The outside: commands, files and HTTP *)
Class Outside (W : Type) := {
  (** [exec.Command(name, args...).CombinedOutput()] *)
  execCommand : string → list string → go W string;
  (** [os.WriteFile] *)
  WriteFile : string → string → Z → go W unit;
  (** [http.Post(url, "", nil)]: the status of the response. *)
  http_Post : string → go W Z }.

Definition Test : string := "test".
Definition Reload : string := "reload".
Definition reloaderPath : string := "/usr/lib/frr/frr-reload.py".

Definition StatusOK : Z := 200.
Definition StatusBadRequest : Z := 400.
Definition StatusInternalServerError : Z := 500.

Section reload.
Context {W : Type} `{Outside W}.

(** ** internal/frrconfig *)
Definition reloadAction (path action : string) : go W unit :=
  let reloadParameter := "--" +:+ action in
  _ ← on_errM (errorw "frr update %s failed: %w" [action])
        (execCommand "python3" [reloaderPath; reloadParameter; path]);
  mret tt.

Definition Update (path : string) : go W unit :=
  _ ← reloadAction path Test;
  reloadAction path Reload.

Definition UpdaterForAddress (address configFile : string) (config : string) : go W unit :=
  _ ← on_errM (λ _, errorf "failed to write the config to %s" [configFile])
        (WriteFile configFile config 384);
  let requestURL := "http://" +:+ address in
  status ← on_errM (errorw "failed to reload against %s: %w" [address]) (http_Post requestURL);
  if status =? StatusOK then mret tt
  else fail (errorf "failed to reload against %s, status %d" [address; Itoa status]).

(** ** cmd/reloader: the status of the response *)
Definition reloadHandler (frrConfigPath method : string) : go W Z :=
  if negb (bool_decide (method = "POST")) then mret StatusBadRequest
  else
    r ← attempt (Update frrConfigPath);
    match r with
    | inl _ => mret StatusOK
    | inr _ => mret StatusInternalServerError
    end.
End reload.

(** ** What is relied on

    [conf_files] is the content of the shared files; [runs] is the log of the commands
    that were run, each with the files it saw and whether it succeeded. *)
Record Run := mkRun {
  run_name : string;
  run_args : list string;
  run_files : gmap string string;
  run_ok : bool }.

Definition succeeded {A} (r : res A) : bool := match r with Ok _ => true | _ => false end.

(** A command only reads the files; what a failed write leaves in the file is not
    specified.  [serves] holds of the addresses where the reloader answers, which
    shares the file with the controller.  A request may fail before or after it was
    served, but a status is the one the reloader answers with. *)
Class OutsideLaws (W : Type) `{Outside W} (serves : string → Prop) (frrConfigPath : string) := {
  conf_files : W → gmap string string;
  runs : W → list Run;
  exec_law name args w r w' :
    execCommand name args w = (r, w') →
    r ≠ Panic ∧ conf_files w' = conf_files w
    ∧ runs w' = runs w ++ [mkRun name args (conf_files w) (succeeded r)];
  write_law path text mode w r w' :
    WriteFile path text mode w = (r, w') →
    r ≠ Panic ∧ runs w' = runs w ∧ (r = Ok tt → conf_files w' = <[path := text]> (conf_files w));
  post_law u w status w' :
    http_Post u w = (Ok status, w') → serves u →
    reloadHandler frrConfigPath "POST" w = (Ok status, w') }.

(** The run of FRR's script for an action. *)
Definition frr_run (path action : string) (fs : gmap string string) (ok : bool) : Run :=
  mkRun "python3" [reloaderPath; "--" +:+ action; path] fs ok.

Section properties.
Context {W : Type} `{OutsideLaws W serves frrConfigPath}.

Lemma reloadAction_run path action w r w' :
  reloadAction path action w = (r, w') →
  r ≠ Panic ∧ conf_files w' = conf_files w
  ∧ runs w' = runs w ++ [frr_run path action (conf_files w) (succeeded r)].
Proof.
  unfold reloadAction, mbind, go_bind, on_errM.
  destruct (execCommand _ _ w) as [r1 w1] eqn:E. apply exec_law in E as (Hp & Hf & Hr).
  destruct r1 as [o|e|]; cbn; [intros [= <- <-]..|done]; by rewrite Hr.
Qed.

Lemma Update_run path w r w' :
  Update path w = (r, w') →
  r ≠ Panic ∧ conf_files w' = conf_files w
  ∧ ∃ tested, runs w' = runs w ++ frr_run path Test (conf_files w) tested ::
        (if tested : bool then [frr_run path Reload (conf_files w) (succeeded r)] else [])
      ∧ (succeeded r = true → tested = true).
Proof.
  unfold Update, mbind, go_bind.
  destruct (reloadAction path Test w) as [r1 w1] eqn:E1.
  apply reloadAction_run in E1 as (Hp1 & Hf1 & Hr1). destruct r1 as [u|e|]; [| |done].
  - intros (Hp2 & Hf2 & Hr2)%reloadAction_run. split_and!; [done|congruence|].
    exists true. by rewrite Hr2 Hr1 Hf1 -app_assoc.
  - intros [= <- <-]. split_and!; [done|done|]. exists false. by rewrite Hr1.
Qed.

Lemma reloadHandler_run path w r w' :
  reloadHandler path "POST" w = (r, w') →
  conf_files w' = conf_files w ∧
  (r = Ok StatusOK → runs w' = runs w ++
     [frr_run path Test (conf_files w) true; frr_run path Reload (conf_files w) true]).
Proof.
  unfold reloadHandler. rewrite bool_decide_true //. unfold mbind, go_bind, attempt. cbn.
  destruct (Update path w) as [r1 w1] eqn:E.
  apply Update_run in E as (Hp & Hf & tested & Hr & Ht).
  destruct r1 as [u|e|]; [| |done]; intros [= <- <-]; (split; [done|]).
  - intros _. by rewrite Hr Ht.
  - intros [= Hc].
Qed.

Lemma UpdaterForAddress_Ok address text w w' :
  serves ("http://" +:+ address) →
  UpdaterForAddress address frrConfigPath text w = (Ok tt, w') →
  conf_files w' !! frrConfigPath = Some text
  ∧ runs w' = runs w ++ [frr_run frrConfigPath Test (conf_files w') true;
                         frr_run frrConfigPath Reload (conf_files w') true].
Proof.
  intros Hserves. unfold UpdaterForAddress. cbv zeta. intros Hr. inv_ok.
  match goal with H : WriteFile _ _ _ _ = (Ok ?u, _) |- _ =>
    destruct u; apply write_law in H as (_ & Hr1 & Hf1) end.
  match goal with H : http_Post _ _ = _ |- _ => apply post_law in H; [|done];
    apply reloadHandler_run in H as [Hf2 Hr2] end.
  case_match eqn:Hs; [|done]. apply Z.eqb_eq in Hs as ->. injection Hr as <-.
  specialize (Hf1 eq_refl). rewrite Hr2 // Hf2 Hr1 Hf1 lookup_insert_eq. by split.
Qed.

(** C26. What updating FRR does: the test of the configuration is always the
    first and the reload is only run after the test succeeded; the update
    succeeds exactly when both did, and it never writes the file. *)
Theorem Update_spec path w r w' :
  Update path w = (r, w') →
  conf_files w' = conf_files w ∧
  ((r = Ok tt ∧ runs w' = runs w ++
      [frr_run path Test (conf_files w) true; frr_run path Reload (conf_files w) true])
   ∨ ((∃ e, r = Err e) ∧
      (runs w' = runs w ++ [frr_run path Test (conf_files w) false]
       ∨ runs w' = runs w ++
           [frr_run path Test (conf_files w) true; frr_run path Reload (conf_files w) false]))).
Proof.
  intros (Hp & Hf & tested & Hr & Ht)%Update_run. split; [done|]. destruct r as [[]|e|]; [| |done].
  - left. by rewrite Hr Ht.
  - right. split; [by exists e|]. destruct tested; auto.
Qed.

(** C17. The way from the controller to FRR: when the updater of an address
    succeeds, the reloader at that address ran FRR's test and then its reload on
    the shared file, both successfully and while the file held exactly the given
    text, and the file still holds it.  When the file cannot be written nothing
    is run. *)
Theorem UpdaterForAddress_applies address text w r w' :
  serves ("http://" +:+ address) →
  UpdaterForAddress address frrConfigPath text w = (r, w') →
  (r = Ok tt →
     conf_files w' !! frrConfigPath = Some text
     ∧ runs w' = runs w ++ [frr_run frrConfigPath Test (conf_files w') true;
                            frr_run frrConfigPath Reload (conf_files w') true])
  ∧ (∀ e w1, WriteFile frrConfigPath text 384 w = (Err e, w1) →
       r = Err (errorf "failed to write the config to %s" [frrConfigPath])
       ∧ runs w' = runs w).
Proof.
  intros Hserves Hrun. split.
  - intros ->. by apply UpdaterForAddress_Ok in Hrun.
  - intros e w1 Hw. unfold UpdaterForAddress, mbind, go_bind, on_errM in Hrun. rewrite Hw in Hrun.
    injection Hrun as <- <-. split; [done|]. by apply write_law in Hw as (_ & -> & _).
Qed.
End properties.

(** ** A concrete outside

    Files and runs as above, and the commands that fail, next to another part of
    the world. *)
Record OS := mkOS {
  os_files : gmap string string;
  os_runs : list Run;
  os_broken : list (list string) }.

Section sim.
Context {V : Type}.

Definition sim_exec (name : string) (args : list string) : go (V * OS) string := λ w,
  let ok := negb (bool_decide (args ∈ os_broken w.2)) in
  (if ok then Ok "" else Err (ExtErr "exit status 1"),
   (w.1, mkOS (os_files w.2) (os_runs w.2 ++ [mkRun name args (os_files w.2) ok]) (os_broken w.2))).
Definition sim_write (path text : string) (_ : Z) : go (V * OS) unit := λ w,
  if bool_decide (path = "") then (Err (ExtErr "no such file or directory"), w)
  else (Ok tt, (w.1, mkOS (<[path := text]> (os_files w.2)) (os_runs w.2) (os_broken w.2))).

(** No request is answered. *)
Definition offline : Outside (V * OS) :=
  {| execCommand := sim_exec; WriteFile := sim_write;
     http_Post _ := fail (ExtErr "connection refused") |}.
(** The reloader answers at [url]. *)
Definition sim_outside (url frrConfigPath : string) : Outside (V * OS) :=
  {| execCommand := sim_exec; WriteFile := sim_write;
     http_Post u := if bool_decide (u = url) then reloadHandler (H:=offline) frrConfigPath "POST"
                    else fail (ExtErr "connection refused") |}.

Definition sim_outside_laws url path : @OutsideLaws (V * OS) (sim_outside url path) (.= url) path.
Proof.
  refine {| conf_files w := os_files w.2; runs w := os_runs w.2 |}.
  - intros name args w r w' [= <- <-]. cbn. by destruct (negb _).
  - intros p text mode w r w'. cbn. unfold sim_write. case_bool_decide; intros [= <- <-]; done.
  - intros u w status w'. cbn. case_bool_decide; [|done]. intros Hr _. exact Hr.
Defined.
End sim.

Definition sample_os : OS := mkOS ∅ [] [].
Definition sample_conf : string := "/etc/perouter/frr/frr.conf".
Definition sample_url : string := "http://10.244.0.5:9080".

Lemma Update_spec_witness :
  let w := (tt, mkOS ∅ [] [[reloaderPath; "--test"; sample_conf]]) in
  let u := Update (H:=sim_outside sample_url sample_conf) sample_conf in
  (∃ e, (u w).1 = Err e) ∧ os_files (u w).2.2 = os_files w.2.
Proof.
  intros w u. split; [eexists; vm_compute; reflexivity|].
  exact (proj1 (Update_spec (H0:=sim_outside_laws sample_url sample_conf) sample_conf w _ _
    (surjective_pairing _))).
Defined.

Lemma UpdaterForAddress_applies_witness :
  let u := UpdaterForAddress (H:=sim_outside sample_url sample_conf) "10.244.0.5:9080" sample_conf
             "log stdout" (tt, sample_os) in
  u.1 = Ok tt ∧ os_files u.2.2 !! sample_conf = Some "log stdout"
  ∧ os_runs u.2.2 = [frr_run sample_conf Test (os_files u.2.2) true;
                     frr_run sample_conf Reload (os_files u.2.2) true].
Proof.
  intros u. split; [vm_compute; reflexivity|].
  refine (proj1 (UpdaterForAddress_applies (H0:=sim_outside_laws sample_url sample_conf)
    "10.244.0.5:9080" "log stdout" (tt, sample_os) _ _ eq_refl (surjective_pairing _)) _).
  vm_compute. reflexivity.
Defined.
