(* ===== verification/Pods.v ===== *)
(** * Package [internal/pods]: the network namespace of the router's pod

    The container runtime is asked for the sandbox of a pod and for the sandbox's
    specification; the network namespace is the one named by the first entry of
    kind network.  The runtime's client (an interface in the source), the gRPC
    dialling and [json.Unmarshal] are parameters. *)

From S2P Require Import Prelude GoStrings.
Local Open Scope Z_scope.

(** ** The runtime's data

    Pointers are options; a nil slice and an empty one are not told apart, which
    the code does not do either. *)
Module LinuxNamespace.
Record t := mk { Type_ : string; Path : string }.
End LinuxNamespace.

Module Linux.
Record t := mk { Namespaces : list LinuxNamespace.t }.
End Linux.

Module RuntimeSpec.
Record t := mk { Linux_ : option Linux.t }.
End RuntimeSpec.

Module PodSandboxStatusInfo.
Record t := mk { RuntimeSpec_ : option RuntimeSpec.t }.
End PodSandboxStatusInfo.

Module PodSandbox.
Record t := mk { Id : string }.
End PodSandbox.

Module PodSandboxStatusRequest.
Record t := mk { PodSandboxId : string; Verbose : bool }.
End PodSandboxStatusRequest.

(** The [Info] map of the response. *)
Module PodSandboxStatusResponse.
Record t := mk { Info : gmap string string }.
End PodSandboxStatusResponse.

Definition InfoKey : string := "info".
(** [runtimespec.NetworkNamespace] and [types.KubernetesPodUIDLabel]. *)
Definition NetworkNamespaceType : string := "network".
Definition KubernetesPodUIDLabel : string := "io.kubernetes.pod.uid".

(** The interface [podSandboxer]; the list request is its label selector. *)
Record podSandboxer (W : Type) := mkPodSandboxer {
  PodSandboxStatus : PodSandboxStatusRequest.t → go W (option PodSandboxStatusResponse.t);
  ListPodSandbox : gmap string string → go W (option (list PodSandbox.t)) }.
Arguments PodSandboxStatus {_} _ _.
Arguments ListPodSandbox {_} _ _.

Record Runtime (W : Type) := mkRuntime { Client : podSandboxer W }.
Arguments Client {_} _.
Arguments mkRuntime {_} _.

(** The loop over the namespaces: the first of kind network is the one. *)
Fixpoint findNetworkNamespace (l : list LinuxNamespace.t) : string :=
  match l with
  | [] => ""
  | namespace :: l =>
      if bool_decide (LinuxNamespace.Type_ namespace ≠ NetworkNamespaceType)
      then findNetworkNamespace l
      else (path_Split (LinuxNamespace.Path namespace)).2
  end.

Definition criServerAddress (criSocketPath : string) : string := "unix://" +:+ criSocketPath.

Section pods.
Context {W : Type}.
Variable json_Unmarshal : string → res PodSandboxStatusInfo.t.

Definition podSandboxID (r : Runtime W) (podUID : string) : go W string :=
  podSandbox ← on_errM (errorw "failed to ListPodSandbox for pod %s: %w" [podUID])
    (ListPodSandbox (Client r) {[ KubernetesPodUIDLabel := podUID ]});
  match podSandbox with
  | None | Some [] => fail (errorf "ListPodSandbox returned 0 item for pod %s" [podUID])
  | Some (_ :: _ :: _) =>
      fail (errorf "ListPodSandbox returned more than 1 item for pod %s" [podUID])
  | Some [item] => mret (PodSandbox.Id item)
  end.

(** A specification without its [Linux] part is dereferenced all the same. *)
Definition sandboxNamespaces (sandboxInfo : PodSandboxStatusInfo.t)
    : res (list LinuxNamespace.t) :=
  match PodSandboxStatusInfo.RuntimeSpec_ sandboxInfo with
  | Some spec =>
      match RuntimeSpec.Linux_ spec with
      | Some linux => Ok (Linux.Namespaces linux)
      | None => Panic
      end
  | None => Panic
  end.

Definition NetworkNamespace (r : Runtime W) (podUID : string) : go W string :=
  podSandboxID ← podSandboxID r podUID;
  podSandboxStatus ← on_errM
    (errorw "failed to PodSandboxStatus for PodSandboxId %s: %w" [podSandboxID])
    (PodSandboxStatus (Client r) (PodSandboxStatusRequest.mk podSandboxID true));
  match podSandboxStatus with
  | None => fail (errorf "failed to PodSandboxStatus for PodSandboxId %s: %w" [podSandboxID])
  | Some status =>
      sandboxInfo ← on_errM (errorw "failed to Unmarshal podSandboxStatus.Info['%s']: %w" [InfoKey])
        (lift (json_Unmarshal (default "" (PodSandboxStatusResponse.Info status !! InfoKey))));
      namespaces ← lift (sandboxNamespaces sandboxInfo);
      let networkNamespace := findNetworkNamespace namespaces in
      if bool_decide (networkNamespace = "")
      then fail (errorf "failed to find network namespace for PodSandboxId %s: %w" [podSandboxID])
      else mret networkNamespace
  end.

(** ** Connecting *)
Variable grpc_DialContext : Z → string → go W (podSandboxer W).

Definition connect (socketPath : string) (timeout : Z) : go W (podSandboxer W) :=
  if bool_decide (socketPath = "") then fail (errorf "endpoint is not set" [])
  else on_errM (λ _, errorf "error connecting to endpoint '%s': %v" [socketPath])
         (grpc_DialContext timeout (criServerAddress socketPath)).

Definition NewRuntime (socketPath : string) (timeout : Z) : go W (Runtime W) :=
  if bool_decide (socketPath = "") then fail (errorf "path to CRI socket missing" [])
  else
    clientConnection ← on_errM (errorw "error establishing connection to CRI: %w" [])
      (connect socketPath timeout);
    mret (mkRuntime clientConnection).
End pods.

(** ** Which namespace it is *)

(** [base] is the part of the path after its last slash. *)
Definition base_name (path base : string) : Prop :=
  no_char "/" base = true ∧ (path = base ∨ ∃ dir, path = dir +:+ String "/" base).

Lemma path_Split_dir s :
  let '(dir, file) := path_Split s in
  s = dir +:+ file ∧ no_char "/" file = true ∧ (dir = "" ∨ ∃ d, dir = d +:+ "/").
Proof.
  induction s as [|a s IH]; [by split_and!; auto|]. cbn.
  destruct (path_Split s) as [dir file]. destruct IH as (-> & Hf & Hdir).
  destruct dir as [|b dir].
  - rewrite string_app_nil. destruct (Ascii.eqb_spec a "/") as [->|Hne].
    + split_and!; [done|done|]. right. by exists "".
    + rewrite no_char_cons Hf. apply Ascii.eqb_neq in Hne. rewrite Hne. by auto.
  - split_and!; [done|done|]. right. destruct Hdir as [?|[d ->]]; [done|]. by exists (String a d).
Qed.

Lemma no_char_app_slash x y : no_char "/" (x +:+ String "/" y) = false.
Proof. rewrite no_char_app no_char_cons /=. apply andb_false_r. Qed.

Lemma last_slash_inj x y f g :
  no_char "/" f = true → no_char "/" g = true →
  x +:+ String "/" f = y +:+ String "/" g → f = g.
Proof.
  intros Hf Hg. revert y. induction x as [|a x IH]; intros [|b y]; rewrite ?string_app_cons
    ?string_app_nil; intros Heq; [by injection Heq|injection Heq as Ha Heq..].
  - by rewrite Heq no_char_app_slash in Hf.
  - by rewrite -Heq no_char_app_slash in Hg.
  - exact (IH y Heq).
Qed.

Lemma path_Split_base s f : (path_Split s).2 = f ↔ base_name s f.
Proof.
  pose proof (path_Split_dir s) as Hs. destruct (path_Split s) as [dir file]. cbn.
  destruct Hs as (-> & Hf & Hdir).
  assert (base_name (dir +:+ file) file) as Hb.
  { split; [done|]. destruct Hdir as [->|[d ->]]; [by left|]. right. exists d.
    by rewrite string_app_assoc. }
  split; [by intros <-|]. destruct Hb as [_ [Hb|[x Hx]]]; intros [Hg [Hb'|[y Hy]]].
  - congruence.
  - exfalso. rewrite Hb in Hy. by rewrite Hy no_char_app_slash in Hf.
  - exfalso. rewrite Hx in Hb'. by rewrite -Hb' no_char_app_slash in Hg.
  - rewrite Hx in Hy. exact (last_slash_inj _ _ _ _ Hf Hg Hy).
Qed.

Lemma findNetworkNamespace_spec l ns :
  ns ≠ "" →
  findNetworkNamespace l = ns ↔
  ∃ l1 n l2, l = l1 ++ n :: l2 ∧ Forall (λ m, LinuxNamespace.Type_ m ≠ NetworkNamespaceType) l1
    ∧ LinuxNamespace.Type_ n = NetworkNamespaceType ∧ base_name (LinuxNamespace.Path n) ns.
Proof.
  intros Hne. induction l as [|m l IH]; cbn.
  { split; [by intros <-|]. by intros ([|] & n & l2 & ? & _). }
  case_bool_decide as Hm.
  - rewrite IH. split.
    + intros (l1 & n & l2 & -> & H1 & H2). exists (m :: l1), n, l2. split; [done|]. split; [by constructor|done].
    + intros ([|m' l1] & n & l2 & Heq & H1 & H2 & H3); simplify_eq/=.
      inversion H1; subst. by exists l1, n, l2.
  - rewrite path_Split_base. split.
    + intros Hb. by exists [], m, l.
    + intros ([|m' l1] & n & l2 & Heq & H1 & H2 & H3); simplify_eq/=; [done|].
      inversion H1; congruence.
Qed.

Section properties.
Context {W : Type}.
Variable json_Unmarshal : string → res PodSandboxStatusInfo.t.
Implicit Types r : Runtime W.

Lemma podSandboxID_Ok r uid w id w' :
  podSandboxID r uid w = (Ok id, w') ↔
  ListPodSandbox (Client r) {[ KubernetesPodUIDLabel := uid ]} w
    = (Ok (Some [PodSandbox.mk id]), w').
Proof.
  unfold podSandboxID. rewrite go_bind_Ok. split.
  - intros (l & w1 & Hl%on_errM_Ok & Hr).
    destruct l as [[|i [|]]|]; inv_ok. by destruct i.
  - intros Hl. eexists _, _. split; [exact (proj2 (on_errM_Ok _ _ _ _ _) Hl)|done].
Qed.

(** What the runtime said about the pod: one sandbox, and this description. *)
Definition described r (uid : string) (w : W) (info : PodSandboxStatusInfo.t) (w' : W) : Prop :=
  ∃ id st w1, ListPodSandbox (Client r) {[ KubernetesPodUIDLabel := uid ]} w
      = (Ok (Some [PodSandbox.mk id]), w1)
    ∧ PodSandboxStatus (Client r) (PodSandboxStatusRequest.mk id true) w1 = (Ok (Some st), w')
    ∧ json_Unmarshal (default "" (PodSandboxStatusResponse.Info st !! InfoKey)) = Ok info.

(** C22. The namespace is found exactly when the runtime has one sandbox for
    the pod and describes it with a list of namespaces whose first entry of kind
    network has a path with a non-empty last component: that component is the
    result. *)
Theorem NetworkNamespace_spec r uid w ns w' :
  NetworkNamespace json_Unmarshal r uid w = (Ok ns, w') ↔
  ns ≠ "" ∧ ∃ l1 n l2,
    described r uid w (PodSandboxStatusInfo.mk (Some (RuntimeSpec.mk (Some
      (Linux.mk (l1 ++ n :: l2)))))) w'
    ∧ Forall (λ m, LinuxNamespace.Type_ m ≠ NetworkNamespaceType) l1
    ∧ LinuxNamespace.Type_ n = NetworkNamespaceType
    ∧ base_name (LinuxNamespace.Path n) ns.
Proof.
  unfold NetworkNamespace. split.
  - intros (id & w1 & Hid%podSandboxID_Ok & ([st|] & w2 & Hst%on_errM_Ok & Hr)%go_bind_Ok)%go_bind_Ok;
      [|done].
    inv_ok. match goal with H : sandboxNamespaces ?i = Ok ?l |- _ =>
      rename l into ls; destruct i as [[[[[linux]|]]|]]; cbn in H; simpl_res end.
    case_bool_decide as Hne; [done|]. injection Hr as <- <-. split; [done|].
    destruct (proj1 (findNetworkNamespace_spec ls _ Hne) eq_refl) as (l1 & n & l2 & -> & Hrest).
    exists l1, n, l2. split; [|exact Hrest]. exists id, st, w1. by split_and!.
  - intros (Hne & l1 & n & l2 & (id & st & w1 & Hid & Hst & Hj) & Hrest).
    apply go_bind_Ok. exists id, w1. split; [by apply podSandboxID_Ok|].
    apply go_bind_Ok. eexists _, w'. split; [exact (proj2 (on_errM_Ok _ _ _ _ _) Hst)|]. cbv beta iota.
    unfold mbind, go_bind, on_errM, lift. rewrite Hj. cbn.
    assert (findNetworkNamespace (l1 ++ n :: l2) = ns) as -> by
      (apply findNetworkNamespace_spec; [done|by exists l1, n, l2]).
    by rewrite bool_decide_false.
Qed.

Ltac not_described :=
  split; [done|]; intros (? & [(? & ? & ? & ? & ? & ?)|(? & ? & ? & ? & ? & ?)]); congruence.

(** When the client and the decoder do not panic themselves, the lookup
    panics exactly when the decoded description has no runtime specification or
    the specification no Linux part: the code follows both pointers unchecked. *)
Theorem NetworkNamespace_panics r uid w :
  (∀ m w, (ListPodSandbox (Client r) m w).1 ≠ Panic) →
  (∀ q w, (PodSandboxStatus (Client r) q w).1 ≠ Panic) →
  (∀ s, json_Unmarshal s ≠ Panic) →
  (NetworkNamespace json_Unmarshal r uid w).1 = Panic ↔
  ∃ w', described r uid w (PodSandboxStatusInfo.mk None) w'
        ∨ described r uid w (PodSandboxStatusInfo.mk (Some (RuntimeSpec.mk None))) w'.
Proof.
  intros Hl Hs Hj. unfold NetworkNamespace, podSandboxID, described.
  specialize (Hl {[ KubernetesPodUIDLabel := uid ]} w). unfold mbind, go_bind, on_errM.
  destruct (ListPodSandbox _ _ w) as [[l|e|] w1]; cbn in *; [|not_described..].
  destruct l as [[|[id] [|? ?]]|]; cbn; [not_described| |not_described..].
  specialize (Hs (PodSandboxStatusRequest.mk id true) w1).
  destruct (PodSandboxStatus _ _ w1) as [[[st|]|e|] w2] eqn:Est; cbn in *; [|not_described..].
  specialize (Hj (default "" (PodSandboxStatusResponse.Info st !! InfoKey))). unfold lift.
  destruct (json_Unmarshal _) as [info|e|] eqn:Ej; cbn in *; [|not_described..].
  destruct info as [[[[[ls]|]]|]]; cbn; [case_bool_decide; not_described| |].
  - split; [|done]. intros _. exists w2. right. exists id, st, w1. by rewrite Ej.
  - split; [|done]. intros _. exists w2. left. exists id, st, w1. by rewrite Ej.
Qed.
End properties.

(** ** A concrete runtime

    One sandbox, whose [Info] carries the given text; the decoder knows three
    texts. *)
Definition sim_unmarshal (s : string) : res PodSandboxStatusInfo.t :=
  if bool_decide (s = "full") then
    Ok (PodSandboxStatusInfo.mk (Some (RuntimeSpec.mk (Some (Linux.mk
      [LinuxNamespace.mk "pid" "";
       LinuxNamespace.mk "network" "/var/run/netns/router"])))))
  else if bool_decide (s = "{}") then Ok (PodSandboxStatusInfo.mk None)
  else Err (ExtErr "unexpected end of JSON input").

Definition sim_runtime (W : Type) (info : string) : Runtime W :=
  mkRuntime {|
    PodSandboxStatus _ := mret (Some (PodSandboxStatusResponse.mk {[ InfoKey := info ]}));
    ListPodSandbox _ := mret (Some [PodSandbox.mk "sandbox"]) |}.

Lemma NetworkNamespace_spec_witness :
  NetworkNamespace sim_unmarshal (sim_runtime unit "full") "uid" tt = (Ok "router", tt)
  ∧ "router" ≠ "".
Proof.
  assert (NetworkNamespace sim_unmarshal (sim_runtime unit "full") "uid" tt = (Ok "router", tt))
    as Hr by (vm_compute; reflexivity).
  split; [exact Hr|]. exact (proj1 (proj1 (NetworkNamespace_spec _ _ _ _ _ _) Hr)).
Defined.

Lemma NetworkNamespace_panics_witness :
  (NetworkNamespace sim_unmarshal (sim_runtime unit "{}") "uid" tt).1 = Panic.
Proof.
  apply (NetworkNamespace_panics sim_unmarshal (sim_runtime unit "{}") "uid" tt).
  - intros m w. discriminate.
  - intros q w. discriminate.
  - intros s. unfold sim_unmarshal. repeat case_bool_decide; discriminate.
  - exists tt. left. unfold described. do 3 eexists. repeat split; vm_compute; reflexivity.
Defined.
