(* ===== verification/Cluster.v ===== *)
(** * What the controller reads from the cluster (package [internal/controller])

    nodes.go, routerpod.go and the parts of controller.go that look at pods: the
    index of a node, the router's pod, its readiness, the filters on events. *)

From stdpp Require sorting.
From Stdlib Require Sorted.
From S2P Require Import Prelude GoStrings Api.
Local Open Scope Z_scope.
Local Notation StronglySorted := Stdlib.Sorting.Sorted.StronglySorted.

(** ** Kubernetes objects, reduced to the fields the code reads *)
Module Node.
(** The creation time is an instant. *)
Record t := mk { Name : string; CreationTimestamp : Z }.
End Node.

Module PodCondition.
Record t := mk { Type_ : string; Status : string }.
End PodCondition.

Module Pod.
Record t := mk {
  Name : string;
  Namespace : string;
  UID : string;
  Labels : gmap string string;
  NodeName : string;
  PodIP : string;
  Conditions : list PodCondition.t }.
End Pod.

#[export] Instance PodCondition_eq_dec : EqDecision PodCondition.t.
Proof. solve_decision. Defined.
#[export] Instance Pod_eq_dec : EqDecision Pod.t.
Proof. solve_decision. Defined.

(** The objects of the events: [client.Object]'s dynamic types. *)
Inductive Object := ONode (n : Node.t) | OPod (p : Pod.t) | OUnderlay (name : string) | OVNI (name : string).

Definition PodReady : string := "Ready".
Definition ContainersReady : string := "ContainersReady".
Definition ConditionTrue : string := "True".
Definition ConditionUnknown : string := "Unknown".

(** ** The standard library's [sort.Slice] and [time.Time.Compare]

    [less] compares two elements of the slice.  The documentation promises the
    same elements in an order where no later one is less than an earlier one, and
    says that equal elements may be reordered. *)
Definition Compare (t u : Z) : Z :=
  match t ?= u with Lt => -1 | Eq => 0 | Gt => 1 end.

Class Sort := sort_Slice : ∀ {A : Type}, (A → A → bool) → list A → list A.
Class SortLaws `{Sort} : Prop := {
  sort_perm {A} (less : A → A → bool) l : sort_Slice less l ≡ₚ l;
  sort_sorted {A} (less : A → A → bool) (key : A → Z) l :
    (∀ x y, less x y = (key x <? key y)) →
    StronglySorted (λ x y, key x ≤ key y) (sort_Slice less l) }.

(** ** Readiness *)
Fixpoint conditionStatus (conditions : list PodCondition.t) (condition : string) : string :=
  match conditions with
  | [] => ConditionUnknown
  | c :: conditions =>
      if bool_decide (PodCondition.Type_ c = condition) then PodCondition.Status c
      else conditionStatus conditions condition
  end.
Definition podConditionStatus (p : option Pod.t) (condition : string) : string :=
  match p with
  | None => ConditionUnknown
  | Some p => conditionStatus (Pod.Conditions p) condition
  end.
Definition PodIsReady (p : option Pod.t) : bool :=
  bool_decide (podConditionStatus p PodReady = ConditionTrue)
  && bool_decide (podConditionStatus p ContainersReady = ConditionTrue).

(** ** The filters on events *)
Definition filterNonRouterPods (MyNode MyNamespace : string) (object : Object) : bool :=
  match object with
  | OPod o =>
      if bool_decide (Pod.NodeName o ≠ MyNode) then false
      else if bool_decide (Pod.Namespace o ≠ MyNamespace) then false
      else bool_decide (default "" (Pod.Labels o !! "app") = "router")
  | _ => true
  end.

(** The type assertion on the old object panics when it is not a pod. *)
Definition filterUpdates (ObjectOld ObjectNew : Object) : res bool :=
  match ObjectNew with
  | ONode _ => Ok false
  | OPod o =>
      match ObjectOld with
      | OPod old => Ok (negb (Bool.eqb (PodIsReady (Some old)) (PodIsReady (Some o))))
      | _ => Panic
      end
  | _ => Ok true
  end.

(** The two filters of [SetupWithManager] on an update: the first is asked about
    the new object. *)
Definition updatePasses (MyNode MyNamespace : string) (ObjectOld ObjectNew : Object) : res bool :=
  if filterNonRouterPods MyNode MyNamespace ObjectNew then filterUpdates ObjectOld ObjectNew
  else Ok false.

Definition nodeNameField : string := "spec.NodeName".

(** The function [setPodNodeNameIndex] registers. *)
Definition podNodeName (rawObj : Object) : list string :=
  match rawObj with
  | OPod pod => if bool_decide (Pod.NodeName pod ≠ "") then [Pod.NodeName pod] else []
  | _ => []
  end.

(** ** The cluster's API: [client.Client.List] at the types the code lists *)
Record client (W : Type) := mkClient {
  List_Nodes : go W (list Node.t);
  (** Labels and fields to match. *)
  List_Pods : gmap string string → gmap string string → go W (list Pod.t);
  List_Underlays : go W (list Underlay.t);
  List_VNIs : go W (list VNI.t) }.
Arguments List_Nodes {_} _.
Arguments List_Pods {_} _ _.
Arguments List_Underlays {_} _.
Arguments List_VNIs {_} _.

Section cluster.
Context {W : Type} `{Sort}.
Implicit Type cli : client W.

(** The loop over the sorted nodes; a node that is not there has index 0. *)
Fixpoint indexOf (node : string) (i : Z) (items : list Node.t) : Z :=
  match items with
  | [] => 0
  | n :: items => if bool_decide (Node.Name n = node) then i else indexOf node (i + 1) items
  end.

Definition older (a b : Node.t) : bool :=
  Compare (Node.CreationTimestamp a) (Node.CreationTimestamp b) <? 0.

Definition nodeIndex cli (node : string) : go W Z :=
  nodes ← on_errM (errorw "failed to list nodes: %w" []) (List_Nodes cli);
  mret (indexOf node 0 (sort_Slice older nodes)).

Definition routerPodForNode cli (node : string) : go W Pod.t :=
  pods ← on_errM (λ _, errorf "failed to get router pod for node %s: %v" [node])
    (List_Pods cli {[ "app" := "router" ]} {[ nodeNameField := node ]});
  match pods with
  | _ :: _ :: _ => fail (errorf "more than one router pod found for node %s" [node])
  | [] => fail (errorf "no router pods found for node %s" [node])
  | [p] => mret p
  end.

Variable IndexField : string → (Object → list string) → go W unit.
Definition setPodNodeNameIndex : go W unit :=
  on_errM (errorw "failed to set node indexer %w" []) (IndexField nodeNameField podNodeName).
End cluster.

(** ** Readiness and filters *)

(** The first condition of the type has the status. *)
Definition first_condition (p : Pod.t) (condition status : string) : Prop :=
  ∃ l1 c l2, Pod.Conditions p = l1 ++ c :: l2
    ∧ Forall (λ d, PodCondition.Type_ d ≠ condition) l1
    ∧ PodCondition.Type_ c = condition ∧ PodCondition.Status c = status.

Lemma conditionStatus_spec l condition status :
  status ≠ ConditionUnknown →
  conditionStatus l condition = status ↔
  ∃ l1 c l2, l = l1 ++ c :: l2 ∧ Forall (λ d, PodCondition.Type_ d ≠ condition) l1
    ∧ PodCondition.Type_ c = condition ∧ PodCondition.Status c = status.
Proof.
  intros Hne. induction l as [|d l IH]; cbn.
  { split; [by intros <-|]. by intros ([|] & c & l2 & ? & _). }
  case_bool_decide as Hd.
  - split; [by exists [], d, l|].
    intros ([|d' l1] & c & l2 & Heq & H1 & H2 & H3); simplify_eq/=; [done|].
    by inversion H1.
  - rewrite IH. split.
    + intros (l1 & c & l2 & -> & H1 & H2). exists (d :: l1), c, l2. split; [done|].
      split; [by constructor|done].
    + intros ([|d' l1] & c & l2 & Heq & H1 & H2 & H3); simplify_eq/=.
      inversion H1; subst. by exists l1, c, l2.
Qed.

(** A pod is ready exactly when its first condition of type [Ready] and its
    first condition of type [ContainersReady] both have the status [True]; no pod
    (a nil pointer) is not ready. *)
Theorem PodIsReady_spec p :
  PodIsReady p = true ↔
  ∃ pod, p = Some pod ∧ first_condition pod PodReady ConditionTrue
    ∧ first_condition pod ContainersReady ConditionTrue.
Proof.
  unfold PodIsReady, first_condition. rewrite andb_true_iff !bool_decide_eq_true.
  destruct p as [pod|]; cbn; [|by split; [intros []|intros (? & ? & _)]].
  rewrite !conditionStatus_spec //. split; [by exists pod|]. by intros (? & [= <-] & ?).
Qed.

(** Which updates wake the controller: every update of an underlay or a VNI,
    no update of a node, and of the pods only the router's on this node and in
    this namespace, when its readiness changed. *)
Theorem updatePasses_spec MyNode MyNamespace old new :
  updatePasses MyNode MyNamespace old new = Ok true ↔
  match new with
  | ONode _ => False
  | OPod p => ∃ q, old = OPod q ∧ Pod.NodeName p = MyNode ∧ Pod.Namespace p = MyNamespace
      ∧ Pod.Labels p !! "app" = Some "router"
      ∧ PodIsReady (Some q) ≠ PodIsReady (Some p)
  | _ => True
  end.
Proof.
  unfold updatePasses. destruct new as [n|p|u|v]; cbn [filterNonRouterPods filterUpdates]; try done.
  repeat case_bool_decide; try (split; [done|by intros (? & ? & ? & ? & Hl & ?); rewrite Hl in H1]);
    try (split; [done|by intros (? & ? & ? & ? & ?)]).
  assert (Pod.Labels p !! "app" = Some "router") as Hl.
  { destruct (Pod.Labels p !! "app"); cbn in *; congruence. }
  destruct old as [n|q|u|v]; try (split; [done|by intros (? & ? & _)]).
  split.
  - intros [= Hb]. exists q. split_and!; [done|tauto..|done|]. intros Heq. rewrite Heq in Hb.
    by destruct (PodIsReady (Some p)).
  - intros (q' & [= <-] & _ & _ & _ & Hne). f_equal. apply negb_true_iff.
    by destruct (PodIsReady (Some q)), (PodIsReady (Some p)).
Qed.

(** ** The index of a node *)

(** How many of the nodes were created before the instant. *)
Definition created_before (t : Z) (l : list Node.t) : Z :=
  Z.of_nat (length (filter (λ m, Node.CreationTimestamp m < t) l)).

Lemma older_key a b :
  older a b = (Node.CreationTimestamp a <? Node.CreationTimestamp b).
Proof. unfold older, Compare, Z.ltb. by destruct (Z.compare (Node.CreationTimestamp a) _). Qed.

Lemma indexOf_absent node i l : node ∉ Node.Name <$> l → indexOf node i l = 0.
Proof.
  revert i; induction l as [|n l IH]; intros i Hin; [done|]; cbn.
  rewrite fmap_cons not_elem_of_cons in Hin. destruct Hin as [Hn Hin].
  rewrite bool_decide_false; [by apply IH|congruence].
Qed.

Lemma indexOf_present node i l1 n l2 :
  Node.Name n = node → node ∉ Node.Name <$> l1 →
  indexOf node i (l1 ++ n :: l2) = i + Z.of_nat (length l1).
Proof.
  intros Hn. revert i; induction l1 as [|m l1 IH]; intros i Hin; cbn.
  - rewrite bool_decide_true //. lia.
  - rewrite fmap_cons not_elem_of_cons in Hin. destruct Hin as [Hm Hin].
    rewrite bool_decide_false; [|congruence]. rewrite IH //. lia.
Qed.

Lemma filter_none {A} (P : A → Prop) `{∀ x, Decision (P x)} (l : list A) :
  Forall (λ x, ¬ P x) l → filter P l = [].
Proof. induction 1 as [|x l Hx _ IH]; [done|]. by rewrite filter_cons_False. Qed.

(** In a sorted list without equal keys, what precedes an element is what is
    smaller. *)
Lemma sorted_prefix {A} (key : A → Z) l1 x l2 :
  StronglySorted (λ a b, key a ≤ key b) (l1 ++ x :: l2) →
  NoDup (key <$> l1 ++ x :: l2) →
  filter (λ m, key m < key x) (l1 ++ x :: l2) = l1.
Proof.
  induction l1 as [|y l1 IH]; cbn [app]; rewrite stdpp.sorting.StronglySorted_cons fmap_cons list.NoDup_cons;
    intros [Hle Hs] [Hy Hnd].
  - rewrite filter_cons_False; [|lia]. apply filter_none.
    eapply Forall_impl; [|exact Hle]. cbn. lia.
  - rewrite filter_cons_True; [by rewrite IH|].
    apply Forall_app in Hle as [_ Hyx]. apply Forall_inv in Hyx. cbn in Hyx.
    assert (key y ≠ key x); [|lia]. intros Heq. apply Hy. rewrite Heq.
    apply list_elem_of_fmap. exists x. split; [done|]. rewrite elem_of_app. right. by left.
Qed.

Lemma NoDup_fmap_key {A B} (f : A → B) (l : list A) x y :
  NoDup (f <$> l) → x ∈ l → y ∈ l → f x = f y → x = y.
Proof.
  induction l as [|z l IH]; [by intros _ ?%elem_of_nil|].
  rewrite fmap_cons list.NoDup_cons !elem_of_cons. intros [Hz Hnd] [->|Hx] [->|Hy] Heq; [done|..].
  - exfalso. apply Hz. rewrite Heq. by apply list_elem_of_fmap_2.
  - exfalso. apply Hz. rewrite -Heq. by apply list_elem_of_fmap_2.
  - by apply IH.
Qed.

Section node_index.
Context {W : Type} `{SortLaws}.
Implicit Type cli : client W.

Lemma nodeIndex_listed cli node w nodes w' :
  List_Nodes cli w = (Ok nodes, w') →
  nodeIndex cli node w = (Ok (indexOf node 0 (sort_Slice older nodes)), w').
Proof. intros Hl. unfold nodeIndex, mbind, go_bind, on_errM. by rewrite Hl. Qed.

Lemma indexOf_sorted nodes n :
  NoDup (Node.Name <$> nodes) → NoDup (Node.CreationTimestamp <$> nodes) → n ∈ nodes →
  indexOf (Node.Name n) 0 (sort_Slice older nodes)
    = created_before (Node.CreationTimestamp n) nodes.
Proof.
  intros Hnames Htimes Hn. pose proof (sort_perm older nodes) as Hp.
  pose proof (sort_sorted older Node.CreationTimestamp nodes older_key) as Hs.
  assert (∀ P `{∀ m : Node.t, Decision (P m)}, length (filter P nodes)
            = length (filter P (sort_Slice older nodes))) as Hfilter.
  { intros P ?. by rewrite Hp. }
  unfold created_before. rewrite Hfilter. clear Hfilter.
  rewrite -Hp in Hnames Htimes Hn. clear Hp.
  apply list_elem_of_split in Hn as (l1 & l2 & Hl). rewrite Hl in Hs Hnames Htimes |- *.
  rewrite indexOf_present //.
  - by rewrite (sorted_prefix Node.CreationTimestamp).
  - rewrite fmap_app fmap_cons list.NoDup_app in Hnames. destruct Hnames as (_ & Hd & _).
    intros Hin. apply (Hd _ Hin). by left.
Qed.

Lemma created_before_lt nodes a b :
  a ∈ nodes → Node.CreationTimestamp a < Node.CreationTimestamp b →
  created_before (Node.CreationTimestamp a) nodes < created_before (Node.CreationTimestamp b) nodes.
Proof.
  intros Ha Hlt. unfold created_before. apply inj_lt.
  apply list_elem_of_split in Ha as (l1 & l2 & ->).
  rewrite !list.filter_app filter_cons_False; [|lia]. rewrite filter_cons_True; [|done].
  assert (∀ l, Nat.le
    (length (filter (λ m, Node.CreationTimestamp m < Node.CreationTimestamp a) l))
    (length (filter (λ m, Node.CreationTimestamp m < Node.CreationTimestamp b) l))) as Hle.
  { intros l. induction l as [|m l IH]; [done|]. rewrite !filter_cons.
    repeat case_decide; cbn; lia. }
  pose proof (Hle l1). pose proof (Hle l2). rewrite !length_app /=. lia.
Qed.

(** C21. The index of a node, when no two nodes share a name or a creation time:
    the number of nodes created before it, whatever order the nodes are listed
    in; a node that is not listed gets 0, the index of the oldest one. *)
Theorem nodeIndex_spec cli node w nodes w' :
  List_Nodes cli w = (Ok nodes, w') →
  NoDup (Node.Name <$> nodes) → NoDup (Node.CreationTimestamp <$> nodes) →
  (∀ n, n ∈ nodes → Node.Name n = node →
     nodeIndex cli node w = (Ok (created_before (Node.CreationTimestamp n) nodes), w'))
  ∧ (node ∉ Node.Name <$> nodes → nodeIndex cli node w = (Ok 0, w')).
Proof.
  intros Hl Hnames Htimes. rewrite (nodeIndex_listed _ _ _ _ _ Hl). split.
  - intros n Hn <-. by rewrite indexOf_sorted.
  - intros Hin. by rewrite indexOf_absent // sort_perm.
Qed.

End node_index.

(** ** The router's pod *)

(** A pod matches when it has the labels and, for each field, the value is among
    those of the function registered for the field. *)
Definition pod_matches (index : string → option (Object → list string))
    (labels fields : gmap string string) (p : Pod.t) : Prop :=
  map_Forall (λ k v, Pod.Labels p !! k = Some v) labels
  ∧ map_Forall (λ k v, match index k with Some f => v ∈ f (OPod p) | None => False end) fields.

(** What listing pods promises: the pods of the cluster that match, no pod of which
    is there twice. *)
Class PodLaws (W : Type) (cli : client W) := {
  cluster_pods : W → list Pod.t;
  pod_index : W → string → option (Object → list string);
  List_Pods_law labels fields w l w' :
    List_Pods cli labels fields w = (Ok l, w') →
    NoDup l ∧ ∀ p, p ∈ l ↔ p ∈ cluster_pods w ∧ pod_matches (pod_index w) labels fields p }.

Section router_pod.
Context {W : Type} {cli : client W} `{!PodLaws W cli}.

(** C25. The pod the controller takes for the router, once [setPodNodeNameIndex]
    has registered its index: the one pod of the cluster that is labelled
    [app: router] and runs on the node.  The namespace is not looked at; when two
    pods qualify there is an error. *)
Theorem routerPodForNode_spec node w p w' :
  node ≠ "" → pod_index w nodeNameField = Some podNodeName →
  routerPodForNode cli node w = (Ok p, w') →
  ∀ q, (q ∈ cluster_pods w ∧ Pod.Labels q !! "app" = Some "router" ∧ Pod.NodeName q = node)
       ↔ q = p.
Proof.
  intros Hnode Hidx Hr q. unfold routerPodForNode in Hr.
  apply go_bind_Ok in Hr as (l & w1 & [Hnd Hl]%on_errM_Ok%List_Pods_law & Hr).
  destruct l as [|p' [|]]; inv_ok. specialize (Hl q). rewrite list_elem_of_singleton in Hl.
  rewrite Hl. unfold pod_matches. rewrite !map_Forall_singleton Hidx.
  cbn [podNodeName]. case_bool_decide; [rewrite list_elem_of_singleton|rewrite elem_of_nil].
  - naive_solver.
  - assert (Pod.NodeName q = "") by tauto. naive_solver.
Qed.
End router_pod.

(** ** Go's insertion sort

    The algorithm [sort.Slice] uses on slices of up to twelve elements: each
    element moves left past the ones it is less than.  The sorted part is kept
    reversed. *)
Fixpoint sink {A} (less : A → A → bool) (x : A) (sorted : list A) : list A :=
  match sorted with
  | [] => [x]
  | y :: sorted => if less x y then y :: sink less x sorted else x :: y :: sorted
  end.
#[export] Instance insertionSort : Sort := λ A less l,
  reverse (foldl (λ sorted x, sink less x sorted) [] l).

Lemma sink_perm {A} (less : A → A → bool) x l : sink less x l ≡ₚ x :: l.
Proof.
  induction l as [|y l IH]; [done|]. cbn. destruct (less x y); [|done].
  rewrite IH. apply Permutation_swap.
Qed.

Lemma sink_sorted {A} (less : A → A → bool) (key : A → Z) x l :
  (∀ x y, less x y = (key x <? key y)) →
  StronglySorted (λ x y, key y ≤ key x) l → StronglySorted (λ x y, key y ≤ key x) (sink less x l).
Proof.
  intros Hless. induction l as [|y l IH]; cbn.
  { intros _. repeat constructor. }
  intros Hs. rewrite Hless. destruct (Z.ltb_spec (key x) (key y)) as [Hlt|Hge].
  - apply stdpp.sorting.StronglySorted_cons in Hs as [Hy Hs].
    apply stdpp.sorting.StronglySorted_cons. split; [|by apply IH].
    rewrite sink_perm. constructor; [lia|done].
  - apply stdpp.sorting.StronglySorted_cons. split; [|done].
    apply stdpp.sorting.StronglySorted_cons in Hs as [Hy Hs]. constructor; [done|].
    eapply Forall_impl; [|exact Hy]. cbn. lia.
Qed.

Lemma StronglySorted_reverse {A} (R : A → A → Prop) l :
  StronglySorted (λ x y, R y x) l → StronglySorted R (reverse l).
Proof.
  induction l as [|x l IH]; [constructor|].
  rewrite stdpp.sorting.StronglySorted_cons reverse_cons. intros [Hx Hs].
  apply stdpp.sorting.StronglySorted_app. split_and!; [|by apply IH|repeat constructor].
  intros y z Hy ->%list_elem_of_singleton. rewrite elem_of_reverse in Hy. rewrite Forall_forall in Hx.
  apply Hx. by apply list_elem_of_In.
Qed.

#[export] Instance insertionSort_laws : SortLaws.
Proof.
  split; unfold sort_Slice, insertionSort; intros A less.
  - intros l. rewrite reverse_Permutation.
    assert (∀ acc, foldl (λ sorted x, sink less x sorted) acc l ≡ₚ l ++ acc) as ->; [|by rewrite app_nil_r].
    induction l as [|x l IH]; intros acc; cbn; [done|].
    by rewrite IH sink_perm Permutation_middle.
  - intros key l Hless. apply StronglySorted_reverse.
    assert (∀ acc, StronglySorted (λ x y, key y ≤ key x) acc →
      StronglySorted (λ x y, key y ≤ key x) (foldl (λ sorted x, sink less x sorted) acc l)) as Hacc.
    { induction l as [|x l IH]; intros acc Ha; cbn; [done|]. apply IH. by apply sink_sorted. }
    apply Hacc. constructor.
Qed.

(** ** A cluster for the witnesses *)
Definition sample_nodes : list Node.t :=
  [Node.mk "worker-b" 1700000600; Node.mk "control" 1700000000; Node.mk "worker-a" 1700000300].
Definition sample_router : Pod.t :=
  Pod.mk "router-x7" "openperouter-system" "a1" {[ "app" := "router" ]} "worker-a" "10.244.0.5"
    [PodCondition.mk PodReady ConditionTrue; PodCondition.mk ContainersReady ConditionTrue].
Definition other_pod : Pod.t :=
  Pod.mk "web" "default" "b2" {[ "app" := "web" ]} "worker-a" "10.244.0.6" [].

(** The pods of the cluster are fixed, and the index is the registered one. *)
Definition sim_pod_index (k : string) : option (Object → list string) :=
  if bool_decide (k = nodeNameField) then Some podNodeName else None.
#[export] Instance pod_matches_dec index labels fields p :
  Decision (pod_matches index labels fields p).
Proof.
  unfold pod_matches. apply and_dec; [apply _|]. apply map_Forall_dec. intros k v.
  destruct (index k); apply _.
Defined.

Definition sim_client (W : Type) (nodes : list Node.t) (pods : list Pod.t)
    (underlays : list Underlay.t) (vnis : list VNI.t) : client W :=
  {| List_Nodes := mret nodes;
     List_Pods labels fields := mret (filter (pod_matches sim_pod_index labels fields) pods);
     List_Underlays := mret underlays;
     List_VNIs := mret vnis |}.

Definition sample_client (W : Type) : client W :=
  sim_client W sample_nodes [other_pod; sample_router] [] [].

#[export] Instance sample_pod_laws W : PodLaws W (sample_client W).
Proof.
  refine {| cluster_pods _ := [other_pod; sample_router]; pod_index _ := sim_pod_index |}.
  intros labels fields w l w' [= <- _]. split.
  - apply list.NoDup_filter. apply (bool_decide_unpack _). vm_compute. exact I.
  - intros p. rewrite list_elem_of_filter. tauto.
Defined.

Lemma nodeIndex_spec_witness :
  (nodeIndex (sample_client unit) "worker-b" tt).1 = Ok 2
  ∧ (nodeIndex (sample_client unit) "gone" tt).1 = Ok 0.
Proof.
  destruct (nodeIndex_spec (sample_client unit) "worker-b" tt sample_nodes tt eq_refl) as [H1 _];
    [apply (bool_decide_unpack _); vm_compute; exact I..|].
  destruct (nodeIndex_spec (sample_client unit) "gone" tt sample_nodes tt eq_refl) as [_ H2];
    [apply (bool_decide_unpack _); vm_compute; exact I..|].
  split.
  - rewrite (H1 (Node.mk "worker-b" 1700000600)); [vm_compute; reflexivity|by left|done].
  - rewrite H2 //. apply (bool_decide_unpack _). vm_compute. exact I.
Defined.

Lemma routerPodForNode_spec_witness :
  (routerPodForNode (sample_client unit) "worker-a" tt).1 = Ok sample_router
  ∧ ∀ q, (q ∈ [other_pod; sample_router] ∧ Pod.Labels q !! "app" = Some "router"
          ∧ Pod.NodeName q = "worker-a") ↔ q = sample_router.
Proof.
  assert (routerPodForNode (sample_client unit) "worker-a" tt = (Ok sample_router, tt)) as Hr
    by (vm_compute; reflexivity).
  split; [by rewrite Hr|].
  exact (routerPodForNode_spec (cli:=sample_client unit) "worker-a" tt sample_router tt
    ltac:(done) eq_refl Hr).
Defined.

(** Creation times have the resolution of a second, and two nodes created in
    the same one are not ordered by them: with the insertion sort [sort.Slice] uses
    on short slices, when the two controllers get the nodes in different orders both
    nodes have index 0. *)
Theorem nodeIndex_ties {W} (cli1 cli2 : client W) a b t w w1 w2 :
  List_Nodes cli1 w = (Ok [Node.mk a t; Node.mk b t], w1) →
  List_Nodes cli2 w = (Ok [Node.mk b t; Node.mk a t], w2) →
  nodeIndex cli1 a w = (Ok 0, w1) ∧ nodeIndex cli2 b w = (Ok 0, w2).
Proof.
  intros H1 H2. rewrite (nodeIndex_listed _ _ _ _ _ H1) (nodeIndex_listed _ _ _ _ _ H2).
  unfold sort_Slice, insertionSort. cbn. rewrite !older_key !Z.ltb_irrefl /=.
  by rewrite !bool_decide_true.
Qed.

Lemma nodeIndex_ties_witness :
  let a := Node.mk "worker-a" 1700000300 in let b := Node.mk "worker-b" 1700000300 in
  nodeIndex (sim_client unit [a; b] [] [] []) "worker-a" tt = (Ok 0, tt)
  ∧ nodeIndex (sim_client unit [b; a] [] [] []) "worker-b" tt = (Ok 0, tt).
Proof. cbv zeta. apply (nodeIndex_ties (W:=unit) _ _ _ _ 1700000300); reflexivity. Defined.
