(* ===== verification/Controller.v ===== *)
(** * Package [internal/controller]: the reconciliation

    frr.go, host_config.go and [Reconcile] of controller.go: what the controller of
    a node does with what it reads from the cluster.  The parts it calls are the
    definitions of Cluster, Conversion, Frr, Reload, Pods, HostNetwork. *)

From S2P Require Import Prelude GoStrings GoNet Api Ipam Frr HostParams Conversion.
From S2P Require Import Netlink Troubles HostLinks NetLogic HostNetwork Reload Pods Cluster.
Local Open Scope Z_scope.

Module frrConfigData.
Record t := mk {
  configFile : string;
  address : string;
  port : Z;
  nodeIndex : Z;
  logLevel : string;
  underlays : list Underlay.t;
  vnis : list VNI.t }.
End frrConfigData.

Module interfacesConfiguration.
Record t (W : Type) := mk {
  RouterPodUUID : string;
  PodRuntime : Runtime W;
  NodeIndex : Z;
  Underlays : list Underlay.t;
  Vnis : list VNI.t }.
Arguments mk {_}.
Arguments RouterPodUUID {_}.
Arguments PodRuntime {_}.
Arguments NodeIndex {_}.
Arguments Underlays {_}.
Arguments Vnis {_}.
End interfacesConfiguration.

(** The scheme and the logger are left out. *)
Module PERouterReconciler.
Record t (W : Type) := mk {
  Client : client W;
  MyNode : string;
  MyNamespace : string;
  FRRConfig : string;
  ReloadPort : Z;
  PodRuntime : option (Runtime W);
  LogLevel : string }.
Arguments mk {_}.
Arguments Client {_}.
Arguments MyNode {_}.
Arguments MyNamespace {_}.
Arguments FRRConfig {_}.
Arguments ReloadPort {_}.
Arguments PodRuntime {_}.
Arguments LogLevel {_}.
End PERouterReconciler.

Section controller.
Context {W : Type} `{Netlink W, Outside W, GoCidr, Sort}.
Variable osHostname : go W string.
Variable json_Unmarshal : string → res PodSandboxStatusInfo.t.

Definition reloadFRRConfig (data : frrConfigData.t) : go W unit :=
  let '(frrConfigData.mk configFile address port nodeIndex logLevel underlays vnis) := data in
  frrConfig ← on_errM (errorw "failed to generate the frr configuration: %w" [])
    (lift (APItoFRR nodeIndex underlays vnis logLevel));
  let url := address +:+ ":" +:+ Itoa port in
  let updater := UpdaterForAddress url configFile in
  on_errM (errorw "failed to update the frr configuration: %w" [])
    (ApplyConfig osHostname frrConfig updater).

Definition configureInterfaces (config : interfacesConfiguration.t W) : go W unit :=
  let '(interfacesConfiguration.mk podUUID runtime nodeIndex underlays vnis) := config in
  targetNS ← on_errM (errorw "failed to retrieve namespace for pod %s: %w" [podUUID])
    (NetworkNamespace json_Unmarshal runtime podUUID);
  '(underlayParams, vnis) ← on_errM (errorw "failed to convert config to host configuration: %w" [])
    (lift (APItoHostConfig nodeIndex targetNS underlays vnis));
  _ ← on_errM (errorw "failed to setup underlay: %w" []) (SetupUnderlay underlayParams);
  forM_ (λ vni, on_errM (errorw "failed to setup vni: %w" []) (SetupVNI vni)) vnis.

Definition Reconcile (r : PERouterReconciler.t W) : go W unit :=
  let cli := PERouterReconciler.Client r in
  nodeIndex ← nodeIndex cli (PERouterReconciler.MyNode r);
  routerPod ← routerPodForNode cli (PERouterReconciler.MyNode r);
  if negb (PodIsReady (Some routerPod)) then mret tt
  else
    underlays ← List_Underlays cli;
    vnis ← List_VNIs cli;
    _ ← reloadFRRConfig
          (frrConfigData.mk (PERouterReconciler.FRRConfig r) (Pod.PodIP routerPod)
             (PERouterReconciler.ReloadPort r) nodeIndex (PERouterReconciler.LogLevel r)
             underlays vnis);
    (* [*r.PodRuntime] *)
    runtime ← lift (match PERouterReconciler.PodRuntime r with Some p => Ok p | None => Panic end);
    configureInterfaces
      (interfacesConfiguration.mk (Pod.UID routerPod) runtime nodeIndex underlays vnis).
End controller.

(** ** What is relied on

    [host_kept]: the devices, the named namespaces and the thread are as before.
    Routes are left out: the routing daemon installs its own. *)
Definition host_kept (s s' : NetState) : Prop := silent s s' ∧ devs s' = devs s.
#[export] Instance host_kept_preorder : PreOrder host_kept.
Proof.
  split; [by intros s|]. intros s1 s2 s3 [[] ?] [[] ?]. split; [split|]; congruence.
Qed.

Section laws.
Context {W : Type} `{View W, OutsideLaws W serves path}.

Definition unseen (w w' : W) : Prop := host_kept (view w) (view w').
(** A read: nothing is run and nothing written either. *)
Definition unread (w w' : W) : Prop :=
  unseen w w' ∧ runs w' = runs w ∧ conf_files w' = conf_files w.

#[export] Instance unseen_preorder : PreOrder unseen.
Proof.
  split; [by intros w; unfold unseen|]. unfold unseen. intros w1 w2 w3. apply transitivity.
Qed.
#[export] Instance unread_preorder : PreOrder unread.
Proof.
  split; [by intros w; split|]. unfold unread, unseen.
  intros w1 w2 w3 (Ha & ? & ?) (Hb & ? & ?). split; [|split; congruence].
  exact (transitivity (R:=host_kept) Ha Hb).
Qed.

(** The cluster's API and the machine's name are only read; commands, files and
    requests leave the host's devices alone. *)
Class Apart (cli : client W) (osHostname : go W string) : Prop := {
  nodes_read : preserves unread (List_Nodes cli);
  pods_read labels fields : preserves unread (List_Pods cli labels fields);
  underlays_read : preserves unread (List_Underlays cli);
  vnis_read : preserves unread (List_VNIs cli);
  hostname_read : preserves unread osHostname;
  exec_apart name args : preserves unseen (execCommand name args);
  write_apart file text mode : preserves unseen (WriteFile file text mode);
  post_apart u : preserves unseen (http_Post u) }.
End laws.

Section properties.
Context {W : Type} `{View W, Netlink W, GoCidr, Sort, OutsideLaws W serves path}.
Context (osHostname : go W string) (json_Unmarshal : string → res PodSandboxStatusInfo.t).
Context (r : PERouterReconciler.t W) `{!Apart (PERouterReconciler.Client r) osHostname}.

Lemma unread_unseen {A} (m : go W A) : preserves unread m → preserves unseen m.
Proof. intros Hm w x w' Hr. exact (proj1 (Hm w x w' Hr)). Qed.

Lemma nodeIndex_read node : preserves unread (nodeIndex (PERouterReconciler.Client r) node).
Proof.
  unfold nodeIndex. apply preserves_bind; [apply _|by apply preserves_on_err, nodes_read|].
  intros. apply preserves_ret, _.
Qed.
Lemma routerPod_read node : preserves unread (routerPodForNode (PERouterReconciler.Client r) node).
Proof.
  unfold routerPodForNode. apply preserves_bind; [apply _|by apply preserves_on_err, pods_read|].
  intros [|? [|]]; (apply preserves_ret || apply preserves_fail); apply _.
Qed.

Lemma reloadFRRConfig_apart data : preserves unseen (reloadFRRConfig osHostname data).
Proof.
  unfold reloadFRRConfig. destruct data as [cf ad po ni ll us vs].
  apply preserves_bind; [apply _|by apply preserves_on_err, preserves_lift, _|]. intros cfg.
  apply preserves_on_err. unfold ApplyConfig, generateAndReloadConfigFile.
  apply preserves_bind; [apply _|apply unread_unseen, hostname_read|]. intros host.
  apply preserves_bind; [apply _|apply preserves_lift, _|]. intros text.
  unfold UpdaterForAddress. apply preserves_bind; [apply _|apply preserves_on_err, write_apart|].
  intros []. apply preserves_bind; [apply _|apply preserves_on_err, post_apart|]. intros st.
  destruct (_ =? _); [apply preserves_ret|apply preserves_fail]; apply _.
Qed.

(** FRR runs the configuration of this data: the text rendered from it is in the
    shared file, and the reloader tested and then reloaded it, successfully. *)
Definition frr_loaded (data : frrConfigData.t) (w w' : W) : Prop :=
  ∃ cfg host text,
    APItoFRR (frrConfigData.nodeIndex data) (frrConfigData.underlays data)
      (frrConfigData.vnis data) (frrConfigData.logLevel data) = Ok cfg
    ∧ templateConfig (Config.mk (Config.Loglevel cfg) host (Config.Underlay cfg)
                        (Config.VNIs cfg)) = Ok text
    ∧ conf_files w' !! path = Some text
    ∧ runs w' = runs w ++ [frr_run path Test (conf_files w') true;
                           frr_run path Reload (conf_files w') true].

Lemma reloadFRRConfig_Ok data w w' :
  frrConfigData.configFile data = path →
  serves ("http://" +:+ (frrConfigData.address data +:+ ":" +:+ Itoa (frrConfigData.port data))) →
  reloadFRRConfig osHostname data w = (Ok tt, w') → frr_loaded data w w'.
Proof.
  destruct data as [cf ad po ni ll us vs]. cbn. intros -> Hs Hr. unfold frr_loaded, ApplyConfig,
    generateAndReloadConfigFile in *. cbn. inv_ok.
  match goal with H : osHostname _ = (Ok ?h, _) |- _ =>
    apply hostname_read in H as (_ & Hruns & _) end.
  match goal with H : UpdaterForAddress _ _ _ _ = _ |- _ =>
    apply UpdaterForAddress_Ok in H as [Hf Hr2]; [|done] end.
  rewrite Hruns in Hr2. do 3 eexists. repeat (split; [eassumption|]). exact Hr2.
Qed.

(** What [Reconcile] hands to the two parts. *)
Definition frr_data (idx : Z) (pod : Pod.t) us vs : frrConfigData.t :=
  frrConfigData.mk (PERouterReconciler.FRRConfig r) (Pod.PodIP pod)
    (PERouterReconciler.ReloadPort r) idx (PERouterReconciler.LogLevel r) us vs.
Definition reload_url (pod : Pod.t) : string :=
  "http://" +:+ (Pod.PodIP pod +:+ ":" +:+ Itoa (PERouterReconciler.ReloadPort r)).

(** The way through the reads, up to the reload. *)
Definition read_all (w : W) (idx : Z) (pod : Pod.t) us vs (w' : W) : Prop :=
  let cli := PERouterReconciler.Client r in
  ∃ w1 w2 w3, nodeIndex cli (PERouterReconciler.MyNode r) w = (Ok idx, w1)
    ∧ routerPodForNode cli (PERouterReconciler.MyNode r) w1 = (Ok pod, w2)
    ∧ PodIsReady (Some pod) = true
    ∧ List_Underlays cli w2 = (Ok us, w3) ∧ List_VNIs cli w3 = (Ok vs, w').

Lemma read_all_unread w idx pod us vs w' : read_all w idx pod us vs w' → unread w w'.
Proof.
  intros (w1 & w2 & w3 & H1'%nodeIndex_read & H2'%routerPod_read & _ & H3'%underlays_read & H4'%vnis_read).
  by etransitivity; [exact H1'|etransitivity; [exact H2'|etransitivity; [exact H3'|exact H4']]].
Qed.

Definition configured (idx : Z) (pod : Pod.t) us vs (w : W) (x : res unit) (w' : W) : Prop :=
  ∃ rt, PERouterReconciler.PodRuntime r = Some rt
    ∧ configureInterfaces json_Unmarshal
        (interfacesConfiguration.mk (Pod.UID pod) rt idx us vs) w = (x, w').

(** The pod that was found is not ready. *)
Definition not_ready (w w' : W) : Prop :=
  let cli := PERouterReconciler.Client r in
  ∃ idx pod w1, nodeIndex cli (PERouterReconciler.MyNode r) w = (Ok idx, w1)
    ∧ routerPodForNode cli (PERouterReconciler.MyNode r) w1 = (Ok pod, w')
    ∧ PodIsReady (Some pod) = false.

(** Splits a bind at its first computation: what follows a failure of it is the
    failure. *)
Lemma go_bind_cases {A B} (m : go W A) (f : A → go W B) w x w' :
  (m ≫= f) w = (x, w') →
  (∃ a w1, m w = (Ok a, w1) ∧ f a w1 = (x, w'))
  ∨ ((∀ b, x ≠ Ok b) ∧ ∃ y, (∀ a, y ≠ Ok a) ∧ m w = (y, w')).
Proof.
  unfold mbind, go_bind. destruct (m w) as [[a|e|] w1]; [by left; eauto|..];
    intros Hr; injection Hr as <- <-; right; (split; [done|]);
    eexists; (split; [|reflexivity]); done.
Qed.

Lemma Reconcile_cases w x w' :
  Reconcile osHostname json_Unmarshal r w = (x, w') →
  (unread w w' ∧ (x = Ok tt → not_ready w w'))
  ∨ ∃ idx pod us vs w1, read_all w idx pod us vs w1 ∧
      ((x ≠ Ok tt ∧ ∃ y, y ≠ Ok tt ∧ reloadFRRConfig osHostname (frr_data idx pod us vs) w1 = (y, w'))
       ∨ ∃ w2, reloadFRRConfig osHostname (frr_data idx pod us vs) w1 = (Ok tt, w2)
           ∧ ((w' = w2 ∧ x = Panic) ∨ configured idx pod us vs w2 x w')).
Proof.
  unfold Reconcile. cbv zeta. intros Hr.
  apply go_bind_cases in Hr as [(idx & w1 & Hidx & Hr)|(Hx & y & _ & Hm)]; cycle 1.
  { left. split; [exact (nodeIndex_read _ _ _ _ Hm)|by intros ->; destruct (Hx tt)]. }
  pose proof (nodeIndex_read _ _ _ _ Hidx) as Hread1.
  apply go_bind_cases in Hr as [(pod & w2 & Hpod & Hr)|(Hx & y & _ & Hm)]; cycle 1.
  { left. split; [exact (transitivity Hread1 (routerPod_read _ _ _ _ Hm))|by intros ->; destruct (Hx tt)]. }
  pose proof (transitivity Hread1 (routerPod_read _ _ _ _ Hpod)) as Hread2.
  destruct (PodIsReady (Some pod)) eqn:Hready; cbn [negb] in Hr; cycle 1.
  { injection Hr as <- <-. left. split; [done|]. intros _. by exists idx, pod, w1. }
  apply go_bind_cases in Hr as [(us & w3 & Hus & Hr)|(Hx & y & _ & Hm)]; cycle 1.
  { left. split; [exact (transitivity Hread2 (underlays_read _ _ _ Hm))|by intros ->; destruct (Hx tt)]. }
  pose proof (transitivity Hread2 (underlays_read _ _ _ Hus)) as Hread3.
  apply go_bind_cases in Hr as [(vs & w4 & Hvs & Hr)|(Hx & y & _ & Hm)]; cycle 1.
  { left. split; [exact (transitivity Hread3 (vnis_read _ _ _ Hm))|by intros ->; destruct (Hx tt)]. }
  right. exists idx, pod, us, vs, w4. split; [by exists w1, w2, w3|].
  apply go_bind_cases in Hr as [([] & w5 & Hload & Hr)|(Hx & y & Hy & Hm)]; cycle 1.
  { left. split; [apply Hx|]. by exists y. }
  right. exists w5. split; [exact Hload|]. unfold configured.
  destruct (PERouterReconciler.PodRuntime r) as [rt|]; cbn in Hr; [by right; exists rt|].
  injection Hr as <- <-. by left.
Qed.

(** C2. The host's network is touched last: whatever [Reconcile] returns, either
    it left the devices, the namespaces and the thread as they were, or FRR had
    loaded the configuration first and what happened to the host is what
    [configureInterfaces] did with the same node index, underlays and VNIs. *)
Theorem Reconcile_order w x w' :
  PERouterReconciler.FRRConfig r = path →
  (∀ w pod w', routerPodForNode (PERouterReconciler.Client r) (PERouterReconciler.MyNode r) w
                 = (Ok pod, w') → serves (reload_url pod)) →
  Reconcile osHostname json_Unmarshal r w = (x, w') →
  host_kept (view w) (view w')
  ∨ ∃ idx pod us vs w1 w2, read_all w idx pod us vs w1
      ∧ frr_loaded (frr_data idx pod us vs) w1 w2 ∧ host_kept (view w) (view w2)
      ∧ configured idx pod us vs w2 x w'.
Proof.
  intros Hpath Hserves [[Hread _]|(idx & pod & us & vs & w1 & Hread & Hrest)]%Reconcile_cases.
  { left. apply Hread. }
  pose proof (proj1 (read_all_unread _ _ _ _ _ _ Hread)) as Hun.
  assert (∀ y w2, reloadFRRConfig osHostname (frr_data idx pod us vs) w1 = (y, w2) →
    host_kept (view w) (view w2)) as Hkept.
  { intros y w2 Hy%reloadFRRConfig_apart. exact (transitivity (R:=host_kept) Hun Hy). }
  destruct Hrest as [(_ & y & _ & Hy)|(w2 & Hload & [[-> _]|Hc])]; [left; exact (Hkept _ _ Hy)
    |left; exact (Hkept _ _ Hload)|].
  right. exists idx, pod, us, vs, w1, w2. split; [done|].
  split; [|split; [exact (Hkept _ _ Hload)|done]].
  apply reloadFRRConfig_Ok; [done| |done]. destruct Hread as (? & ? & ? & _ & Hpod & _).
  exact (Hserves _ _ _ Hpod).
Qed.

(** What [configureInterfaces] does to the host, once it knows the namespace. *)
Definition configureHost (up : UnderlayParams.t) (vps : list VNIParams.t) : go W unit :=
  _ ← on_errM (errorw "failed to setup underlay: %w" []) (SetupUnderlay up);
  forM_ (λ vni, on_errM (errorw "failed to setup vni: %w" []) (SetupVNI vni)) vps.

Lemma forM_on_err {A} g (f : A → go W unit) l w w' :
  forM_ (λ x, on_errM g (f x)) l w = (Ok tt, w') ↔ forM_ f l w = (Ok tt, w').
Proof.
  revert w. induction l as [|y l IH]; intros w; [done|]. cbn [forM_]. rewrite !go_bind_Ok.
  split; intros ([] & w1 & Hy & Hl); exists tt, w1; (split; [|by apply IH]);
    [by apply on_errM_Ok in Hy|by apply on_errM_Ok].
Qed.
Lemma configureHost_Ok up vps w w' :
  configureHost up vps w = (Ok tt, w') ↔
  ∃ w1, SetupUnderlay up w = (Ok tt, w1) ∧ forM_ SetupVNI vps w1 = (Ok tt, w').
Proof.
  unfold configureHost. rewrite go_bind_Ok. split.
  - intros ([] & w1 & Hu%on_errM_Ok & Hv%forM_on_err). by exists w1.
  - intros (w1 & Hu & Hv). exists tt, w1. split; [by apply on_errM_Ok|by apply forM_on_err].
Qed.

Lemma go_bind_run {A B} (m : go W A) (f : A → go W B) w a w1 : m w = (Ok a, w1) → (m ≫= f) w = f a w1.
Proof. unfold mbind, go_bind. by intros ->. Qed.
Lemma configureInterfaces_host uid rt idx us vs w ns up vps w1 :
  NetworkNamespace json_Unmarshal rt uid w = (Ok ns, w1) → APItoHostConfig idx ns us vs = Ok (up, vps) →
  configureInterfaces json_Unmarshal (interfacesConfiguration.mk uid rt idx us vs) w = configureHost up vps w1.
Proof.
  intros Hns Hc. unfold configureInterfaces.
  rewrite (go_bind_run _ _ _ ns w1); [|by apply on_errM_Ok].
  rewrite (go_bind_run _ _ _ (up, vps) w1); [done|]. by apply on_errM_Ok, lift_Ok.
Qed.
Lemma configureInterfaces_cases uid rt idx us vs w x w' :
  configureInterfaces json_Unmarshal (interfacesConfiguration.mk uid rt idx us vs) w = (x, w') →
  (∃ y, NetworkNamespace json_Unmarshal rt uid w = (y, w'))
  ∨ ∃ ns up vps w1, NetworkNamespace json_Unmarshal rt uid w = (Ok ns, w1)
    ∧ APItoHostConfig idx ns us vs = Ok (up, vps) ∧ configureHost up vps w1 = (x, w').
Proof.
  intros Hrun. unfold configureInterfaces in Hrun. apply go_bind_cases in Hrun as [(ns & w1 & Hns%on_errM_Ok & Hrun)|(_ & y & _ & Hm)].
  2: { left. unfold on_errM in Hm. destruct (NetworkNamespace _ _ _ w) as [z w1]. injection Hm as _ <-. by exists z. }
  destruct (APItoHostConfig idx ns us vs) as [[up vps]|e|] eqn:Hconv.
  - right. exists ns, up, vps, w1. split_and!; [done..|exact Hrun].
  - left. exists (Ok ns). by injection Hrun as _ <-.
  - left. exists (Ok ns). by injection Hrun as _ <-.
Qed.
Lemma configureInterfaces_Ok uid rt idx us vs w w' :
  configureInterfaces json_Unmarshal (interfacesConfiguration.mk uid rt idx us vs) w = (Ok tt, w') →
  ∃ ns up vps w1, NetworkNamespace json_Unmarshal rt uid w = (Ok ns, w1)
    ∧ APItoHostConfig idx ns us vs = Ok (up, vps) ∧ configureHost up vps w1 = (Ok tt, w').
Proof.
  unfold configureInterfaces.
  intros (ns & w1 & Hns%on_errM_Ok & ([up vps] & w2 & [Hc ->]%on_errM_Ok%lift_Ok & Hh)%go_bind_Ok)%go_bind_Ok.
  by exists ns, up, vps, w1.
Qed.

(** The way through, up to the host. *)
Lemma Reconcile_run idx pod us vs rt ns up vps w w1 w2 w3 :
  read_all w idx pod us vs w1 → reloadFRRConfig osHostname (frr_data idx pod us vs) w1 = (Ok tt, w2) →
  PERouterReconciler.PodRuntime r = Some rt →
  NetworkNamespace json_Unmarshal rt (Pod.UID pod) w2 = (Ok ns, w3) →
  APItoHostConfig idx ns us vs = Ok (up, vps) →
  Reconcile osHostname json_Unmarshal r w = configureHost up vps w3.
Proof.
  intros (x1 & x2 & x3 & Hidx & Hpod & Hready & Hus & Hvs) Hload Hrt Hns Hconv. unfold Reconcile.
  rewrite (go_bind_run _ _ _ _ _ Hidx) (go_bind_run _ _ _ _ _ Hpod) Hready. cbn [negb].
  rewrite (go_bind_run _ _ _ _ _ Hus) (go_bind_run _ _ _ _ _ Hvs) (go_bind_run _ _ _ _ _ Hload).
  rewrite (go_bind_run _ _ _ rt w2); [|by rewrite Hrt]. by eapply configureInterfaces_host, Hconv.
Qed.

(** What a successful [Reconcile] did: nothing at all when the router's pod
    is not ready; otherwise FRR runs the configuration converted from the listed
    underlay and VNIs, and, the host being as it was, the underlay and every VNI were
    set up, successfully and in order, in the namespace of the pod's sandbox, with
    parameters that agree with FRR's: the same VTEP, and for each VNI the same VRF,
    VNI and session address. *)
Lemma Reconcile_success w w' :
  PERouterReconciler.FRRConfig r = path →
  (∀ w pod w', routerPodForNode (PERouterReconciler.Client r) (PERouterReconciler.MyNode r) w
                 = (Ok pod, w') → serves (reload_url pod)) →
  Reconcile osHostname json_Unmarshal r w = (Ok tt, w') →
  (not_ready w w' ∧ unread w w')
  ∨ ∃ idx pod us vs w1 w2 cfg rt ns up vps w3,
      read_all w idx pod us vs w1
      ∧ reloadFRRConfig osHostname (frr_data idx pod us vs) w1 = (Ok tt, w2)
      ∧ frr_loaded (frr_data idx pod us vs) w1 w2 ∧ host_kept (view w) (view w2)
      ∧ APItoFRR idx us vs (PERouterReconciler.LogLevel r) = Ok cfg
      ∧ PERouterReconciler.PodRuntime r = Some rt
      ∧ NetworkNamespace json_Unmarshal rt (Pod.UID pod) w2 = (Ok ns, w3)
      ∧ APItoHostConfig idx ns us vs = Ok (up, vps)
      ∧ UnderlayParams.VtepIP up = UnderlayConfig.VTEP (Config.Underlay cfg)
      ∧ UnderlayParams.TargetNS up = ns
      ∧ Forall2 (vni_agree ns (UnderlayParams.VtepIP up)) (Config.VNIs cfg) vps
      ∧ configureHost up vps w3 = (Ok tt, w').
Proof.
  intros Hpath Hserves [[Hread Hnr]|(idx & pod & us & vs & w1 & Hread & Hrest)]%Reconcile_cases.
  { left. split; [by apply Hnr|done]. }
  destruct Hrest as [(Hne & _)|(w2 & Hload & [[_ Hp]|Hc])]; [done|done|]. right.
  pose proof (transitivity (R:=host_kept) (proj1 (read_all_unread _ _ _ _ _ _ Hread))
    (reloadFRRConfig_apart _ _ _ _ Hload)) as Hkept.
  assert (frr_loaded (frr_data idx pod us vs) w1 w2) as Hfrr.
  { apply reloadFRRConfig_Ok; [done| |done]. destruct Hread as (? & ? & ? & _ & Hpod & _).
    exact (Hserves _ _ _ Hpod). }
  destruct Hc as (rt & Hrt & (ns & up & vps & w3 & Hns & Hconv & Hh)%configureInterfaces_Ok).
  pose proof Hfrr as (cfg & host & text & Hcfg & _). cbn in Hcfg.
  destruct (conversions_agreement _ ns _ _ _ _ Hcfg) as (up' & vps' & Hconv' & Hvtep & Hns' & Hag).
  rewrite Hconv in Hconv'. injection Hconv' as <- <-.
  exists idx, pod, us, vs, w1, w2, cfg, rt, ns, up, vps, w3. by split_and!.
Qed.
End properties.

