(* ===== verification/Watched.v ===== *)
(** * A reconciliation that is watched

    What the file Troubles writes down, for a whole [Reconcile]: the cluster, the container
    runtime, the commands and the files are asked as before, and somebody watches the
    kernel's calls.  [Reconcile_troubles] is what is written down; it is written down while
    the host is configured, and being watched changes nothing. *)

From S2P Require Import Prelude GoStrings GoNet Api Ipam Frr HostParams Conversion.
From S2P Require Import Netlink Troubles HostLinks NetLogic HostNetwork Twins Detour Reload Pods Cluster Controller.
Local Open Scope Z_scope.

(** ** What is outside, watched *)
Section outside.
Context {W : Type} `{View W}.

#[export] Instance watched_outside `{Outside W} : Outside (watched W) := {|
  execCommand name args := unseen_by (execCommand name args);
  WriteFile file text mode := unseen_by (WriteFile file text mode);
  http_Post u := unseen_by (http_Post u) |}.

Definition watched_client (cli : client W) : client (watched W) :=
  mkClient _ (unseen_by (List_Nodes cli)) (λ labels fields, unseen_by (List_Pods cli labels fields))
    (unseen_by (List_Underlays cli)) (unseen_by (List_VNIs cli)).
Definition watched_runtime (rt : Runtime W) : Runtime (watched W) :=
  mkRuntime (mkPodSandboxer _ (λ request, unseen_by (PodSandboxStatus (Client rt) request))
    (λ selector, unseen_by (ListPodSandbox (Client rt) selector))).
Definition watched_reconciler (r : PERouterReconciler.t W) : PERouterReconciler.t (watched W) :=
  PERouterReconciler.mk (watched_client (PERouterReconciler.Client r)) (PERouterReconciler.MyNode r)
    (PERouterReconciler.MyNamespace r) (PERouterReconciler.FRRConfig r) (PERouterReconciler.ReloadPort r)
    (watched_runtime <$> PERouterReconciler.PodRuntime r) (PERouterReconciler.LogLevel r).

Definition watched_Reconcile `{Netlink W, Outside W, GoCidr, Sort} (osHostname : go W string)
    (json_Unmarshal : string → res PodSandboxStatusInfo.t) (r : PERouterReconciler.t W) : go (watched W) unit :=
  Reconcile (unseen_by osHostname) json_Unmarshal (watched_reconciler r).
Definition Reconcile_troubles `{Netlink W, Outside W, GoCidr, Sort} (osHostname : go W string)
    (json_Unmarshal : string → res PodSandboxStatusInfo.t) (r : PERouterReconciler.t W) (w : W) : list trouble :=
  troubles (watched_Reconcile osHostname json_Unmarshal r) w.
End outside.

(** ** Every part of a reconciliation follows its watched run *)
Lemma follows_configureHost {W1 W2} off R `{Twins W1 W2 off R} up vps :
  follows off R (configureHost up vps) (configureHost up vps).
Proof. unfold configureHost. solve_follows. Qed.
#[export] Hint Resolve follows_configureHost : twins.

Section parts.
Context {W : Type} `{View W, Netlink W, Outside W, GoCidr, Sort}.
Context (R : watched W → W → Prop)
  (Hunseen : ∀ A (m : go W A), follows (λ _, False) R (unseen_by m) m).
Context (osHostname : go W string) (json_Unmarshal : string → res PodSandboxStatusInfo.t).
Context (r : PERouterReconciler.t W).
Notation follows := (follows (λ _, False) R).
Hint Resolve Hunseen : twins.

Lemma follows_nodeIndex cli node : follows (nodeIndex (watched_client cli) node) (nodeIndex cli node).
Proof. unfold nodeIndex, watched_client. cbn. solve_follows. Qed.
Lemma follows_routerPod cli node :
  follows (routerPodForNode (watched_client cli) node) (routerPodForNode cli node).
Proof. unfold routerPodForNode, watched_client. cbn. solve_follows. Qed.
Lemma follows_reload data :
  follows (reloadFRRConfig (unseen_by osHostname) data) (reloadFRRConfig osHostname data).
Proof.
  unfold reloadFRRConfig, ApplyConfig, generateAndReloadConfigFile, UpdaterForAddress. cbn. solve_follows.
Qed.
Lemma follows_NetworkNamespace rt uid :
  follows (NetworkNamespace json_Unmarshal (watched_runtime rt) uid) (NetworkNamespace json_Unmarshal rt uid).
Proof. unfold NetworkNamespace, podSandboxID, watched_runtime. cbn. solve_follows. Qed.
End parts.
#[export] Hint Resolve follows_nodeIndex follows_routerPod follows_reload follows_NetworkNamespace : twins.

Section watched.
Context {W : Type} `{View W, Netlink W, Outside W, GoCidr, Sort}.
Context (osHostname : go W string) (json_Unmarshal : string → res PodSandboxStatusInfo.t).
Context (r : PERouterReconciler.t W).
#[local] Arguments reloadFRRConfig : simpl never.

Lemma follows_value {W1 W2} off (R : W1 → W2 → Prop) {A1 A2 B} a1 a2 (f1 : A1 → go W1 B) (f2 : A2 → go W2 B) :
  follows off R (f1 a1) (f2 a2) → follows off R (lift (Ok a1) ≫= f1) (lift (Ok a2) ≫= f2).
Proof. done. Qed.
Lemma follows_no_value {W1 W2} off (R : W1 → W2 → Prop) {A1 A2 B} (f1 : A1 → go W1 B) (f2 : A2 → go W2 B) :
  follows off R (lift Panic ≫= f1) (lift Panic ≫= f2).
Proof. exact (follows_lift off R Panic Panic eq_refl). Qed.

(** Being watched changes nothing. *)
Definition same_world (x : watched W) (w : W) : Prop := x.1 = w.
Lemma follows_Reconcile :
  follows (λ _, False) same_world (watched_Reconcile osHostname json_Unmarshal r)
    (Reconcile osHostname json_Unmarshal r).
Proof.
  pose proof (watched_twins (W:=W) : Twins (λ _, False) same_world) as Htwins.
  assert (∀ A (m : go W A), follows (λ _, False) same_world (unseen_by m) m) as Hunseen
    by (intros; apply watch_follows).
  unfold watched_Reconcile, Reconcile, configureInterfaces. destruct r as [cli node ns conf port [rt|] level];
    cbn; solve_follows; [apply follows_value; solve_follows|apply follows_no_value].
Qed.
Lemma Reconcile_watched w x w' :
  Reconcile osHostname json_Unmarshal r w = (x, w') →
  watched_Reconcile osHostname json_Unmarshal r (w, [])
    = (x, (w', Reconcile_troubles osHostname json_Unmarshal r w)).
Proof.
  intros Hr. destruct (follows_run _ _ _ _ follows_Reconcile (w, []) w eq_refl) as [[]|[H1' H2']].
  unfold Reconcile_troubles, troubles. rewrite Hr in H1', H2'. unfold same_world in H2'. cbn in H1', H2'.
  by destruct (watched_Reconcile _ _ _ _) as [x1 [w1 l]]; subst.
Qed.

(** Nothing is written down before the host is configured. *)
Definition unnoticed (x : watched W) (w : W) : Prop := x = (w, []).
Lemma unnoticed_run {A} (m1 : go (watched W) A) (m2 : go W A) w x w' :
  follows (λ _, False) unnoticed m1 m2 → m2 w = (x, w') → m1 (w, []) = (x, (w', [])).
Proof.
  intros Hf Hr. destruct (follows_run _ _ _ _ Hf (w, []) w eq_refl) as [[]|[H1' H2']].
  rewrite Hr in H1', H2'. unfold unnoticed in H2'. cbn in H1', H2'. destruct (m1 (w, [])). by cbn in *; subst.
Qed.
Lemma unseen_unnoticed A (m : go W A) : follows (λ _, False) unnoticed (unseen_by m) m.
Proof.
  split; [done|]. intros ? w ->. right. unfold watch. cbn. by destruct (m w).
Qed.

Lemma Reconcile_host idx pod us vs rt ns up vps w w1 w2 w3 :
  read_all r w idx pod us vs w1 →
  reloadFRRConfig osHostname (frr_data r idx pod us vs) w1 = (Ok tt, w2) →
  PERouterReconciler.PodRuntime r = Some rt →
  NetworkNamespace json_Unmarshal rt (Pod.UID pod) w2 = (Ok ns, w3) →
  APItoHostConfig idx ns us vs = Ok (up, vps) →
  Reconcile osHostname json_Unmarshal r w = configureHost up vps w3
  ∧ Reconcile_troubles osHostname json_Unmarshal r w = troubles (configureHost up vps) w3.
Proof.
  intros Hread Hload Hrt Hns Hconv. split; [exact (Reconcile_run _ _ _ _ _ _ _ _ _ _ _ _ _ _ _ Hread Hload Hrt Hns Hconv)|].
  pose proof (λ A m, unseen_unnoticed A m) as Hunseen. unfold troubles, Reconcile_troubles, watched_Reconcile.
  destruct Hread as (x1 & x2 & x3 & Hidx & Hpod & Hready & Hus & Hvs).
  assert (read_all (watched_reconciler r) (w, []) idx pod us vs (w1, [])) as Hread'.
  { exists (x1, []), (x2, []), (x3, []). split_and!; [..|done| |];
      (eapply unnoticed_run; [|eassumption]); [by apply follows_nodeIndex|by apply follows_routerPod|apply Hunseen..]. }
  refine (f_equal (λ x, x.2.2) (Reconcile_run _ _ _ _ _ _ _ (watched_runtime rt) ns up vps _ _ (w2, []) _ Hread' _ _ _ Hconv)).
  - exact (unnoticed_run _ _ _ _ _ (follows_reload _ Hunseen _ _) Hload).
  - cbn. by rewrite Hrt.
  - exact (unnoticed_run _ _ _ _ _ (follows_NetworkNamespace _ Hunseen _ _ _) Hns).
Qed.
End watched.
