(* ===== verification/Outcome.v ===== *)
(** * The node after a reconciliation

    What [configureInterfaces] and [Reconcile] leave: the underlay and all VNIs are
    set up in the final state, next to what FRR was given. *)

From S2P Require Import Prelude GoStrings GoNet Api Ipam Frr HostParams Conversion.
From S2P Require Import Netlink Troubles NetLogic HostLinks LinkSpecs Held Faults Origins VethSpecs SimKernel.
From S2P Require Import HostNetwork HostSpecs Twins Detour VniSpecs Underlay Reload Pods Cluster Controller Watched.
Local Open Scope Z_scope.

(** ** [SetupUnderlay] and the devices of VNIs *)
Section underlay_tame.
Context {W : Type} `{NetlinkLaws W, !Untroubled W}.

Section underlay_account.
Context {b : bool} (R : account) `{!Drops R} (HA : allowed R (mkLink (mkAttrs 0 UnderlayLoopback 0) Dummy)).

Lemma obeys_setupLoopback vtep : assignable (W:=W) R vtep → obeys b R 2 (setupLoopback (W:=W) vtep).
Proof.
  intros Hv. unfold setupLoopback. apply obeys_bind0; [solve_obeys|]. intros found.
  apply (obeys_bind _ 2 0); [|intros l; by apply obeys_assignIP]. destruct found; [solve_obeys|].
  case_match; [|solve_obeys]. apply (obeys_bind _ 2 0); [|solve_obeys].
  by apply obeys_on_err, (obeys_LinkAdd R 0).
Qed.

Lemma reads_findUnderlay ls : reads (findUnderlay (W:=W) ls).
Proof.
  induction ls as [|l ls IH]; cbn [findUnderlay]; [apply reads_ret|].
  apply reads_bind; [apply reads_attempt, reads_AddrList|]. intros _.
  apply reads_bind; [apply reads_interfaceHasIP|]. intros [|]; [apply reads_ret|exact IH].
Qed.
Lemma obeys_findUnderlay ls : obeys b R 0 (findUnderlay (W:=W) ls).
Proof. apply obeys_reads, reads_findUnderlay. Qed.

(** Whatever addresses there are can be given. *)
Hypothesis (Hfree : ∀ a, addressable R a).

Lemma obeys_moveNic nic ns : obeys b R 0 (moveNicToNamespace (W:=W) nic ns).
Proof. unfold moveNicToNamespace, restoreAddress. solve_obeys. Qed.

Lemma obeys_moveUnderlayNic nic ns : obeys b R 0 (moveUnderlayNic (W:=W) nic ns).
Proof.
  unfold moveUnderlayNic, oldUnderlayInterface, removeUnderlayInterface.
  solve_obeys; (apply obeys_findUnderlay || apply (obeys_moveNic) || by apply obeys_assignIP; intros ? _).
Qed.

Lemma obeys_SetupUnderlay params : obeys b R 2 (SetupUnderlay (W:=W) params).
Proof.
  unfold SetupUnderlay. apply obeys_bind0; [solve_obeys|]. intros ns. apply obeys_deferring; [apply reads_Close|].
  apply (obeys_bind _ 2 0); [by apply obeys_inNamespace, obeys_setupLoopback; intros ? _|]. intros _.
  by apply obeys_moveUnderlayNic.
Qed.
End underlay_account.

Lemma tame_SetupUnderlay params : tame [UnderlayLoopback] (SetupUnderlay (W:=W) params).
Proof. apply (tame_any _ 2), (obeys_SetupUnderlay (tamed_account _)); [|done]. apply tamed_allowed. unfold request_names. set_solver. Qed.
Lemma grown_SetupUnderlay params s : wpo (SetupUnderlay (W:=W) params) s (λ _ s', grown 2 s s').
Proof. by apply (obeys_ok grown_account 2), (obeys_SetupUnderlay grown_account); [apply grown_allowed|]. Qed.

Lemma wp_SetupUnderlay_thread params s :
  wp (SetupUnderlay (W:=W) params) s (λ _ s', cur_ns s' = cur_ns s ∧ named s' = named s).
Proof.
  unfold SetupUnderlay. apply wp_bind, wp_on_err. eapply wp_sat; [apply GetFromName_law|].
  intros [ns|e|] s1 [_ Hs1]; cbn [on_err]; [|by subst..]. destruct Hs1 as (n & Hn & Hfresh & ->). set (s1 := set_thr _ s).
  apply wp_deferring. apply (wp_mono _ _ (λ _ s', cur_ns s' = cur_ns s1 ∧ named s' = named s1)).
  2:{ intros x s2 HQ. eapply wp_sat; [apply Close_law|]. by intros ? s3 [_ ->]. }
  apply wp_bind. eapply wp_mono; [apply wp_quiet, quiet_inNamespace, quiet_setupLoopback|].
  intros r s2 [Ht2 Hn2]. destruct r as [u|e|]; [|by rewrite Ht2..].
  eapply wp_sat; [apply sat_moveUnderlayNic|]. intros u' s3 [[Ht3 Hn3]|(h & _ & Ht3 & Hn3)];
    rewrite Ht3 Hn3; cbn; by rewrite Ht2 Hn2.
Qed.
Lemma wpo_SetupUnderlay_thread params s :
  wpo (SetupUnderlay (W:=W) params) s (λ _ s', cur_ns s' = cur_ns s ∧ named s' = named s).
Proof. eapply wp_mono; [apply wp_SetupUnderlay_thread|]. by intros []. Qed.
End underlay_tame.

(** ** Configuring a node *)
Section node.
Context {W : Type} `{NetlinkLaws W, !Untroubled W}.

(** The conditions on the state before, for an underlay and a list of VNIs: those of
    the underlay and of each VNI, names that do not clash, and an underlay interface
    that is neither an end of a veth pair nor a VXLAN. *)
Record node_possible (up : UnderlayParams.t) (vps : list VNIParams.t) (tns : Z) (s : NetState)
    : Prop := {
  node_underlay : underlay_possible up tns s;
  node_vnis : Forall (λ p, vni_possible p tns s) vps;
  node_names : names_free [UnderlayLoopback; UnderlayParams.MainNic up] vps;
  node_nic id d : devs s !! id = Some d → dev_name d = UnderlayParams.MainNic up → plain d }.

Definition node_configured (up : UnderlayParams.t) (vps : list VNIParams.t) (hns tns : Z)
    (s : NetState) : Prop :=
  underlay_set up tns s ∧ Forall (λ p, vni_configured p hns tns s) vps.

Lemma possible_kept p tns s s' : host_kept s s' → vni_possible p tns s → vni_possible p tns s'.
Proof.
  intros [[Ht Hn] Hd] [Hns Hu Hp Ha Hnm]. split; [by rewrite Hn| | |done|done].
  - unfold legs_apart. by rewrite Hd.
  - unfold peer_named. by rewrite Hd.
Qed.

Lemma underlay_possible_kept up tns s s' :
  host_kept s s' → underlay_possible (W:=W) up tns s → underlay_possible (W:=W) up tns s'.
Proof.
  intros [[Ht Hn] Hd] [Hns Hv Hs Ha Hlo]. split; [by rewrite Hn|done..|]. unfold dev_named. by rewrite Hd.
Qed.

Lemma node_possible_kept up vps tns s s' :
  host_kept s s' → node_possible up vps tns s → node_possible up vps tns s'.
Proof.
  intros Hk [Hu Hvs Hf Hnic]. pose proof Hk as [_ Hd]. split.
  - exact (underlay_possible_kept _ _ _ _ Hk Hu).
  - eapply Forall_impl; [|exact Hvs]. intros p. by apply possible_kept.
  - done.
  - by rewrite Hd.
Qed.

(** The underlay's devices are a closed set. *)
Lemma underlay_devices up tns s s1 :
  node_possible up [] tns s → wf s1 → tamed [UnderlayLoopback] s s1 → underlay_set up tns s1 →
  ∃ K idl dl idn dn, holds K s1 ∧ within [UnderlayLoopback; UnderlayParams.MainNic up] K
    ∧ K !! idl = Some dl ∧ dev_ns dl = tns ∧ dev_name dl = UnderlayLoopback
    ∧ UnderlayParams.VtepIP up ∈ dev_addrs dl ∧ plain dl
    ∧ K !! idn = Some dn ∧ dev_ns dn = tns ∧ dev_name dn = UnderlayParams.MainNic up
    ∧ underlayNicSpecialAddr ∈ dev_addrs dn.
Proof.
  intros [[_ _ _ [_ Hne] _] _ _ Hnic] Hwf [_ Hfrom]
    [(idl & dl & (Hdl & Hlns & Hln) & Hlin & Hlpl) (idn & dn & (Hdn & Hnns & Hnn) & Hnin)].
  assert (plain dn) as Hnpl.
  { destruct (Hfrom _ _ Hdn) as [[HA _]|(d0 & Hd0 & Hn0 & _ & Hk0)].
    - apply list_elem_of_singleton in HA. congruence.
    - destruct (Hnic _ _ Hd0) as [Hv Hx]; [congruence|]. unfold plain, is_veth, is_vxlan in *. by rewrite Hk0. }
  pose proof (holds_loopback _ _ _ Hwf Hdl Hlpl) as HK.
  pose proof (holds_plain _ _ _ _ Hwf HK Hdn Hnpl) as HK2.
  exists ({[idl := dl]} ∪ {[idn := dn]}), idl, dl, idn, dn.
  assert (idl ≠ idn) as Hid by congruence.
  split_and!; try done.
  - apply within_union; apply map_Forall_singleton; [rewrite Hln|rewrite Hnn]; set_solver.
  - apply lookup_union_Some_l. by rewrite lookup_singleton_eq.
  - rewrite lookup_union_r; [by rewrite lookup_singleton_eq|by rewrite lookup_singleton_ne].
Qed.

(** [SetupUnderlay] is no obstacle to a VNI. *)
Lemma possible_underlay p tns s s' :
  wf s' → tamed [UnderlayLoopback] s s' → named s' = named s → vni_possible p tns s → vni_possible p tns s'.
Proof.
  intros Hwf Ht Hnm [Hns Hu Hpn Ha Hna]. split; [by rewrite Hnm|by apply Ht| |done|done].
  refine (tamed_peer_named _ _ _ _ Hwf Ht _ Hpn). rewrite list_elem_of_singleton.
  apply not_eq_sym, (device_names_apart _ (VNIParams.VNI p)).
Qed.

Lemma configure_node_steps up vps tns w w1 w' :
  node_possible up vps tns (view w) →
  SetupUnderlay up w = (Ok tt, w1) → forM_ SetupVNI vps w1 = (Ok tt, w') →
  node_configured up vps (cur_ns (view w)) tns (view w').
Proof.
  intros Hp Hup Hvnis. pose proof Hp as [Hpu Hpv Hf Hnic].
  pose proof (wpo_Ok _ _ w tt w1 (wpo_SetupUnderlay up tns _ Hpu) Hup) as Hset.
  pose proof (wpo_Ok _ _ w tt w1 (tame_SetupUnderlay up (view w)) Hup) as Htame.
  destruct (wpo_Ok _ _ w tt w1 (wpo_SetupUnderlay_thread up (view w)) Hup) as [Hcur Hnm].
  destruct (underlay_devices up tns (view w) (view w1)) as
    (K & idl & dl & idn & dn & HK & Hw & Hdl & Hlns & Hln & Hlin & Hlpl & Hdn & Hnns & Hnn & Hnin);
    [by split|apply view_wf|done..|].
  assert (Forall (λ p, vni_possible p tns (view w1)) vps) as Hpv1
    by (eapply Forall_impl; [|exact Hpv]; intros p Hpp; exact (possible_underlay p tns _ _ (view_wf _) Htame Hnm Hpp)).
  destruct (wpo_Ok _ _ w1 tt w' (wpo_SetupVNIs vps tns (view w1) K _ idl dl Hpv1 Hf HK Hw Hdl Hlns Hln) Hvnis)
    as (K' & He & [_ Hs] & Hcfg).
  destruct (He _ _ Hdl) as (ml & Hml & _), (He _ _ Hdn) as (mn & Hmn & _). split; [split|].
  - exists idl, (set_master ml dl). split; [|by split]. split; [exact (lookup_weaken _ _ _ _ Hml Hs)|done].
  - exists idn, (set_master mn dn). split; [|done]. split; [exact (lookup_weaken _ _ _ _ Hmn Hs)|done].
  - rewrite -Hcur. eapply Forall_impl; [|exact Hcfg]. intros p Hc.
    exact (configured_evolves _ _ _ _ _ (subset_evolves _ _ Hs) Hc).
Qed.
Lemma configure_node up vps tns w w' :
  node_possible up vps tns (view w) → configureHost up vps w = (Ok tt, w') →
  node_configured up vps (cur_ns (view w)) tns (view w').
Proof. intros Hp (w1 & Hu & Hv)%configureHost_Ok. by apply (configure_node_steps _ _ _ w w1). Qed.
End node.
Arguments node_possible W {_} up vps tns s.

Lemma detour_node {W F} `{NetlinkLaws W, NetlinkLaws F, !Refuge W F} up vps tns s :
  node_possible W up vps tns s → node_possible (W + F) up vps tns s.
Proof.
  intros [Hu Hv Hn Hp]. split; [by apply detour_underlay| |done..].
  eapply Forall_impl; [|exact Hv]. intros p. apply detour_possible.
Qed.

(** ** The reconciliation *)

(** Asking the container runtime leaves the host's network alone. *)
Class RuntimeApart {W : Type} `{View W} (rt : Runtime W) : Prop := {
  list_apart selector : preserves unseen (ListPodSandbox (Client rt) selector);
  status_apart request : preserves unseen (PodSandboxStatus (Client rt) request) }.

Section outcome.
Context {W : Type} `{NetlinkLaws W, GoCidr, Sort, OutsideLaws W serves path}.
Context (osHostname : go W string) (json_Unmarshal : string → res PodSandboxStatusInfo.t).
Context (r : PERouterReconciler.t W) `{!Apart (PERouterReconciler.Client r) osHostname}.

Lemma NetworkNamespace_apart rt uid `{!RuntimeApart rt} :
  preserves unseen (NetworkNamespace (W:=W) json_Unmarshal rt uid).
Proof.
  unfold NetworkNamespace, podSandboxID.
  repeat first [apply preserves_bind; [apply _| |intros ?] | apply preserves_on_err
    | apply list_apart | apply status_apart | apply preserves_lift, _ | apply preserves_ret, _
    | apply preserves_fail, _ | case_match].
Qed.

(** C1. The node after a successful [Reconcile] whose pod is ready: FRR runs the
    configuration converted from the listed underlay and VNIs, and, when the state
    before allows it, the underlay and every VNI of that configuration are set up in
    the final state, in the namespace of the pod's sandbox: the VTEP address on the
    loopback, the underlay interface, and for each VNI the veth pair with its
    addresses, the VRF, the bridge and the VXLAN over that VTEP.  The state before allows
    it when the router's namespace is there, addresses are written as the kernel prints
    them, names do not clash and what is there already under one of them is of the right
    type, and no router's leg has the index of another device.  What is said of the host
    is said of runs without the troubles the code does not see: no router's leg gets the
    index of another device, every switch of namespace is let through, and looking the
    loopback up fails only when it is not there. *)
Theorem Reconcile_configures tns w w' :
  PERouterReconciler.FRRConfig r = path →
  (∀ w pod w', routerPodForNode (PERouterReconciler.Client r) (PERouterReconciler.MyNode r) w
                 = (Ok pod, w') → serves (reload_url r pod)) →
  (∀ rt, PERouterReconciler.PodRuntime r = Some rt → RuntimeApart rt) →
  Reconcile osHostname json_Unmarshal r w = (Ok tt, w') →
  not_ready r w w'
  ∨ ∃ idx pod us vs w1 w2 cfg rt ns up vps w3,
      read_all r w idx pod us vs w1 ∧ frr_loaded (frr_data r idx pod us vs) w1 w2
      ∧ APItoFRR idx us vs (PERouterReconciler.LogLevel r) = Ok cfg
      ∧ PERouterReconciler.PodRuntime r = Some rt
      ∧ NetworkNamespace json_Unmarshal rt (Pod.UID pod) w2 = (Ok ns, w3)
      ∧ APItoHostConfig idx ns us vs = Ok (up, vps)
      ∧ UnderlayParams.VtepIP up = UnderlayConfig.VTEP (Config.Underlay cfg)
      ∧ Forall2 (vni_agree ns (UnderlayParams.VtepIP up)) (Config.VNIs cfg) vps
      ∧ (node_possible W up vps tns (view w) → Reconcile_troubles osHostname json_Unmarshal r w = [] →
           node_configured up vps (cur_ns (view w)) tns (view w')).
Proof.
  intros Hpath Hserves Hrt Hr.
  destruct (Reconcile_success osHostname json_Unmarshal r w w' Hpath Hserves Hr)
    as [[Hnr _]|(idx & pod & us & vs & w1 & w2 & cfg & rt & ns & up & vps & w3 & Hread & Hload & Hfrr & Hkept
      & Hcfg & Hprt & Hns & Hconv & Hvtep & _ & Hag & Hh)]; [by left|right].
  exists idx, pod, us, vs, w1, w2, cfg, rt, ns, up, vps, w3. split_and!; try done. intros Hpos Ht.
  pose proof (NetworkNamespace_apart rt _ (RuntimeApart0:=Hrt rt Hprt) _ _ _ Hns) as Hkept'.
  pose proof (transitivity (R:=host_kept) Hkept Hkept') as Hk.
  assert (cur_ns (view w) = cur_ns (view w3)) as -> by (destruct Hk as [[-> _] _]; done).
  destruct (Reconcile_host _ _ _ _ _ _ _ _ _ _ _ _ _ _ _ Hread Hload Hprt Hns Hconv) as [_ Hth]. rewrite Hth in Ht.
  by_detour well_formed (λ W (_ : Netlink W), configureHost up vps) Hh Ht.
  exact (configure_node (W:=detoured W well_formed) up vps tns _ _
    (detour_node _ _ _ _ (node_possible_kept _ _ _ _ _ Hk Hpos)) Hh).
Qed.
End outcome.
