(* ===== verification/Fleet.v ===== *)
(** * The cluster as a whole

    The controllers of the nodes run independently, each at its own time, and none of
    them talks to another; the only thing that keeps their VTEP addresses apart is that
    they compute their indexes from the same list of nodes.  The cluster is a state
    machine: nodes join and leave, and the controller of a node configures its router
    from what it lists. *)

From S2P Require Import Prelude GoStrings GoNet Api Ipam Frr Conversion Cluster Controller.
Local Open Scope Z_scope.
Local Notation StronglySorted := Stdlib.Sorting.Sorted.StronglySorted.

(** The nodes there are, the last one that joined first, and the VTEP each router was last
    configured with. *)
Record Fleet := mkFleet { members : list Node.t; announced : gmap string string }.

Section fleet.
Context {W : Type} `{SortLaws, GoCidrLaws}.
Implicit Type cli : client W.

(** The underlay all nodes read. *)
Variable underlay : Underlay.t.

(** A node may join with any creation time.  [removal] says whether nodes may leave. *)
Inductive step (removal : bool) (f : Fleet) : Fleet → Prop :=
  | joins n :
      Node.Name n ∉ Node.Name <$> members f →
      step removal f (mkFleet (n :: members f) (announced f))
  | leaves n l :
      removal = true → members f ≡ₚ n :: l →
      step removal f (mkFleet l (delete (Node.Name n) (announced f)))
  | configures cli w nodes w' name i w'' vnis logLevel c :
      name ∈ Node.Name <$> members f →
      List_Nodes cli w = (Ok nodes, w') → nodes ≡ₚ members f →
      nodeIndex cli name w = (Ok i, w'') →
      APItoFRR i [underlay] vnis logLevel = Ok c →
      step removal f (mkFleet (members f) (<[name := UnderlayConfig.VTEP (Config.Underlay c)]> (announced f))).

(** No node was created before one that joined earlier, nor in the same second. *)
Definition in_turn (f : Fleet) : Prop :=
  StronglySorted (λ n m, Node.CreationTimestamp m < Node.CreationTimestamp n) (members f).

(** Every address that is announced is the one of the node's place among the others. *)
Record in_order (f : Fleet) : Prop := {
  order_names : NoDup (Node.Name <$> members f);
  order_turn : in_turn f;
  order_announced name v : announced f !! name = Some v →
    ∃ n, n ∈ members f ∧ Node.Name n = name
    ∧ VTEPIp (UnderlaySpec.VTEPCIDR (Underlay.Spec underlay))
        (created_before (Node.CreationTimestamp n) (members f)) = Ok v }.

Lemma in_turn_times f : in_turn f → NoDup (Node.CreationTimestamp <$> members f).
Proof.
  unfold in_turn. induction 1 as [|n l _ IH Hn]; [constructor|]. rewrite fmap_cons list.NoDup_cons. split; [|done].
  intros (m & Heq & Hm)%list_elem_of_fmap. rewrite list.Forall_forall in Hn. specialize (Hn m Hm). lia.
Qed.
(** What holds at the end held all the time. *)
Lemma in_turn_before f f' : step false f f' → in_turn f' → in_turn f.
Proof.
  unfold in_turn. destruct 1 as [n Hnew|n l [=]|]; [|done]. cbn.
  by rewrite stdpp.sorting.StronglySorted_cons; intros [_ ?].
Qed.

Lemma created_before_joined n m l :
  Node.CreationTimestamp m < Node.CreationTimestamp n →
  created_before (Node.CreationTimestamp m) (n :: l) = created_before (Node.CreationTimestamp m) l.
Proof. intros Hlt. unfold created_before. rewrite filter_cons_False; [done|lia]. Qed.

(** As long as no node leaves, every step keeps the order. *)
Lemma in_order_step f f' : in_order f → step false f f' → in_turn f' → in_order f'.
Proof.
  intros [Hnames Hturn Hann] Hstep Hturn'.
  destruct Hstep as [n Hnew|n l [=]|cli w nodes w' name i w'' vnis lvl c Hname Hl Hp Hi Hc].
  - split; [cbn [members]; by rewrite fmap_cons list.NoDup_cons|done|].
    unfold in_turn in Hturn'. cbn in Hturn'. apply stdpp.sorting.StronglySorted_cons in Hturn' as [Hlast _].
    rewrite list.Forall_forall in Hlast. intros name v Hv. destruct (Hann name v Hv) as (m & Hm & Hn & Hvtep).
    exists m. split; [by right|]. split; [done|]. cbn. by rewrite created_before_joined; [|apply Hlast].
  - split; [done..|]. cbn [members announced]. intros name' v. rewrite lookup_insert_Some.
    intros [[<- <-]|[_ Hv]]; [|by apply Hann].
    apply list_elem_of_fmap in Hname as (n & -> & Hn). exists n. split; [done|]. split; [done|].
    pose proof (in_turn_times f Hturn) as Htimes.
    rewrite (nodeIndex_listed _ _ _ _ _ Hl) in Hi. injection Hi as <- <-.
    rewrite indexOf_sorted in Hc; [|by rewrite Hp..].
    apply APItoFRR_Ok_inv in Hc as (u & s & ns & vcs & [= <-] & _ & Hs & _ & _ & ->). cbn.
    unfold created_before in Hs |- *. by rewrite Hp in Hs.
Qed.

Lemma in_order_steps f f' : (in_turn f → in_order f) → rtc (step false) f f' → in_turn f' → in_order f'.
Proof.
  intros Hf Hsteps. induction Hsteps as [|f1 f2 f3 Hstep _ IH]; [done|]. apply IH. intros Hturn2.
  pose proof (in_turn_before _ _ Hstep Hturn2) as Hturn1. eauto using in_order_step.
Qed.

(** C12. In every state the cluster can reach by nodes joining and controllers running, in
    any order and each as often as it likes, no two nodes announce the same VTEP: the
    addresses come from one IPv4 pool, and a node keeps its place when others join.  At
    the start nothing is announced and no two nodes share a name, and the nodes join in
    the order of their creation times: none was created before one that was there
    earlier, and no two in the same second, where the code does not tell them apart. *)
Theorem growing_fleet_vteps_distinct f0 f base p a b va vb :
  announced f0 = ∅ → NoDup (Node.Name <$> members f0) → rtc (step false) f0 f → in_turn f →
  v4_pool (UnderlaySpec.VTEPCIDR (Underlay.Spec underlay)) base p →
  Z.of_nat (length (members f)) ≤ int64_max →
  announced f !! a = Some va → announced f !! b = Some vb → a ≠ b → va ≠ vb.
Proof.
  intros Hempty Hnames Hsteps Hturn Hpool Hlen Ha Hb Hne.
  destruct (in_order_steps f0 f) as [_ _ Hann]; [|done..|].
  { intros Hturn0. split; [done|done|]. intros name v. by rewrite Hempty. }
  pose proof (in_turn_times f Hturn) as Htimes.
  destruct (Hann a va Ha) as (na & Hna & <- & Hva), (Hann b vb Hb) as (nb & Hnb & <- & Hvb).
  assert (∀ t, 0 ≤ created_before t (members f) ≤ int64_max) as Hr.
  { intros t. unfold created_before.
    pose proof (list.length_filter (λ m, Node.CreationTimestamp m < t) (members f)). lia. }
  intros <-. pose proof (VTEPIp_injective _ _ _ _ _ _ Hpool (Hr _) (Hr _) Hva Hvb) as Heq.
  assert (Node.CreationTimestamp na ≠ Node.CreationTimestamp nb) as Ht.
  { intros Ht. apply Hne. f_equal. by apply (NoDup_fmap_key Node.CreationTimestamp (members f)). }
  destruct (Z.lt_total (Node.CreationTimestamp na) (Node.CreationTimestamp nb)) as [Hlt|[?|Hlt]];
    [|done|]; apply (created_before_lt (members f)) in Hlt; (done || lia).
Qed.
End fleet.

(** ** Witnesses *)
Definition fleet_nodes : list Node.t :=
  [Node.mk "worker-b" 1700000600; Node.mk "worker-a" 1700000300; Node.mk "control" 1700000000].
Definition sample_fleet : Fleet := mkFleet fleet_nodes ∅.
Definition worker_c : Node.t := Node.mk "worker-c" 1700000900.

Definition list_client (nodes : list Node.t) : client unit := sim_client unit nodes [] [] [].

(** The controller of a node runs, and is told the nodes in the order [nodes]. *)
Definition run_listed (nodes : list Node.t) (name : string) (f : Fleet) : option Fleet :=
  match nodeIndex (list_client nodes) name tt with
  | (Ok i, _) =>
      match APItoFRR i [sample_underlay] [sample_vni] "info" with
      | Ok c => if bool_decide (name ∈ Node.Name <$> members f)
                then Some (mkFleet (members f) (<[name := UnderlayConfig.VTEP (Config.Underlay c)]> (announced f)))
                else None
      | _ => None
      end
  | _ => None
  end.

Definition run_controller (name : string) (f : Fleet) : option Fleet := run_listed (members f) name f.

Lemma run_listed_step removal nodes name f f' :
  nodes ≡ₚ members f → run_listed nodes name f = Some f' → step (W := unit) sample_underlay removal f f'.
Proof.
  intros Hp. unfold run_listed. destruct (nodeIndex _ _ _) as [[i|e|] w''] eqn:Hi; [|done..].
  destruct (APItoFRR _ _ _ _) as [c|e|] eqn:Hc; [|done..]. case_bool_decide as Hin; [|done]. intros [= <-].
  by apply (configures sample_underlay removal f (list_client nodes) tt nodes tt name i w'' [sample_vni] "info" c).
Qed.
Lemma run_controller_step removal name f f' :
  run_controller name f = Some f' → step (W := unit) sample_underlay removal f f'.
Proof. exact (run_listed_step removal (members f) name f f' (Permutation_refl _)). Qed.

(** worker-b's controller runs, worker-c joins, and its controller runs. *)
Definition grown_fleet : Fleet :=
  mkFleet (worker_c :: fleet_nodes)
    (<["worker-c" := "100.65.0.3/32"]> {["worker-b" := "100.65.0.2/32"]}).

Lemma steps_to_grown : rtc (step (W := unit) sample_underlay false) sample_fleet grown_fleet.
Proof.
  apply (rtc_l _ _ (mkFleet fleet_nodes {["worker-b" := "100.65.0.2/32"]})).
  { apply (run_controller_step _ "worker-b"). vm_compute. reflexivity. }
  apply (rtc_l _ _ (mkFleet (worker_c :: fleet_nodes) {["worker-b" := "100.65.0.2/32"]})).
  { refine (joins (W := unit) sample_underlay false (mkFleet fleet_nodes {["worker-b" := "100.65.0.2/32"]}) worker_c _).
    apply (bool_decide_unpack _). vm_compute. exact I. }
  apply rtc_once, (run_controller_step _ "worker-c"). vm_compute. reflexivity.
Qed.

Lemma growing_fleet_vteps_distinct_witness :
  announced grown_fleet !! "worker-b" = Some "100.65.0.2/32"
  ∧ announced grown_fleet !! "worker-c" = Some "100.65.0.3/32"
  ∧ "100.65.0.2/32" ≠ "100.65.0.3/32".
Proof.
  assert (announced grown_fleet !! "worker-b" = Some "100.65.0.2/32") as Hb by (vm_compute; reflexivity).
  assert (announced grown_fleet !! "worker-c" = Some "100.65.0.3/32") as Hc by (vm_compute; reflexivity).
  split; [exact Hb|]. split; [exact Hc|].
  refine (growing_fleet_vteps_distinct (W := unit) sample_underlay sample_fleet grown_fleet _ _
    "worker-b" "worker-c" _ _ eq_refl _ steps_to_grown _ readme_vtep_pool _ Hb Hc _).
  - apply (bool_decide_unpack _). vm_compute. exact I.
  - unfold in_turn. cbn. repeat constructor.
  - unfold int64_max. cbn. lia.
  - discriminate.
Defined.

(** Two nodes that join in the same second can take the same address: each is told the
    nodes in another order, and the code does not say which of the two comes first. *)
Example same_second_clash : ∃ f v,
  rtc (step (W := unit) sample_underlay false) sample_fleet f
  ∧ announced f !! "worker-c" = Some v ∧ announced f !! "worker-d" = Some v.
Proof.
  set (worker_d := Node.mk "worker-d" 1700000900). set (v := "100.65.0.3/32").
  set (nodes := worker_d :: worker_c :: fleet_nodes).
  exists (mkFleet nodes (<["worker-d" := v]> {["worker-c" := v]})), v. split; [|split; vm_compute; reflexivity].
  apply (rtc_l _ _ (mkFleet (worker_c :: fleet_nodes) ∅)).
  { refine (joins (W := unit) sample_underlay false sample_fleet worker_c _).
    apply (bool_decide_unpack _). vm_compute. exact I. }
  apply (rtc_l _ _ (mkFleet nodes ∅)).
  { refine (joins (W := unit) sample_underlay false (mkFleet (worker_c :: fleet_nodes) ∅) worker_d _).
    apply (bool_decide_unpack _). vm_compute. exact I. }
  apply (rtc_l _ _ (mkFleet nodes {["worker-c" := v]})).
  - apply (run_listed_step _ (worker_c :: worker_d :: fleet_nodes) "worker-c"); [apply Permutation_swap|].
    vm_compute. reflexivity.
  - apply rtc_once, (run_listed_step _ nodes "worker-d"); [done|]. vm_compute. reflexivity.
Qed.

(** When a node may leave, two nodes can end with the same address. *)
Example shrinking_fleet_clash : ∃ f v,
  rtc (step (W := unit) sample_underlay true) sample_fleet f
  ∧ announced f !! "worker-b" = Some v ∧ announced f !! "worker-c" = Some v.
Proof.
  set (v := "100.65.0.2/32").
  set (rest := [Node.mk "worker-b" 1700000600; Node.mk "worker-a" 1700000300]).
  exists (mkFleet (worker_c :: rest) (<["worker-c" := v]> (delete "control" {["worker-b" := v]}))), v.
  split; [|split; vm_compute; reflexivity].
  apply (rtc_l _ _ (mkFleet fleet_nodes {["worker-b" := v]})).
  { apply (run_controller_step _ "worker-b"). vm_compute. reflexivity. }
  apply (rtc_l _ _ (mkFleet rest (delete "control" {["worker-b" := v]}))).
  { exact (leaves (W := unit) sample_underlay true (mkFleet fleet_nodes {["worker-b" := v]})
      (Node.mk "control" 1700000000) rest eq_refl (Permutation_app_comm rest [_])). }
  apply (rtc_l _ _ (mkFleet (worker_c :: rest) (delete "control" {["worker-b" := v]}))).
  { refine (joins (W := unit) sample_underlay true (mkFleet rest (delete "control" {["worker-b" := v]})) worker_c _).
    apply (bool_decide_unpack _). vm_compute. exact I. }
  apply rtc_once, (run_controller_step _ "worker-c"). vm_compute. reflexivity.
Qed.
