(* ===== verification/Again.v ===== *)
(** * Reconciling again

    What a reconciliation does on a node that was configured before: where the underlay
    is set up already [SetupUnderlay] changes nothing (Steady.v builds on it), and a VNI
    that was configured stays, also one that is not in the cluster any more. *)

From S2P Require Import Prelude GoStrings GoNet Api Ipam Frr HostParams Conversion.
From S2P Require Import Netlink Troubles NetLogic HostLinks LinkSpecs Held Faults Origins VethSpecs SimKernel.
From S2P Require Import HostNetwork HostSpecs Twins Detour VniSpecs Underlay Reload Pods Cluster Controller Watched Outcome.
Local Open Scope Z_scope.

(** ** The underlay *)
Section underlay_again.
Context {W : Type} `{NetlinkLaws W, !Untroubled W}.

(** The underlay is set up, and its interface is the only one that is marked. *)
Record underlay_settled (params : UnderlayParams.t) (n : Z) (s : NetState) : Prop := {
  settled_set : underlay_set params n s;
  settled_only id d : devs s !! id = Some d → dev_ns d = n → underlayNicSpecialAddr ∈ dev_addrs d →
    dev_name d = UnderlayParams.MainNic params;
  settled_nic : UnderlayParams.MainNic params ≠ "" }.

(** An address that is there is not added. *)
Lemma wpo_assignIP_again l address s id d :
  canonical_addr W address → wf s → devs s !! id = Some d → dev_ns d = cur_ns s → dev_index d = link_index l →
  address ∈ dev_addrs d → wpo (assignIPToInterface (Some l) address) s (λ _ s', s' = s).
Proof.
  intros Hcan Hwf Hd Hns Hi Hin. unfold assignIPToInterface.
  apply wpo_bind, wpo_interfaceHasIP; [done|]. intros id' d' Hat. rewrite -Hi in Hat.
  destruct (dev_at_unique s id d id' d' Hwf Hd Hns Hat) as [-> ->].
  rewrite bool_decide_true; [|done]. by wpo_step.
Qed.

Lemma wpo_setupLoopback_again vtep s id d :
  canonical_addr W vtep →
  dev_named s (cur_ns s) UnderlayLoopback id d → vtep ∈ dev_addrs d →
  wpo (setupLoopback vtep) s (λ _ s', s' = s).
Proof.
  intros Hcan (Hd & Hns & Hn) Hin. unfold setupLoopback. apply wpo_wf. intros Hwf. wpo_step.
  apply wp_attempt. eapply wp_mono; [apply wp_loopback|].
  intros [l|e|] s1 ([-> Hlk] & Hnf); cbn [on_ok]; [| |done].
  - destruct Hlk as (id' & d' & Hd' & Hns' & Hn' & ->). do 2 wpo_step.
    assert (id' = id) as -> by exact (wf_name _ Hwf _ _ _ _ _ _ (conj Hd' (conj Hns' Hn')) (conj Hd (conj Hns Hn))).
    assert (d' = d) as -> by congruence. by apply (wpo_assignIP_again _ _ _ id d).
  - exfalso. exact (Hlk (Hnf e eq_refl) id d Hd Hns Hn).
Qed.

(** The marked interface is found when it is the only one. *)
Lemma wpo_findUnderlay_again links s nic :
  canonical_addr W underlayNicSpecialAddr → wf s →
  (∀ l, l ∈ links → ∃ id d, devs s !! id = Some d ∧ dev_ns d = cur_ns s ∧ l = dev_link d) →
  (∀ id d, devs s !! id = Some d → dev_ns d = cur_ns s → underlayNicSpecialAddr ∈ dev_addrs d → dev_name d = nic) →
  (∃ id d, devs s !! id = Some d ∧ dev_ns d = cur_ns s ∧ underlayNicSpecialAddr ∈ dev_addrs d ∧ dev_link d ∈ links) →
  wpo (findUnderlay links) s (λ name s', s' = s ∧ name = nic).
Proof.
  intros Hcan Hwf. induction links as [|l links IH]; intros Hls Honly (idn & dn & Hdn & Hnns & Hin & Hl).
  { by apply elem_of_nil in Hl. }
  cbn [findUnderlay]. wpo_step. apply wp_attempt. eapply wp_sat; [apply AddrList_law|].
  destruct (Hls l) as (id' & d' & Hd' & Hns' & ->); [by left|].
  assert (wpo (hasIP ← interfaceHasIP (Some (dev_link d')) underlayNicSpecialAddr;
      if hasIP : bool then mret (dev_name d') else findUnderlay links) s
    (λ name s', s' = s ∧ name = nic)) as Hrest.
  { wpo_step. apply wpo_interfaceHasIP; [done|]. intros id d Hat.
    destruct (dev_at_unique s id' d' id d Hwf Hd' Hns' Hat) as [-> ->].
    case_bool_decide as Hin'; [wpo_step; split; [done|exact (Honly _ _ Hd' Hns' Hin')]|].
    apply IH; [intros l' Hl'; apply Hls; by right|done|]. exists idn, dn. split_and!; try done.
    apply elem_of_cons in Hl as [Heq|Hl]; [|done]. exfalso. apply Hin'.
    assert (idn = id') as ->; [|congruence].
    apply (wf_index _ Hwf (cur_ns s) (dev_index d') idn dn id' d'); split_and!; try done. by rewrite Heq. }
  intros [as_|e|] s1 [-> _]; [exact Hrest|exact Hrest|done].
Qed.

(** A second [SetupUnderlay] leaves every device as it is. *)
Lemma wpo_SetupUnderlay_again params n s :
  underlay_possible params n s → underlay_settled params n s →
  wpo (SetupUnderlay params) s (λ _ s', devs s' = devs s).
Proof.
  intros [Hn Hcv Hcs _ _] [[(idl & dl & Hl & Hvtep & _) (idn & dn & (Hdn & Hnns & Hnn) & Hsp)] Honly Hnic].
  unfold SetupUnderlay. do 2 wpo_step. eapply wpo_sat; [apply GetFromName_law|].
  intros ns s1 (_ & n' & Hn' & Hfresh & Hs1). assert (n' = n) as -> by congruence.
  assert (handles (thr s1) !! ns = Some n ∧ devs s1 = devs s) as [Hh Hd1].
  { subst s1. cbn. by rewrite lookup_insert_eq. }
  apply wp_deferring. apply (wp_mono _ _ (on_ok (λ _ s', devs s' = devs s))).
  2:{ intros r s2 HQ. eapply wp_sat; [apply Close_law|]. intros ? s3 [_ ->]. by destruct r. }
  wpo_step. apply (wpo_inNamespace _ _ _ n); [apply quiet_setupLoopback|done|]. intros h _.
  eapply wpo_mono; [apply (wpo_setupLoopback_again _ _ idl dl); [done| |done]|].
  { unfold dev_named. cbn. rewrite Hd1. exact Hl. }
  intros [] s2 -> _. rewrite set_thr_enter. unfold moveUnderlayNic, oldUnderlayInterface. do 2 wpo_step.
  apply (wpo_inNamespace _ _ _ n); [|done|].
  { apply quiet_bind; [solve_quiet|]. intros ls. apply quiet_findUnderlay. }
  intros h' _. do 2 wpo_step. apply wpo_wf. intros Hwf. eapply wpo_sat; [apply LinkList_law|].
  intros ls s3 (-> & _ & Hls). eapply wpo_mono.
  { apply (wpo_findUnderlay_again ls _ (UnderlayParams.MainNic params)); [done|done|..].
    - intros l Hl'. exact (proj1 (Hls ls eq_refl l) Hl').
    - cbn. rewrite Hd1. exact Honly.
    - exists idn, dn. cbn. rewrite Hd1. split_and!; try done. apply (Hls ls eq_refl). exists idn, dn.
      cbn. by rewrite Hd1. }
  intros name s4 [-> ->] _. rewrite set_thr_enter (bool_decide_true _ Hnic) bool_decide_true; [|done].
  cbn [andb]. wpo_step. exact Hd1.
Qed.
End underlay_again.

(** ** The devices of a configured VNI *)
Section vni_again.
Context {W : Type} `{NetlinkLaws W, !Untroubled W}.

Lemma sub_value (K m : gmap positive Dev) id d :
  K ⊆ m → m !! id = Some d → is_Some (K !! id) → K !! id = Some d.
Proof. intros Hs Hd [d' Hd']. pose proof (lookup_weaken _ _ _ _ Hd' Hs). congruence. Qed.
Lemma veth_peered s id d idp dp : wf s → devs s !! id = Some d → devs s !! idp = Some dp →
  dev_peer d = Some idp → dev_peer dp = Some id ∧ is_vxlan (dev_link d) = false ∧ is_vxlan (dev_link dp) = false.
Proof.
  intros Hwf Hd Hdp Hp. destruct (wf_peer _ Hwf _ _ _ _ Hd Hdp Hp) as [Hp' _].
  pose proof (wf_peer_veth _ Hwf _ _ Hd) as Hv. pose proof (wf_peer_veth _ Hwf _ _ Hdp) as Hv'.
  rewrite Hp in Hv. rewrite Hp' in Hv'. specialize (Hv ltac:(done)). specialize (Hv' ltac:(done)).
  unfold is_veth, is_vxlan in *. split; [done|]. by destruct (Kind (dev_link d)), (Kind (dev_link dp)).
Qed.

(** The devices of a configured VNI, with the loopback, are a closed set. *)
Lemma configured_held params hns tns s :
  wf s → (∀ id d, dev_named s tns UnderlayLoopback id d → plain d) → vni_configured params hns tns s →
  ∃ K idl dl, holds K s ∧ within (vni_names params ++ [UnderlayLoopback]) K ∧ configured_in params hns tns K
    ∧ K !! idl = Some dl ∧ dev_ns dl = tns ∧ dev_name dl = UnderlayLoopback.
Proof.
  intros Hwf Hlo [(idh & dh & idp & dp & idv & dv & Hh & Hhns & Hhn & Hhup & Hha & Hhp & Hp & Hpns & Hpn & Hpup
      & Hpa & Hv & Hvns & Hvn & Hvk & Hvup & Hpm)
    (idb & db & idx & dx & idl & dl & Hb & Hbns & Hbn & Hbk & Hbup & Hbg & Hl & Hlns & Hln & Hx & Hxns & Hxn
      & Hxk & Hxup & Hxg & Hxs)].
  destruct (veth_peered s idh dh idp dp Hwf Hh Hp Hhp) as (Hpp & Hhx & Hpx).
  assert (plain dl) as Hlpl by by apply (Hlo idl).
  assert (holds (({[idl := dl]} ∪ {[idv := dv]}) ∪ {[idb := db]}) s) as H3.
  { apply holds_plain; [done|apply holds_plain; [done|by apply holds_loopback|done|by apply plain_of_vrf]|done|].
    by apply plain_of_bridge. }
  set (K3 := ({[idl := dl]} ∪ {[idv := dv]}) ∪ {[idb := db]}) in *.
  set (L := {[idh := dh]} ∪ {[idp := dp]} : gmap positive Dev).
  assert (is_Some ((K3 ∪ L) !! idh) ∧ is_Some ((K3 ∪ L) !! idp)) as [Hi1 Hi2].
  { unfold L. rewrite !lookup_union_is_Some !lookup_singleton_is_Some. tauto. }
  assert (holds (K3 ∪ L) s) as H4.
  { apply holds_union; [done| |].
    - apply map_union_least; by apply map_singleton_subseteq_l.
    - apply map_Forall_union_2; apply map_Forall_singleton; split; try by apply unbased.
      + intros i. rewrite Hhp. by intros [= <-].
      + intros i. rewrite Hpp. by intros [= <-]. }
  exists (K3 ∪ L ∪ {[idx := dx]}), idl, dl.
  assert (∀ id, id = idl ∨ id = idv ∨ id = idb ∨ id = idh ∨ id = idp ∨ id = idx →
    is_Some ((K3 ∪ L ∪ {[idx := dx]}) !! id)) as Hall.
  { intros id Hid. unfold K3, L. rewrite !lookup_union_is_Some !lookup_singleton_is_Some.
    naive_solver. }
  assert (K3 ∪ L ∪ {[idx := dx]} ⊆ devs s) as Hsub.
  { apply map_union_least; [apply H4|by apply map_singleton_subseteq_l]. }
  destruct (based_vxlan (K3 ∪ L ∪ {[idx := dx]}) dx idl dl _ _ params Hxk) as [Hbased Hnv];
    [apply (sub_value _ _ _ _ Hsub Hl), Hall; tauto|done|congruence|].
  assert (∀ id d, devs s !! id = Some d → (id = idl ∨ id = idv ∨ id = idb ∨ id = idh ∨ id = idp ∨ id = idx) →
    (K3 ∪ L ∪ {[idx := dx]}) !! id = Some d) as HK.
  { intros id d Hd Hid. apply (sub_value _ _ _ _ Hsub Hd), Hall, Hid. }
  split_and!; [| |split|by apply HK; [|left]|done..].
  - apply holds_union; [done|by apply map_singleton_subseteq_l|]. apply map_Forall_singleton.
    split; [|done]. intros i Hpi. rewrite (wf_peer_veth _ Hwf _ _ Hx) in Hnv; [done|congruence].
  - unfold K3, L, vni_names. repeat apply within_union; apply map_Forall_singleton;
      rewrite ?Hln ?Hvn ?Hbn ?Hhn ?Hpn ?Hxn !elem_of_cons; tauto.
  - exists idh, dh, idp, dp, idv, dv. split_and!; try done; apply HK; tauto.
  - exists idb, db, idx, dx, idl, dl. split_and!; try done; apply HK; tauto.
Qed.
End vni_again.

(** ** A reconciliation of a node that was configured before *)
Section node_again.
Context {W : Type} `{NetlinkLaws W, !Untroubled W}.

(** More addresses on the loopback are no harm. *)
Lemma configured_addressed params hns tns vtep K K' :
  VNIParams.VRF params ≠ UnderlayLoopback → addressed vtep K K' →
  configured_in params hns tns K → configured_in params hns tns K'.
Proof.
  intros Hvl [->|(id & d & ex & Hd & Hn & _ & ->)]; [done|].
  destruct (device_names_apart (VNIParams.VRF params) (VNIParams.VNI params))
    as (_ & _ & _ & _ & Hbl & _ & _ & _ & Hxl & Hl1 & Hl2).
  assert (∀ i e, K !! i = Some e → dev_name e ≠ UnderlayLoopback →
    <[id := set_addrs (dev_addrs d ++ ex) d]> K !! i = Some e) as Hk.
  { intros i e He Hne. rewrite lookup_insert_ne; [done|]. intros <-. congruence. }
  intros [(idh & dh & idp & dp & idv & dv & Hh & Hhns & Hhn & Hhup & Hha & Hhp & Hp & Hpns & Hpn & Hpup
      & Hpa & Hv & Hvns & Hvn & Hvk & Hvup & Hpm)
    (idb & db & idx & dx & idl & dl & Hb & Hbns & Hbn & Hbk & Hbup & Hbg & Hl & Hlns & Hln & Hx & Hxns & Hxn
      & Hxk & Hxup & Hxg & Hxs)]. split.
  - exists idh, dh, idp, dp, idv, dv. split_and!; try done; apply Hk; congruence.
  - destruct (decide (idl = id)) as [->|Hne].
    + assert (dl = d) as -> by congruence. exists idb, db, idx, dx, id, (set_addrs (dev_addrs d ++ ex) d).
      rewrite lookup_insert_eq. split_and!; try done; apply Hk; congruence.
    + exists idb, db, idx, dx, idl, dl. split_and!; try done; try (apply Hk; congruence).
      by rewrite lookup_insert_ne; [|apply not_eq_sym].
Qed.

(** The underlay's interface is none of the VNI's devices, and neither these nor the
    loopback are marked as the underlay. *)
Record off_underlay (p : VNIParams.t) (up : UnderlayParams.t) (s : NetState) : Prop := {
  off_nic : UnderlayParams.MainNic up ∉ vni_names p;
  off_loopback : VNIParams.VRF p ≠ UnderlayLoopback;
  off_marked id d : devs s !! id = Some d → dev_name d ∈ vni_names p ++ [UnderlayLoopback] →
    underlayNicSpecialAddr ∉ dev_addrs d }.

Lemma off_kept p up s s' : host_kept s s' → off_underlay p up s → off_underlay p up s'.
Proof. intros [_ Hd] [Hn Hl Hm]. split; [done..|by rewrite Hd]. Qed.

Lemma configure_keeps_steps up vps tns w w1 w' p :
  node_possible W up vps tns (view w) → off_underlay p up (view w) →
  names_free (vni_names p ++ [UnderlayLoopback]) vps → vni_configured p (cur_ns (view w)) tns (view w) →
  SetupUnderlay up w = (Ok tt, w1) → forM_ SetupVNI vps w1 = (Ok tt, w') →
  vni_configured p (cur_ns (view w)) tns (view w').
Proof.
  intros [Hpu Hpv _ _] [Hnic Hvl Hmark] Hf Hcfg Hup Hvnis.
  destruct (configured_held p (cur_ns (view w)) tns (view w)) as (K & idl & dl & HK & Hw & HcK & Hdl & Hlns & Hln);
    [apply view_wf|intros id d Hat; exact (proj1 (up_loopback _ _ _ Hpu id d Hat))|done|].
  assert (UnderlayParams.MainNic up ∉ vni_names p ++ [UnderlayLoopback]) as Hnl.
  { rewrite not_elem_of_app list_elem_of_singleton. split; [done|]. apply (up_apart _ _ _ Hpu). }
  assert (unmarked K) as Hun.
  { intros id d Hd. exact (Hmark id d (lookup_weaken _ _ _ _ Hd (proj2 HK)) (Hw id d Hd)). }
  destruct (wpo_Ok _ _ w tt w1 (wpo_SetupUnderlay_thread up (view w)) Hup) as [Hcur Hnm].
  pose proof (wpo_Ok _ _ w tt w1 (tame_SetupUnderlay up (view w)) Hup) as Htame.
  destruct (wpo_Ok _ _ w tt w1 (wpo_SetupUnderlay_keeps up tns (view w) K _ Hpu HK Hw Hnl Hun) Hup)
    as [_ (K1 & K2 & Ha & He & HK2 & Hw2)].
  assert (Forall (λ q, vni_possible q tns (view w1)) vps) as Hpv1
    by (eapply Forall_impl; [|exact Hpv]; intros q Hq; exact (possible_underlay q tns _ _ (view_wf _) Htame Hnm Hq)).
  pose proof (configured_evolves _ _ _ _ _ He (configured_addressed _ _ _ _ _ _ Hvl Ha HcK)) as Hc2.
  assert (∃ dl2, K2 !! idl = Some dl2 ∧ dev_ns dl2 = tns ∧ dev_name dl2 = UnderlayLoopback)
    as (dl2 & Hdl2 & Hlns2 & Hln2).
  { destruct (addressed_lookup _ _ _ _ _ Ha Hdl) as (ex & Hd1).
    destruct (He _ _ Hd1) as (m & Hm & _). eexists. split; [exact Hm|]. cbn. by rewrite Hlns Hln. }
  assert (within (vni_names p ++ [UnderlayLoopback]) K2) as Hwl by (refine (within_mono _ _ _ Hw2 _); set_solver).
  destruct (wpo_Ok _ _ w1 tt w' (wpo_SetupVNIs vps tns (view w1) K2 (vni_names p ++ [UnderlayLoopback]) idl dl2 Hpv1 Hf HK2
    Hwl Hdl2 Hlns2 Hln2) Hvnis) as (K' & He' & [_ Hs] & _).
  exact (configured_evolves _ _ _ _ _ (subset_evolves _ _ Hs) (configured_evolves _ _ _ _ _ He' Hc2)).
Qed.
Lemma configure_keeps up vps tns w w' p :
  node_possible W up vps tns (view w) → off_underlay p up (view w) →
  names_free (vni_names p ++ [UnderlayLoopback]) vps → vni_configured p (cur_ns (view w)) tns (view w) →
  configureHost up vps w = (Ok tt, w') → vni_configured p (cur_ns (view w)) tns (view w').
Proof. intros Hp Ho Hf Hc (w1 & Hu & Hv)%configureHost_Ok. by apply (configure_keeps_steps up vps tns w w1). Qed.
End node_again.

Section reconcile_again.
Context {W : Type} `{NetlinkLaws W, GoCidr, Sort, OutsideLaws W serves path}.
Context (osHostname : go W string) (json_Unmarshal : string → res PodSandboxStatusInfo.t).
Context (r : PERouterReconciler.t W) `{!Apart (PERouterReconciler.Client r) osHostname}.

(** C8. What a further successful [Reconcile] leaves: a VNI that was configured before and
    whose device names no VNI of the new configuration uses is still configured
    afterwards, with its veth pair, its VRF, its bridge and its VXLAN, whether the cluster
    still has it or not.  So a new VNI never harms another one, and a VNI that is
    deleted is never taken down.  This is so when the state before allows the new
    configuration and the VNI has nothing to do with the underlay: its devices are not
    the underlay's interface, nor marked like it.  And the run meets no trouble the code
    does not see: no router's leg shares its index with another device, at the start or
    when a device is made or moved, every switch of namespace is let through, and looking
    the loopback up fails only when it is not there. *)
Theorem Reconcile_keeps_vnis tns w w' :
  PERouterReconciler.FRRConfig r = path →
  (∀ w pod w', routerPodForNode (PERouterReconciler.Client r) (PERouterReconciler.MyNode r) w
                 = (Ok pod, w') → serves (reload_url r pod)) →
  (∀ rt, PERouterReconciler.PodRuntime r = Some rt → RuntimeApart rt) →
  Reconcile osHostname json_Unmarshal r w = (Ok tt, w') →
  not_ready r w w'
  ∨ ∃ idx pod us vs w1 w2 rt ns up vps w3,
      read_all r w idx pod us vs w1
      ∧ PERouterReconciler.PodRuntime r = Some rt
      ∧ NetworkNamespace json_Unmarshal rt (Pod.UID pod) w2 = (Ok ns, w3)
      ∧ APItoHostConfig idx ns us vs = Ok (up, vps)
      ∧ ∀ p, node_possible W up vps tns (view w) → Reconcile_troubles osHostname json_Unmarshal r w = [] →
          off_underlay p up (view w) →
          names_free (vni_names p ++ [UnderlayLoopback]) vps →
          vni_configured p (cur_ns (view w)) tns (view w) →
          vni_configured p (cur_ns (view w)) tns (view w').
Proof.
  intros Hpath Hserves Hrt Hr.
  destruct (Reconcile_success osHostname json_Unmarshal r w w' Hpath Hserves Hr)
    as [[Hnr _]|(idx & pod & us & vs & w1 & w2 & cfg & rt & ns & up & vps & w3 & Hread & Hload & _ & Hkept
      & _ & Hprt & Hns & Hconv & _ & _ & _ & Hh)]; [by left|right].
  exists idx, pod, us, vs, w1, w2, rt, ns, up, vps, w3. split_and!; try done. intros p Hpos Ht Hset Hf Hcfg.
  pose proof (NetworkNamespace_apart json_Unmarshal rt _ (RuntimeApart0:=Hrt rt Hprt) _ _ _ Hns) as Hkept'.
  pose proof (transitivity (R:=host_kept) Hkept Hkept') as Hk.
  assert (cur_ns (view w) = cur_ns (view w3)) as Heq by (destruct Hk as [[-> _] _]; done).
  destruct (Reconcile_host _ _ _ _ _ _ _ _ _ _ _ _ _ _ _ Hread Hload Hprt Hns Hconv) as [_ Hth]. rewrite Hth in Ht.
  by_detour well_formed (λ W (_ : Netlink W), configureHost up vps) Hh Ht.
  assert (vni_configured p (cur_ns (view w)) tns (view w3)) as Hcfg3.
  { destruct Hk as [_ Hd]. unfold vni_configured. by rewrite Hd. }
  rewrite Heq. rewrite Heq in Hcfg3.
  exact (configure_keeps (W:=detoured W well_formed) up vps tns _ _ p
    (detour_node _ _ _ _ (node_possible_kept _ _ _ _ _ Hk Hpos)) (off_kept _ _ _ _ Hk Hset) Hf Hcfg3 Hh).
Qed.
End reconcile_again.
