(* ===== verification/Live.v ===== *)
(** * A reconciliation succeeds

    When nothing outside refuses - the cluster answers, FRR accepts the configuration,
    the container runtime knows the router's sandbox, the kernel has no reason to refuse -
    and the node is as it was before, or as an earlier reconciliation left it, [Reconcile]
    ends without error and the node is configured. *)

From S2P Require Import Prelude GoStrings GoNet Api Ipam Frr HostParams Conversion.
From S2P Require Import Netlink Troubles NetLogic HostLinks LinkSpecs Progress Held Faults Origins LinkProgress VethSpecs SimKernel.
From S2P Require Import SimProgress HostNetwork HostSpecs Twins Detour VniSpecs VniProgress Underlay UnderlayProgress.
From S2P Require Import Reload Pods Cluster Controller Watched Outcome.
Local Open Scope Z_scope.

(** ** Configuring a node *)
Section node_live.
Context {W : Type} `{NetlinkLaws W, !Untroubled W} {cap : nat} `{!NetlinkProgress W cap}.

(** The conditions under which a node is configured without error, for an underlay and
    a list of VNIs: names that do not clash, an underlay interface that is here and that
    can be moved, VNIs whose devices can be made or are there, and room for them.
    An end of a veth pair may not be marked as the underlay. *)
Record node_startable (up : UnderlayParams.t) (vps : list VNIParams.t) (tns : Z) (s : NetState) : Prop := {
  live_underlay : underlay_possible (W:=W) up tns s;
  live_vtep : readable (UnderlayParams.VtepIP up) = true;
  live_nics : nics_movable (UnderlayParams.MainNic up) tns s;
  live_nic id d : devs s !! id = Some d → dev_name d = UnderlayParams.MainNic up → plain d;
  live_vnis : Forall (λ p, vni_startable p (cur_ns s) tns s) vps;
  live_names : names_free [UnderlayLoopback; UnderlayParams.MainNic up] vps;
  live_marks : Forall (λ p, ∀ id d, devs s !! id = Some d → dev_name d ∈ vni_names p →
    special ∉ dev_addrs d) vps;
  live_room : (size (devs s) + 2 + 18 * length vps ≤ cap)%nat }.

Lemma node_startable_possible up vps tns s : node_startable up vps tns s → node_possible W up vps tns s.
Proof.
  intros [Hu _ _ Hnic Hvs Hnames _ _]. split; [done| |done|done].
  eapply Forall_impl; [|exact Hvs]. intros p. apply startable_possible.
Qed.

(** The underlay is set up without harm to a VNI. *)
Lemma wpo_underlay_startable up p tns s :
  underlay_possible (W:=W) up tns s → vni_startable p (cur_ns s) tns s →
  Forall (λ n, n ∉ [UnderlayLoopback; UnderlayParams.MainNic up]) (vni_names p) →
  (∀ id d, devs s !! id = Some d → dev_name d ∈ vni_names p → special ∉ dev_addrs d) →
  wpo (SetupUnderlay (W:=W) up) s (λ _ s', vni_startable p (cur_ns s) tns s').
Proof.
  intros Hup Hp Hfree Hmark. apply wpo_wf. intros Hwf.
  assert (wpo (SetupUnderlay (W:=W) up) s (λ _ s', tamed [UnderlayLoopback] s s'
    ∧ (legs_absent (VNIParams.VRF p) s ∨ legs_ready (VNIParams.VRF p) (cur_ns s) tns s'))) as Hrest.
  { destruct (start_legs _ _ _ _ Hp) as [Habs|(idh & dh & idp & dp & Hthere)].
    { eapply wpo_mono; [apply tame_SetupUnderlay|]. intros [] s' Ht. split; [exact Ht|by left]. }
    destruct (legs_held _ _ _ s idh dh idp dp ∅ [] Hwf Hthere (holds_empty s) ltac:(by intros ???))
      as (K & HK & Hw & _ & Kh & Kp).
    assert ((vethLegsForVRF (VNIParams.VRF p)).1 ∈ vni_names p ∧ (vethLegsForVRF (VNIParams.VRF p)).2 ∈ vni_names p)
      as [Hin1 Hin2] by (split; [left|right; left]).
    rewrite list.Forall_forall in Hfree.
    pose proof (Hfree _ Hin1) as Hf1. pose proof (Hfree _ Hin2) as Hf2. rewrite !not_elem_of_cons in Hf1, Hf2.
    eapply wpo_mono; [apply wpo_conj; [apply tame_SetupUnderlay|
      apply (wpo_SetupUnderlay_keeps up tns s K _ Hup HK Hw)]|].
    - rewrite !not_elem_of_cons. split_and!; [naive_solver|naive_solver|apply not_elem_of_nil].
    - intros id d Hd. apply (Hmark id d (lookup_weaken _ _ _ _ Hd (proj2 HK))).
      pose proof (Hw id d Hd) as Hin. rewrite !elem_of_cons in Hin. destruct Hin as [-> |[-> |[]%elem_of_nil]]; done.
    - intros [] s' [Ht (_ & K1 & K2 & Ha & He & [_ Hs] & _)]. split; [exact Ht|]. right. right.
      destruct (addressed_lookup _ _ _ _ _ Ha Kh) as (exh & Hh1), (addressed_lookup _ _ _ _ _ Ha Kp) as (exp & Hp1).
      destruct (He _ _ Hh1) as (mh & Hmh & _), (He _ _ Hp1) as (mp & Hmp & _). eexists idh, _, idp, _.
      refine (legs_there_after [UnderlayLoopback] _ _ _ _ _ _ _ _ _ _ _ Hthere Ht _ (lookup_weaken _ _ _ _ Hmh Hs)
        (lookup_weaken _ _ _ _ Hmp Hs) ltac:(by split_and!) ltac:(by split_and!)).
      rewrite list_elem_of_singleton. naive_solver. }
  eapply wpo_mono; [apply wpo_wf_post, wpo_conj; [exact Hrest|
    apply wpo_conj; [apply grown_SetupUnderlay|apply wpo_SetupUnderlay_thread]]|].
  intros [] s' (Hwf' & [Htame Hlegs'] & Hgr & _ & Hnamed).
  refine (startable_after _ _ _ _ _ _ _ Hp Hwf' Htame Hgr Hnamed _ Hlegs').
  eapply Forall_impl; [|exact Hfree]. intros n. rewrite !not_elem_of_cons. set_solver.
Qed.

Lemma configure_succeeds up vps tns w :
  node_startable up vps tns (view w) →
  ∃ w', configureHost up vps w = (Ok tt, w') ∧ node_configured up vps (cur_ns (view w)) tns (view w').
Proof.
  intros Hlive. pose proof Hlive as [Hu Hv Hnics Hnic Hvs Hnames Hmarks Hroom].
  destruct (fine_run (SetupUnderlay up) w) as ([] & w1 & Hr1).
  { apply (fine_SetupUnderlay up tns); [done..|lia]. }
  pose proof (wpo_Ok _ _ w tt w1 (wpo_SetupUnderlay up tns _ Hu) Hr1) as Hset.
  destruct (wpo_Ok _ _ w tt w1 (wpo_SetupUnderlay_thread up (view w)) Hr1) as [Hcur _].
  destruct (wpo_Ok _ _ w tt w1 (grown_SetupUnderlay up (view w)) Hr1) as [Hsize _].
  destruct Hset as [(idl & dl & Hl & _ & Hlp) _].
  destruct (fine_run (forM_ SetupVNI vps) w1) as ([] & w' & Hr2).
  { apply (fine_SetupVNIs vps tns _ [UnderlayLoopback; UnderlayParams.MainNic up] idl dl);
      [|by left|done|done|done|cbn in Hsize; lia].
    rewrite Hcur. apply list.Forall_forall. intros p Hp. rewrite !list.Forall_forall in Hvs, Hmarks.
    exact (wpo_Ok _ _ w tt w1 (wpo_underlay_startable up p tns _ Hu (Hvs p Hp)
      (names_free_legs _ _ _ Hnames Hp) (Hmarks p Hp)) Hr1). }
  assert (configureHost up vps w = (Ok tt, w')) as Hr by (apply configureHost_Ok; by exists w1).
  exists w'. split; [done|]. exact (configure_node up vps tns w w' (node_startable_possible _ _ _ _ Hlive) Hr).
Qed.

Lemma startable_kept p hns tns s s' : host_kept s s' → vni_startable p hns tns s → vni_startable p hns tns s'.
Proof.
  intros [[_ Hn] Hd] [Hv Hns Hu Hp Hl H1' H2' H3' Hnm].
  split; [done|by rewrite Hn|..]; unfold legs_apart, peer_named, kinded, vni_named in *; rewrite ?Hd; try done.
  exact (legs_ready_devs _ _ _ _ _ Hd Hl).
Qed.
Lemma node_startable_kept up vps tns s s' :
  host_kept s s' → node_startable up vps tns s → node_startable up vps tns s'.
Proof.
  intros Hk [Hu Hv [Hnew Hold] Hnic Hvs Hnames Hmarks Hroom]. pose proof Hk as [[Ht Hn] Hd]. split; try done.
  - exact (underlay_possible_kept _ _ _ _ Hk Hu).
  - split; [unfold dev_named; by rewrite Ht Hd|by rewrite Hd].
  - by rewrite Hd.
  - rewrite Ht. eapply Forall_impl; [|exact Hvs]. intros p. by apply startable_kept.
  - by rewrite Hd.
  - by rewrite Hd.
Qed.
End node_live.
Arguments node_startable W {_} cap up vps tns s.

(** On the detour. *)
Lemma detour_startable {W F} `{NetlinkLaws W, NetlinkLaws F, !Refuge W F} cap up vps tns s :
  node_startable W cap up vps tns s → node_startable (W + F) cap up vps tns s.
Proof. intros [Hu Hrest]. split; [by apply detour_underlay|done..]. Qed.

(** ** The reconciliation *)

(** Nothing outside refuses, in a world that is [calm]: the machine has a name, the file
    can be written, the reloader at [url] serves the request, FRR accepts the
    configuration [cfg], whatever the name of the machine - and the world stays calm. *)
Record frr_accepts {W} `{OutsideLaws W serves path} (osHostname : go W string) (calm : W → Prop)
    (url : string) (cfg : Config.t) : Prop := {
  host_can w r w' : calm w → osHostname w = (r, w') → ends_ok r ∧ calm w';
  write_can text w r w' : calm w → WriteFile path text 384 w = (r, w') → r = Ok tt ∧ calm w';
  post_can w : calm w → http_Post url w = reloadHandler path "POST" w;
  action_can host text action w r w' : calm w →
    templateConfig (Config.mk (Config.Loglevel cfg) host (Config.Underlay cfg) (Config.VNIs cfg)) = Ok text →
    conf_files w !! path = Some text → action = Test ∨ action = Reload →
    execCommand "python3" [reloaderPath; "--" +:+ action; path] w = (r, w') → ends_ok r ∧ calm w' }.

Section reload_live.
Context {W : Type} `{View W, Netlink W, GoCidr, Sort, OutsideLaws W serves path}.
Context (osHostname : go W string) (r : PERouterReconciler.t W) `{!Apart (PERouterReconciler.Client r) osHostname}.
Context (calm : W → Prop).

Lemma reloadAction_succeeds url cfg host text action w :
  frr_accepts osHostname calm url cfg → calm w →
  templateConfig (Config.mk (Config.Loglevel cfg) host (Config.Underlay cfg) (Config.VNIs cfg)) = Ok text →
  conf_files w !! path = Some text → action = Test ∨ action = Reload →
  ∃ w', reloadAction path action w = (Ok tt, w') ∧ conf_files w' = conf_files w ∧ calm w'.
Proof.
  intros Hfrr Hcalm Htext Hf Ha. unfold reloadAction, mbind, go_bind, on_errM.
  destruct (execCommand _ _ w) as [x w1] eqn:E.
  destruct (action_can _ _ _ _ Hfrr _ _ _ _ _ _ Hcalm Htext Hf Ha E) as [[o ->] Hc].
  apply exec_law in E as (_ & Hf1 & _). cbn. by exists w1.
Qed.

Lemma reloadFRRConfig_succeeds data cfg w :
  frrConfigData.configFile data = path →
  frr_accepts osHostname calm ("http://" +:+ (frrConfigData.address data +:+ ":" +:+ Itoa (frrConfigData.port data))) cfg →
  APItoFRR (frrConfigData.nodeIndex data) (frrConfigData.underlays data) (frrConfigData.vnis data)
    (frrConfigData.logLevel data) = Ok cfg → calm w →
  ∃ w', reloadFRRConfig osHostname data w = (Ok tt, w').
Proof.
  destruct data as [cf ad po ni ll us vs]. cbn. intros -> Hfrr Hcfg Hcalm.
  destruct (osHostname w) as [h w1] eqn:Hhost. destruct (host_can _ _ _ _ Hfrr _ _ _ Hcalm Hhost) as [[host ->] Hcalm1].
  destruct (APItoFRR_renderable _ _ _ _ _ host Hcfg) as [text Htext].
  destruct (WriteFile path text 384 w1) as [x w2] eqn:Hwrite. destruct (write_can _ _ _ _ Hfrr _ _ _ _ Hcalm1 Hwrite) as [-> Hcalm2].
  apply write_law in Hwrite as Hlaw. destruct Hlaw as (_ & _ & Hf). specialize (Hf eq_refl).
  assert (conf_files w2 !! path = Some text) as Hf2 by by rewrite Hf lookup_insert_eq.
  destruct (reloadAction_succeeds _ _ _ _ Test w2 Hfrr Hcalm2 Htext Hf2) as (w3 & Htest & Hf3 & Hcalm3); [by left|].
  rewrite -Hf3 in Hf2.
  destruct (reloadAction_succeeds _ _ _ _ Reload w3 Hfrr Hcalm3 Htext Hf2) as (w4 & Hreload & _); [by right|].
  exists w4. unfold reloadFRRConfig, ApplyConfig, generateAndReloadConfigFile, UpdaterForAddress.
  apply go_bind_Ok. exists cfg, w. split; [by apply on_errM_Ok, lift_Ok|].
  apply on_errM_Ok, go_bind_Ok. exists host, w1. split; [done|].
  apply go_bind_Ok. exists text, w1. split; [by apply lift_Ok|].
  apply go_bind_Ok. exists tt, w2. split; [by apply on_errM_Ok|].
  apply go_bind_Ok. exists StatusOK, w4. split; [|done]. apply on_errM_Ok. rewrite (post_can _ _ _ _ Hfrr) //.
  unfold reloadHandler. rewrite bool_decide_true //. apply go_bind_Ok. exists (inl tt), w4. split; [|done].
  apply attempt_Ok. unfold Update. apply go_bind_Ok. by exists tt, w3.
Qed.
End reload_live.

Section live.
Context {W : Type} `{NetlinkLaws W, GoCidr, Sort, OutsideLaws W serves path}.
Context {cap : nat} `{!NetlinkProgress W cap}.
Context (osHostname : go W string) (json_Unmarshal : string → res PodSandboxStatusInfo.t).
Context (r : PERouterReconciler.t W) `{!Apart (PERouterReconciler.Client r) osHostname}.

(** What is outside answers, in the world [w] and while it is calm: the cluster with a
    ready router's pod and objects the conversion accepts, FRR with the configuration
    rendered from them, the container runtime with the namespace of the pod's sandbox. *)
Record answers (calm : W → Prop) (w : W) (idx : Z) (pod : Pod.t) us vs (up : UnderlayParams.t)
    (vps : list VNIParams.t) (w1 : W) : Prop := {
  ans_conf : PERouterReconciler.FRRConfig r = path;
  ans_serves : serves (reload_url r pod);
  ans_read : read_all r w idx pod us vs w1;
  ans_calm : calm w1;
  ans_frr : ∃ cfg, APItoFRR idx us vs (PERouterReconciler.LogLevel r) = Ok cfg
    ∧ frr_accepts osHostname calm (reload_url r pod) cfg;
  ans_runtime : ∃ rt ns, PERouterReconciler.PodRuntime r = Some rt ∧ RuntimeApart rt
    ∧ (∀ w, ∃ w', NetworkNamespace json_Unmarshal rt (Pod.UID pod) w = (Ok ns, w'))
    ∧ APItoHostConfig idx ns us vs = Ok (up, vps) }.

(** Then the reconciliation does not end before the host is configured. *)
Lemma Reconcile_reaches calm w idx pod us vs up vps w1 :
  answers calm w idx pod us vs up vps w1 →
  ∃ w2 w3, frr_loaded (frr_data r idx pod us vs) w1 w2 ∧ host_kept (view w) (view w3)
    ∧ Reconcile osHostname json_Unmarshal r w = configureHost up vps w3
    ∧ Reconcile_troubles osHostname json_Unmarshal r w = troubles (configureHost up vps) w3.
Proof.
  intros [Hpath Hserves Hread Hcalm (cfg & Hcfg & Hfrr) (rt & ns & Hprt & Hapart & Hns & Hconv)].
  destruct (reloadFRRConfig_succeeds osHostname calm (frr_data r idx pod us vs) cfg w1) as [w2 Hload]; [done..|].
  destruct (Hns w2) as [w3 Hns3]. exists w2, w3.
  pose proof (transitivity (R:=host_kept) (proj1 (read_all_unread osHostname r _ _ _ _ _ _ Hread))
    (reloadFRRConfig_apart osHostname r _ _ _ _ Hload)) as Hk2.
  split; [by apply (reloadFRRConfig_Ok osHostname r)|]. split.
  { exact (transitivity (R:=host_kept) Hk2 (NetworkNamespace_apart json_Unmarshal rt _ _ _ _ Hns3)). }
  exact (Reconcile_host _ _ _ _ _ _ _ _ _ _ _ _ _ _ _ Hread Hload Hprt Hns3 Hconv).
Qed.

(** C3. A reconciliation succeeds when nothing outside refuses: the cluster answers with a
    ready router's pod and objects the conversion accepts, FRR accepts what is rendered
    from them, the container runtime knows the namespace of the pod's sandbox, the kernel
    makes, moves and configures devices whenever its documented conditions hold, and the
    node is in a state the configuration can be made from.  The node is configured then,
    and FRR runs the configuration.  Beyond the documented conditions the run meets no
    trouble the code does not see: no router's leg shares its index with another device,
    at the start or when a device is made or moved, every switch of namespace is let
    through, and looking the loopback up fails only when it is not there. *)
Theorem Reconcile_succeeds (calm : W → Prop) w idx pod us vs up vps w1 tns :
  answers calm w idx pod us vs up vps w1 → node_startable W cap up vps tns (view w) →
  Reconcile_troubles osHostname json_Unmarshal r w = [] →
  ∃ w2 w', Reconcile osHostname json_Unmarshal r w = (Ok tt, w')
    ∧ frr_loaded (frr_data r idx pod us vs) w1 w2
    ∧ node_configured up vps (cur_ns (view w)) tns (view w').
Proof.
  intros Hans Hlive Ht. destruct (Reconcile_reaches _ _ _ _ _ _ _ _ _ Hans) as (w2 & w3 & Hload & Hk & Hrun & Hth).
  rewrite Hth in Ht. pose proof (detour_startable (F:=spare (room cap)) _ _ _ _ _ (node_startable_kept _ _ _ _ _ Hk Hlive)) as Hlive3.
  destruct (configure_succeeds (W:=detoured W (room cap)) up vps tns (inl w3) Hlive3) as (x & Hr & Hnode).
  from_detour (λ W (_ : Netlink W), configureHost up vps) Hr Ht w'.
  exists w2, w'. split; [by rewrite Hrun|]. split; [done|].
  destruct Hk as [[Hthr _] _]. cbn in Hnode. by rewrite Hthr in Hnode.
Qed.
End live.
