(* ===== verification/Steady.v ===== *)
(** * A node that stays as it is

    What a call does on a node where everything it would set up is there already: no
    device is made, deleted, moved, renamed or enslaved to another master; a device may
    go up, and get the addresses the kernel gives it then. *)

From S2P Require Import Prelude GoStrings GoNet Api Ipam Frr HostParams Conversion.
From S2P Require Import Netlink Troubles NetLogic HostLinks LinkSpecs Progress Held Faults Origins LinkProgress VethSpecs SimKernel SimProgress.
From S2P Require Import HostNetwork HostSpecs Twins Detour VniSpecs VniProgress Underlay UnderlayProgress.
From S2P Require Import Reload Pods Cluster Controller Watched Outcome Again Live.
Local Open Scope Z_scope.

(** ** The relation *)
Record steady_dev (d d' : Dev) : Prop := {
  steady_ns : dev_ns d' = dev_ns d;
  steady_link : dev_link d' = dev_link d;
  steady_peer : dev_peer d' = dev_peer d;
  steady_up : dev_up d = true → dev_up d' = true;
  steady_gen : dev_no_addr_gen d = true → dev_no_addr_gen d' = true;
  steady_sup : dev_neigh_suppress d = true → dev_neigh_suppress d' = true;
  steady_addrs : dev_addrs d ⊆ dev_addrs d';
  steady_mark : special ∈ dev_addrs d' → special ∈ dev_addrs d }.

Definition untouched (s s' : NetState) : Prop :=
  ∀ id, option_Forall2 steady_dev (devs s !! id) (devs s' !! id).

#[export] Instance steady_dev_preorder : PreOrder steady_dev.
Proof.
  split; [intros d; by split|]. intros d1 d2 d3 [] []. split; first [congruence|by auto|set_solver].
Qed.
#[export] Instance untouched_preorder : PreOrder untouched.
Proof.
  split; [intros s id; reflexivity|]. intros s1 s2 s3 H12 H23 id. etransitivity; [exact (H12 id)|exact (H23 id)].
Qed.

Lemma untouched_devs s s' : devs s' = devs s → untouched s s'.
Proof. intros Hd id. rewrite Hd. reflexivity. Qed.
Lemma untouched_insert s s' id d d' :
  devs s !! id = Some d → steady_dev d d' → devs s' = <[id := d']> (devs s) → untouched s s'.
Proof.
  intros Hd Hs Hdevs i. rewrite Hdevs. destruct (decide (i = id)) as [->|Hne].
  - rewrite lookup_insert_eq Hd. by constructor.
  - rewrite lookup_insert_ne; [|by apply not_eq_sym]. reflexivity.
Qed.
Lemma untouched_lookup s s' id d :
  untouched s s' → devs s !! id = Some d → ∃ d', devs s' !! id = Some d' ∧ steady_dev d d'.
Proof. intros Hu Hd. specialize (Hu id). rewrite Hd in Hu. inversion Hu; subst. by eexists. Qed.
Lemma untouched_from s s' id d' :
  untouched s s' → devs s' !! id = Some d' → ∃ d, devs s !! id = Some d ∧ steady_dev d d'.
Proof. intros Hu Hd. specialize (Hu id). rewrite Hd in Hu. inversion Hu; subst. by eexists. Qed.
Lemma untouched_dom s s' : untouched s s' → dom (devs s') = dom (devs s).
Proof.
  intros Hu. apply set_eq. intros id. rewrite !elem_of_dom. split; intros [d Hd].
  - destruct (untouched_from _ _ _ _ Hu Hd) as (e & He & _). by exists e.
  - destruct (untouched_lookup _ _ _ _ Hu Hd) as (e & He & _). by exists e.
Qed.
Lemma untouched_size s s' : untouched s s' → size (devs s') = size (devs s).
Proof. intros Hu. by rewrite -!size_dom (untouched_dom _ _ Hu). Qed.

Lemma steady_same d d' : steady_dev d d' →
  dev_index d' = dev_index d ∧ dev_name d' = dev_name d ∧ dev_master d' = dev_master d.
Proof. intros [_ Hl]. unfold dev_index, dev_name, dev_master. by rewrite Hl. Qed.

(** ** Where things are *)

(** A device with this link is in the namespace; and it has an address. *)
Definition is_at (s : NetState) (ns : Z) (l : Link) : Prop :=
  ∃ id d, devs s !! id = Some d ∧ dev_ns d = ns ∧ dev_link d = l.
Definition has_addr (s : NetState) (ns : Z) (l : Link) (a : string) : Prop :=
  ∃ id d, devs s !! id = Some d ∧ dev_ns d = ns ∧ dev_link d = l ∧ a ∈ dev_addrs d.

Lemma is_at_untouched s s' ns l : untouched s s' → is_at s ns l → is_at s' ns l.
Proof.
  intros Hu (id & d & Hd & Hns & Hl). destruct (untouched_lookup _ _ _ _ Hu Hd) as (d' & Hd' & []).
  exists id, d'. split_and!; congruence.
Qed.
Lemma has_addr_untouched s s' ns l a : untouched s s' → has_addr s ns l a → has_addr s' ns l a.
Proof.
  intros Hu (id & d & Hd & Hns & Hl & Ha). destruct (untouched_lookup _ _ _ _ Hu Hd) as (d' & Hd' & []).
  exists id, d'. split_and!; [congruence..|auto].
Qed.
Lemma has_addr_at s ns l a : has_addr s ns l a → is_at s ns l.
Proof. intros (id & d & Hd & Hns & Hl & _). by exists id, d. Qed.

Section steady.
Context {W : Type} `{NetlinkLaws W, !Untroubled W}.

(** [m] leaves the devices as they are, and ends with something of which [Q] holds. *)
Definition stays {A} (m : go W A) (s : NetState) (Q : A → Prop) : Prop :=
  wpo m s (λ a s', silent s s' ∧ untouched s s' ∧ Q a).

Lemma stays_bind {A B} (m : go W A) (f : A → go W B) s Q P :
  stays m s Q → (∀ a s', silent s s' → untouched s s' → Q a → stays (f a) s' P) → stays (m ≫= f) s P.
Proof.
  intros Hm Hf. apply wpo_bind. eapply wpo_mono; [exact Hm|]. intros a s1 (Hs & Hu & HQ).
  eapply wpo_mono; [exact (Hf a s1 Hs Hu HQ)|]. intros b s2 (Hs2 & Hu2 & HP).
  split_and!; [exact (silent_trans _ _ _ Hs Hs2)|etransitivity; [exact Hu|exact Hu2]|done].
Qed.
Lemma stays_ret {A} (a : A) s (Q : A → Prop) : Q a → stays (mret a) s Q.
Proof. intros HQ. apply wpo_ret. split_and!; [done|reflexivity|done]. Qed.
Lemma stays_on_err {A} g (m : go W A) s Q : stays m s Q → stays (on_errM g m) s Q.
Proof. apply wpo_on_err. Qed.
Lemma stays_err_with_name {A} l g (m : go W A) s Q : stays m s Q → stays (err_with_name l g m) s Q.
Proof. apply wpo_err_with_name. Qed.

(** *** The settings of a device *)
Lemma generated_unmarked extra : Forall (λ a, generated a = true) extra → special ∉ extra.
Proof. rewrite list.Forall_forall. intros Hall Hin. specialize (Hall _ Hin). vm_compute in Hall. done. Qed.

Lemma stays_LinkSetUp l s : is_at s (cur_ns s) l → stays (LinkSetUp (Some l)) s (λ _, True).
Proof.
  intros (id & d & Hd & Hns & Hl). apply (wpo_LinkSetUp_gives l s id d); [done..|by rewrite -Hl|].
  intros extra s' Hx%generated_unmarked Hs Hdevs. split_and!; [done| |done].
  apply (untouched_insert s s' id d (set_up extra d) Hd); [|exact Hdevs]. split; try done; cbn; [set_solver|].
  intros [?|?]%elem_of_app; [done|by destruct Hx].
Qed.
Lemma stays_LinkSetMaster l m s :
  is_at s (cur_ns s) l → link_master l = link_index m → stays (LinkSetMaster (Some l) m) s (λ _, True).
Proof.
  intros (id & d & Hd & Hns & Hl) Hm. apply (wpo_LinkSetMaster l m s id d); [done..|by rewrite -Hl|].
  intros s' Hs Hdevs. split_and!; [done| |done]. refine (untouched_insert s s' id d _ Hd _ Hdevs).
  rewrite -Hm -Hl. change (link_master (dev_link d)) with (dev_master d). rewrite set_master_same. reflexivity.
Qed.
Lemma stays_addrGenModeNone l s : is_at s (cur_ns s) l → stays (addrGenModeNone l) s (λ _, True).
Proof.
  intros (id & d & Hd & Hns & Hl). apply (wpo_addrGenModeNone l s id d); [done..|by rewrite -Hl|].
  intros s' Hs Hdevs. split_and!; [done| |done]. refine (untouched_insert s s' id d _ Hd _ Hdevs).
  by split.
Qed.
Lemma stays_setNeighSuppression l s : is_at s (cur_ns s) l → stays (setNeighSuppression l) s (λ _, True).
Proof.
  intros (id & d & Hd & Hns & Hl). apply (wpo_setNeighSuppression l s id d); [done..|by rewrite -Hl|].
  intros s' Hs Hdevs. split_and!; [done| |done]. refine (untouched_insert s s' id d _ Hd _ Hdevs).
  by split.
Qed.
Lemma stays_assignIP l address s :
  canonical_addr W address → has_addr s (cur_ns s) l address →
  stays (assignIPToInterface (Some l) address) s (λ _, True).
Proof.
  intros Hcan (id & d & Hd & Hns & Hl & Hin). apply wpo_wf. intros Hwf.
  eapply wpo_mono; [apply (wpo_assignIP_again l address s id d Hcan Hwf Hd Hns); [by rewrite -Hl|done]|].
  intros [] s' ->. split_and!; [done|reflexivity|done].
Qed.

(** *** Links that are there *)
Lemma is_at_unique s l id d : wf s → is_at s (cur_ns s) l →
  dev_named s (cur_ns s) (link_name l) id d → dev_link d = l.
Proof.
  intros Hwf (id0 & d0 & Hd0 & Hns0 & Hl0) Hn.
  assert (id = id0) as -> by (refine (wf_name _ Hwf _ _ _ _ _ _ Hn _); split_and!; [exact Hd0|done|by rewrite -Hl0]).
  destruct Hn as [Hn _]. congruence.
Qed.
Lemma stays_LinkByName l s :
  is_at s (cur_ns s) l → stays (LinkByName (link_name l)) s (λ l', l' = l).
Proof.
  intros Hat. apply wpo_wf. intros Hwf. apply wpo_LinkByName. intros id d Hn.
  split_and!; [done|reflexivity|]. by apply (is_at_unique s l id d).
Qed.
Lemma stays_ensure ok name g g' (create : go W Link) l s :
  is_at s (cur_ns s) l → link_name l = name → ok l = true →
  stays (ensure ok name g g' create) s (λ r, r = (Some l, l)).
Proof.
  intros (id & d & Hd & Hns & Hl) Hn Hok.
  apply (wpo_ensure_existing ok name g g' create s id d); [split_and!; [done|done|by rewrite -Hn -Hl]|by rewrite Hl|].
  split_and!; [done|reflexivity|by rewrite Hl].
Qed.

Lemma stays_setupVRF name l s :
  is_at s (cur_ns s) l → link_name l = name → is_vrf l = true → stays (setupVRF name) s (λ v, v = l).
Proof.
  intros Hat Hn Hk. unfold setupVRF. eapply stays_bind; [by apply (stays_ensure _ _ _ _ _ l)|].
  intros [o v] s1 Hs1 Hu1 [= -> ->]. eapply stays_bind; [apply stays_on_err, stays_LinkSetUp|].
  - destruct Hs1 as [-> _]. exact (is_at_untouched _ _ _ _ Hu1 Hat).
  - intros _ s2 _ _ _. by apply stays_ret.
Qed.

Lemma stays_setupBridge params vrf l s :
  is_at s (cur_ns s) l → link_name l = bridgeName (VNIParams.VNI params) → is_bridge l = true →
  stays (setupBridge params vrf) s (λ b, b = l).
Proof.
  intros Hat Hn Hk. unfold setupBridge. cbv zeta. eapply stays_bind; [by apply (stays_ensure _ _ _ _ _ l)|].
  intros [o b] s1 [Ht1 _] Hu1 [= -> ->]. eapply stays_bind; [apply stays_on_err, stays_addrGenModeNone|].
  - rewrite Ht1. exact (is_at_untouched _ _ _ _ Hu1 Hat).
  - intros _ s2 [Ht2 _] Hu2 _. eapply stays_bind; [apply stays_on_err, stays_LinkSetUp|].
    + rewrite Ht2 Ht1. exact (is_at_untouched _ _ _ _ Hu2 (is_at_untouched _ _ _ _ Hu1 Hat)).
    + intros _ s3 _ _ _. by apply stays_ret.
Qed.

Lemma stays_attempt_lift {A} (x : res A) a s : x = Ok a → stays (attempt (lift x : go W A)) s (λ r, r = inl a).
Proof. intros ->. apply wp_attempt, wp_lift. split_and!; [done|reflexivity|done]. Qed.

Lemma stays_setupVXLan params b lo l s :
  is_at s (cur_ns s) lo → link_name lo = UnderlayLoopback →
  is_at s (cur_ns s) l → link_name l = vxLanName (VNIParams.VNI params) →
  vxlan_configured l (link_index b) (link_index lo) params →
  stays (setupVXLan params b) s (λ _, True).
Proof.
  intros Hlo Hln Hat Hn Hcfg. unfold setupVXLan. cbv zeta.
  assert (is_vxlan l = true) as Hk by (destruct Hcfg as (src & Hk & _); unfold is_vxlan; by rewrite Hk).
  eapply stays_bind; [apply stays_on_err; rewrite -Hln; by apply stays_LinkByName|].
  intros lo' s1 [Ht1 _] Hu1 ->. pose proof (is_at_untouched _ _ _ _ Hu1 Hat) as Hat1.
  eapply stays_bind; [apply (stays_ensure is_vxlan _ _ _ _ l); [by rewrite Ht1|done|done]|].
  intros [o vx] s2 [Ht2 _] Hu2 [= -> ->]. pose proof (is_at_untouched _ _ _ _ Hu2 Hat1) as Hat2.
  eapply stays_bind; [by apply stays_attempt_lift, checkVXLanConfigured_Ok|].
  intros r s3 [Ht3 _] Hu3 ->. pose proof (is_at_untouched _ _ _ _ Hu3 Hat2) as Hat3.
  eapply stays_bind; [by apply (stays_ret _ _ (λ v, v = l))|].
  intros vx s4 [Ht4 _] Hu4 ->. pose proof (is_at_untouched _ _ _ _ Hu4 Hat3) as Hat4.
  assert (cur_ns s4 = cur_ns s) as Hc4 by by rewrite Ht4 Ht3 Ht2 Ht1.
  eapply stays_bind; [apply stays_on_err, stays_addrGenModeNone; by rewrite Hc4|].
  intros _ s5 [Ht5 _] Hu5 _. pose proof (is_at_untouched _ _ _ _ Hu5 Hat4) as Hat5.
  eapply stays_bind; [apply stays_on_err, stays_setNeighSuppression; by rewrite Ht5 Hc4|].
  intros _ s6 [Ht6 _] Hu6 _. pose proof (is_at_untouched _ _ _ _ Hu6 Hat5) as Hat6.
  apply stays_on_err, stays_LinkSetUp. by rewrite Ht6 Ht5 Hc4.
Qed.

(** *** In another namespace *)
Lemma stays_inNamespace {A} ns n (m : go W A) s Q :
  quiet m → handles (thr s) !! ns = Some n →
  (∀ h, stays m (enter n h s) Q) → stays (inNamespace ns m) s Q.
Proof.
  intros Hq Hh Hm. apply (wpo_inNamespace ns m s n); [done|done|]. intros h _.
  eapply wpo_mono; [exact (Hm h)|]. intros a s2 ([Ht Hn] & Hu & HQ) _. split_and!; [|exact Hu|done].
  split; [done|exact Hn].
Qed.

(** *** The pair *)
Definition paired (s : NetState) (hns tns : Z) (lh lp : Link) : Prop :=
  ∃ idh dh idp dp, devs s !! idh = Some dh ∧ dev_ns dh = hns ∧ dev_link dh = lh ∧ dev_peer dh = Some idp
    ∧ devs s !! idp = Some dp ∧ dev_ns dp = tns ∧ dev_link dp = lp.

Lemma paired_untouched s s' hns tns lh lp :
  untouched s s' → paired s hns tns lh lp → paired s' hns tns lh lp.
Proof.
  intros Hu (idh & dh & idp & dp & Hdh & Hhns & Hhl & Hpeer & Hdp & Hpns & Hpl).
  destruct (untouched_lookup _ _ _ _ Hu Hdh) as (dh' & Hdh' & []), (untouched_lookup _ _ _ _ Hu Hdp) as (dp' & Hdp' & []).
  exists idh, dh', idp, dp'. split_and!; congruence.
Qed.
Lemma legs_apart_untouched s s' : untouched s s' → legs_apart s → legs_apart s'.
Proof.
  intros Hu. apply legs_apart_from. intros id d' Hd'.
  destruct (untouched_from _ _ _ _ Hu Hd') as (d & Hd & Hs). exists d.
  destruct (steady_same _ _ Hs) as (? & ? & _). split_and!; [done..|apply (steady_peer _ _ Hs)|done].
Qed.
Lemma peer_named_untouched name s s' : untouched s s' → peer_named name s → peer_named name s'.
Proof.
  intros Hu Hp idh dh' idp dp' Hdh' Hn Hpe Hdp'.
  destruct (untouched_from _ _ _ _ Hu Hdh') as (dh & Hdh & Hsh), (untouched_from _ _ _ _ Hu Hdp') as (dp & Hdp & Hsp).
  rewrite (proj1 (proj2 (steady_same _ _ Hsp))). apply (Hp idh dh idp dp Hdh); [| |done].
  - by rewrite -(proj1 (proj2 (steady_same _ _ Hsh))).
  - by rewrite -(steady_peer _ _ Hsh).
Qed.
Lemma paired_only name s hns tns lh lp id d :
  wf s → legs_apart s → peer_named name s → link_name lh = (vethLegsForVRF name).1 →
  paired s hns tns lh lp → devs s !! id = Some d → dev_index d = link_index lp →
  dev_link d = lp ∧ dev_ns d = tns.
Proof.
  intros Hwf Hu Hpn Hn (idh & dh & idp & dp & Hdh & _ & Hhl & Hpeer & Hdp & Hpns & Hpl) Hd Hi.
  assert (dev_name dp = (vethLegsForVRF name).2) as Hnp by (apply (Hpn idh dh idp dp); congruence).
  subst lp. assert (id = idp) as -> by by apply (peer_alone name idh dh idp dp s id d).
  by assert (d = dp) as -> by congruence.
Qed.

Lemma stays_VethPeerIndex s tns lh lp :
  paired s (cur_ns s) tns lh lp → stays (VethPeerIndex lh) s (λ i, i = link_index lp).
Proof.
  intros (idh & dh & idp & dp & Hdh & Hhns & Hhl & Hpeer & Hdp & Hpns & Hpl). apply wpo_wf. intros Hwf.
  eapply wpo_sat; [apply VethPeerIndex_law|]. intros i s2 (-> & _ & Hi).
  destruct (Hi i eq_refl) as (id & d & idq & dq & Hdn & Hp & Hdq & ->). split_and!; [done|reflexivity|].
  assert (id = idh) as ->.
  { refine (wf_name _ Hwf _ _ _ _ _ _ Hdn _). split_and!; [exact Hdh|done|by rewrite -Hhl]. }
  destruct Hdn as [Hd _]. assert (d = dh) as -> by congruence. assert (idq = idp) as -> by congruence.
  assert (dq = dp) as -> by congruence. by rewrite -Hpl.
Qed.

(** Moving a device where it is. *)
Lemma stays_LinkSetNsFd s l h :
  is_at s (cur_ns s) l → handles (thr s) !! h = Some (cur_ns s) → stays (LinkSetNsFd (Some l) h) s (λ _, True).
Proof.
  intros _ Hh. eapply wpo_sat; [apply LinkSetNsFd_law|]. intros [] s3 (Hs3 & _ & Hmove).
  destruct (Hmove eq_refl) as (n & id3 & d3 & Hn3 & _ & Hdevs). split_and!; [done| |done].
  assert (n = cur_ns s) as -> by congruence. rewrite Z.eqb_refl in Hdevs. by apply untouched_devs.
Qed.

Lemma stays_setupVeth name ns tns lh lp s :
  legs_apart s → peer_named name s → handles (thr s) !! ns = Some tns → paired s (cur_ns s) tns lh lp →
  link_name lh = (vethLegsForVRF name).1 →
  stays (setupVeth name ns) s (λ r, r = (lh, Some lp)).
Proof.
  intros Hu Hpn Hh Hpair Hn. apply wpo_wf. intros Hwf.
  assert (is_at s (cur_ns s) lh ∧ is_veth lh = true) as [Hat Hk].
  { destruct Hpair as (idh & dh & idp & dp & Hdh & Hhns & Hhl & Hpeer & _). split; [by exists idh, dh|].
    rewrite -Hhl. apply (wf_peer_veth _ Hwf _ _ Hdh). congruence. }
  unfold setupVeth. cbn [vethLegsForVRF].
  eapply stays_bind; [by apply (stays_ensure _ _ _ _ _ lh)|]. intros [o vh] s1 [Ht1 _] Hu1 [= -> ->].
  eapply stays_bind; [apply stays_on_err, (stays_VethPeerIndex s1 tns lh lp)|].
  { rewrite Ht1. exact (paired_untouched _ _ _ _ _ _ Hu1 Hpair). }
  intros i s2 [Ht2 _] Hu2 ->. assert (untouched s s2) as Hu02 by (etransitivity; [exact Hu1|exact Hu2]).
  apply wpo_wf. intros Hwf2.
  pose proof (λ id d, paired_only name s2 _ _ _ _ id d Hwf2 (legs_apart_untouched _ _ Hu02 Hu)
    (peer_named_untouched _ _ _ Hu02 Hpn) Hn (paired_untouched _ _ _ _ _ _ Hu02 Hpair)) as Honly.
  assert (handles (thr s2) !! ns = Some tns) as Hh2 by by rewrite Ht2 Ht1.
  apply wp_bind, wp_attempt. eapply wp_sat; [apply LinkByIndex_law|]. intros [l|e|] s3 [-> Hlk]; [| |done].
  - destruct Hlk as (id & d & Hd & Hns & Hi & ->). destruct (Honly id d Hd Hi) as [Hl Hdns].
    eapply stays_bind; [apply stays_err_with_name, stays_LinkSetNsFd; [by exists id, d|congruence]|].
    intros _ s3 _ _ _. eapply stays_bind; [apply (wpo_lift _ _ (λ _ s', silent s3 s' ∧ untouched s3 s' ∧ True))|].
    { intros _ _. split_and!; [done|reflexivity|done]. }
    intros _ s4 _ _ _. apply stays_ret. by rewrite Hl.
  - destruct (is_link_not_found e).
    + apply (stays_bind _ _ _ (λ l, l = lp)); [apply stays_on_err|by intros l s3 _ _ ->; apply stays_ret].
      apply (stays_inNamespace ns tns); [auto with pierre|done|]. intros h.
      eapply wpo_sat; [apply LinkByIndex_law|]. intros l s3 (-> & id & d & Hd & _ & Hi & ->).
      split_and!; [done|reflexivity|]. by destruct (Honly id d Hd Hi) as [? _].
    + apply (stays_bind _ _ _ (λ _, False)); [apply stays_err_with_name|done].
      eapply wpo_sat; [apply nil_link_law|]. by intros [] ? [_ ?].
Qed.

(** *** A VNI that is configured *)

(** Where the devices of a configured VNI are. *)
Record vni_at (p : VNIParams.t) (hns tns : Z) (s : NetState) (lh lp lv lb lx lo : Link) : Prop := {
  at_pair : paired s hns tns lh lp;
  at_host : link_name lh = (vethLegsForVRF (VNIParams.VRF p)).1 ∧ has_addr s hns lh (VNIParams.VethHostIP p);
  at_router : has_addr s tns lp (VNIParams.VethNSIP p) ∧ link_master lp = link_index lv;
  at_vrf : is_at s tns lv ∧ link_name lv = VNIParams.VRF p ∧ is_vrf lv = true;
  at_bridge : is_at s tns lb ∧ link_name lb = bridgeName (VNIParams.VNI p) ∧ is_bridge lb = true;
  at_loopback : is_at s tns lo ∧ link_name lo = UnderlayLoopback;
  at_vxlan : is_at s tns lx ∧ link_name lx = vxLanName (VNIParams.VNI p)
    ∧ vxlan_configured lx (link_index lb) (link_index lo) p }.

Lemma configured_at p hns tns s :
  vni_configured p hns tns s → ∃ lh lp lv lb lx lo, vni_at p hns tns s lh lp lv lb lx lo.
Proof.
  intros [(idh & dh & idp & dp & idv & dv & Hdh & Hh1 & Hh2 & Hh3 & Hh4 & Hh5 & Hdp & Hp1 & Hp2
      & Hp3 & Hp4 & Hdv & Hv1 & Hv2 & Hv3 & Hv4 & Hm)
    (idb & db & idx & dx & idl & dl & Hdb & Hb1 & Hb2 & Hb3 & Hb4 & Hb5 & Hdl & Hl1 & Hl2 & Hdx
      & Hx1 & Hx2 & Hx3 & Hx4 & Hx5 & Hx6)].
  exists (dev_link dh), (dev_link dp), (dev_link dv), (dev_link db), (dev_link dx), (dev_link dl). split.
  - by exists idh, dh, idp, dp.
  - split; [exact Hh2|]. by exists idh, dh.
  - split; [by exists idp, dp|exact Hm].
  - split_and!; [by exists idv, dv|done..].
  - split_and!; [by exists idb, db|done..].
  - split; [by exists idl, dl|done].
  - split_and!; [by exists idx, dx|done..].
Qed.
Lemma vni_at_untouched p hns tns s s' lh lp lv lb lx lo :
  untouched s s' → vni_at p hns tns s lh lp lv lb lx lo → vni_at p hns tns s' lh lp lv lb lx lo.
Proof.
  intros Hu [Hp [Hn Hh] [Hr Hm] [Hv Hv'] [Hb Hb'] [Hl Hl'] [Hx Hx']].
  split; [exact (paired_untouched _ _ _ _ _ _ Hu Hp)|split|split|split|split|split|split]; try done;
    first [by apply (has_addr_untouched s)|by apply (is_at_untouched s)].
Qed.
Lemma vni_at_devs p hns tns s s' lh lp lv lb lx lo :
  devs s' = devs s → vni_at p hns tns s lh lp lv lb lx lo → vni_at p hns tns s' lh lp lv lb lx lo.
Proof. intros Hd. by apply vni_at_untouched, untouched_devs. Qed.

Lemma stays_setupVNIInNamespace p hns s lh lp lv lb lx lo :
  canonical_addr W (VNIParams.VethNSIP p) → vni_at p hns (cur_ns s) s lh lp lv lb lx lo →
  stays (setupVNIInNamespace p (Some lp)) s (λ _, True).
Proof.
  intros Hcan Hat. unfold setupVNIInNamespace.
  eapply stays_bind; [by apply stays_assignIP, (at_router _ _ _ _ _ _ _ _ _ _ Hat)|].
  intros _ s1 [Ht1 _] Hu1 _. pose proof (vni_at_untouched _ _ _ _ _ _ _ _ _ _ _ Hu1 Hat) as Hat1.
  assert (cur_ns s1 = cur_ns s) as Hc1 by by rewrite Ht1. rewrite -Hc1 in Hat1.
  eapply stays_bind; [apply stays_on_err, stays_LinkSetUp, (has_addr_at _ _ _ _ (proj1 (at_router _ _ _ _ _ _ _ _ _ _ Hat1)))|].
  intros _ s2 [Ht2 _] Hu2 _. pose proof (vni_at_untouched _ _ _ _ _ _ _ _ _ _ _ Hu2 Hat1) as Hat2.
  assert (cur_ns s2 = cur_ns s1) as Hc2 by by rewrite Ht2. rewrite -Hc2 in Hat2.
  eapply stays_bind; [by apply stays_setupVRF; apply (at_vrf _ _ _ _ _ _ _ _ _ _ Hat2)|].
  intros v s3 [Ht3 _] Hu3 ->. pose proof (vni_at_untouched _ _ _ _ _ _ _ _ _ _ _ Hu3 Hat2) as Hat3.
  assert (cur_ns s3 = cur_ns s2) as Hc3 by by rewrite Ht3. rewrite -Hc3 in Hat3.
  eapply stays_bind; [apply stays_err_with_name, stays_LinkSetMaster;
    [apply (has_addr_at _ _ _ _ (proj1 (at_router _ _ _ _ _ _ _ _ _ _ Hat3)))|apply (at_router _ _ _ _ _ _ _ _ _ _ Hat3)]|].
  intros _ s4 [Ht4 _] Hu4 _. pose proof (vni_at_untouched _ _ _ _ _ _ _ _ _ _ _ Hu4 Hat3) as Hat4.
  assert (cur_ns s4 = cur_ns s3) as Hc4 by by rewrite Ht4. rewrite -Hc4 in Hat4.
  eapply stays_bind; [by apply stays_setupBridge; apply (at_bridge _ _ _ _ _ _ _ _ _ _ Hat4)|].
  intros b s5 [Ht5 _] Hu5 ->. pose proof (vni_at_untouched _ _ _ _ _ _ _ _ _ _ _ Hu5 Hat4) as Hat5.
  assert (cur_ns s5 = cur_ns s4) as Hc5 by by rewrite Ht5. rewrite -Hc5 in Hat5.
  destruct (at_loopback _ _ _ _ _ _ _ _ _ _ Hat5) as [Hl Hln], (at_vxlan _ _ _ _ _ _ _ _ _ _ Hat5) as (Hx & Hxn & Hcfg).
  by apply (stays_setupVXLan p lb lo lx).
Qed.

(** A second [SetupVNI] leaves every device as it is. *)
Lemma wpo_SetupVNI_steady p tns s :
  vni_possible p tns s → vni_configured p (cur_ns s) tns s →
  wpo (SetupVNI p) s (λ _ s', untouched s s').
Proof.
  intros [Hns Hu Hpn [Hc1 Hc2] _] (lh & lp & lv & lb & lx & lo & Hat)%configured_at.
  unfold SetupVNI. do 2 wpo_step. eapply wpo_sat; [apply GetFromName_law|].
  intros ns s1 (_ & n & Hn & Hfresh & ->). assert (n = tns) as -> by congruence. set (s1 := set_thr _ s).
  assert (handles (thr s1) !! ns = Some tns) as Hh1 by (cbn; by rewrite lookup_insert_eq).
  apply (vni_at_devs _ _ _ s s1) in Hat; [|done]. change (cur_ns s) with (cur_ns s1) in Hat.
  change (wpo (setupVeth (VNIParams.VRF p) ns ≫= λ '(hostVeth, peVeth),
    _ ← assignIPToInterface (Some hostVeth) (VNIParams.VethHostIP p);
    _ ← on_errM (λ _, errorf "could not set link up for host leg %s: %v" []) (LinkSetUp (Some hostVeth));
    inNamespace ns (setupVNIInNamespace p peVeth)) s1 (λ _ s', untouched s1 s')).
  apply (wpo_mono _ _ (λ _ s', silent s1 s' ∧ untouched s1 s' ∧ True)); [|tauto].
  eapply stays_bind; [apply (stays_setupVeth _ ns tns lh lp); [done|exact Hpn|done|apply Hat|apply Hat]|].
  intros r s2 [Ht2 _] Hu2 ->. pose proof (vni_at_untouched _ _ _ _ _ _ _ _ _ _ _ Hu2 Hat) as Hat2.
  assert (cur_ns s2 = cur_ns s1) as Hc by by rewrite Ht2.
  eapply stays_bind; [by apply stays_assignIP; rewrite ?Hc; [|apply Hat2]|].
  intros _ s3 [Ht3 _] Hu3 _. pose proof (vni_at_untouched _ _ _ _ _ _ _ _ _ _ _ Hu3 Hat2) as Hat3.
  assert (cur_ns s3 = cur_ns s1) as Hc3 by by rewrite Ht3 Hc.
  eapply stays_bind; [apply stays_on_err, stays_LinkSetUp; rewrite Hc3; eapply has_addr_at, Hat3|].
  intros _ s4 [Ht4 _] Hu4 _. pose proof (vni_at_untouched _ _ _ _ _ _ _ _ _ _ _ Hu4 Hat3) as Hat4.
  apply (stays_inNamespace ns tns _ _ (λ _, True)); [apply quiet_setupVNIInNamespace|by rewrite Ht4 Ht3 Ht2|].
  intros h. apply (stays_setupVNIInNamespace p (cur_ns s1) _ lh lp lv lb lx lo Hc2).
  exact (vni_at_devs _ _ _ s4 (enter tns h s4) _ _ _ _ _ _ eq_refl Hat4).
Qed.

(** *** What is known of a node stays true *)
Lemma configured_untouched p hns tns s s' :
  untouched s s' → vni_configured p hns tns s → vni_configured p hns tns s'.
Proof.
  intros Hu [(idh & dh & idp & dp & idv & dv & Hdh & Hh1 & Hh2 & Hh3 & Hh4 & Hh5 & Hdp & Hp1 & Hp2
      & Hp3 & Hp4 & Hdv & Hv1 & Hv2 & Hv3 & Hv4 & Hm)
    (idb & db & idx & dx & idl & dl & Hdb & Hb1 & Hb2 & Hb3 & Hb4 & Hb5 & Hdl & Hl1 & Hl2 & Hdx
      & Hx1 & Hx2 & Hx3 & Hx4 & Hx5 & Hx6)].
  destruct (untouched_lookup _ _ _ _ Hu Hdh) as (dh' & Hdh' & [A1 A2 A3 A4 A5 A6 A7 _]).
  destruct (untouched_lookup _ _ _ _ Hu Hdp) as (dp' & Hdp' & [B1 B2 B3 B4 B5 B6 B7 _]).
  destruct (untouched_lookup _ _ _ _ Hu Hdv) as (dv' & Hdv' & [C1 C2 C3 C4 _ _ _ _]).
  destruct (untouched_lookup _ _ _ _ Hu Hdb) as (db' & Hdb' & [D1 D2 D3 D4 D5 _ _ _]).
  destruct (untouched_lookup _ _ _ _ Hu Hdx) as (dx' & Hdx' & [E1 E2 E3 E4 E5 E6 _ _]).
  destruct (untouched_lookup _ _ _ _ Hu Hdl) as (dl' & Hdl' & [F1 F2 _ _ _ _ _ _]).
  unfold dev_name, dev_index, dev_master in *. split.
  - exists idh, dh', idp, dp', idv, dv'. rewrite A1 A2 A3 B1 B2 C1 C2. split_and!; auto.
  - exists idb, db', idx, dx', idl, dl'. unfold dev_name, dev_index, dev_master.
    rewrite D1 D2 E1 E2 F1 F2. split_and!; auto.
Qed.

Lemma kinded_untouched ok n s s' : untouched s s' → kinded ok n s → kinded ok n s'.
Proof.
  intros Hu Hk id d' Hd' Hn. destruct (untouched_from _ _ _ _ Hu Hd') as (d & Hd & Hs).
  rewrite (steady_link _ _ Hs). apply (Hk id d Hd). by rewrite -(proj1 (proj2 (steady_same _ _ Hs))).
Qed.

Lemma named_untouched s s' ns n id d :
  untouched s s' → dev_named s ns n id d → ∃ d', dev_named s' ns n id d' ∧ steady_dev d d'.
Proof.
  intros Hu (Hd & Hns & Hn). destruct (untouched_lookup _ _ _ _ Hu Hd) as (d' & Hd' & Hs). exists d'.
  split; [|done]. split_and!; [done|by rewrite (steady_ns _ _ Hs)|].
  by rewrite (proj1 (proj2 (steady_same _ _ Hs))).
Qed.

Lemma named_from s s' ns n id d' :
  untouched s s' → dev_named s' ns n id d' → ∃ d, dev_named s ns n id d ∧ steady_dev d d'.
Proof.
  intros Hu (Hd' & Hns & Hn). destruct (untouched_from _ _ _ _ Hu Hd') as (d & Hd & Hs). exists d.
  split; [|done]. split_and!; [done|by rewrite -(steady_ns _ _ Hs)|].
  by rewrite -(proj1 (proj2 (steady_same _ _ Hs))).
Qed.

Lemma legs_untouched name hns tns s s' :
  untouched s s' → legs_ready name hns tns s → legs_ready name hns tns s'.
Proof.
  intros Hu [Habs|(idh & dh & idp & dp & [Hh Hp Hdp Hn Hns])].
  - left. intros id d' Hd'. destruct (untouched_from _ _ _ _ Hu Hd') as (d & Hd & Hs).
    rewrite (proj1 (proj2 (steady_same _ _ Hs))). exact (Habs id d Hd).
  - right. destruct (named_untouched _ _ _ _ _ _ Hu Hh) as (dh' & Hh' & Hsh).
    destruct (untouched_lookup _ _ _ _ Hu Hdp) as (dp' & Hdp' & Hsp).
    exists idh, dh', idp, dp'. split; [done|by rewrite (steady_peer _ _ Hsh)|done|..].
    + by rewrite (proj1 (proj2 (steady_same _ _ Hsp))).
    + rewrite (steady_ns _ _ Hsp). destruct Hns as [?|[Hns Honly]]; [by left|right]. split; [done|].
      intros id d' Hd' Hnd. destruct (untouched_from _ _ _ _ Hu Hd') as (d & Hd & Hs).
      apply (Honly id d Hd). by rewrite -(proj1 (proj2 (steady_same _ _ Hs))).
Qed.

Lemma startable_untouched p hns tns s s' :
  untouched s s' → named s' = named s → vni_startable p hns tns s → vni_startable p hns tns s'.
Proof.
  intros Hu Hnm [Hv Hns Hi Hp Hl H1' H2' H3' Hx].
  split; [done|by rewrite Hnm|exact (legs_apart_untouched _ _ Hu Hi)|exact (peer_named_untouched _ _ _ Hu Hp)|exact (legs_untouched _ _ _ _ _ Hu Hl)
    |by apply (kinded_untouched _ _ s)..|].
  - intros id d' port l a v Hd' Hk. destruct (untouched_from _ _ _ _ Hu Hd') as (d & Hd & Hs).
    rewrite (proj1 (proj2 (steady_same _ _ Hs))). apply (Hx id d port l a v Hd). by rewrite -(steady_link _ _ Hs).
Qed.
End steady.

(** ** All VNIs *)
Section steady_vnis.
Context {W : Type} `{NetlinkLaws W, !Untroubled W}.

Lemma wpo_SetupVNIs_steady vps tns s :
  Forall (λ p, vni_startable p (cur_ns s) tns s ∧ vni_configured p (cur_ns s) tns s) vps →
  wpo (forM_ SetupVNI vps) s (λ _ s', untouched s s' ∧ cur_ns s' = cur_ns s ∧ named s' = named s).
Proof.
  revert s. induction vps as [|p vps IH]; intros s Hps; cbn [forM_].
  { wpo_step. split_and!; [reflexivity|done..]. }
  apply list.Forall_cons in Hps as [[Hst Hcfg] Hps]. wpo_step.
  eapply wpo_mono; [apply wpo_conj; [apply (wpo_SetupVNI_steady p tns s); [by apply (startable_possible (W:=W)) in Hst|done]
    |apply wpo_SetupVNI_thread]|].
  intros [] s1 (Hu & Hc & Hn). eapply wpo_mono; [apply (IH s1)|].
  - rewrite Hc. eapply Forall_impl; [|exact Hps]. intros q [Hs Hq].
    split; [by apply (startable_untouched q _ _ s)|by apply (configured_untouched q _ _ s)].
  - intros _ s2 (Hu2 & Hc2 & Hn2). split_and!; [etransitivity; [exact Hu|exact Hu2]|congruence..].
Qed.
End steady_vnis.

(** ** The node *)
Section steady_node.
Context {W : Type} `{NetlinkLaws W, !Untroubled W} {cap : nat} `{!NetlinkProgress W cap}.

(** The configuration can be made, and it is made: the underlay is set up, its interface is
    the only one that is marked, and every VNI is configured. *)
Record node_steady (up : UnderlayParams.t) (vps : list VNIParams.t) (tns : Z) (s : NetState) : Prop := {
  steady_start : node_startable W cap up vps tns s;
  steady_underlay : underlay_settled up tns s;
  steady_vnis : Forall (λ p, vni_configured p (cur_ns s) tns s) vps }.

Lemma plain_steady d d' : steady_dev d d' → plain d → plain d'.
Proof. unfold plain. intros []. congruence. Qed.

Lemma possible_untouched up tns s s' :
  untouched s s' → named s' = named s → underlay_possible (W:=W) up tns s → underlay_possible (W:=W) up tns s'.
Proof.
  intros Hu Hn [? ? ? ? Hlo]. split; try done; [by rewrite Hn|]. intros id d' Hd'.
  destruct (named_from _ _ _ _ _ _ Hu Hd') as (d & Hd & Hs). destruct (Hlo id d Hd) as [Hp Hm].
  split; [exact (plain_steady _ _ Hs Hp)|]. intros Hin. by apply Hm, (steady_mark _ _ Hs).
Qed.

Lemma movable_untouched nic tns s s' :
  untouched s s' → cur_ns s' = cur_ns s → nics_movable nic tns s → nics_movable nic tns s'.
Proof.
  intros Hu Hc [(id & d & Hp & Hnew) Hold]. split.
  - rewrite Hc. destruct Hnew as [Hn|[Hn Hm]]; destruct (named_untouched _ _ _ _ _ _ Hu Hn) as (d' & Hd' & Hs).
    + exists id, d'. split; [exact (plain_steady _ _ Hs Hp)|by left].
    + exists id, d'. split; [exact (plain_steady _ _ Hs Hp)|right]. split; [done|].
      unfold movable in *. by rewrite (steady_link _ _ Hs).
  - intros id' d' Hd' Hns Hm Hne. destruct (untouched_from _ _ _ _ Hu Hd') as (e & He & Hs).
    destruct (steady_same _ _ Hs) as (_ & Hn & _). unfold movable. rewrite (steady_link _ _ Hs).
    apply (Hold id' e He); [by rewrite -(steady_ns _ _ Hs)|by apply (steady_mark _ _ Hs)|by rewrite -Hn].
Qed.

Lemma node_startable_untouched up vps tns s s' :
  untouched s s' → cur_ns s' = cur_ns s → named s' = named s →
  node_startable W cap up vps tns s → node_startable W cap up vps tns s'.
Proof.
  intros Hu Hc Hn [Hp Hv Hm Hnic Hvs Hf Hmark Hroom].
  split; [exact (possible_untouched _ _ _ _ Hu Hn Hp)|done|exact (movable_untouched _ _ _ _ Hu Hc Hm)| | |done| |].
  - intros id d' Hd' Hdn. destruct (untouched_from _ _ _ _ Hu Hd') as (d & Hd & Hs).
    apply (plain_steady _ _ Hs), (Hnic id d Hd). by rewrite -(proj1 (proj2 (steady_same _ _ Hs))).
  - rewrite Hc. eapply Forall_impl; [|exact Hvs]. intros p. by apply startable_untouched.
  - eapply Forall_impl; [|exact Hmark]. intros p Hno id d' Hd' Hdn Hin.
    destruct (untouched_from _ _ _ _ Hu Hd') as (d & Hd & Hs). apply (Hno id d Hd);
      [by rewrite -(proj1 (proj2 (steady_same _ _ Hs)))|by apply (steady_mark _ _ Hs)].
  - by rewrite (untouched_size _ _ Hu).
Qed.

Lemma settled_untouched up tns s s' : untouched s s' → underlay_settled up tns s → underlay_settled up tns s'.
Proof.
  intros Hu [[(idl & dl & Hl & Hv & Hp) (idn & dn & Hnn & Hm)] Honly Hne]. split; [split|..].
  - destruct (named_untouched _ _ _ _ _ _ Hu Hl) as (dl' & Hl' & Hs). exists idl, dl'.
    split_and!; [done|by apply (steady_addrs _ _ Hs)|exact (plain_steady _ _ Hs Hp)].
  - destruct (named_untouched _ _ _ _ _ _ Hu Hnn) as (dn' & Hn' & Hs). exists idn, dn'.
    split; [done|by apply (steady_addrs _ _ Hs)].
  - intros id d' Hd' Hns Hin. destruct (untouched_from _ _ _ _ Hu Hd') as (d & Hd & Hs).
    destruct (steady_same _ _ Hs) as (_ & -> & _).
    apply (Honly id d Hd); [by rewrite -(steady_ns _ _ Hs)|by apply (steady_mark _ _ Hs)].
  - done.
Qed.

Lemma node_steady_untouched up vps tns s s' :
  untouched s s' → cur_ns s' = cur_ns s → named s' = named s →
  node_steady up vps tns s → node_steady up vps tns s'.
Proof.
  intros Hu Hc Hn [Hst Hun Hvs]. split.
  - by apply (node_startable_untouched _ _ _ s).
  - by apply (settled_untouched _ _ s).
  - rewrite Hc. eapply Forall_impl; [|exact Hvs]. intros p. by apply configured_untouched.
Qed.

(** Configuring a node that is configured. *)
Lemma configure_steady up vps tns w :
  node_steady up vps tns (view w) →
  ∃ w', configureHost up vps w = (Ok tt, w')
    ∧ untouched (view w) (view w') ∧ node_steady up vps tns (view w').
Proof.
  intros Hst. pose proof Hst as [Hstart Hun Hvs].
  destruct (configure_succeeds up vps tns w Hstart) as (w' & Hr & _). exists w'.
  pose proof Hr as (w1 & Hr1 & Hr2)%configureHost_Ok.
  pose proof (wpo_Ok _ _ w tt w1 (wpo_SetupUnderlay_again up tns _ (live_underlay _ _ _ _ Hstart) Hun) Hr1) as Hd1.
  destruct (wpo_Ok _ _ w tt w1 (wpo_SetupUnderlay_thread up (view w)) Hr1) as [Hc1 Hn1].
  pose proof (untouched_devs _ _ Hd1) as Hu1.
  assert (Forall (λ p, vni_startable p (cur_ns (view w1)) tns (view w1)
    ∧ vni_configured p (cur_ns (view w1)) tns (view w1)) vps) as Hready.
  { rewrite Hc1. apply list.Forall_forall. intros p Hp. split.
    - apply (startable_untouched p _ _ (view w)); [done..|].
      exact (proj1 (list.Forall_forall _ _) (live_vnis _ _ _ _ Hstart) p Hp).
    - apply (configured_untouched p _ _ (view w)); [done|]. exact (proj1 (list.Forall_forall _ _) Hvs p Hp). }
  destruct (wpo_Ok _ _ w1 tt w' (wpo_SetupVNIs_steady vps tns (view w1) Hready) Hr2) as (Hu2 & Hc2 & Hn2).
  assert (untouched (view w) (view w')) as Hu by (etransitivity; [exact Hu1|exact Hu2]).
  split_and!; [done..|]. apply (node_steady_untouched _ _ _ (view w)); [done|congruence..|done].
Qed.
End steady_node.
Arguments node_steady W {_} cap up vps tns s.

(** On the detour. *)
Lemma detour_steady {W F} `{NetlinkLaws W, NetlinkLaws F, !Refuge W F} cap up vps tns s :
  node_steady W cap up vps tns s ↔ node_steady (W + F) cap up vps tns s.
Proof.
  split; intros [[[] Hrest] Hu Hv]; (split; [split; [by split|done..]|done|done]).
Qed.

(** ** The reconciliation *)
Section steady_reconcile.
Context {W : Type} `{NetlinkLaws W, GoCidr, Sort, OutsideLaws W serves path}.
Context {cap : nat} `{!NetlinkProgress W cap}.
Context (osHostname : go W string) (json_Unmarshal : string → res PodSandboxStatusInfo.t).
Context (r : PERouterReconciler.t W) `{!Apart (PERouterReconciler.Client r) osHostname}.

(** C4. Reconciling is idempotent.  On a node where the configuration is in place, and while
    what is outside answers, a reconciliation succeeds, gives FRR the same configuration
    again and leaves the devices as they are: none is made, deleted, moved or renamed, none
    gets another index, type, master or peer, and none loses an address or goes down.  The
    configuration is in place afterwards too, so the next reconciliation succeeds again,
    and so on.  This is of runs without the troubles the code does not see: no router's
    leg shares its index with another device, at the start or when a device is made or
    moved, every switch of namespace is let through, and looking the loopback up fails
    only when it is not there. *)
Theorem Reconcile_steady (calm : W → Prop) w idx pod us vs up vps w1 tns :
  answers osHostname json_Unmarshal r calm w idx pod us vs up vps w1 → node_steady W cap up vps tns (view w) →
  Reconcile_troubles osHostname json_Unmarshal r w = [] →
  ∃ w2 w', Reconcile osHostname json_Unmarshal r w = (Ok tt, w')
    ∧ frr_loaded (frr_data r idx pod us vs) w1 w2
    ∧ untouched (view w) (view w') ∧ node_steady W cap up vps tns (view w').
Proof.
  intros Hans Hst Htr.
  destruct (Reconcile_reaches osHostname json_Unmarshal r _ _ _ _ _ _ _ _ _ Hans) as (w2 & w3 & Hload & Hk & Hrun & Hth).
  rewrite Hth in Htr. pose proof Hk as [[Ht Hn] Hd]. pose proof (untouched_devs _ _ Hd) as Hu3.
  assert (node_steady W cap up vps tns (view w3)) as Hst3
    by (apply (node_steady_untouched _ _ _ (view w)); [done|by rewrite Ht|done|done]).
  apply (detour_steady (F:=spare (room cap))) in Hst3.
  destruct (configure_steady (W:=detoured W (room cap)) up vps tns (inl w3) Hst3) as (x & Hr & Hu & Hst').
  from_detour (λ W (_ : Netlink W), configureHost up vps) Hr Htr w'.
  exists w2, w'. split; [by rewrite Hrun|]. split_and!; [done| |by apply detour_steady in Hst'].
  etransitivity; [exact Hu3|exact Hu].
Qed.
End steady_reconcile.
