(* ===== verification/Settles.v ===== *)
(** * A first reconciliation leads to a steady node

    Two more accounts in the sense of the file Origins: the devices called like those of a
    VNI stay of the right types, and no call but one marks a device as the underlay.  With
    them the state a first successful run leaves is one in which nothing more happens. *)

From S2P Require Import Prelude GoStrings GoNet Api Ipam Frr HostParams Conversion.
From S2P Require Import Netlink Troubles NetLogic HostLinks LinkSpecs Progress Held Faults Origins LinkProgress VethSpecs SimKernel SimProgress.
From S2P Require Import HostNetwork HostSpecs Twins Detour VniSpecs VniProgress Underlay UnderlayProgress.
From S2P Require Import Reload Pods Cluster Controller Watched Outcome Again Live Steady.
Local Open Scope Z_scope.

(** ** What is new after a request *)

(** Every device of the new state is an old one, the one asked for, or its peer. *)
Lemma added_lookup req s id d s' i e :
  added_as req s id d s' → devs s' !! i = Some e →
  devs s !! i = Some e ∨ (i = id ∧ e = d)
  ∨ ∃ peer, Kind req = Veth peer ∧ dev_name e = peer ∧ is_veth (dev_link e) = true ∧ dev_addrs e = []
      ∧ dev_peer d = Some i ∧ dev_peer e = Some id.
Proof.
  intros (_ & _ & _ & _ & Hk). destruct (Kind req) as [| |peer| | |] eqn:Ek.
  3: { destruct Hk as (idp & dp & _ & _ & _ & Hn & Hv & Hp & Hpp & [_ Ha] & ->).
    rewrite !lookup_insert_Some. intros [[<- <-]|[_ [[<- <-]|[_ He]]]]; [by right; left| |by left].
    right; right. by exists peer. }
  all: destruct Hk as [_ ->]; rewrite lookup_insert_Some; intros [[<- <-]|[_ He]]; [by right; left|by left].
Qed.
Lemma added_peer req s id d s' :
  added_as req s id d s' →
  match Kind req with
  | Veth peer => ∃ idp dp, devs s !! idp = None ∧ dev_name dp = peer ∧ dev_peer d = Some idp ∧ devs s' !! idp = Some dp
  | _ => dev_peer d = None
  end.
Proof.
  intros (_ & _ & _ & _ & Hk). destruct (Kind req); try (by destruct Hk).
  destruct Hk as (idp & dp & Hf & Hne & _ & Hn & _ & Hp & _ & _ & ->). exists idp, dp.
  split_and!; [done..|]. rewrite lookup_insert_ne; [|by apply not_eq_sym]. apply lookup_insert_eq.
Qed.

(** ** The types of the devices of a VNI *)
Record vni_fits (p : VNIParams.t) (s : NetState) : Prop := {
  fits_peer : peer_named (VNIParams.VRF p) s;
  fits_vrf : kinded is_vrf (VNIParams.VRF p) s;
  fits_bridge : kinded is_bridge (bridgeName (VNIParams.VNI p)) s;
  fits_vxlan : kinded is_vxlan (vxLanName (VNIParams.VNI p)) s }.

Lemma kinded_mild ok n s s' : type_check ok → mild s s' → kinded ok n s → kinded ok n s'.
Proof. intros Hok Hm. exact (kinded_tamed ok n [] s s' Hok (mild_tamed _ _ _ Hm) (not_elem_of_nil _)). Qed.
Lemma peer_named_mild n s s' : mild s s' → peer_named n s → peer_named n s'.
Proof.
  intros Hm Hp idh dh' idp dp' Hdh' Hn Hpe Hdp'.
  destruct (mild_from _ _ Hm _ _ Hdh') as (dh & Hdh & Hhn & Hhp & _), (mild_from _ _ Hm _ _ Hdp') as (dp & Hdp & Hpn & _).
  rewrite Hpn. apply (Hp idh dh idp dp Hdh); [congruence..|done].
Qed.
Lemma fits_mild p s s' : mild s s' → vni_fits p s → vni_fits p s'.
Proof.
  intros Hm [Hp H1' H2' H3']. split; [exact (peer_named_mild _ _ _ Hm Hp)|..].
  - by apply (kinded_mild _ _ s); [auto with pierre|..].
  - by apply (kinded_mild _ _ s); [auto with pierre|..].
  - by apply (kinded_mild _ _ s); [auto with pierre|..].
Qed.

Definition fits_account (p : VNIParams.t) : account.
  refine {| sums _ s s' := vni_fits p s → vni_fits p s'; addressable _ := True; droppable := True |}.
  - done.
  - intros _ s s' Hm _ _. exact (fits_mild p s s' Hm).
  - auto.
Defined.

#[export] Instance fits_drops p : Drops (fits_account p) := I.

(** The requests that keep it: a device of one of the names has the right type. *)
Definition asks (ok : Link → bool) (n : string) (req : Link) : Prop :=
  (link_name req = n → ok req = true) ∧ ∀ peer, Kind req = Veth peer → peer ≠ n.
Definition asks_pair (n : string) (req : Link) : Prop :=
  ∀ peer, Kind req = Veth peer →
    (link_name req = (vethLegsForVRF n).1 → peer = (vethLegsForVRF n).2)
    ∧ (peer = (vethLegsForVRF n).1 → link_name req = (vethLegsForVRF n).2).

Lemma kinded_added ok n req s id d s' :
  type_check ok → asks ok n req → added_as req s id d s' → kinded ok n s → kinded ok n s'.
Proof.
  intros Hok [Hreq Hpeer] Hadd Hk i e He Hn. pose proof Hadd as (_ & (_ & Hdn & _ & Hdk) & _).
  destruct (added_lookup _ _ _ _ _ _ _ Hadd He) as [Hold|[[-> ->]|(peer & Hv & Hnp & _)]].
  - exact (Hk i e Hold Hn).
  - rewrite (Hok _ _ Hdk). apply Hreq. congruence.
  - destruct (Hpeer peer Hv). congruence.
Qed.
Lemma peer_named_added n req s id d s' :
  wf s' → asks_pair n req → added_as req s id d s' → peer_named n s → peer_named n s'.
Proof.
  intros Hwf Hreq Hadd Hp idh dh idp dp Hdh Hn Hpe Hdp.
  pose proof Hadd as (Hfresh & (_ & Hdn & _) & _). pose proof (added_peer _ _ _ _ _ Hadd) as Hpeer.
  assert (devs s' !! id = Some d) as Hd by exact (added_dev _ _ _ _ _ Hadd).
  destruct (wf_peer _ Hwf _ _ _ _ Hdh Hdp Hpe) as [Hpe' _].
  destruct (added_lookup _ _ _ _ _ _ _ Hadd Hdh) as [Hold|[[-> ->]|(peer & Hv & Hnp & _ & _ & Hdi & Hdq)]].
  - destruct (added_lookup _ _ _ _ _ _ _ Hadd Hdp) as [Hdp0|[[-> ->]|(peer & Hv & _ & _ & _ & Hdi & Hdq)]].
    + exact (Hp idh dh idp dp Hold Hn Hpe Hdp0).
    + exfalso. destruct (Kind req); try congruence. destruct Hpeer as (idq & dq & Hq & _ & Hdq & _). congruence.
    + exfalso. congruence.
  - destruct (Kind req) as [| |peer| | |] eqn:Ek; try congruence. destruct Hpeer as (idq & dq & _ & Hqn & Hdq & Hq).
    assert (dp = dq) as -> by congruence. rewrite Hqn. apply (Hreq peer Ek). congruence.
  - assert (idp = id) as -> by congruence. assert (dp = d) as -> by congruence. rewrite Hdn.
    apply (Hreq peer Hv). congruence.
Qed.

Definition fitting (p : VNIParams.t) (req : Link) : Prop :=
  asks_pair (VNIParams.VRF p) req ∧ asks is_vrf (VNIParams.VRF p) req
  ∧ asks is_bridge (bridgeName (VNIParams.VNI p)) req ∧ asks is_vxlan (vxLanName (VNIParams.VNI p)) req.

(** Whatever the master. *)
Lemma asks_any ok n m req : type_check ok → asks ok n req → asks ok n (set_MasterIndex m req).
Proof. intros Hok [Hn Hp]. split; [|exact Hp]. intros Hl. rewrite -(Hn Hl). apply Hok, same_kind_refl. Qed.

Lemma fits_allowed p req : fitting p req → allowed (fits_account p) req.
Proof.
  intros (Hp & Hv & Hb & Hx) m k s id d s' Hwf _ Hadd [F1 F2 F3 F4]. split.
  - exact (peer_named_added _ (set_MasterIndex m req) _ _ _ _ Hwf Hp Hadd F1).
  - exact (kinded_added is_vrf _ _ s id d _ type_check_vrf (asks_any _ _ m _ type_check_vrf Hv) Hadd F2).
  - exact (kinded_added is_bridge _ _ s id d _ type_check_bridge (asks_any _ _ m _ type_check_bridge Hb) Hadd F3).
  - exact (kinded_added is_vxlan _ _ s id d _ type_check_vxlan (asks_any _ _ m _ type_check_vxlan Hx) Hadd F4).
Qed.

(** Those made for a VNI fit it, and the others when no names are shared. *)
Lemma request_fits_own p req : vni_valid p = true → vni_request p req → fitting p req.
Proof.
  intros (_ & _ & _ & Hlo & Hb & Hx)%vni_valid_spec Hreq.
  destruct (device_names_apart (VNIParams.VRF p) (VNIParams.VNI p)) as (A1 & A2 & A3 & A4 & _ & A6 & A7 & A8 & _).
  unfold fitting, asks, asks_pair. destruct Hreq; cbn [link_name Attrs Name Kind is_vrf is_bridge is_vxlan];
    (split; [|split; [|split]]); try split; try done; try congruence; try (intros peer [= <-]; by auto).
Qed.
Lemma request_fits_other p req :
  (∀ n, n ∈ request_names req → n ∉ vni_names p) → fitting p req.
Proof.
  intros Hno. assert (∀ n, n ∈ vni_names p → link_name req ≠ n) as Hl.
  { intros n Hn <-. apply (Hno _ (list_elem_of_here _ _) Hn). }
  assert (∀ peer n, Kind req = Veth peer → n ∈ vni_names p → peer ≠ n) as Hp.
  { intros peer n Hk Hn <-. refine (Hno peer _ Hn). unfold request_names. rewrite Hk. by right; left. }
  assert (∀ ok n, n ∈ vni_names p → asks ok n req) as Ha.
  { intros ok n Hn. split; [by intros ?%(Hl n Hn)|]. intros peer Hk. exact (Hp peer n Hk Hn). }
  unfold vni_names in *. split; [|split_and!; apply Ha; set_solver]. intros peer Hk.
  split; intros Heq; [destruct (Hl (vethLegsForVRF (VNIParams.VRF p)).1)
    |destruct (Hp peer (vethLegsForVRF (VNIParams.VRF p)).1 Hk)]; first [done|set_solver].
Qed.

(** ** The mark *)
Definition marks_kept (s s' : NetState) : Prop :=
  ∀ id d', devs s' !! id = Some d' → special ∈ dev_addrs d' →
    ∃ d, devs s !! id = Some d ∧ special ∈ dev_addrs d ∧ dev_name d = dev_name d'.
Definition marks_account : account.
  refine {| sums _ := marks_kept; addressable a := a ≠ special; droppable := True |}.
  - intros a Ha ->. vm_compute in Ha. discriminate.
  - intros _ s s' Hm Hadd _ id d' Hd' Hin. destruct (mild_from _ _ Hm id d' Hd') as (d & Hd & Hn & _). exists d.
    split; [done|]. split; [|done]. by destruct (Hadd id d d' special Hd Hd' Hin).
  - intros _ _ s1 s2 s3 H12 H23 id d3 Hd3 Hin. destruct (H23 id d3 Hd3 Hin) as (d2 & Hd2 & Hin2 & Hn2).
    destruct (H12 id d2 Hd2 Hin2) as (d1 & Hd1 & Hin1 & Hn1). exists d1. split_and!; [done..|congruence].
Defined.

#[export] Instance marks_drops : Drops marks_account := I.

(** Only devices called [nic] are marked. *)
Definition only_marked (nic : string) (s : NetState) : Prop :=
  ∀ id d, devs s !! id = Some d → special ∈ dev_addrs d → dev_name d = nic.
Lemma only_marked_kept nic s s' : marks_kept s s' → only_marked nic s → only_marked nic s'.
Proof. intros Hm Ho id d' Hd' Hin. destruct (Hm id d' Hd' Hin) as (d & Hd & Hin' & <-). exact (Ho id d Hd Hin'). Qed.
Lemma only_marked_insert nic s s' id d' :
  only_marked nic s → devs s' = <[id := d']> (devs s) → dev_name d' = nic → only_marked nic s'.
Proof.
  intros Ho Hd Hn i e. rewrite Hd lookup_insert_Some. intros [[<- <-]|[_ He]]; [done|exact (Ho i e He)].
Qed.
Lemma only_marked_devs nic s s' : devs s' = devs s → only_marked nic s → only_marked nic s'.
Proof. unfold only_marked. by intros ->. Qed.

Section marks.
Context {W : Type} `{NetlinkLaws W, !Untroubled W}.

Lemma quiet_wpo {A} (m : go W A) s : quiet m → wpo m s (λ _ s', silent s s').
Proof. intros Hm. eapply wp_sat; [exact Hm|]. by intros []. Qed.

Lemma marks_allowed req : allowed marks_account req.
Proof.
  intros m k s id d s' _ _ Hadd i e He Hin. destruct (added_lookup _ _ _ _ _ _ _ Hadd He) as [Hold|[[-> ->]|(peer & _ & _ & _ & Ha & _)]].
  - by exists e.
  - destruct Hadd as (_ & _ & _ & Ha & _). rewrite Ha in Hin. by apply elem_of_nil in Hin.
  - rewrite Ha in Hin. by apply elem_of_nil in Hin.
Qed.
Lemma canonical_assignable a : canonical_addr W a → a ≠ special → assignable (W:=W) marks_account a.
Proof. intros Hc Hne x Hx. cbn. by rewrite (Hc x Hx). Qed.

(** The interface is moved and set up: it is the only one that gets addresses. *)
Lemma wpo_arrive_marked nic as_ s g g' :
  only_marked nic s →
  wpo (nsLink ← on_errM g (LinkByName nic); _ ← on_errM (g' nsLink) (LinkSetUp (Some nsLink));
       forM_ (restoreAddress nsLink) as_) s (λ _ s', only_marked nic s').
Proof.
  intros Ho. do 2 wpo_step. apply wpo_LinkByName. intros id d (Hd & Hns & Hn).
  do 2 wpo_step. apply (wpo_LinkSetUp _ _ id d); [done..|]. intros ex s1 Hs1 Hd1.
  apply (wpo_restore_loop _ id _ _ (set_up ex d)); [by rewrite Hd1 lookup_insert_eq
    |by destruct Hs1 as [-> _]|done|].
  intros ex2 s2 _ _ Hd2. eapply (only_marked_insert nic s1 s2); [|exact Hd2|done].
  by eapply (only_marked_insert nic s s1); [|exact Hd1|].
Qed.

Lemma wpo_moveNic_marked nic ns n s :
  handles (thr s) !! ns = Some n → only_marked nic s →
  wpo (moveNicToNamespace nic ns) s (λ _ s', only_marked nic s').
Proof.
  intros Hh Ho. unfold moveNicToNamespace. apply wp_bind, wp_attempt.
  eapply wp_mono; [apply (wp_look_inside nic ns n _ s Hh)|].
  intros r s1 [-> _]. destruct r as [l|e|]; cbn [on_ok]; [by wpo_step| |done].
  do 2 wpo_step. apply wpo_LinkByName. intros id d Hat. do 2 wpo_step.
  eapply wpo_sat; [apply AddrList_law|]. intros as_ s1 (-> & _ & _). do 2 wpo_step.
  eapply wpo_mono; [apply wpo_conj; [eapply (obeys_ok marks_account), (obeys_LinkSetNsFd marks_account 0)|apply (quiet_wpo _ _ (quiet_LinkSetNsFd _ _))]|].
  intros [] s1 [Hm [Ht _]]. pose proof (only_marked_kept nic _ _ Hm Ho) as Ho1.
  apply (wpo_inNamespace _ _ _ n); [solve_quiet|by rewrite Ht|].
  intros h _. eapply wpo_mono; [by apply wpo_arrive_marked|]. intros [] s2 Ho2 _. exact Ho2.
Qed.

Lemma wpo_moveUnderlayNic_marked nic ns n s :
  canonical_addr W special → handles (thr s) !! ns = Some n → only_marked nic s →
  wpo (moveUnderlayNic nic ns) s (λ _ s', only_marked nic s').
Proof.
  intros Hcan Hh Ho. unfold moveUnderlayNic. do 2 wpo_step.
  eapply wpo_mono; [by apply (wpo_oldUnderlayInterface _ n)|]. intros old s1 [-> Hfound].
  destruct (bool_decide (old ≠ "") && bool_decide (old = nic)); [by wpo_step|].
  destruct (bool_decide (old ≠ "") && bool_decide (old ≠ nic)) eqn:Hdiff.
  { apply andb_prop in Hdiff as [Hn1%bool_decide_eq_true Hn2%bool_decide_eq_true]. exfalso.
    destruct Hfound as [?|(id & d & (Hd & _ & Hn) & Hm)]; [done|]. apply Hn2. rewrite -Hn. exact (Ho id d Hd Hm). }
  do 3 wpo_step. eapply wpo_mono; [apply wpo_conj; [by apply (wpo_moveNic_marked nic ns n)|apply (quiet_wpo _ _ (quiet_moveNic _ _))]|].
  intros [] s1 [Ho1 [Ht1 _]]. apply (wpo_inNamespace _ _ _ n); [apply quiet_special_body|by rewrite Ht1|].
  intros h _. do 2 wpo_step. apply wpo_LinkByName. intros id d (Hd & Hns & Hn). wpo_step.
  apply (wpo_assignIP _ _ _ id d); [done..|]. intros ex s2 Hs2 _ _ Hd2. wpo_step.
  apply (wpo_LinkSetUp _ _ id (set_addrs (dev_addrs d ++ ex) d));
    [by rewrite Hd2 lookup_insert_eq|by destruct Hs2 as [-> _]|done|].
  intros ex2 s3 Hs3 Hd3 _. eapply (only_marked_insert nic s2 s3); [|exact Hd3|done].
  by eapply (only_marked_insert nic s1 s2); [|exact Hd2|].
Qed.

Lemma wpo_SetupUnderlay_marked params n s :
  underlay_possible (W:=W) params n s → only_marked (UnderlayParams.MainNic params) s →
  wpo (SetupUnderlay params) s (λ _ s', only_marked (UnderlayParams.MainNic params) s').
Proof.
  intros [Hn Hcv Hcs [Hne _] _] Ho. set (nic := UnderlayParams.MainNic params) in *.
  unfold SetupUnderlay. do 2 wpo_step. eapply wpo_sat; [apply GetFromName_law|].
  intros ns s1 (_ & n' & Hn' & Hfresh & ->). assert (n' = n) as -> by congruence. set (s1 := set_thr _ s).
  assert (handles (thr s1) !! ns = Some n) as Hh by (cbn; by rewrite lookup_insert_eq).
  apply wp_deferring. apply (wp_mono _ _ (on_ok (λ _ s', only_marked nic s'))).
  2:{ intros r s2 HQ. eapply wp_sat; [apply Close_law|]. intros ? s3 [_ ->]. by destruct r. }
  wpo_step. eapply wpo_mono; [apply wpo_conj;
    [eapply (obeys_ok marks_account), (obeys_inNamespace marks_account 2), obeys_setupLoopback; [apply marks_allowed|by apply canonical_assignable]
    |apply (quiet_wpo _ _ (quiet_inNamespace _ _ (quiet_setupLoopback _)))]|].
  intros [] s2 [Hm [Ht2 _]]. apply (wpo_moveUnderlayNic_marked nic ns n); [done|by rewrite Ht2|].
  apply (only_marked_kept nic _ _ Hm). exact Ho.
Qed.
End marks.

(** ** Configuring a node *)
Lemma names_free_apart l vps p q :
  names_free l vps → p ∈ vps → q ∈ vps → p = q ∨ ∀ n, n ∈ vni_names p → n ∉ vni_names q.
Proof.
  revert l. induction vps as [|r vps IH]; intros l Hf; [by intros ?%elem_of_nil|]. destruct Hf as [_ Hf].
  intros [->|Hp]%elem_of_cons [->|Hq]%elem_of_cons; [by left| | |exact (IH _ Hf Hp Hq)].
  - right. intros n Hn Hnq. pose proof (names_free_legs _ _ _ Hf Hq) as Hno. rewrite list.Forall_forall in Hno.
    apply (Hno n Hnq). apply elem_of_app. by left.
  - right. intros n Hnp Hn. pose proof (names_free_legs _ _ _ Hf Hp) as Hno. rewrite list.Forall_forall in Hno.
    apply (Hno n Hnp). apply elem_of_app. by left.
Qed.

Section settles.
Context {W : Type} `{NetlinkLaws W, !Untroubled W} {cap : nat} `{!NetlinkProgress W cap}.

(** The names of what is set up. *)
Definition setup_names (vps : list VNIParams.t) : list string := UnderlayLoopback :: mjoin (vni_names <$> vps).

Lemma setup_names_vni vps p : p ∈ vps → vni_names p ⊆ setup_names vps.
Proof.
  intros Hp n Hn. right. apply list_elem_of_join. exists (vni_names p). split; [done|].
  apply list_elem_of_fmap. by exists p.
Qed.

Lemma obeys_configure {b : bool} (R : account) `{!Drops R} up vps :
  (∀ a, addressable R a) → allowed R (mkLink (mkAttrs 0 UnderlayLoopback 0) Dummy) →
  (∀ p req, p ∈ vps → vni_request p req → allowed R req) →
  obeys b R (2 + length vps * 18) (configureHost up vps).
Proof.
  intros Ha Hl Hv. apply obeys_bind; [by apply obeys_on_err, (obeys_SetupUnderlay R)|]. intros _.
  apply obeys_forM_in. intros p Hp. apply obeys_on_err, (obeys_SetupVNI R); [by intros req; apply Hv|intros ? _; apply Ha..].
Qed.

(** No VNI has the name of the loopback, and no address is the mark. *)
Definition off_mark (p : VNIParams.t) : Prop :=
  VNIParams.VethHostIP p ≠ special ∧ VNIParams.VethNSIP p ≠ special.

Lemma wpo_configure_marked up vps tns s :
  node_startable W cap up vps tns s → Forall off_mark vps → only_marked (UnderlayParams.MainNic up) s →
  wpo (configureHost up vps) s (λ _ s', only_marked (UnderlayParams.MainNic up) s').
Proof.
  intros [Hu _ _ _ Hvs _ _ _] Hoff Ho. apply wpo_bind. wpo_step.
  eapply wpo_mono; [exact (wpo_SetupUnderlay_marked up tns s Hu Ho)|]. intros [] s1 Ho1.
  eapply wpo_mono; [eapply (obeys_ok marks_account), (obeys_forM_in marks_account _ 18)|].
  - intros p Hp. rewrite !list.Forall_forall in Hvs, Hoff. destruct (Hoff p Hp) as [Hh Hn].
    destruct (vni_valid_spec p (start_valid _ _ _ _ (Hvs p Hp))) as ([Ha1 Ha2] & _).
    apply obeys_on_err, (obeys_SetupVNI marks_account); [intros; apply marks_allowed|apply canonical_assignable; [by apply readable_canonical|done]..].
  - intros [] s2 Hm. exact (only_marked_kept _ _ _ Hm Ho1).
Qed.

Lemma wpo_configure_fits up vps tns p s :
  node_startable W cap up vps tns s → p ∈ vps → wpo (configureHost up vps) s (λ _ s', vni_fits p s').
Proof.
  intros [_ _ _ _ Hvs Hf _ _] Hp. rewrite list.Forall_forall in Hvs. pose proof (Hvs p Hp) as Hst.
  assert (vni_fits p s) as Hfits by (destruct Hst; by split).
  apply (wpo_mono _ _ (λ _ s', vni_fits p s → vni_fits p s')); [|auto].
  eapply (obeys_ok (fits_account p)), (obeys_configure (fits_account p)).
  - done.
  - apply fits_allowed, request_fits_other. intros n Hn Hin. pose proof (names_free_legs _ _ _ Hf Hp) as Hno.
    rewrite list.Forall_forall in Hno. apply (Hno n Hin). unfold request_names in Hn. cbn in Hn. set_solver.
  - intros q req Hq Hreq. apply fits_allowed.
    destruct (names_free_apart _ _ _ _ Hf Hp Hq) as [->|Hapart].
    + apply request_fits_own; [exact (start_valid _ _ _ _ (Hvs q Hq))|done].
    + apply request_fits_other. intros n Hn Hin. exact (Hapart n Hin (vni_request_names _ _ Hreq n Hn)).
Qed.

Lemma wpo_configure_tamed up vps s :
  wpo (configureHost up vps) s (λ _ s', tamed (setup_names vps) s s' ∧ grown (2 + length vps * 18) s s').
Proof.
  apply wpo_conj.
  - eapply (obeys_ok (tamed_account (setup_names vps))), (obeys_configure (tamed_account (setup_names vps))); [done|..].
    + apply tamed_allowed. unfold request_names, setup_names. set_solver.
    + intros p req Hp Hreq. apply tamed_allowed. etransitivity; [exact (vni_request_names _ _ Hreq)|].
      by apply setup_names_vni.
  - eapply (obeys_ok grown_account), (obeys_configure grown_account); [done|by apply grown_allowed|].
    intros p req _ Hreq. exact (grown_allowed _ (vni_request_well_named _ _ Hreq)).
Qed.

Lemma wpo_configure_thread up vps s :
  wpo (configureHost up vps) s (λ _ s', cur_ns s' = cur_ns s ∧ named s' = named s).
Proof.
  apply wpo_bind. wpo_step. eapply wpo_mono; [apply wpo_SetupUnderlay_thread|]. intros [] s1 [Hc1 Hn1]. rewrite -Hc1 -Hn1.
  clear Hc1 Hn1. revert s1. induction vps as [|p vps IH]; intros s1; cbn [forM_]; [by wpo_step|].
  do 2 wpo_step. eapply wpo_mono; [apply wpo_SetupVNI_thread|]. intros [] s2 [Hc Hn].
  eapply wpo_mono; [apply IH|]. intros [] s3 [Hc2 Hn2]. split; congruence.
Qed.

(** *** The state it leaves *)
Lemma legs_configured p hns tns s : vni_configured p hns tns s → legs_ready (VNIParams.VRF p) hns tns s.
Proof.
  intros [(idh & dh & idp & dp & idv & dv & Hdh & Hh1 & Hh2 & _ & _ & Hh5 & Hdp & Hp1 & Hp2 & _) _].
  right. exists idh, dh, idp, dp. split; [by split_and!|done..|by left].
Qed.

Lemma startable_again p k A hns tns s s' :
  vni_startable p hns tns s → named s' = named s → tamed A s s' → grown k s s' → vni_fits p s' →
  vni_configured p hns tns s' → vni_startable p hns tns s'.
Proof.
  intros [Hv Hns Hu _ _ _ _ _ Hx] Hn [Hu' _] [_ Hx'] [H1' H2' H3' H4'] Hc.
  split; [done|by rewrite Hn|auto|done|exact (legs_configured _ _ _ _ Hc)|done..|auto].
Qed.

(** What is called like the underlay's interface is as it was. *)
Lemma plain_tamed A n s s' :
  tamed A s s' → n ∉ A → (∀ id d, devs s !! id = Some d → dev_name d = n → plain d) →
  ∀ id d, devs s' !! id = Some d → dev_name d = n → plain d.
Proof.
  intros [_ Hf] Hn Hp id d' Hd' Hdn. destruct (Hf id d' Hd') as [[HA _]|(d & Hd & Hn' & _ & Hk)]; [congruence|].
  destruct (Hp id d Hd) as [Hv Hx]; [congruence|]. unfold plain, is_veth, is_vxlan in *.
  destruct (Kind (dev_link d)), (Kind (dev_link d')); naive_solver.
Qed.

Lemma nic_no_setup_name up vps tns s :
  node_startable W cap up vps tns s → UnderlayParams.MainNic up ∉ setup_names vps.
Proof.
  intros Hst. destruct (up_apart _ _ _ (live_underlay _ _ _ _ Hst)) as [_ Hlo].
  unfold setup_names. intros [?|(l & Hl & (p & -> & Hp)%list_elem_of_fmap)%list_elem_of_join]%elem_of_cons; [done|].
  pose proof (names_free_legs _ _ _ (live_names _ _ _ _ Hst) Hp) as Hno. rewrite list.Forall_forall in Hno.
  apply (Hno _ Hl). by right; left.
Qed.

(** What the accounts say of a node that has been configured. *)
Record node_after (up : UnderlayParams.t) (vps : list VNIParams.t) (s s' : NetState) : Prop := {
  after_wf : wf s';
  after_mark : only_marked (UnderlayParams.MainNic up) s';
  after_fits p : p ∈ vps → vni_fits p s';
  after_tamed : tamed (setup_names vps) s s';
  after_grown : grown (2 + length vps * 18) s s';
  after_cur : cur_ns s' = cur_ns s;
  after_named : named s' = named s }.

Lemma configure_after up vps tns w w' :
  node_startable W cap up vps tns (view w) → Forall off_mark vps →
  only_marked (UnderlayParams.MainNic up) (view w) → configureHost up vps w = (Ok tt, w') →
  node_after up vps (view w) (view w').
Proof.
  intros Hst Hoff Ho Hr. destruct (wpo_Ok _ _ w tt w' (wpo_configure_tamed up vps (view w)) Hr) as [Ht Hg].
  destruct (wpo_Ok _ _ w tt w' (wpo_configure_thread up vps (view w)) Hr) as [Hc Hn]. split; try done.
  - apply view_wf.
  - exact (wpo_Ok _ _ w tt w' (wpo_configure_marked up vps tns _ Hst Hoff Ho) Hr).
  - intros p Hp. exact (wpo_Ok _ _ w tt w' (wpo_configure_fits up vps tns p _ Hst Hp) Hr).
Qed.

Lemma underlay_possible_after up vps tns s s' :
  node_startable W cap up vps tns s → node_after up vps s s' → underlay_set up tns s' →
  underlay_possible (W:=W) up tns s'.
Proof.
  intros [[? ? ? Hap _] _ _ _ _ _ _ _] Haf [(idl & dl & Hl & _ & Hlp) _].
  split; try done; [by rewrite (after_named _ _ _ _ Haf)|]. intros id d Hd.
  assert (id = idl) as -> by exact (wf_name _ (after_wf _ _ _ _ Haf) _ _ _ _ _ _ Hd Hl).
  pose proof Hd as (Hd1 & _ & Hn). pose proof Hl as (Hd2 & _). assert (d = dl) as -> by congruence.
  split; [done|]. intros Hin%(after_mark _ _ _ _ Haf idl dl Hd1). apply (proj2 Hap). congruence.
Qed.

Lemma settled_after up vps tns s s' :
  UnderlayParams.MainNic up ≠ "" → node_after up vps s s' → underlay_set up tns s' → underlay_settled up tns s'.
Proof. intros Hne Haf Hset. split; [done| |done]. intros id d Hd _. exact (after_mark _ _ _ _ Haf id d Hd). Qed.

Lemma node_startable_after up vps tns s s' :
  node_startable W cap up vps tns s → (size (devs s) + 2 * (2 + 18 * length vps) ≤ cap)%nat →
  node_after up vps s s' → node_configured up vps (cur_ns s) tns s' → node_startable W cap up vps tns s'.
Proof.
  intros Hst Hroom Haf [Hset Hvs]. pose proof (nic_no_setup_name _ _ _ _ Hst) as Hnn.
  pose proof (plain_tamed _ _ _ _ (after_tamed _ _ _ _ Haf) Hnn (live_nic _ _ _ _ Hst)) as Hplain.
  split.
  - exact (underlay_possible_after _ _ _ _ _ Hst Haf Hset).
  - apply Hst.
  - destruct Hset as [_ (idn & dn & Hn & Hm)]. split.
    + exists idn, dn. split; [|by left]. destruct Hn as (Hd & _ & Hdn). exact (Hplain idn dn Hd Hdn).
    + intros id d Hd _ Hin Hne. destruct Hne. exact (after_mark _ _ _ _ Haf id d Hd Hin).
  - exact Hplain.
  - rewrite (after_cur _ _ _ _ Haf). apply list.Forall_forall. intros p Hp. rewrite list.Forall_forall in Hvs.
    eapply startable_again; [|apply Haf..|by apply Haf|by apply Hvs].
    exact (proj1 (list.Forall_forall _ _) (live_vnis _ _ _ _ Hst) p Hp).
  - apply Hst.
  - apply list.Forall_forall. intros p Hp id d Hd Hin Hsp. apply Hnn.
    rewrite -(after_mark _ _ _ _ Haf id d Hd Hsp). by apply (setup_names_vni vps p Hp).
  - pose proof (proj1 (after_grown _ _ _ _ Haf)). lia.
Qed.

Lemma configure_settles up vps tns w :
  node_startable W cap up vps tns (view w) → Forall off_mark vps →
  only_marked (UnderlayParams.MainNic up) (view w) → UnderlayParams.MainNic up ≠ "" →
  (size (devs (view w)) + 2 * (2 + 18 * length vps) ≤ cap)%nat →
  ∃ w', configureHost up vps w = (Ok tt, w') ∧ node_steady W cap up vps tns (view w').
Proof.
  intros Hst Hoff Ho Hne Hroom. destruct (configure_succeeds up vps tns w Hst) as (w' & Hr & Hcfg).
  exists w'. split_and!; [done..|].
  pose proof (configure_after up vps tns w w' Hst Hoff Ho Hr) as Haf.
  pose proof Hcfg as [Hset Hvs]. split.
  - by apply (node_startable_after _ _ _ (view w)).
  - by apply (settled_after _ vps _ (view w)).
  - by rewrite (after_cur _ _ _ _ Haf).
Qed.
End settles.

(** ** The reconciliation *)
Section settles_reconcile.
Context {W : Type} `{NetlinkLaws W, GoCidr, Sort, OutsideLaws W serves path}.
Context {cap : nat} `{!NetlinkProgress W cap}.
Context (osHostname : go W string) (json_Unmarshal : string → res PodSandboxStatusInfo.t).
Context (r : PERouterReconciler.t W) `{!Apart (PERouterReconciler.Client r) osHostname}.

(** C5. A first reconciliation reaches a fixed point.  From a node that can be configured,
    on which at most the underlay's interface is marked, and while what is outside answers,
    one successful [Reconcile] leads to a state in which the configuration is in place,
    nothing else is marked, and it can be made again: by [Reconcile_steady] every further
    reconciliation of the same objects succeeds and leaves the devices as they are.  The
    run meets no trouble the code does not see: no router's leg shares its index with
    another device, at the start or when a device is made or moved, every switch of
    namespace is let through, and looking the loopback up fails only when it is not
    there. *)
Theorem Reconcile_settles (calm : W → Prop) w idx pod us vs up vps w1 tns :
  answers osHostname json_Unmarshal r calm w idx pod us vs up vps w1 →
  node_startable W cap up vps tns (view w) → Forall off_mark vps →
  only_marked (UnderlayParams.MainNic up) (view w) → UnderlayParams.MainNic up ≠ "" →
  (size (devs (view w)) + 2 * (2 + 18 * length vps) ≤ cap)%nat →
  Reconcile_troubles osHostname json_Unmarshal r w = [] →
  ∃ w2 w', Reconcile osHostname json_Unmarshal r w = (Ok tt, w')
    ∧ frr_loaded (frr_data r idx pod us vs) w1 w2 ∧ node_steady W cap up vps tns (view w').
Proof.
  intros Hans Hst Hoff Ho Hne Hroom Ht.
  destruct (Reconcile_reaches osHostname json_Unmarshal r _ _ _ _ _ _ _ _ _ Hans) as (w2 & w3 & Hload & Hk & Hrun & Hth).
  rewrite Hth in Ht. pose proof Hk as [_ Hd].
  destruct (configure_settles (W:=detoured W (room cap)) up vps tns (inl w3)) as (x & Hr & Hsteady).
  - exact (detour_startable _ _ _ _ _ (node_startable_kept _ _ _ _ _ Hk Hst)).
  - done.
  - exact (only_marked_devs _ _ _ Hd Ho).
  - done.
  - cbn. by rewrite Hd.
  - from_detour (λ W (_ : Netlink W), configureHost up vps) Hr Ht w'. exists w2, w'.
    split; [by rewrite Hrun|]. split; [done|]. by apply detour_steady in Hsteady.
Qed.
End settles_reconcile.
