(* ===== verification/Lasting.v ===== *)
(** * What a run leaves, however it ends

    With a kernel whose calls fail as the file Faults says, what the setup functions leave
    is followed through every outcome: which devices are still there, that the veth pair
    of a VRF is whole or not there at all, and that the interface of the underlay is in
    one of the two namespaces. *)

From S2P Require Import Prelude GoStrings GoNet HostParams Netlink Troubles NetLogic HostLinks LinkSpecs.
From S2P Require Import Progress Held Faults Origins LinkProgress VethSpecs SimKernel HostNetwork HostSpecs VniSpecs.
From S2P Require Import VniProgress Underlay UnderlayProgress Outcome Settles.
Local Open Scope Z_scope.

(** ** Accounts that delete nothing *)

(** A new device leaves the others where they are. *)
Lemma added_lasts N req s id d s' : added_as req s id d s' → lasts N s s'.
Proof.
  intros Hadd i e He _ _. exists e. split; [exact (added_frame _ _ _ _ _ _ _ Hadd He)|done].
Qed.

(** With it what is known of the names of a VNI. *)
Definition fits_lasts (p : VNIParams.t) (s s' : NetState) : Prop :=
  lasts [] s s' ∧ (vni_fits p s → vni_fits p s').
#[export] Instance fits_lasts_preorder p : PreOrder (fits_lasts p).
Proof.
  split; [intros s; split; [reflexivity|done]|]. intros s1 s2 s3 [H1 F1] [H2 F2]. split; [exact (lasts_trans _ _ _ _ H1 H2)|auto].
Qed.
Definition lasts_account (p : VNIParams.t) : account.
  refine {| sums _ := fits_lasts p; addressable _ := True; droppable := False |}.
  - done.
  - intros _ s s' Hm _ [[]|Hs]. split; [exact Hs|exact (fits_mild p s s' Hm)].
  - intros _ _ s1 s2 s3. apply transitivity.
Defined.

Lemma lasts_allowed p req : fitting p req → allowed (lasts_account p) req.
Proof.
  intros Hf m k s id d s' Hwf Hu Hadd. split; [exact (added_lasts _ _ _ _ _ _ Hadd)|].
  exact (fits_allowed p req Hf m k s id d s' Hwf Hu Hadd).
Qed.

Section lasting.
Context {W : Type} `{NetlinkLaws W, !Untroubled W, !FailStop W}.

(** ** Single calls *)
Lemma wp_reads {A} (m : go W A) s : reads m → wp m s (λ _ s', devs s' = devs s).
Proof. intros Hm w r w' <- Hr. exact (Hm _ _ _ Hr). Qed.
(** What happens in two steps, where [R] sums up. *)
Lemma wp_sums {A B} (R : NetState → NetState → Prop) `{!PreOrder R} (m : go W A) (f : A → go W B) s :
  wp m s (λ r s', R s s' ∧ ∀ a, r = Ok a → wp (f a) s' (λ _ s2, R s' s2)) →
  wp (m ≫= f) s (λ _ s', R s s').
Proof.
  intros Hm. apply wp_bind. eapply wp_mono; [exact Hm|]. intros r s1 [HR Hf].
  destruct r as [a|e|]; [|exact HR..]. eapply wp_mono; [exact (Hf a eq_refl)|]. intros x s2 HR2.
  exact (transitivity HR HR2).
Qed.

(** Deleting a VXLAN takes nothing else along but what runs over it. *)
Lemma wp_LinkDel_vxlan l s id d :
  dev_at s (cur_ns s) (link_index l) id d → is_vxlan (dev_link d) = true →
  wp (LinkDel (Some l)) s (λ _ s', lasts [] s s' ∧ mild s s').
Proof.
  intros (Hd & Hns & Hi) Hx. apply wp_wf. intros Hwf w r w' <- Hr.
  pose proof (LinkDel_law _ _ _ _ Hr) as (_ & _ & Hok).
  destruct (LinkDel_stops _ _ _ _ Hr) as [[[] ->]|Hsame];
    [|by split; [apply lasts_devs|apply mild_devs]].
  destruct (Hok eq_refl) as (id0 & d0 & Hat & Hdel). rewrite -Hi in Hat.
  destruct (dev_at_unique _ id d id0 d0 Hwf Hd Hns Hat) as [-> ->].
  assert (dev_peer d = None) as Hp.
  { destruct (dev_peer d) eqn:E; [|done]. pose proof (wf_peer_veth _ Hwf _ _ Hd) as Hv.
    rewrite E in Hv. specialize (Hv ltac:(done)). unfold is_veth, is_vxlan in *. by destruct (Kind (dev_link d)). }
  split.
  - intros i e He Hex _. rewrite Hdel bool_decide_false; [|intros [->|?]; congruence]. rewrite He.
    assert (stacked (cur_ns (view w)) (link_index l) e = false) as Hst
      by (unfold stacked, is_vxlan in *; by destruct (Kind (dev_link e))).
    destruct (release_unstacked _ _ _ Hst) as (m & Hrel & _). exists (set_master m e). by cbn; rewrite Hrel.
  - apply mild_indexed. intros i e' He'. rewrite Hdel in He'. case_bool_decide; [done|].
    destruct (devs (view w) !! i) as [e|]; [|done]. exists e. split; [done|].
    destruct (release_same _ _ _ _ He') as (? & ? & ? & ?). by split_and!.
Qed.

(** A device that is moved. *)
Definition moved (n : Z) (s : NetState) (id : positive) (d : Dev) (s' : NetState) : Prop :=
  (∃ d', devs s' !! id = Some d' ∧ dev_ns d' = n ∧ dev_name d' = dev_name d
     ∧ Kind (dev_link d') = Kind (dev_link d) ∧ dev_peer d' = dev_peer d ∧ dev_addrs d' ⊆ dev_addrs d)
  ∧ lasts [dev_name d] s s'.

Lemma wp_move l h n s id d :
  handles (thr s) !! h = Some n → dev_at s (cur_ns s) (link_index l) id d →
  wp (LinkSetNsFd (Some l) h) s (λ r s', devs s' = devs s ∨ r = Ok tt ∧ moved n s id d s').
Proof.
  intros Hh (Hd & Hns & Hi). apply wp_wf. intros Hwf w r w' <- Hr.
  pose proof (LinkSetNsFd_law _ _ _ _ _ Hr) as (_ & _ & Hok).
  destruct (LinkSetNsFd_stops _ _ _ _ _ Hr) as [[[] ->]|Hsame]; [|by left].
  destruct (Hok eq_refl) as (n' & id0 & d0 & Hn & Hat & Hmove). assert (n' = n) as -> by congruence.
  rewrite -Hi in Hat. destruct (dev_at_unique _ id d id0 d0 Hwf Hd Hns Hat) as [-> ->].
  destruct (Z.eqb_spec n (cur_ns (view w))) as [_|Hne]; [by left|right]. split; [done|].
  destruct Hmove as (_ & d' & Hd' & Hns' & Hn' & Hk' & Hp' & _ & Ha' & _ & Hrest). split; [by exists d'; split_and!|].
  intros i e He Hx Hnin. assert (i ≠ id) as Hid by (intros ->; apply Hnin; assert (e = d) as -> by congruence; by left).
  rewrite Hrest // He. assert (stacked (cur_ns (view w)) (link_index l) e = false) as Hst
    by (unfold stacked, is_vxlan in *; by destruct (Kind (dev_link e))).
  destruct (release_unstacked _ _ _ Hst) as (m & Hrel & _). exists (set_master m e). by cbn; rewrite Hrel.
Qed.

(** ** [ensure], where a device of the name is of the right type *)
Lemma wp_ensure_kinded (R : account) k ok name g g' (create : go W Link) s :
  type_check ok → kinded_in (cur_ns s) ok name s → obeys true R k create →
  wpo create s (λ l s1, silent s s1 ∧ ∃ req, ok req = true ∧ added req s l s1) →
  wp (ensure ok name g g' create) s (λ r s', R k s s' ∧ ∀ link l, r = Ok (link, l) →
    link = Some l ∧ ∃ id d, dev_at s' (cur_ns s) (link_index l) id d ∧ ok (dev_link d) = true).
Proof.
  intros Htype Hk HR Hc. assert (∀ s', devs s' = devs s → R k s s') as Hstill by (intros; by apply account_still).
  unfold ensure. apply wp_bind, wp_attempt. eapply wp_sat; [apply LinkByName_law|].
  intros [l|e|] s1 [-> Hl]; [| |done].
  - destruct Hl as (id & d & Hd & Hns & Hn & ->). assert (ok (dev_link d) = true) as Hok
      by (apply (Hk id d); by split_and!).
    cbn. apply wp_bind, wp_ret. rewrite Hok. apply wp_ret. split; [by apply Hstill|].
    intros link l [= <- <-]. split; [done|]. by exists id, d.
  - destruct (is_link_not_found e).
    + apply wp_bind, wp_bind, wp_on_err. eapply wp_mono; [apply wp_conj; [by apply (obeys_all R k)|exact Hc]|].
      intros [l|e'|] s2 [HR2 Hmade]; cbn [on_err]; [|by split..]. destruct Hmade as ([Ht _] & req & Hreq & id & d & Hadd & ->).
      pose proof (added_dev _ _ _ _ _ Hadd) as Hd. destruct Hadd as (_ & (Hns & _ & _ & Hkind) & _).
      apply wp_ret. assert (ok (set_Index (dev_index d) req) = true) as Hok
        by (rewrite -Hreq; apply Htype, same_kind_refl).
      rewrite Hok. apply wp_ret. split; [done|]. intros link l [= <- <-]. split; [done|]. exists id, d.
      split; [by split_and!|]. by rewrite (Htype _ _ Hkind).
    + apply wp_bind, wp_ret. apply wp_bind, wp_on_err. intros w r w' Hw Hr.
      pose proof (proj1 nil_link_law _ _ _ Hr) as [_ Hno]. destruct (LinkDel_stops _ _ _ _ Hr) as [[[] ->]|Hd]; [done|].
      rewrite Hw in Hd. destruct r as [[]|e'|]; cbn; [done|by split; [apply Hstill|]..].
Qed.

(** ** The devices of the router *)
Lemma wp_setupVRF p s :
  (∀ req, vni_request p req → fitting p req) → kinded is_vrf (VNIParams.VRF p) s →
  wp (setupVRF (VNIParams.VRF p)) s (λ _ s', fits_lasts p s s').
Proof.
  intros Hreq Hk. unfold setupVRF. apply wp_sums; [apply _|]. eapply wp_mono.
  - apply (wp_ensure_kinded (lasts_account p) 2); [auto with pierre|by apply kinded_here| |].
    + apply obeys_createVRF. intros t. apply lasts_allowed, Hreq, request_vrf.
    + eapply wpo_mono; [apply wpo_createVRF|]. intros l s1 (Hs & req & (t & -> & _) & Hadd). split; [done|].
      by exists (mkLink (mkAttrs 0 (VNIParams.VRF p) 0) (Vrf t)).
  - intros r s1 [HR _]. split; [exact HR|]. intros [link vrf] _.
    apply (obeys_all (lasts_account p) 0). solve_obeys.
Qed.

Lemma wp_setupBridge p vrf s :
  (∀ req, vni_request p req → fitting p req) → kinded is_bridge (bridgeName (VNIParams.VNI p)) s →
  wp (setupBridge p vrf) s (λ _ s', fits_lasts p s s').
Proof.
  intros Hreq Hk. unfold setupBridge. apply wp_sums; [apply _|]. eapply wp_mono.
  - apply (wp_ensure_kinded (lasts_account p) 2); [auto with pierre|by apply kinded_here| |].
    + apply obeys_createBridge. apply lasts_allowed, Hreq, request_bridge.
    + eapply wpo_mono; [apply wpo_createBridge|]. intros l s1 (Hs & req & -> & Hadd). split; [done|].
      by exists (mkLink (mkAttrs 0 (bridgeName (VNIParams.VNI p)) (link_index vrf)) Bridge).
  - intros r s1 [HR _]. split; [exact HR|]. intros [link br] _.
    apply (obeys_all (lasts_account p) 0). solve_obeys.
Qed.
Lemma wp_setupVXLan p br s :
  (∀ req, vni_request p req → fitting p req) → kinded is_vxlan (vxLanName (VNIParams.VNI p)) s →
  wp (setupVXLan p br) s (λ _ s', fits_lasts p s s').
Proof.
  intros Hreq Hk. unfold setupVXLan. cbv zeta.
  assert (∀ (vx : Link) s1 (g g' g'' : error → error), wp (_ ← on_errM g (addrGenModeNone vx); _ ← on_errM g' (setNeighSuppression vx);
    on_errM g'' (LinkSetUp (Some vx))) s1 (λ _ s', fits_lasts p s1 s')) as Htail.
  { intros vx s1 g g' g''. apply (obeys_all (lasts_account p) 0). solve_obeys. }
  assert (∀ s1, wp (createVXLan p br) s1 (λ _ s', fits_lasts p s1 s')) as Hmake.
  { intros s1. apply (obeys_all (lasts_account p) 2), obeys_createVXLan. intros. apply lasts_allowed, Hreq, request_vxlan. }
  apply wp_bind, wp_on_err. eapply wp_sat; [apply LinkByName_law|].
  intros [lo|e|] s1 [-> _]; cbn [on_err]; [|reflexivity..].
  apply wp_sums; [apply _|]. eapply wp_mono.
  { apply wp_conj; [|apply wp_quiet; apply quiet_ensure; unfold createVXLan; solve_quiet].
    apply (wp_ensure_kinded (lasts_account p) 2 is_vxlan); [auto with pierre|by apply kinded_here| |].
    + apply obeys_createVXLan. intros. apply lasts_allowed, Hreq, request_vxlan.
    + eapply wpo_mono; [apply wpo_createVXLan|]. intros l s1 (Hs & req & HR & Hadd). split; [done|].
      exists req. split; [|done]. by destruct HR as (? & ? & _ & ->). }
  intros r s1 [[HR Hfound] [Ht _]]. split; [exact HR|]. intros [link vx] Hr.
  destruct (Hfound link vx Hr) as (-> & id & d & Hat & Hx).
  apply wp_bind, wp_attempt, wp_lift. destruct (checkVXLanConfigured _ _ _ _) as [[]|e|]; [| |reflexivity].
  { apply wp_bind, wp_ret, Htail. }
  apply wp_sums; [apply _|]. apply (wp_mono _ _ (λ _ s', fits_lasts p s1 s')); [|by intros r2 s2 HR2; split].
  apply wp_sums; [apply _|]. apply wp_on_err. eapply wp_mono; [apply (wp_LinkDel_vxlan vx s1 id d); [by rewrite Ht|done]|].
  intros r2 s2 [Hst Hm]. split; [split; [exact Hst|exact (fits_mild p _ _ Hm)]|]. intros _ _.
  apply wp_on_err, Hmake.
Qed.

(** All that is done in the router's namespace. *)
Lemma wp_setupVNIInNamespace p pe s :
  (∀ req, vni_request p req → fitting p req) → vni_fits p s →
  wp (setupVNIInNamespace p pe) s (λ _ s', fits_lasts p s s').
Proof.
  intros Hreq Hf. unfold setupVNIInNamespace.
  assert (∀ (m : go W unit) s1, obeys true (lasts_account p) 0 m → wp m s1 (λ _ s', fits_lasts p s1 s')) as Hobeys
    by (intros m s1; apply (obeys_all (lasts_account p) 0)).
  assert (∀ (m : go W unit) B (f : unit → go W B) s1, obeys true (lasts_account p) 0 m → vni_fits p s1 →
    (∀ s2, vni_fits p s2 → wp (f tt) s2 (λ _ s', fits_lasts p s2 s')) →
    wp (m ≫= f) s1 (λ _ s', fits_lasts p s1 s')) as Hstep.
  { intros m B f s1 Hm Hf1 Hnext. apply wp_sums; [apply _|]. eapply wp_mono; [exact (Hobeys m s1 Hm)|].
    intros r s2 HR. split; [exact HR|]. intros [] _. by apply Hnext, HR. }
  apply Hstep; [by apply obeys_assignIP; intros ? _|done|]. intros s1 Hf1.
  apply Hstep; [solve_obeys|done|]. intros s2 Hf2.
  apply wp_sums; [apply _|]. eapply wp_mono; [apply wp_setupVRF; [done|apply Hf2]|].
  intros r s3 HR. split; [exact HR|]. intros vrf _. pose proof (proj2 HR Hf2) as Hf3. clear HR.
  apply Hstep; [solve_obeys|done|]. intros s4 Hf4.
  apply wp_sums; [apply _|]. eapply wp_mono; [apply wp_setupBridge; [done|apply Hf4]|].
  intros r' s5 HR. split; [exact HR|]. intros br _. apply wp_setupVXLan; [done|]. by apply HR.
Qed.

(** ** The veth pair *)

(** A pair that is there, or not at all, is so after what leaves its ends alone. *)
Lemma legs_ready_lasts N M name hns tns s s' :
  wf s → tamed N s s' → lasts M s s' → (vethLegsForVRF name).1 ∉ N → (vethLegsForVRF name).2 ∉ N →
  (vethLegsForVRF name).1 ∉ M → (vethLegsForVRF name).2 ∉ M →
  legs_ready name hns tns s → legs_ready name hns tns s'.
Proof.
  intros Hwf Ht Hs Hn1 Hn2 Hm1 Hm2 [Habs|(idh & dh & idp & dp & Hthere)].
  - left. intros id d' Hd'. destruct Ht as [_ Hfrom].
    destruct (Hfrom id d' Hd') as [[HA _]|(d & Hd & -> & _)]; [|exact (Habs id d Hd)]. split; congruence.
  - right. pose proof Hthere as [(Hdh & _ & Hhn) Hpe Hdp Hpn _].
    destruct (veth_ends _ _ _ _ _ Hwf Hdh Hpe Hdp) as [Hvh Hvp].
    assert (∀ d, is_veth (dev_link d) = true → is_vxlan (dev_link d) = false) as Hx
      by (intros d; unfold is_veth, is_vxlan; by destruct (Kind (dev_link d))).
    destruct (Hs idh dh Hdh) as (dh' & Hdh' & Hsh); [by apply Hx|by rewrite Hhn|].
    destruct (Hs idp dp Hdp) as (dp' & Hdp' & Hsp); [by apply Hx|by rewrite Hpn|].
    exists idh, dh', idp, dp'. by apply (legs_there_after N _ _ _ s s' idh dh dh' idp dp dp').
Qed.

(** Finding the router's end and moving it: it is moved or not. *)
Lemma wp_peer name ns tns s vh idh dh idp dp (g g3 : error → error) g1 :
  legs_apart s → legs_there name (cur_ns s) tns s idh dh idp dp →
  handles (thr s) !! ns = Some tns → link_name vh = (vethLegsForVRF name).1 →
  wp (peerIndex ← on_errM g (VethPeerIndex vh);
      found ← attempt (LinkByIndex peerIndex);
      let move (vethPE : option Link) :=
        _ ← err_with_name vethPE g1 (LinkSetNsFd vethPE ns);
        _ ← lift (attrs_Name vethPE); mret (vh, vethPE) in
      match found with
      | inl l => move (Some l)
      | inr e => if is_link_not_found e
                 then l ← on_errM g3 (inNamespace ns (LinkByIndex peerIndex)); mret (vh, Some l)
                 else move None
      end) s (λ _ s', lasts [(vethLegsForVRF name).2] s s' ∧ legs_ready name (cur_ns s) tns s').
Proof.
  intros Hu Hthere Hns Hvh. apply wp_wf. intros Hwf. pose proof Hthere as [Hh Hp Hdp Hpn _]. pose proof Hh as (Hdh & Hhns & Hhn).
  assert (∀ s', devs s' = devs s → lasts [(vethLegsForVRF name).2] s s' ∧ legs_ready name (cur_ns s) tns s') as Hstill.
  { intros s' Hd. split; [by apply lasts_devs|]. apply (legs_ready_devs _ _ _ s); [done|right]. by exists idh, dh, idp, dp. }
  apply wp_bind, wp_on_err. eapply wp_sat; [apply VethPeerIndex_law|]. intros x s1 (-> & _ & Hi).
  destruct x as [i|e|]; cbn [on_err]; [|by apply Hstill..].
  destruct (Hi i eq_refl) as (idh' & dh' & idp' & dp' & Hh' & Hp' & Hdp' & ->). rewrite Hvh in Hh'.
  assert (idh' = idh) as -> by exact (wf_name _ Hwf _ _ _ _ _ _ Hh' Hh).
  assert (dh' = dh) as -> by (destruct Hh' as [? _]; congruence).
  assert (idp' = idp) as -> by congruence. assert (dp' = dp) as -> by congruence. clear Hi Hh' Hp' Hdp'.
  apply wp_bind, wp_attempt. eapply wp_sat; [apply LinkByIndex_law|]. intros x s1 [-> Hl].
  destruct x as [l|e|]; [| |done].
  - destruct Hl as (id & d & Hd & Hdns & Hdi & ->). assert (id = idp) as -> by exact (peer_alone _ _ _ _ _ _ _ _ Hwf Hu Hdh Hp Hdp Hpn Hd Hdi).
    assert (d = dp) as -> by congruence. apply wp_bind, wp_err_with_name.
    eapply wp_mono; [apply (wp_move _ ns tns s idp dp); [done|by split_and!]|]. intros r s1 Hs1.
    assert (lasts [(vethLegsForVRF name).2] s s1 ∧ legs_ready name (cur_ns s) tns s1) as Hgoal; [|by destruct r; [apply wp_bind, wp_lift, wp_ret|intros [| |] Hx; [by destruct (Hx _ eq_refl)|..]..]].
    destruct Hs1 as [Hd1|[_ [(dp' & Hdp' & Hpns' & Hpn' & _ & Hpp' & _) Hst]]]; [by apply Hstill|].
    rewrite Hpn in Hst. split; [exact Hst|right].
    destruct (veth_ends _ _ _ _ _ Hwf Hdh Hp Hdp) as [Hvh' _].
    destruct (Hst idh dh Hdh) as (dh' & Hdh' & (Sns & Sn & _ & _ & Sp)).
    { unfold is_veth, is_vxlan in *. by destruct (Kind (dev_link dh)). }
    { rewrite Hhn list_elem_of_singleton. unfold vethLegsForVRF, HostVethPrefix, PEVethPrefix. cbn [fst snd].
      rewrite !string_app_cons. discriminate. }
    exists idh, dh', idp, dp'. split; [split_and!; congruence|congruence|done|congruence|by left].
  - destruct (is_link_not_found e).
    + apply wp_bind, wp_on_err. eapply wp_mono; [apply wp_reads, reads_inNamespace, reads_LinkByIndex|].
      intros r s1 Hd1. destruct r; cbn [on_err]; [apply wp_ret|..]; by apply Hstill.
    + apply wp_bind, wp_err_with_name. intros w r w' Hw Hr.
      assert (sat (LinkSetNsFd None ns) (λ s r s', silent s s' ∧ r ≠ Ok tt)) as Hnil by apply nil_link_law.
      pose proof (Hnil _ _ _ Hr) as [_ Hno]. destruct (LinkSetNsFd_stops _ _ _ _ _ Hr) as [[[] ->]|Hd]; [done|].
      rewrite Hw in Hd. destruct r as [[]|e'|]; [done|..]; intros [| |] Hx; by first [destruct (Hx _ eq_refl)|apply Hstill].
Qed.

Lemma wp_setupVeth name ns tns s :
  legs_apart s → legs_ready name (cur_ns s) tns s → handles (thr s) !! ns = Some tns →
  wp (setupVeth name ns) s (λ _ s', lasts [(vethLegsForVRF name).2] s s' ∧ legs_ready name (cur_ns s) tns s').
Proof.
  intros Hu Hlegs Hns. apply wp_wf. intros Hwf. unfold setupVeth, ensure. cbn [vethLegsForVRF].
  assert (∀ s', devs s' = devs s → lasts [(vethLegsForVRF name).2] s s' ∧ legs_ready name (cur_ns s) tns s') as Hstill.
  { intros s' Hd. split; [by apply lasts_devs|by apply (legs_ready_devs _ _ _ s)]. }
  apply wp_bind, wp_bind, wp_attempt. eapply wp_sat; [apply LinkByName_law|]. intros x s1 [-> Hl].
  destruct x as [l|e|]; [| |done].
  - destruct Hl as (id & d & Hd & Hdns & Hdn & ->). cbn. apply wp_bind, wp_ret.
    destruct Hlegs as [Habs|(idh & dh & idp & dp & Hthere)]; [by destruct (Habs id d Hd)|].
    pose proof Hthere as [Hh Hp Hdp _ _].
    assert (id = idh) as -> by exact (wf_name _ Hwf _ _ _ _ _ _ (conj Hd (conj Hdns Hdn)) Hh).
    assert (d = dh) as -> by (destruct Hh as [? _]; congruence).
    destruct (veth_ends _ _ _ _ _ Hwf Hd Hp Hdp) as [-> _]. apply wp_ret.
    by apply (wp_peer name ns tns s (dev_link dh) idh dh idp dp).
  - destruct (is_link_not_found e).
    + assert (legs_absent name s) as Habs.
      { destruct Hlegs as [|(idh & dh & idp & dp & [(Hdh & Hhns & Hhn) _ _ _ _])]; [done|].
        by destruct (Hl eq_refl idh dh). }
      apply wp_bind, wp_bind, wp_on_err. unfold createVeth. cbn [vethLegsForVRF]. apply wp_on_err.
      intros w r w' Hw Hr. destruct (LinkAdd_stops _ _ _ _ Hr) as [[l ->]|[Hd|[Hm _]]]; [| |done]; cycle 1.
      { rewrite Hw in Hd. destruct r as [l|e'|]; [|by apply Hstill..]. exfalso.
        pose proof (LinkAdd_law _ _ _ _ Hr) as [_ (id & d & Hadd & _)]%LinkAdd_added.
        pose proof (added_dev _ _ _ _ _ Hadd) as Hdev. destruct Hadd as (Hno & _). rewrite Hd -Hw in Hdev. congruence. }
      pose proof (LinkAdd_apart _ _ _ _ Hr) as Hu'. rewrite Hw in Hu'.
      pose proof (LinkAdd_law _ _ _ _ Hr) as [Hs1 Hadd]%LinkAdd_added. rewrite Hw in Hs1 Hadd.
      destruct (made_legs name tns s l (view w') Habs Hs1) as [Hln (idh & dh & idp & dp & Hthere)].
      { eexists. split; [done|exact Hadd]. }
      assert (is_veth l = true) as Hveth by (destruct Hadd as (? & ? & _ & ->); done).
      cbn [on_err]. apply wp_ret. rewrite Hveth. apply wp_ret.
      destruct Hadd as (id & d & Hadd & _). pose proof (added_lasts [(vethLegsForVRF name).2] _ _ _ _ _ Hadd) as Hst1.
      assert (cur_ns (view w') = cur_ns s) as Hc by by destruct Hs1 as [-> _].
      eapply wp_mono; [apply (wp_peer name ns tns (view w') l idh dh idp dp); [by apply Hu'|done|by destruct Hs1 as [-> _]|done]|].
      intros _ s2 [Hst2 Hl2]. rewrite Hc in Hl2. split; [exact (lasts_trans _ _ _ _ Hst1 Hst2)|exact Hl2].
    + apply wp_bind, wp_ret. apply wp_bind, wp_on_err. intros w r w' Hw Hr.
      pose proof (proj1 nil_link_law _ _ _ Hr) as [_ Hno]. destruct (LinkDel_stops _ _ _ _ Hr) as [[[] ->]|Hd]; [done|].
      rewrite Hw in Hd. destruct r as [[]|e'|]; cbn; [done|by apply Hstill..].
Qed.

(** ** One VNI *)
Lemma wp_inside {A} (R : NetState → NetState → Prop) ns (exec : go W A) s :
  (∀ s s', devs s' = devs s → R s s') → PreOrder R → quiet exec →
  (∀ s1, devs s1 = devs s → wp exec s1 (λ _ s', R s1 s')) →
  wp (inNamespace ns exec) s (λ _ s', R s s').
Proof.
  intros Hd HR Hq Hexec. apply wp_inNamespace_quiet; [done|intros; reflexivity|intros; reflexivity|].
  intros n h _ _. eapply wp_mono; [by apply Hexec|]. intros r s2 HR2 _.
  transitivity (enter n h s); [by apply Hd|]. transitivity s2; [exact HR2|by apply Hd].
Qed.

Lemma fits_lasts_devs p s s' : devs s' = devs s → fits_lasts p s s'.
Proof. intros Hd. split; [by apply lasts_devs|]. by apply fits_mild, mild_devs. Qed.

Definition router_names (p : VNIParams.t) : list string :=
  [VNIParams.VRF p; bridgeName (VNIParams.VNI p); vxLanName (VNIParams.VNI p)].

(** What comes after the pair. *)
Lemma wp_after_pair p ns host pe g s :
  (∀ req, vni_request p req → fitting p req) → vni_fits p s →
  wp (_ ← assignIPToInterface (Some host) (VNIParams.VethHostIP p);
      _ ← on_errM g (LinkSetUp (Some host));
      inNamespace ns (setupVNIInNamespace p pe)) s (λ _ s', lasts [] s s' ∧ tamed (router_names p) s s').
Proof.
  intros Hreq Hf. apply wp_conj.
  - apply (wp_mono _ _ (λ _ s', fits_lasts p s s')); [|by intros r s' []].
    apply wp_sums; [apply _|]. eapply wp_mono; [eapply (obeys_all (lasts_account p) 0), obeys_assignIP; by intros ? _|].
    intros r s1 HR. split; [exact HR|]. intros [] _. pose proof (proj2 HR Hf) as Hf1. clear HR.
    apply wp_sums; [apply _|]. eapply wp_mono; [eapply (obeys_all (lasts_account p) 0); solve_obeys|].
    intros r' s2 HR. split; [exact HR|]. intros [] _. pose proof (proj2 HR Hf1) as Hf2. clear HR.
    apply wp_inside; [apply fits_lasts_devs|apply _|apply quiet_setupVNIInNamespace|].
    intros s3 Hd. apply wp_setupVNIInNamespace; [done|]. by apply (fits_lasts_devs p s2 s3 Hd).
  - eapply (obeys_all (tamed_account (router_names p)) 14).
    apply obeys_bind0; [by apply obeys_assignIP|]. intros _. apply obeys_bind0; [solve_obeys|]. intros _.
    apply obeys_inNamespace, (obeys_setupVNIInNamespace (tamed_account _)); [|done].
    intros req Hr Hv. apply tamed_allowed. unfold router_names, request_names. destruct Hr; cbn in *; [done|set_solver..].
Qed.

Lemma wp_SetupVNI_leaves p tns s :
  vni_startable p (cur_ns s) tns s →
  wp (SetupVNI p) s (λ _ s', lasts [(vethLegsForVRF (VNIParams.VRF p)).2] s s'
    ∧ legs_ready (VNIParams.VRF p) (cur_ns s) tns s').
Proof.
  intros [Hvalid Hns Hu Hp Hlegs Hk1 Hk2 Hk3 _].
  assert (∀ s', devs s' = devs s → lasts [(vethLegsForVRF (VNIParams.VRF p)).2] s s'
    ∧ legs_ready (VNIParams.VRF p) (cur_ns s) tns s') as Hstill.
  { intros s' Hd. split; [by apply lasts_devs|by apply (legs_ready_devs _ _ _ s)]. }
  assert (∀ req, vni_request p req → fitting p req) as Hreq by (intros req; by apply request_fits_own).
  unfold SetupVNI. apply wp_bind, wp_on_err. eapply wp_sat; [apply GetFromName_law|].
  intros [ns|e|] s1 [_ Hs1]; cbn [on_err]; [|subst; by apply Hstill..].
  destruct Hs1 as (n & Hn & _ & ->). assert (n = tns) as -> by congruence. set (s1 := set_thr _ s).
  apply wp_bind. eapply wp_mono.
  { apply wp_conj; [apply (wp_setupVeth (VNIParams.VRF p) ns tns s1)|
      apply (obeys_all (fits_account p) 4), (obeys_setupVeth (fits_account p))].
    - done.
    - by apply (legs_ready_devs _ _ _ s).
    - cbn. by rewrite lookup_insert_eq.
    - apply fits_allowed, Hreq, request_veth. }
  intros r s2 [[Hst Hl] Hfits]. destruct r as [[host pe]|e|]; [|by split..].
  apply wp_wf. intros Hwf. eapply wp_mono; [apply wp_after_pair; [done|by apply Hfits; split]|].
  intros _ s3 [Hst3 Ht3]. split; [refine (lasts_trans _ _ _ _ Hst _); by apply (lasts_mono []); [apply list_subseteq_nil|]|].
  destruct (vni_valid_spec _ Hvalid) as (_ & _ & _ & _ & _ & _).
  destruct (device_names_apart (VNIParams.VRF p) (VNIParams.VNI p)) as (A1 & A2 & A3 & A4 & _ & _ & A7 & A8 & _).
  apply (legs_ready_lasts (router_names p) [] _ _ _ s2); try done; try apply not_elem_of_nil;
    unfold router_names; rewrite !not_elem_of_cons; (split_and!; [by apply not_eq_sym..|apply not_elem_of_nil]).
Qed.

(** ** The interface of the underlay *)

(** Neither an end of a veth pair nor a VXLAN. *)
Definition plain_link (l : Link) : bool := negb (is_veth l) && negb (is_vxlan l).
Lemma plain_link_spec d : plain_link (dev_link d) = true ↔ plain d.
Proof. unfold plain_link, plain. rewrite andb_true_iff !negb_true_iff. done. Qed.
Lemma type_check_plain : type_check plain_link.
Proof. intros l d Hk. unfold plain_link. destruct (same_kind_checks l d Hk) as (_ & -> & _ & ->). done. Qed.

(** It is in the router's namespace, or in the host's and can be moved. *)
Definition nic_there (nic : string) (hns tns : Z) (s : NetState) : Prop :=
  ∃ id d, plain d ∧ (dev_named s tns nic id d ∨ dev_named s hns nic id d ∧ movable d = true).

Lemma nic_there_lasts N nic hns tns s s' :
  lasts N s s' → nic ∉ N → nic_there nic hns tns s → nic_there nic hns tns s'.
Proof.
  intros Hs HN (id & d & Hpl & Hat). assert (devs s !! id = Some d ∧ dev_name d = nic) as [Hd Hn]
    by by destruct Hat as [(? & _ & ?)|[(? & _ & ?) _]].
  destruct (Hs id d Hd) as (d' & Hd' & (Hns & Hn' & _ & Hk & _)); [apply Hpl|by rewrite Hn|].
  exists id, d'. split; [unfold plain, is_veth, is_vxlan in *; by rewrite Hk|].
  destruct Hat as [(_ & ? & _)|[(_ & ? & _) Hm]]; [left|right; split; [|by unfold movable, is_veth, is_other in *; rewrite Hk]];
    split_and!; congruence.
Qed.

(** Changes to a device [id] called [nic] only. *)
Record on_nic (nic : string) (id : positive) (s s' : NetState) : Prop := {
  on_silent : silent s s';
  on_lasts : lasts [] s s';
  on_marked : only_marked nic s → only_marked nic s';
  on_dev d : devs s !! id = Some d → ∃ d', devs s' !! id = Some d' ∧ same_shape d d' }.
#[local] Instance on_nic_preorder nic id : PreOrder (on_nic nic id).
Proof.
  split; [intros s; split; [done|reflexivity|done|intros d Hd; by exists d]|]. intros s1 s2 s3 [T1 S1 M1 D1] [T2 S2 M2 D2].
  split; [exact (silent_trans _ _ _ T1 T2)|exact (lasts_trans _ _ _ _ S1 S2)|auto|]. intros d Hd.
  destruct (D1 d Hd) as (d' & Hd' & Hs1), (D2 d' Hd') as (d'' & Hd'' & Hs2). exists d''.
  split; [done|exact (same_shape_trans _ _ _ Hs1 Hs2)].
Qed.
Definition nic_here (nic : string) (id : positive) (l : Link) (s : NetState) : Prop :=
  ∃ d, dev_named s (cur_ns s) nic id d ∧ dev_index d = link_index l.
Lemma nic_here_on nic id l s s' : on_nic nic id s s' → nic_here nic id l s → nic_here nic id l s'.
Proof.
  intros [[Ht _] _ _ Hd'] (d & (Hd & Hns & Hn) & Hi). destruct (Hd' d Hd) as (d' & Hd1 & (Sns & Sn & Si & _)).
  exists d'. rewrite Ht. split; [split_and!; congruence|congruence].
Qed.
Lemma on_nic_devs nic id s s' : silent s s' → devs s' = devs s → on_nic nic id s s'.
Proof. intros Ht Hd. split; [done|by apply lasts_devs|by apply only_marked_devs|]. intros d. rewrite Hd. by exists d. Qed.
Lemma on_nic_insert nic id s s' d d' :
  silent s s' → devs s !! id = Some d → dev_name d = nic → same_shape d d' → devs s' = <[id := d']> (devs s) →
  on_nic nic id s s'.
Proof.
  intros Ht Hd Hn Hsh Hdevs. split; [done|by apply (lasts_insert _ s s' id d d')| |].
  - intros Ho. apply (only_marked_insert nic s s' id d'); [done..|]. by destruct Hsh as (_ & -> & _).
  - intros e He. assert (e = d) as -> by congruence. exists d'. by rewrite Hdevs lookup_insert_eq.
Qed.

Lemma wp_update_nic nic id l (m : go W unit) f s :
  sat m (update_spec (link_index l) f) → stops m → (∀ d d', f d d' → same_shape d d') →
  nic_here nic id l s → wp m s (λ _ s', on_nic nic id s s').
Proof.
  intros Hm Hstop Hf (d & (Hd & Hns & Hn) & Hi). apply wp_wf. intros Hwf w r w' <- Hr.
  pose proof (Hm _ _ _ Hr) as (Ht & _ & Hok). destruct (Hstop _ _ _ Hr) as [[[] ->]|Hsame]; [|by apply on_nic_devs].
  destruct (Hok eq_refl) as (id0 & d0 & d1 & Hat & Hfd & Hdevs). rewrite -Hi in Hat.
  destruct (dev_at_unique _ id d id0 d0 Hwf Hd Hns Hat) as [-> ->]. by apply (on_nic_insert _ _ _ _ d d1); [..|apply Hf|].
Qed.
Lemma wp_LinkSetUp_nic nic id l s :
  nic_here nic id l s → wp (LinkSetUp (Some l)) s (λ _ s', on_nic nic id s s').
Proof.
  apply (wp_update_nic _ _ _ _ _ _ (LinkSetUp_law l)); [auto with pierre|]. by intros d d' (ex & _ & ->).
Qed.
Lemma wp_AddrAdd_nic nic id l a s :
  nic_here nic id l s → wp (AddrAdd (Some l) a) s (λ _ s', on_nic nic id s s').
Proof.
  intros (d & (Hd & Hns & Hn) & Hi). apply wp_wf. intros Hwf w r w' <- Hr.
  pose proof (AddrAdd_law _ _ _ _ _ Hr) as (Ht & _ & Hok).
  destruct (AddrAdd_stops _ _ _ _ _ Hr) as [[[] ->]|Hsame]; [|by apply on_nic_devs].
  destruct Hok as (id0 & d0 & Hat & Hdevs). rewrite -Hi in Hat.
  destruct (dev_at_unique _ id d id0 d0 Hwf Hd Hns Hat) as [-> ->]. by eapply (on_nic_insert _ _ _ _ d _ Ht Hd Hn); [|exact Hdevs].
Qed.

(** A program in parts, each on the interface. *)
Lemma wp_nic_bind {A B} nic id l (m : go W A) (f : A → go W B) s :
  nic_here nic id l s → wp m s (λ _ s', on_nic nic id s s') →
  (∀ a s1, nic_here nic id l s1 → wp (f a) s1 (λ _ s', on_nic nic id s1 s')) →
  wp (m ≫= f) s (λ _ s', on_nic nic id s s').
Proof.
  intros Hh Hm Hf. apply wp_sums; [apply _|]. eapply wp_mono; [exact Hm|]. intros r s1 Hon.
  split; [done|]. intros a _. apply Hf. exact (nic_here_on _ _ _ _ _ Hon Hh).
Qed.
Lemma wp_nic_reads {A} nic id (m : go W A) s : reads m → quiet m → wp m s (λ _ s', on_nic nic id s s').
Proof.
  intros Hr Hq. eapply wp_mono; [apply wp_conj; [by apply wp_reads|by apply wp_quiet]|].
  intros r s' [Hd Ht]. by apply on_nic_devs.
Qed.
Lemma wp_nic_link nic id d s :
  dev_named s (cur_ns s) nic id d → nic_here nic id (dev_link d) s.
Proof. intros Hd. by exists d. Qed.

Lemma wp_restore_nic nic id l as_ s :
  nic_here nic id l s → wp (forM_ (restoreAddress l) as_) s (λ _ s', on_nic nic id s s').
Proof.
  revert s. induction as_ as [|a as_ IH]; intros s Hh; cbn [forM_]; [apply wp_ret; reflexivity|].
  apply (wp_nic_bind _ _ l); [done| |intros _ s1; apply IH].
  unfold restoreAddress. cbv zeta. apply wp_bind, wp_attempt.
  eapply wp_mono; [exact (wp_AddrAdd_nic nic id l _ s Hh)|]. intros [u|e|] s1 Hon; [by apply wp_ret| |done].
  destruct (os_IsExist e); [by apply wp_ret|by apply wp_fail].
Qed.

Lemma wp_marked_move l h s : wp (LinkSetNsFd l h) s (λ _ s', marks_kept s s').
Proof. apply (obeys_all marks_account 0), (obeys_LinkSetNsFd marks_account). Qed.

(** What is kept of it, whatever is done with the interface. *)
Record nic_kept (nic : string) (hns tns : Z) (s s' : NetState) : Prop := {
  kept_others : lasts [nic] s s';
  kept_marked : only_marked nic s → only_marked nic s';
  kept_nic : nic_there nic hns tns s → nic_there nic hns tns s' }.
#[local] Instance nic_kept_preorder nic hns tns : PreOrder (nic_kept nic hns tns).
Proof.
  split; [intros s; split; [reflexivity|done..]|]. intros s1 s2 s3 [S1 M1 D1] [S2 M2 D2].
  split; [exact (lasts_trans _ _ _ _ S1 S2)|auto..].
Qed.
Lemma nic_kept_lasts nic hns tns s s' :
  lasts [] s s' → (only_marked nic s → only_marked nic s') → nic_kept nic hns tns s s'.
Proof.
  intros Hs Hm. split; [by apply (lasts_mono []); [apply list_subseteq_nil|]|done|].
  apply (nic_there_lasts []); [done|apply not_elem_of_nil].
Qed.
Lemma nic_kept_devs nic hns tns s s' : devs s' = devs s → nic_kept nic hns tns s s'.
Proof. intros Hd. apply nic_kept_lasts; [by apply lasts_devs|by apply only_marked_devs]. Qed.
Lemma nic_kept_on nic hns tns id s s' : on_nic nic id s s' → nic_kept nic hns tns s s'.
Proof. intros [_ Hs Hm _]. by apply nic_kept_lasts. Qed.

Lemma wp_LinkByName_nic {B} nic hns tns g (f : Link → go W B) s :
  (∀ id d, dev_named s (cur_ns s) nic id d → nic_here nic id (dev_link d) s →
     wp (f (dev_link d)) s (λ _ s', on_nic nic id s s')) →
  wp (l ← on_errM g (LinkByName nic); f l) s (λ _ s', nic_kept nic hns tns s s').
Proof.
  intros Hf. apply wp_bind, wp_on_err. eapply wp_sat; [apply LinkByName_law|].
  intros [l|e|] s1 [-> Hl]; cbn [on_err]; [|reflexivity..]. destruct Hl as (id & d & Hd & Hns & Hn & ->).
  eapply wp_mono; [apply (Hf id d); [by split_and!|apply wp_nic_link; by split_and!]|].
  intros r s1. apply nic_kept_on.
Qed.

Lemma wp_moveNic_leaves nic ns tns s :
  handles (thr s) !! ns = Some tns → kinded plain_link nic s →
  wp (moveNicToNamespace nic ns) s (λ _ s', nic_kept nic (cur_ns s) tns s s').
Proof.
  intros Hh Hk. unfold moveNicToNamespace. apply wp_bind, wp_attempt.
  eapply wp_mono; [apply (wp_look_inside nic ns tns _ s Hh)|].
  intros r s1 [-> _]. destruct r as [l|e|]; [apply wp_ret; reflexivity| |reflexivity].
  apply wp_bind, wp_on_err. eapply wp_sat; [apply LinkByName_law|].
  intros [l|e'|] s1 [-> Hl]; cbn [on_err]; [|reflexivity..]. destruct Hl as (id & d & Hd & Hns & Hn & ->).
  apply wp_bind, wp_on_err. eapply wp_sat; [apply AddrList_law|].
  intros [as_|e'|] s1 (-> & _ & _); cbn [on_err]; [|reflexivity..].
  apply wp_sums; [apply _|]. apply wp_on_err.
  eapply wp_mono; [apply wp_conj; [apply (wp_move _ ns tns s id d); [done|by split_and!]|
    apply wp_conj; [by apply wp_quiet, quiet_LinkSetNsFd|by apply wp_marked_move]]|].
  intros r s1 [Hmove [[Ht _] Hm]]. split.
  - destruct Hmove as [Hsame|[_ [(d' & Hd' & Hns' & Hn' & Hk' & _ & _) Hst]]]; [by apply nic_kept_devs|].
    rewrite Hn in Hst. split; [exact Hst|exact (only_marked_kept nic _ _ Hm)|]. intros _. exists id, d'.
    split; [|left; split_and!; congruence]. apply plain_link_spec. rewrite -(Hk id d Hd Hn).
    apply type_check_plain. rewrite Hk'. apply same_kind_refl.
  - intros _ _. apply wp_inside; [by apply nic_kept_devs|apply _|unfold restoreAddress; solve_quiet|].
    intros s2 _. apply wp_LinkByName_nic. intros id2 d2 Hd2 Hhere.
    apply (wp_nic_bind _ _ (dev_link d2)); [done|by apply wp_on_err, wp_LinkSetUp_nic|].
    intros _ s3 Hhere3. by apply wp_restore_nic.
Qed.

Lemma wp_assignIP_nic nic id l address s :
  nic_here nic id l s → wp (assignIPToInterface (Some l) address) s (λ _ s', on_nic nic id s s').
Proof.
  intros Hh. unfold assignIPToInterface. apply (wp_nic_bind _ _ l); [done| |].
  { apply wp_nic_reads; [apply reads_interfaceHasIP|unfold interfaceHasIP; solve_quiet]. }
  intros [|] s1 Hh1; [apply wp_ret; reflexivity|]. apply (wp_nic_bind _ _ l); [done| |].
  { apply wp_nic_reads; [apply reads_err_with_name, reads_lift|solve_quiet]. }
  intros a s2 Hh2. apply wp_err_with_name. eapply wp_mono; [exact (wp_AddrAdd_nic nic id l a s2 Hh2)|].
  by intros [] s3 Hon.
Qed.

Lemma wp_moveUnderlayNic_leaves nic ns tns s :
  canonical_addr W special → handles (thr s) !! ns = Some tns → kinded plain_link nic s → only_marked nic s →
  wp (moveUnderlayNic nic ns) s (λ _ s', nic_kept nic (cur_ns s) tns s s').
Proof.
  intros Hcan Hh Hk Ho. unfold moveUnderlayNic. apply wp_bind, wp_on_err.
  eapply wp_mono; [apply wp_conj; [by apply (wpo_oldUnderlayInterface _ tns)|
    apply wp_reads; unfold oldUnderlayInterface; apply reads_inNamespace, reads_bind;
      [apply reads_on_err, reads_LinkList|apply reads_findUnderlay]]|].
  intros [old|e|] s1 [Hold Hd]; cbn [on_err on_ok] in *; [|by apply nic_kept_devs..].
  destruct Hold as [-> Hfound].
  destruct (bool_decide (old ≠ "") && bool_decide (old = nic)); [apply wp_ret; reflexivity|].
  destruct (bool_decide (old ≠ "") && bool_decide (old ≠ nic)) eqn:Hdiff.
  { apply andb_prop in Hdiff as [Hn1%bool_decide_eq_true Hn2%bool_decide_eq_true]. exfalso.
    destruct Hfound as [?|(id & d & (Hdev & _ & Hn) & Hm)]; [done|]. apply Hn2. rewrite -Hn. exact (Ho id d Hdev Hm). }
  apply wp_bind, wp_ret. apply wp_sums; [apply _|]. eapply wp_mono; [by apply (wp_moveNic_leaves nic ns tns)|].
  intros r s1 Hkept. split; [done|]. intros _ _.
  apply wp_inside; [by apply nic_kept_devs|apply _|apply quiet_special_body|].
  intros s2 _. apply wp_LinkByName_nic. intros id d Hat Hhere.
  apply (wp_nic_bind _ _ (dev_link d)); [done|by apply wp_assignIP_nic|].
  intros _ s3 Hhere3. by apply wp_on_err, wp_LinkSetUp_nic.
Qed.

(** The loopback is made or gets an address, and that is all. *)
Definition still_account : account := {|
  sums _ := lasts []; addressable _ := True; droppable := False; account_generated _ _ := I;
  account_mild _ s s' _ _ H := match H with or_introl no => match no with end | or_intror Hs => Hs end;
  account_trans _ _ := lasts_trans [] |}.

Lemma wp_SetupUnderlay_leaves up tns s :
  let nic := UnderlayParams.MainNic up in
  named s !! UnderlayParams.TargetNS up = Some tns → canonical_addr W special →
  canonical_addr W (UnderlayParams.VtepIP up) → UnderlayParams.VtepIP up ≠ special →
  nic ≠ UnderlayLoopback → kinded plain_link nic s → only_marked nic s →
  wp (SetupUnderlay up) s (λ _ s', nic_kept nic (cur_ns s) tns s s').
Proof.
  intros nic Hns Hcs Hcv Hne Hnl Hk Ho. unfold SetupUnderlay. apply wp_bind, wp_on_err.
  eapply wp_sat; [apply GetFromName_law|]. intros [ns|e|] s1 [_ Hs1]; cbn [on_err]; [|subst; reflexivity..].
  destruct Hs1 as (n & Hn & _ & ->). assert (n = tns) as -> by congruence. set (s1 := set_thr _ s).
  apply wp_deferring. apply (wp_mono _ _ (λ _ s', nic_kept nic (cur_ns s1) tns s1 s')).
  2:{ intros r s2 HQ. eapply wp_sat; [apply Close_law|]. intros r' s3 [_ ->].
    transitivity s1; [by apply nic_kept_devs|]. transitivity s2; [done|by apply nic_kept_devs]. }
  apply wp_sums; [apply _|]. eapply wp_mono.
  { apply wp_conj; [apply (obeys_all still_account 2)|apply wp_conj; [apply (obeys_all marks_account 2)|
      apply wp_conj; [apply (obeys_all (tamed_account [UnderlayLoopback]) 2)|
        apply wp_quiet, quiet_inNamespace, quiet_setupLoopback]]];
      apply obeys_inNamespace, obeys_setupLoopback.
    - intros m k s0 id d s2 _ _ Hadd. exact (added_lasts _ _ _ _ _ _ Hadd).
    - by intros ? _.
    - apply marks_allowed.
    - by apply canonical_assignable.
    - apply tamed_allowed. unfold request_names. set_solver.
    - by intros ? _. }
  intros r s2 (Hst & Hm & Ht & [Hthr _]). split; [exact (nic_kept_lasts _ _ _ _ _ Hst (only_marked_kept nic _ _ Hm))|].
  intros _ _. assert (cur_ns s1 = cur_ns s2) as -> by by rewrite Hthr.
  apply wp_moveUnderlayNic_leaves; [done|rewrite Hthr; cbn; by rewrite lookup_insert_eq| |].
  - refine (kinded_tamed _ _ _ s1 _ type_check_plain Ht _ Hk). by rewrite list_elem_of_singleton.
  - exact (only_marked_kept nic _ _ Hm Ho).
Qed.
End lasting.
