(* ===== verification/Recovery.v ===== *)
(** * After a run that failed

    A reconciliation can stop anywhere: the kernel refuses a call, the container runtime
    or the cluster does not answer.  With a kernel whose calls fail as the file Faults
    says, what it leaves is a state a later reconciliation can finish from, whatever
    number of attempts fail in between. *)

From S2P Require Import Prelude GoStrings GoNet Api Ipam Frr HostParams Conversion.
From S2P Require Import Netlink Troubles NetLogic HostLinks LinkSpecs Progress Held Faults Origins LinkProgress VethSpecs SimKernel SimProgress.
From S2P Require Import HostNetwork HostSpecs Twins Detour VniSpecs VniProgress Underlay UnderlayProgress.
From S2P Require Import Reload Pods Cluster Controller Watched Outcome Again Live Steady Settles Lasting.
Local Open Scope Z_scope.

(** ** What a node is to be configured with, in the course of time *)

(** Two VNIs that use the same names, or no name in common. *)
Definition alike (p q : VNIParams.t) : Prop :=
  VNIParams.VRF p = VNIParams.VRF q ∧ VNIParams.VNI p = VNIParams.VNI q.
(** The interface of the underlay and the VNIs that may be asked for, at one time or
    another: their addresses may change, their names are their own. *)
Record plan (nic : string) (known : list VNIParams.t) : Prop := {
  plan_named : nic ≠ "" ∧ nic ≠ UnderlayLoopback;
  plan_nic p : p ∈ known → nic ∉ vni_names p;
  plan_pairs p q : p ∈ known → q ∈ known → alike p q ∨ ∀ n, n ∈ vni_names q → n ∉ vni_names p;
  plan_marks : Forall off_mark known }.

(** A configuration that is part of it, for the router's namespace [tns]. *)
Record asked (nic : string) (known : list VNIParams.t) (tns : Z) (s : NetState)
    (up : UnderlayParams.t) (vps : list VNIParams.t) : Prop := {
  asked_nic : UnderlayParams.MainNic up = nic;
  asked_ns : named s !! UnderlayParams.TargetNS up = Some tns;
  asked_vtep : readable (UnderlayParams.VtepIP up) = true;
  asked_mark : UnderlayParams.VtepIP up ≠ special;
  asked_vnis : vps ⊆ known }.

(** A state in which the host can be configured with any of it: nothing is made yet, or
    some of it, or all.  [hns] is the host's namespace. *)
Record node_ready (nic : string) (known : list VNIParams.t) (hns tns : Z) (s : NetState) : Prop := {
  ready_vnis p : p ∈ known → vni_startable p hns tns s;
  ready_loopback : kinded plain_link UnderlayLoopback s;
  ready_plain : kinded plain_link nic s;
  ready_nic : nic_there nic hns tns s;
  ready_marks : only_marked nic s }.

Lemma node_ready_kept nic known hns tns s s' :
  host_kept s s' → node_ready nic known hns tns s → node_ready nic known hns tns s'.
Proof.
  intros Hk [Hv Hl Hp Hn Hm]. pose proof Hk as [_ Hd]. split.
  - intros p Hin. exact (startable_kept _ _ _ _ _ Hk (Hv p Hin)).
  - unfold kinded. by rewrite Hd.
  - unfold kinded. by rewrite Hd.
  - by apply (nic_there_lasts [] _ _ _ s); [apply lasts_devs|apply not_elem_of_nil|].
  - by apply (only_marked_devs _ s).
Qed.

(** ** The types of the devices with one name *)
Definition kinded_account (ok : Link → bool) (n : string) (Hok : type_check ok) : account.
  refine {| sums _ s s' := kinded ok n s → kinded ok n s'; addressable _ := True; droppable := True |}.
  - done.
  - intros _ s s' Hm _ _. exact (kinded_mild ok n s s' Hok Hm).
  - auto.
Defined.
#[export] Instance kinded_drops ok n Hok : Drops (kinded_account ok n Hok) := I.
Lemma kinded_allowed ok n Hok req : asks ok n req → allowed (kinded_account ok n Hok) req.
Proof.
  intros Ha m k s id d s' _ _ Hadd. exact (kinded_added ok n _ _ _ _ _ Hok (asks_any ok n m req Hok Ha) Hadd).
Qed.

(** The thread is where it was, and the state is as ready as it was. *)
Definition still_ready (nic : string) (known : list VNIParams.t) (tns : Z) (s s' : NetState) : Prop :=
  (cur_ns s' = cur_ns s ∧ named s' = named s) ∧ (node_ready nic known (cur_ns s) tns s → node_ready nic known (cur_ns s) tns s').
#[export] Instance still_ready_preorder nic known tns : PreOrder (still_ready nic known tns).
Proof.
  split; [by intros s|]. intros s1 s2 s3 [[C1 N1] R1] [[C2 N2] R2]. split; [split; congruence|].
  intros Hr. rewrite -C1. apply R2. rewrite C1. by apply R1.
Qed.

Section recovery.
Context {W : Type} `{NetlinkLaws W, !Untroubled W, !FailStop W}.

(** ** A VNI through what is done for another *)
Lemma startable_lasts N k M q hns tns s s' :
  vni_startable q hns tns s → wf s → wf s' → tamed N s s' → grown k s s' → named s' = named s → lasts M s s' →
  Forall (λ n, n ∉ N ∧ n ∉ M) (vni_names q) → vni_startable q hns tns s'.
Proof.
  intros Hq Hwf Hwf' Ht Hg Hn Hs Hfree. refine (startable_after N k q _ _ _ _ Hq Hwf' Ht Hg Hn _ _).
  - eapply Forall_impl; [|exact Hfree]. by intros n [].
  - right. unfold vni_names in Hfree. rewrite !list.Forall_cons in Hfree.
    destruct Hfree as ([F1 M1] & [F2 M2] & _). exact (legs_ready_lasts N M _ _ _ _ _ Hwf Ht Hs F1 F2 M1 M2 (start_legs _ _ _ _ Hq)).
Qed.

Lemma startable_alike p q hns tns s s' :
  alike p q → vni_startable p hns tns s' → vni_startable q hns tns s → named s' = named s →
  vni_startable q hns tns s'.
Proof.
  intros [Hr Hv] [_ _ Hu Hp Hl H1' H2' H3' Hx] [Hvalid Hns _ _ _ _ _ _ _] Hn.
  split; [done|by rewrite Hn|done|..]; by rewrite -?Hr -?Hv.
Qed.

(** And through what is done for itself. *)
Lemma startable_fits p k N hns tns s s' :
  vni_startable p hns tns s → named s' = named s → tamed N s s' → grown k s s' → vni_fits p s' →
  legs_ready (VNIParams.VRF p) hns tns s' → vni_startable p hns tns s'.
Proof.
  intros [Hv Hns Hu _ _ _ _ _ Hx] Hn [Hu' _] [_ Hx'] [F1 F2 F3 F4] Hl.
  split; [done|by rewrite Hn|auto|done..|auto].
Qed.

Lemma vni_fits_startable p hns tns s : vni_startable p hns tns s → vni_fits p s.
Proof. by intros []. Qed.

(** ** One VNI *)
Lemma wp_SetupVNI_sums p tns s :
  vni_startable p (cur_ns s) tns s → off_mark p →
  wp (SetupVNI p) s (λ _ s', wf s' ∧ (cur_ns s' = cur_ns s ∧ named s' = named s)
    ∧ tamed (vni_names p) s s' ∧ grown 18 s s' ∧ vni_fits p s' ∧ marks_kept s s'
    ∧ lasts [(vethLegsForVRF (VNIParams.VRF p)).2] s s' ∧ legs_ready (VNIParams.VRF p) (cur_ns s) tns s').
Proof.
  intros Hp [Hm1 Hm2]. destruct (vni_valid_spec p (start_valid _ _ _ _ Hp)) as ([Ha1 Ha2] & _).
  apply wp_conj; [intros w r w' _ _; apply view_wf|]. apply wp_conj; [apply wp_SetupVNI_thread|].
  apply wp_conj; [apply (obeys_all (tamed_account (vni_names p)) 18), (obeys_SetupVNI (tamed_account _)); [|done..]|].
  { intros req Hr. by apply tamed_allowed, vni_request_names. }
  apply wp_conj; [apply (obeys_all grown_account 18), (obeys_SetupVNI grown_account); [|done..]|].
  { intros req Hr. exact (grown_allowed _ (vni_request_well_named _ _ Hr)). }
  apply wp_conj; [apply (wp_mono _ _ (λ _ s', vni_fits p s → vni_fits p s'));
    [apply (obeys_all (fits_account p) 18), (obeys_SetupVNI (fits_account p)); [|done..]|]|].
  { intros req Hr. apply fits_allowed, request_fits_own; [apply Hp|done]. }
  { intros _ s' Hf. exact (Hf (vni_fits_startable _ _ _ _ Hp)). }
  apply wp_conj; [|by apply wp_SetupVNI_leaves].
  apply (obeys_all marks_account 18), (obeys_SetupVNI marks_account); [intros; apply marks_allowed|..];
    (apply canonical_assignable; [by apply readable_canonical|done]).
Qed.

Context (nic : string) (known : list VNIParams.t) (Hplan : plan nic known).

Lemma plan_valid_loopback p hns tns s : vni_startable p hns tns s → UnderlayLoopback ∉ vni_names p.
Proof. intros Hp. apply loopback_apart, (vni_valid_spec p (start_valid _ _ _ _ Hp)). Qed.

Lemma wp_SetupVNI_ready p tns s :
  p ∈ known → node_ready nic known (cur_ns s) tns s →
  wp (SetupVNI p) s (λ _ s', (cur_ns s' = cur_ns s ∧ named s' = named s) ∧ node_ready nic known (cur_ns s) tns s').
Proof.
  intros Hin [Hv Hl Hp Hn Hm]. apply wp_wf. intros Hwf. pose proof (Hv p Hin) as Hst.
  pose proof (proj1 (list.Forall_forall _ _) (plan_marks _ _ Hplan) p Hin) as Hoff.
  pose proof (plan_nic _ _ Hplan p Hin) as Hnic.
  eapply wp_mono; [by apply (wp_SetupVNI_sums p tns)|].
  intros _ s' (Hwf' & [Hc Hnm] & Ht & Hg & Hf & Hmk & Hs & Hlegs). split; [done|].
  pose proof (startable_fits _ _ _ _ _ _ _ Hst Hnm Ht Hg Hf Hlegs) as Hst'. split.
  - intros q Hq. destruct (plan_pairs _ _ Hplan p q Hin Hq) as [Ha|Hapart].
    { exact (startable_alike _ _ _ _ _ _ Ha Hst' (Hv q Hq) Hnm). }
    refine (startable_lasts _ _ _ _ _ _ _ _ (Hv q Hq) Hwf Hwf' Ht Hg Hnm Hs _). apply list.Forall_forall.
    intros n Hnq. pose proof (Hapart n Hnq) as Hnp. split; [done|]. rewrite list_elem_of_singleton. intros ->.
    apply Hnp. by right; left.
  - refine (kinded_tamed _ _ _ _ _ type_check_plain Ht _ Hl). exact (plan_valid_loopback _ _ _ _ Hst).
  - exact (kinded_tamed _ _ _ _ _ type_check_plain Ht Hnic Hp).
  - refine (nic_there_lasts _ _ _ _ _ _ Hs _ Hn). rewrite list_elem_of_singleton. intros ->. apply Hnic. by right; left.
  - exact (only_marked_kept _ _ _ Hmk Hm).
Qed.

(** ** The underlay *)
Lemma wp_SetupUnderlay_ready up vps tns s :
  asked nic known tns s up vps → node_ready nic known (cur_ns s) tns s →
  wp (SetupUnderlay up) s (λ _ s', (cur_ns s' = cur_ns s ∧ named s' = named s) ∧ node_ready nic known (cur_ns s) tns s').
Proof.
  intros [Hnic Hns Hread Hmark _] [Hv Hl Hp Hn Hm]. destruct (plan_named _ _ Hplan) as [_ Hlo]. apply wp_wf. intros Hwf.
  assert (∀ p, p ∈ known → fitting p (mkLink (mkAttrs 0 UnderlayLoopback 0) Dummy)) as Hfit.
  { intros p Hin. apply request_fits_other. intros n Hnr. unfold request_names in Hnr. cbn in Hnr.
    apply list_elem_of_singleton in Hnr as ->. exact (plan_valid_loopback _ _ _ _ (Hv p Hin)). }
  assert (∀ (R : account) `{!Drops R}, (∀ a, addressable R a) → allowed R (mkLink (mkAttrs 0 UnderlayLoopback 0) Dummy) →
    wp (SetupUnderlay up) s (λ _ s', R 2%nat s s')) as Hacc.
  { intros R HR Hfree Hall. apply (obeys_all R 2). by apply obeys_SetupUnderlay. }
  eapply wp_mono.
  { apply wp_conj; [intros w r w' _ _; apply (view_wf w')|]. apply wp_conj; [apply wp_SetupUnderlay_thread|].
    apply wp_conj; [apply (Hacc (tamed_account [UnderlayLoopback]) _); [done|]|].
    { apply tamed_allowed. unfold request_names. set_solver. }
    apply wp_conj; [apply (Hacc grown_account _); [done|by apply grown_allowed]|].
    apply wp_conj; [apply (Hacc (kinded_account plain_link UnderlayLoopback type_check_plain) _); [done|]|].
    { by apply kinded_allowed. }
    apply (wp_SetupUnderlay_leaves up tns); rewrite ?Hnic; try done; apply readable_canonical;
      [apply special_readable|done]. }
  intros _ s' (Hwf' & [Hc Hnm] & Ht & Hg & Hkl & [Hs Hmk Hnt]). rewrite Hnic in Hs Hmk Hnt. split; [done|]. split.
  - intros q Hq. refine (startable_lasts _ _ _ _ _ _ _ _ (Hv q Hq) Hwf Hwf' Ht Hg Hnm Hs _).
    apply list.Forall_forall. intros n Hnq. rewrite !list_elem_of_singleton. split; intros ->.
    + exact (plan_valid_loopback _ _ _ _ (Hv q Hq) Hnq).
    + exact (plan_nic _ _ Hplan q Hq Hnq).
  - exact (Hkl Hl).
  - refine (kinded_tamed _ _ _ _ _ type_check_plain Ht _ Hp). by rewrite list_elem_of_singleton.
  - exact (Hnt Hn).
  - exact (Hmk Hm).
Qed.

(** ** The whole configuration, of which any part may fail *)
Lemma wp_SetupVNIs_ready g vps tns s :
  vps ⊆ known → node_ready nic known (cur_ns s) tns s →
  wp (forM_ (λ vni, on_errM g (SetupVNI vni)) vps) s (λ _ s', still_ready nic known tns s s').
Proof.
  revert s. induction vps as [|p vps IH]; intros s Hin Hr; cbn [forM_]; [apply wp_ret; reflexivity|].
  apply wp_sums; [apply _|]. apply wp_on_err. eapply wp_mono; [apply (wp_SetupVNI_ready p tns); [set_solver|done]|].
  intros r s1 [Hthr Hr1]. split; [done|]. intros [] _. apply IH; [set_solver|].
  destruct Hthr as [-> _]. exact Hr1.
Qed.
Lemma configureHost_ready up vps tns w x w' :
  asked nic known tns (view w) up vps → node_ready nic known (cur_ns (view w)) tns (view w) →
  configureHost up vps w = (x, w') → still_ready nic known tns (view w) (view w').
Proof.
  intros Hask Hr. refine (wp_sums (still_ready nic known tns) _ _ (view w) _ w x w' eq_refl).
  apply wp_on_err. eapply wp_mono; [by apply (wp_SetupUnderlay_ready up vps tns)|].
  intros y s1 [Hthr Hr2]. split; [done|]. intros [] _. apply wp_SetupVNIs_ready; [apply Hask|].
  destruct Hthr as [-> _]. exact Hr2.
Qed.
End recovery.

(** ** The reconciliation *)

(** What the cluster asks for when [r] runs in [w] is part of the plan. *)
Definition within_plan {W : Type} `{View W, GoCidr, Sort} (nic : string) (known : list VNIParams.t) (tns : Z)
    (json_Unmarshal : string → res PodSandboxStatusInfo.t) (r : PERouterReconciler.t W) (w : W) : Prop :=
  ∀ idx pod us vs w1 rt ns w2 w3 up vps, read_all r w idx pod us vs w1 →
    PERouterReconciler.PodRuntime r = Some rt → host_kept (view w) (view w2) →
    NetworkNamespace json_Unmarshal rt (Pod.UID pod) w2 = (Ok ns, w3) →
    APItoHostConfig idx ns us vs = Ok (up, vps) → asked nic known tns (view w) up vps.

Section reconcile.
Context {W : Type} `{NetlinkLaws W, !FailStop W, GoCidr, Sort, OutsideLaws W serves path}.
Context (osHostname : go W string) (json_Unmarshal : string → res PodSandboxStatusInfo.t).
Context (r : PERouterReconciler.t W) `{!Apart (PERouterReconciler.Client r) osHostname}.
Context (nic : string) (known : list VNIParams.t) (Hplan : plan nic known).

Lemma Reconcile_ready tns w x w' :
  (∀ rt, PERouterReconciler.PodRuntime r = Some rt → RuntimeApart rt) →
  within_plan nic known tns json_Unmarshal r w → node_ready nic known (cur_ns (view w)) tns (view w) →
  Reconcile osHostname json_Unmarshal r w = (x, w') → Reconcile_troubles osHostname json_Unmarshal r w = [] →
  still_ready nic known tns (view w) (view w').
Proof.
  intros Hapart Hwithin Hr Hrun Htr.
  assert (∀ w1, host_kept (view w) (view w1) → still_ready nic known tns (view w) (view w1)) as Hkept.
  { intros w1 Hk. pose proof Hk as [[Ht Hn] _]. split; [by rewrite Ht|by apply node_ready_kept]. }
  destruct (Reconcile_cases osHostname json_Unmarshal r _ _ _ Hrun) as [[[Hk _] _]|(idx & pod & us & vs & w1 & Hread & Hrest)]; [by apply Hkept|].
  pose proof (proj1 (read_all_unread osHostname r _ _ _ _ _ _ Hread)) as Hk1.
  destruct Hrest as [(_ & y & _ & Hload)|(w2 & Hload & Hrest)].
  { apply Hkept. exact (transitivity (R:=host_kept) Hk1 (reloadFRRConfig_apart osHostname r _ _ _ _ Hload)). }
  pose proof (transitivity (R:=host_kept) Hk1 (reloadFRRConfig_apart osHostname r _ _ _ _ Hload)) as Hk2.
  destruct Hrest as [[-> _]|(rt & Hrt & Hconf)]; [by apply Hkept|]. pose proof (Hapart rt Hrt) as Hrta.
  destruct (configureInterfaces_cases _ _ _ _ _ _ _ _ _ Hconf) as [(y & Hns)|(ns & up & vps & w3 & Hns & Hconv & Hh)].
  { apply Hkept. exact (transitivity (R:=host_kept) Hk2 (NetworkNamespace_apart json_Unmarshal rt _ _ _ _ Hns)). }
  pose proof (transitivity (R:=host_kept) Hk2 (NetworkNamespace_apart json_Unmarshal rt _ _ _ _ Hns)) as Hk3.
  destruct (Reconcile_host _ _ _ _ _ _ _ _ _ _ _ _ _ _ _ Hread Hload Hrt Hns Hconv) as [_ Hth]. rewrite Hth in Htr.
  transitivity (view w3); [by apply Hkept|]. by_detour well_formed (λ W (_ : Netlink W), configureHost up vps) Hh Htr.
  pose proof Hk3 as [[Ht3 Hn3] _]. pose proof (Hwithin _ _ _ _ _ _ _ _ _ _ _ Hread Hrt Hk2 Hns Hconv) as [? ? ? ? ?].
  refine (configureHost_ready (W:=detoured W well_formed) nic known Hplan up vps tns _ _ _ _ _ Hh).
  - split; [done|cbn; by rewrite Hn3|done..].
  - cbn. rewrite Ht3. by apply (Hkept w3 Hk3).
Qed.
End reconcile.

(** Any kernel, cluster and container runtime may be behind an attempt that meets no
    trouble the code does not see; between attempts
    anything may happen that leaves the devices alone. *)
Inductive attempt {W : Type} `{View W, GoCidr, Sort, OutsideLaws W serves path} (nic : string)
    (known : list VNIParams.t) (tns : Z) : W → W → Prop :=
  | attempt_reconcile (kernel : Netlink W) (osHostname : go W string)
      (json_Unmarshal : string → res PodSandboxStatusInfo.t) (r : PERouterReconciler.t W) w x w' :
      NetlinkLaws W → FailStop W → Apart (PERouterReconciler.Client r) osHostname →
      (∀ rt, PERouterReconciler.PodRuntime r = Some rt → RuntimeApart rt) →
      within_plan nic known tns json_Unmarshal r w →
      Reconcile osHostname json_Unmarshal r w = (x, w') →
      Reconcile_troubles osHostname json_Unmarshal r w = [] → attempt nic known tns w w'
  | attempt_elsewhere w w' : host_kept (view w) (view w') → attempt nic known tns w w'.

Section recovers.
Context {W : Type} `{NetlinkLaws W, GoCidr, Sort, OutsideLaws W serves path}.
Context (nic : string) (known : list VNIParams.t) (Hplan : plan nic known).

Lemma attempts_ready tns w w' :
  rtc (attempt nic known tns) w w' → node_ready nic known (cur_ns (view w)) tns (view w) →
  still_ready nic known tns (view w) (view w').
Proof.
  induction 1 as [w|w1 w2 w3 Hstep _ IH]; intros Hr; [reflexivity|].
  assert (still_ready nic known tns (view w1) (view w2)) as Hs.
  { destruct Hstep as [kernel host json r w x w' HL HF HA Hrt Hwithin Hrun Htr|w w' Hk].
    - exact (Reconcile_ready host json r nic known Hplan tns w x w' Hrt Hwithin Hr Hrun Htr).
    - pose proof Hk as [[Ht Hn] _]. split; [by rewrite Ht|by apply node_ready_kept]. }
  transitivity (view w2); [done|]. apply IH. destruct Hs as [[-> _] Hs]. by apply Hs.
Qed.

(** The host can be configured from such a state with any part of the plan. *)
Lemma ready_startable {cap} `{!Untroubled W, !NetlinkProgress W cap} tns s up vps :
  node_ready nic known (cur_ns s) tns s → asked nic known tns s up vps → names_free [UnderlayLoopback; nic] vps →
  (size (devs s) + 2 + 18 * length vps ≤ cap)%nat → node_startable W cap up vps tns s.
Proof.
  intros [Hv Hl Hp (id & d & Hpl & Hat) Hm] [Hnic Hns Hread Hmark Hin] Hfree Hroom.
  destruct (plan_named _ _ Hplan) as [_ Hlo]. split; rewrite ?Hnic; try done.
  - split; [done|by apply readable_canonical|by apply readable_canonical, special_readable|by rewrite Hnic|].
    intros i e (He & _ & Hn). split; [by apply plain_link_spec, (Hl i)|]. intros Hin'. apply Hlo.
    rewrite -Hn. symmetry. exact (Hm i e He Hin').
  - split; [by exists id, d|]. intros i e He _ Hin' Hne. destruct Hne. exact (Hm i e He Hin').
  - intros i e He Hn. by apply plain_link_spec, (Hp i).
  - apply list.Forall_forall. intros p Hpi. by apply Hv, Hin.
  - apply list.Forall_forall. intros p Hpi i e He Hin' Hsp. apply (plan_nic _ _ Hplan p (Hin p Hpi)).
    by rewrite -(Hm i e He Hsp).
Qed.
End recovers.

Section theorems.
Context {W : Type} `{NetlinkLaws W, GoCidr, Sort, OutsideLaws W serves path}.
Context (osHostname : go W string) (json_Unmarshal : string → res PodSandboxStatusInfo.t).
Context (r : PERouterReconciler.t W) `{!Apart (PERouterReconciler.Client r) osHostname}.

(** C7. A reconciliation that stops anywhere leaves a state it can be tried again from.  If
    the kernel's calls fail as a whole, then after any run of [Reconcile], whatever it
    returns and whatever refused, the thread is in its namespace and the node is as ready
    as it was for everything that is planned for it: the veth pair of each VRF is whole,
    its router's end in one of the two namespaces, or no device has either name; devices
    called like those of a VNI, the loopback and the underlay's interface are of the right
    types; the interface is in the router's namespace, or where it was and can be moved;
    and nothing else is marked as the underlay.  The run meets no trouble the code does
    not see: no router's leg shares its index with another device, at the start or when a
    device is made or moved, every switch of namespace is let through, and looking the
    loopback up fails only when it is not there. *)
Theorem Reconcile_retries nic known tns w x w' `{!FailStop W} :
  plan nic known → (∀ rt, PERouterReconciler.PodRuntime r = Some rt → RuntimeApart rt) →
  within_plan nic known tns json_Unmarshal r w → node_ready nic known (cur_ns (view w)) tns (view w) →
  Reconcile osHostname json_Unmarshal r w = (x, w') → Reconcile_troubles osHostname json_Unmarshal r w = [] →
  cur_ns (view w') = cur_ns (view w) ∧ named (view w') = named (view w)
  ∧ node_ready nic known (cur_ns (view w)) tns (view w').
Proof.
  intros Hplan Hrt Hwithin Hready Hrun Htr.
  destruct (Reconcile_ready osHostname json_Unmarshal r nic known Hplan tns w x w' Hrt Hwithin Hready Hrun Htr)
    as [[Hc Hn] Hr]. split_and!; [done..|by apply Hr].
Qed.

(** C6. Reconciliation recovers.  Start from a node that is ready for what is planned for it,
    and let any number of attempts fail, under any kernel whose calls fail as a whole, with
    any answers of the cluster and of the container runtime, asking at different times for
    different parts of the plan.  Once the kernel has no reason to refuse, what is outside
    answers and there is room for the devices, one [Reconcile] succeeds: FRR runs the
    configuration, the host is configured, and further reconciliations change nothing.
    No attempt, and not the last run either, meets a trouble the code does not see: no
    router's leg shares its index with another device, at the start or when a device is
    made or moved, every switch of namespace is let through, and looking the loopback up
    fails only when it is not there. *)
Theorem Reconcile_recovers {cap} `{!NetlinkProgress W cap} (calm : W → Prop) nic known w0 w idx pod us vs up vps w1 tns :
  plan nic known → node_ready nic known (cur_ns (view w0)) tns (view w0) →
  rtc (attempt nic known tns) w0 w →
  answers osHostname json_Unmarshal r calm w idx pod us vs up vps w1 →
  asked nic known tns (view w) up vps → names_free [UnderlayLoopback; nic] vps →
  (size (devs (view w)) + 2 * (2 + 18 * length vps) ≤ cap)%nat →
  Reconcile_troubles osHostname json_Unmarshal r w = [] →
  ∃ w2 w', Reconcile osHostname json_Unmarshal r w = (Ok tt, w')
    ∧ frr_loaded (frr_data r idx pod us vs) w1 w2 ∧ node_steady W cap up vps tns (view w').
Proof.
  intros Hplan Hready Hattempts Hans Hasked Hfree Hroom Htr.
  destruct (attempts_ready nic known Hplan tns w0 w Hattempts Hready) as [[Hc _] Hr].
  specialize (Hr Hready). rewrite -Hc in Hr.
  destruct (Reconcile_reaches osHostname json_Unmarshal r _ _ _ _ _ _ _ _ _ Hans) as (w2 & w3 & Hload & Hk & Hrun & Hth).
  rewrite Hth in Htr. pose proof Hk as [_ Hd].
  destruct (configure_settles (W:=detoured W (room cap)) up vps tns (inl w3)) as (x & Hx & Hsteady).
  - apply (node_startable_kept _ _ _ _ _ Hk), (ready_startable nic known Hplan); [done..|lia].
  - apply list.Forall_forall. intros p Hp. pose proof (plan_marks _ _ Hplan) as Hoff. rewrite list.Forall_forall in Hoff.
    by apply Hoff, Hasked.
  - rewrite (asked_nic _ _ _ _ _ _ Hasked). by apply (only_marked_devs _ _ _ Hd), Hr.
  - rewrite (asked_nic _ _ _ _ _ _ Hasked). apply (plan_named _ _ Hplan).
  - cbn. by rewrite Hd.
  - from_detour (λ W (_ : Netlink W), configureHost up vps) Hx Htr w'. exists w2, w'.
    split; [by rewrite Hrun|]. split; [done|]. by apply detour_steady in Hsteady.
Qed.
End theorems.
