(* ===== verification/Setup.v ===== *)
(** * Starting the processes: cmd/hostcontroller, cmd/reloader, [SetupWithManager]

    What the controller's process is wired to: the flags, the manager's options, which
    events wake the reconciliation.  controller-runtime is a class of operations; its
    laws say what the filters the code registers are asked about.  The flags are taken
    as [flag.Parse] leaves them. *)

From S2P Require Import Prelude GoStrings Api Ipam Frr Conversion.
From S2P Require Import Reload Pods Cluster Controller.
Local Open Scope Z_scope.

(** ** Events *)
Inductive Watched := WNode | WPod | WUnderlay | WVNI.
Definition kind_of (o : Object) : Watched :=
  match o with ONode _ => WNode | OPod _ => WPod | OUnderlay _ => WUnderlay | OVNI _ => WVNI end.
#[export] Instance Watched_eq_dec : EqDecision Watched.
Proof. solve_decision. Defined.

(** Both objects of an update are of the same type. *)
Inductive Event :=
  | CreateEvent (o : Object)
  | UpdateEvent (ObjectOld ObjectNew : Object)
  | DeleteEvent (o : Object)
  | GenericEvent (o : Object).
Definition event_object (e : Event) : Object :=
  match e with CreateEvent o | UpdateEvent _ o | DeleteEvent o | GenericEvent o => o end.
Definition Predicate : Type := Event → res bool.

(** What is given to [NewControllerManagedBy] before [Complete]. *)
Record Builder := mkBuilder {
  For_ : Watched;
  Watches : list Watched;
  EventFilters : list Predicate;
  Named : string }.

(** The options of the manager that [main] sets. *)
Record TLSConfig := mkTLS { NextProtos : list string }.
Record ManagerOptions := mkOptions {
  BindAddress : string;
  SecureServing : bool;
  TLSOpts : list (TLSConfig → TLSConfig);
  FilterProvider : bool;
  HealthProbeBindAddress : string }.

(** ** controller-runtime *)
Class ControllerRuntime (W : Type) := {
  Manager : Type;
  NewManager : ManagerOptions → go W Manager;
  GetClient : Manager → client W;
  IndexField : Manager → string → (Object → list string) → go W unit;
  NewPredicateFuncs : (Object → bool) → Predicate;
  UpdateFuncs : (Object → Object → res bool) → Predicate;
  Complete : Manager → Builder → go W unit;
  AddHealthzCheck : Manager → string → go W unit;
  AddReadyzCheck : Manager → string → go W unit;
  Start : Manager → go W unit;
  (** Whether an event leads to a reconciliation. *)
  enqueues : Builder → Event → res bool }.

(** The documentation of predicates and of the builder. *)
Class ControllerRuntimeLaws (W : Type) `{ControllerRuntime W} : Prop := {
  NewPredicateFuncs_law f e : NewPredicateFuncs f e = Ok (f (event_object e));
  UpdateFuncs_law f e :
    UpdateFuncs f e = match e with UpdateEvent old new => f old new | _ => Ok true end;
  enqueues_law b e :
    enqueues b e = Ok true ↔
    kind_of (event_object e) ∈ For_ b :: Watches b ∧ Forall (λ p, p e = Ok true) (EventFilters b) }.

(** ** [SetupWithManager] *)
Section setup.
Context {W : Type} `{ControllerRuntime W}.

Definition controller_builder (r : PERouterReconciler.t W) : Builder :=
  mkBuilder WUnderlay [WPod; WVNI]
    [NewPredicateFuncs (filterNonRouterPods (PERouterReconciler.MyNode r) (PERouterReconciler.MyNamespace r));
     UpdateFuncs filterUpdates]
    "routercontroller".

Definition SetupWithManager (r : PERouterReconciler.t W) (mgr : Manager) : go W unit :=
  _ ← setPodNodeNameIndex (IndexField mgr);
  Complete mgr (controller_builder r).

(** ** cmd/hostcontroller *)
Record Flags := mkFlags {
  metricsAddr : string;
  probeAddr : string;
  secureMetrics : bool;
  enableHTTP2 : bool;
  nodeName : string;
  namespace : string;
  logLevel : string;
  frrConfigPath : string;
  reloadPort : Z;
  criSocket : string }.
Definition default_flags : Flags :=
  mkFlags "0" ":9081" true false "" "" "info" "/etc/perouter/frr/frr.conf" 9080
    "/var/run/containerd/containerd.sock".

Definition disableHTTP2 (c : TLSConfig) : TLSConfig := mkTLS ["http/1.1"].
Definition manager_options (f : Flags) : ManagerOptions :=
  mkOptions (metricsAddr f) (secureMetrics f) (if enableHTTP2 f then [] else [disableHTTP2])
    (secureMetrics f) (probeAddr f).

(** Nanoseconds. *)
Definition Minute : Z := 60000000000.

Variable grpc_DialContext : Z → string → go W (podSandboxer W).

(** The process exits with status 1 when this fails. *)
Definition hostcontroller_main (f : Flags) : go W unit :=
  _ ← lift (New (logLevel f));
  mgr ← NewManager (manager_options f);
  podRuntime ← NewRuntime grpc_DialContext (criSocket f) (5 * Minute);
  _ ← SetupWithManager
        (PERouterReconciler.mk (GetClient mgr) (nodeName f) (namespace f) (frrConfigPath f)
           (reloadPort f) (Some podRuntime) (logLevel f)) mgr;
  _ ← AddHealthzCheck mgr "healthz";
  _ ← AddReadyzCheck mgr "readyz";
  Start mgr.
End setup.

(** ** cmd/reloader *)
Section reloader.
Context {W : Type} `{Outside W}.
(** [http.HandleFunc] with [http.ListenAndServe]: the handler, by the method of the
    request. *)
Variable ListenAndServe : string → (string → go W Z) → go W unit.

(** A level that does not exist is reported and otherwise ignored. *)
Definition reloader_main (bindAddress frrConfigPath logLevel : string) : go W unit :=
  _ ← attempt (lift (W := W) (New logLevel));
  ListenAndServe bindAddress (reloadHandler frrConfigPath).
End reloader.

(** ** What wakes the controller *)
Section wakes.
Context {W : Type} `{ControllerRuntimeLaws W}.

(** The router's pod of this node, in the controller's namespace. *)
Definition router_here (r : PERouterReconciler.t W) (p : Pod.t) : Prop :=
  Pod.NodeName p = PERouterReconciler.MyNode r ∧ Pod.Namespace p = PERouterReconciler.MyNamespace r
  ∧ Pod.Labels p !! "app" = Some "router".

Lemma filterNonRouterPods_pod r p :
  filterNonRouterPods (PERouterReconciler.MyNode r) (PERouterReconciler.MyNamespace r) (OPod p) = true
  ↔ router_here r p.
Proof.
  unfold filterNonRouterPods, router_here. case_bool_decide as H1; [split; [done|by intros (? & _)]|].
  case_bool_decide as H2; [split; [done|by intros (_ & ? & _)]|].
  rewrite bool_decide_eq_true. split.
  - intros Hl. split_and!; [done..|]. by destruct (Pod.Labels p !! "app"); cbn in *; subst.
  - by intros (_ & _ & ->).
Qed.

Lemma enqueues_controller r e :
  enqueues (controller_builder r) e = Ok true ↔
  kind_of (event_object e) ≠ WNode
  ∧ filterNonRouterPods (PERouterReconciler.MyNode r) (PERouterReconciler.MyNamespace r) (event_object e) = true
  ∧ match e with UpdateEvent old new => filterUpdates old new = Ok true | _ => True end.
Proof.
  rewrite enqueues_law. cbn [For_ Watches EventFilters controller_builder].
  rewrite !list.Forall_cons NewPredicateFuncs_law UpdateFuncs_law !elem_of_cons elem_of_nil.
  assert (kind_of (event_object e) ≠ WNode ↔ kind_of (event_object e) = WUnderlay
    ∨ kind_of (event_object e) = WPod ∨ kind_of (event_object e) = WVNI ∨ False) as <-.
  { destruct (kind_of (event_object e)); intuition congruence. }
  assert (∀ b, (Ok b : res bool) = Ok true ↔ b = true) as Hok by (split; congruence).
  rewrite Hok. destruct e; rewrite list.Forall_nil; tauto.
Qed.

(** C23. What wakes the controller once [SetupWithManager] has registered it: any event of
    an underlay or a VNI; of the pods those of the router's pod on this node and in the
    controller's namespace, updates only when its readiness changed; and no event of a
    node, although the addresses depend on which nodes there are. *)
Theorem SetupWithManager_wakes r e :
  enqueues (controller_builder r) e = Ok true ↔
  match event_object e with
  | ONode _ => False
  | OPod p => router_here r p
      ∧ ∀ old new, e = UpdateEvent old new → ∃ q, old = OPod q ∧ PodIsReady (Some q) ≠ PodIsReady (Some p)
  | _ => True
  end.
Proof.
  rewrite enqueues_controller. destruct (event_object e) as [n|p|u|v] eqn:E; cbn [kind_of];
    [split; [by intros [? _]|done]|rewrite filterNonRouterPods_pod|..].
  - split.
    + intros (_ & Hhere & Hupd). split; [done|]. intros old new ->. cbn in E. subst new. cbn in Hupd.
      destruct old as [|q| |]; [done| |done..]. exists q. split; [done|]. intros Heq. rewrite Heq in Hupd.
      by destruct (PodIsReady (Some p)).
    + intros [Hhere Hupd]. split_and!; [done..|]. destruct e as [|old new| |]; [done| |done..].
      destruct (Hupd old new eq_refl) as (q & -> & Hne). cbn in E. subst new. cbn.
      f_equal. apply negb_true_iff. by destruct (PodIsReady (Some q)), (PodIsReady (Some p)).
  - split; [done|]. intros _. split_and!; [done..|]. destruct e; cbn in E; by subst.
  - split; [done|]. intros _. split_and!; [done..|]. destruct e; cbn in E; by subst.
Qed.
End wakes.

(** ** Nodes that come and go *)
Section replaced.
Context {W : Type} `{SortLaws}.
Implicit Type cli : client W.

Lemma created_before_all t l :
  (∀ n, n ∈ l → Node.CreationTimestamp n < t) → created_before t l = Z.of_nat (length l).
Proof.
  intros Hl. unfold created_before. f_equal. induction l as [|n l IH]; [done|].
  rewrite filter_cons_True; [|apply Hl; by left]. cbn. f_equal. apply IH. intros m Hm. apply Hl. by right.
Qed.

(** The youngest of the nodes has the highest index. *)
Lemma nodeIndex_youngest cli w w' nodes n l :
  List_Nodes cli w = (Ok nodes, w') → nodes ≡ₚ n :: l →
  NoDup (Node.Name <$> n :: l) → NoDup (Node.CreationTimestamp <$> n :: l) →
  (∀ m, m ∈ l → Node.CreationTimestamp m < Node.CreationTimestamp n) →
  nodeIndex cli (Node.Name n) w = (Ok (Z.of_nat (length l)), w').
Proof.
  intros Hlist Hp Hnames Htimes Hl. rewrite (nodeIndex_listed _ _ _ _ _ Hlist).
  rewrite indexOf_sorted; [|by rewrite Hp..|rewrite Hp; by left]. unfold created_before. rewrite Hp.
  fold (created_before (Node.CreationTimestamp n) (n :: l)). do 2 f_equal. unfold created_before.
  rewrite filter_cons_False; [|lia]. exact (created_before_all _ _ Hl).
Qed.

(** C24. After a node is replaced two nodes have the same index, and with it the same VTEP:
    when the controller of the youngest node [b] computed its index, and then one of the
    other nodes is removed and a new node [c] joins, [c] gets the index [b] still uses;
    no event of a node makes [b]'s controller compute its index again. *)
Theorem replaced_node_clash `{ControllerRuntimeLaws W} cli1 cli2 w1 w2 w1' w2' nodes1 nodes2 a b c l r e n :
  List_Nodes cli1 w1 = (Ok nodes1, w1') → nodes1 ≡ₚ a :: b :: l →
  List_Nodes cli2 w2 = (Ok nodes2, w2') → nodes2 ≡ₚ b :: c :: l →
  NoDup (Node.Name <$> a :: b :: c :: l) → NoDup (Node.CreationTimestamp <$> a :: b :: c :: l) →
  Node.CreationTimestamp b < Node.CreationTimestamp c →
  (∀ m, m ∈ a :: l → Node.CreationTimestamp m < Node.CreationTimestamp b) →
  (nodeIndex cli1 (Node.Name b) w1).1 = (nodeIndex cli2 (Node.Name c) w2).1
  ∧ (event_object e = ONode n → enqueues (controller_builder r) e ≠ Ok true).
Proof.
  intros Hl1 Hp1 Hl2 Hp2 Hnames Htimes Hbc Hyoung.
  rewrite !fmap_cons !list.NoDup_cons !not_elem_of_cons in Hnames.
  rewrite !fmap_cons !list.NoDup_cons !not_elem_of_cons in Htimes.
  split.
  - rewrite (nodeIndex_youngest cli1 w1 w1' nodes1 b (a :: l));
      [|done|rewrite Hp1; apply Permutation_swap|..|exact Hyoung].
    + rewrite (nodeIndex_youngest cli2 w2 w2' nodes2 c (b :: l));
        [done|done|rewrite Hp2; apply Permutation_swap|..].
      * rewrite !fmap_cons !list.NoDup_cons !not_elem_of_cons. naive_solver.
      * rewrite !fmap_cons !list.NoDup_cons !not_elem_of_cons. naive_solver.
      * intros m [->|Hm]%elem_of_cons; [done|]. pose proof (Hyoung m). trans (Node.CreationTimestamp b); [|done].
        apply Hyoung. by right.
    + rewrite !fmap_cons !list.NoDup_cons !not_elem_of_cons. naive_solver.
    + rewrite !fmap_cons !list.NoDup_cons !not_elem_of_cons. naive_solver.
  - intros He. rewrite enqueues_controller He. by intros [[] _].
Qed.
End replaced.

(** The metrics server never offers HTTP/2 unless asked to. *)
Lemma metrics_no_http2 f c :
  enableHTTP2 f = false → NextProtos (foldl (λ c o, o c) c (TLSOpts (manager_options f))) = ["http/1.1"].
Proof. intros Hf. unfold manager_options. by rewrite Hf. Qed.

(** ** A concrete controller-runtime *)
Fixpoint all_accept (filters : list Predicate) (e : Event) : res bool :=
  match filters with
  | [] => Ok true
  | p :: filters => match p e with Ok true => all_accept filters e | r => r end
  end.

#[export] Instance plain_runtime W : ControllerRuntime W := {
  Manager := client W;
  NewManager _ := mret (sample_client W);
  GetClient m := m;
  IndexField _ _ _ := mret tt;
  NewPredicateFuncs f e := Ok (f (event_object e));
  UpdateFuncs f e := match e with UpdateEvent old new => f old new | _ => Ok true end;
  Complete _ _ := mret tt;
  AddHealthzCheck _ _ := mret tt;
  AddReadyzCheck _ _ := mret tt;
  Start _ := mret tt;
  enqueues b e := if bool_decide (kind_of (event_object e) ∈ For_ b :: Watches b)
                  then all_accept (EventFilters b) e else Ok false }.

#[export] Instance plain_runtime_laws W : ControllerRuntimeLaws W.
Proof.
  split; [done|done|]. intros b e. cbn [enqueues plain_runtime].
  case_bool_decide as Hk; [|split; [done|by intros [? _]]].
  assert (all_accept (EventFilters b) e = Ok true ↔ Forall (λ p, p e = Ok true) (EventFilters b)) as ->;
    [|tauto].
  induction (EventFilters b) as [|p l IH]; cbn; [by rewrite list.Forall_nil|].
  rewrite list.Forall_cons -IH. destruct (p e) as [[]|?|]; naive_solver.
Qed.

(** ** Witnesses *)
Definition sample_reconciler : PERouterReconciler.t unit :=
  PERouterReconciler.mk (sample_client unit) "worker-a" "openperouter-system"
    "/etc/perouter/frr/frr.conf" 9080 None "info".
Definition starting_router : Pod.t :=
  Pod.mk "router-x7" "openperouter-system" "a1" {[ "app" := "router" ]} "worker-a" ""
    [PodCondition.mk PodReady "False"; PodCondition.mk ContainersReady "False"].

Lemma SetupWithManager_wakes_witness :
  enqueues (W := unit) (controller_builder sample_reconciler)
    (UpdateEvent (OPod starting_router) (OPod sample_router)) = Ok true
  ∧ enqueues (W := unit) (controller_builder sample_reconciler)
      (DeleteEvent (ONode (Node.mk "worker-b" 1700000600))) ≠ Ok true.
Proof.
  split.
  - apply SetupWithManager_wakes. cbn [event_object]. split; [split_and!; vm_compute; reflexivity|].
    intros old new [= <- <-]. exists starting_router. split; [done|]. vm_compute. done.
  - intros Hw. apply SetupWithManager_wakes in Hw. exact Hw.
Defined.

(** The node worker-b was the youngest; control is removed and worker-c joins. *)
Definition removed_node : Node.t := Node.mk "control" 1700000000.
Definition stale_node : Node.t := Node.mk "worker-b" 1700000600.
Definition joined_node : Node.t := Node.mk "worker-c" 1700000900.
Definition kept_node : Node.t := Node.mk "worker-a" 1700000300.
Definition later_client (W : Type) : client W :=
  sim_client W [joined_node; kept_node; stale_node] [] [] [].

Lemma replaced_node_clash_witness :
  let e := CreateEvent (ONode joined_node) in
  (nodeIndex (sample_client unit) "worker-b" tt).1 = Ok 2
  ∧ (nodeIndex (sample_client unit) "worker-b" tt).1 = (nodeIndex (later_client unit) "worker-c" tt).1
  ∧ enqueues (W := unit) (controller_builder sample_reconciler) e ≠ Ok true.
Proof.
  intros e. split; [vm_compute; reflexivity|].
  destruct (replaced_node_clash (sample_client unit) (later_client unit) tt tt tt tt sample_nodes
    [joined_node; kept_node; stale_node] removed_node stale_node joined_node [kept_node]
    sample_reconciler e joined_node) as [Hclash Hno].
  - reflexivity.
  - apply Permutation_swap.
  - reflexivity.
  - change ([joined_node; kept_node] ++ [stale_node] ≡ₚ [stale_node] ++ [joined_node; kept_node]).
    apply Permutation_app_comm.
  - apply (bool_decide_unpack _). vm_compute. exact I.
  - apply (bool_decide_unpack _). vm_compute. exact I.
  - cbn. lia.
  - intros m Hm. rewrite !elem_of_cons elem_of_nil in Hm. destruct Hm as [->|[->|[]]]; cbn; lia.
  - split; [exact Hclash|]. apply Hno. reflexivity.
Defined.

