(* ===== verification/Machine.v ===== *)
(** * A whole machine: the simulated kernel, files and commands, and a cluster

    The kernel of SimKernel next to the outside of Reload, as one world in which the
    reconciliation can run.  It shows that the hypotheses about the outside can hold
    together, and the witnesses of the theorems on [Reconcile] run on it. *)

From S2P Require Import Prelude GoStrings GoNet Api Ipam Frr HostParams Conversion.
From S2P Require Import Netlink Troubles NetLogic HostLinks LinkSpecs Progress Held Faults Origins VethSpecs SimKernel SimProgress.
From S2P Require Import HostNetwork HostSpecs Twins Detour VniSpecs VniProgress Underlay UnderlayProgress.
From S2P Require Import Reload Pods Cluster Controller Watched Outcome Again Live Steady Settles.
Local Open Scope Z_scope.

(** ** The kernel next to something else *)
Definition on_fst {A B V} (m : go A V) : go (A * B) V := λ w,
  let '(r, a) := m w.1 in (r, (a, w.2)).

Section pair.
Context {A B : Type} `{NetlinkLaws A}.

#[export] Instance pair_view : View (A * B) := λ w, view w.1.
#[export] Instance pair_netlink : Netlink (A * B) := {|
  LinkByName n := on_fst (LinkByName n);
  LinkByIndex i := on_fst (LinkByIndex i);
  LinkList := on_fst LinkList;
  LinkAdd l := on_fst (LinkAdd l);
  LinkDel l := on_fst (LinkDel l);
  LinkSetUp l := on_fst (LinkSetUp l);
  LinkSetMaster l m := on_fst (LinkSetMaster l m);
  LinkSetNsFd l h := on_fst (LinkSetNsFd l h);
  VethPeerIndex l := on_fst (VethPeerIndex l);
  AddrList l f := on_fst (AddrList l f);
  AddrAdd l a := on_fst (AddrAdd l a);
  AddrDel l a := on_fst (AddrDel l a);
  ParseAddr := ParseAddr (W:=A);
  RouteListFiltered f r m := on_fst (RouteListFiltered f r m);
  RouteAdd r := on_fst (RouteAdd r);
  Execute r p t := on_fst (Execute r p t);
  netns_Get := on_fst netns_Get;
  netns_GetFromName n := on_fst (netns_GetFromName n);
  netns_Set h := on_fst (netns_Set h);
  netns_Close h := on_fst (netns_Close h);
  LockOSThread := on_fst LockOSThread;
  UnlockOSThread := on_fst UnlockOSThread;
  OpenFile p f m := on_fst (OpenFile p f m);
  File_Write f t := on_fst (File_Write f t);
  File_Close f := on_fst (File_Close f) |}.

Lemma sat_on_fst {V} (m : go A V) R : sat m R → sat (on_fst (B:=B) m) R.
Proof.
  intros Hm w r w'. unfold on_fst. destruct (m w.1) as [x a] eqn:E. intros [= <- <-].
  exact (Hm _ _ _ E).
Qed.

#[export] Instance pair_laws : NetlinkLaws (A * B).
Proof.
  split; cbn [LinkByName LinkByIndex LinkList LinkAdd LinkDel LinkSetUp LinkSetMaster
    LinkSetNsFd VethPeerIndex AddrList AddrAdd AddrDel RouteListFiltered RouteAdd Execute
    netns_Get netns_GetFromName netns_Set netns_Close LockOSThread UnlockOSThread OpenFile
    File_Write File_Close pair_netlink]; intros; try apply sat_on_fst.
  all: try (exact (view_wf (W:=A) _) || apply LinkByName_law || apply LinkByIndex_law || apply LinkList_law
    || apply LinkAdd_law || apply LinkDel_law || apply LinkSetUp_law || apply LinkSetMaster_law
    || apply LinkSetNsFd_law || apply VethPeerIndex_law || apply AddrList_law || apply AddrAdd_law
    || apply AddrDel_law || apply RouteAdd_law || apply RouteListFiltered_law || apply Execute_law
    || apply Get_law || apply GetFromName_law || apply Set_law || apply Close_law || apply Lock_law
    || apply Unlock_law || apply OpenFile_law || apply File_Write_law || apply File_Close_law).
  - exact (ParseAddr_law (W:=A)).
  - pose proof (nil_link_law (W:=A)) as (H1' & H2' & H3' & H4' & H5' & H6' & H7').
    split_and!; intros; apply sat_on_fst; auto.
Qed.
End pair.

#[export] Instance pair_untroubled {A B : Type} `{Netlink A, View A, !Untroubled A} : Untroubled (A * B).
Proof.
  split; intros; apply sat_on_fst;
    (apply LinkAdd_apart || apply LinkSetNsFd_apart || apply Set_enters || apply loopback_known).
Qed.

#[export] Instance pair_progress {A B : Type} `{Netlink A, View A} {cap} `{!NetlinkProgress A cap} :
  NetlinkProgress (A * B) cap.
Proof.
  split; cbn [LinkByName LinkByIndex LinkList LinkAdd LinkDel LinkSetUp LinkSetMaster
    LinkSetNsFd VethPeerIndex AddrList AddrAdd AddrDel ParseAddr Execute netns_Get netns_GetFromName OpenFile
    File_Write pair_netlink]; intros; try apply sat_on_fst.
  all: try (apply cap_bound || apply LinkByName_can || apply LinkByIndex_can || apply LinkList_can
    || apply LinkAdd_can || apply LinkDel_can || apply LinkSetUp_can || apply LinkSetMaster_can
    || apply LinkSetNsFd_can || apply VethPeerIndex_can || apply AddrList_can || apply AddrAdd_can
    || apply AddrDel_can || apply Execute_can || apply Get_can || apply GetFromName_can
    || apply OpenFile_can || apply File_Write_can).
  - exact (view_room (W:=A) w.1).
  - exact (view_readable (W:=A) w.1 id d a H1 H2).
  - by apply (ParseAddr_can (W:=A)).
Qed.

(** ** The machine *)
Definition Machine : Type := NetState * OS.
#[export] Instance machine_outside : Outside Machine := sim_outside sample_url sample_conf.
#[export] Instance machine_outside_laws : OutsideLaws Machine (.= sample_url) sample_conf :=
  sim_outside_laws sample_url sample_conf.

Definition second_vni : VNI.t :=
  VNI.mk "blue" (VNISpec.mk 64514 "blue" 64516 200 "192.169.20.0/24" 4789).
Definition machine_client : client Machine :=
  sim_client Machine sample_nodes [other_pod; sample_router] [sample_underlay] [sample_vni; second_vni].
Definition machine_hostname : go Machine string := mret "worker-a".

(** Commands, files and requests only change the second part. *)
Definition same_kernel (w w' : Machine) : Prop := w'.1 = w.1.
#[export] Instance same_kernel_preorder : PreOrder same_kernel.
Proof. split; [done|]. unfold same_kernel. intros w1 w2 w3. congruence. Qed.

Lemma sim_exec_kernel name args : preserves same_kernel (sim_exec (V:=NetState) name args).
Proof. intros w r w' [= _ <-]. done. Qed.
Lemma sim_write_kernel p t m : preserves same_kernel (sim_write (V:=NetState) p t m).
Proof. intros w r w'. unfold sim_write. case_bool_decide; intros [= _ <-]; done. Qed.
Lemma sim_post_kernel u : preserves same_kernel (http_Post (W:=Machine) u).
Proof.
  cbn. case_bool_decide; [|apply preserves_fail, _]. unfold reloadHandler, Update, reloadAction.
  rewrite bool_decide_true //=.
  repeat first [apply preserves_bind; [apply _| |intros ?] | apply preserves_attempt; try apply _
    | apply preserves_on_err | apply sim_exec_kernel | apply preserves_ret, _ | case_match].
Qed.

#[export] Instance machine_apart : Apart machine_client machine_hostname.
Proof.
  assert (∀ {A} (m : go Machine A), preserves same_kernel m → preserves unseen m) as Hk.
  { intros A m Hm w r w' Hr. unfold unseen. change (host_kept (view w.1) (view w'.1)).
    by rewrite (Hm w r w' Hr). }
  split.
  - apply preserves_ret, _.
  - intros. apply preserves_ret, _.
  - apply preserves_ret, _.
  - apply preserves_ret, _.
  - apply preserves_ret, _.
  - intros. apply Hk, sim_exec_kernel.
  - intros. apply Hk, sim_write_kernel.
  - intros. apply Hk, sim_post_kernel.
Qed.

Definition machine_reconciler : PERouterReconciler.t Machine :=
  PERouterReconciler.mk machine_client "worker-a" "openperouter-system" sample_conf 9080
    (Some (sim_runtime Machine "full")) "info".
Definition machine_state : Machine := (sample_state [], sample_os).

Definition machine_run : res unit * Machine :=
  Reconcile machine_hostname sim_unmarshal machine_reconciler machine_state.

Lemma machine_run_Ok : machine_run.1 = Ok tt.
Proof. vm_compute. reflexivity. Qed.
Lemma machine_untroubled : Reconcile_troubles machine_hostname sim_unmarshal machine_reconciler machine_state = [].
Proof. vm_compute. reflexivity. Qed.

(** ** Witnesses *)
Lemma machine_serves w pod w' :
  routerPodForNode machine_client "worker-a" w = (Ok pod, w') →
  reload_url machine_reconciler pod = sample_url.
Proof. destruct w. intros Hr. vm_compute in Hr. injection Hr as <- _. vm_compute. reflexivity. Qed.

Lemma Reconcile_order_witness :
  machine_run.1 = Ok tt
  ∧ (host_kept (view machine_state) (view machine_run.2)
     ∨ ∃ idx pod us vs w1 w2, read_all machine_reconciler machine_state idx pod us vs w1
         ∧ frr_loaded (frr_data machine_reconciler idx pod us vs) w1 w2
         ∧ host_kept (view machine_state) (view w2)
         ∧ configured sim_unmarshal machine_reconciler idx pod us vs w2 machine_run.1 machine_run.2).
Proof.
  split; [exact machine_run_Ok|].
  apply (Reconcile_order machine_hostname sim_unmarshal machine_reconciler).
  - reflexivity.
  - exact machine_serves.
  - apply surjective_pairing.
Defined.

#[export] Instance machine_runtime_apart : RuntimeApart (sim_runtime Machine "full").
Proof. split; intros; apply preserves_ret, _. Qed.

(** What the machine is asked for. *)
Definition machine_red : VNIParams.t :=
  VNIParams.mk "red" "router" "100.65.0.1/32" "192.169.10.2/24" "192.169.10.0/24" 100 4789.
Definition machine_blue : VNIParams.t :=
  VNIParams.mk "blue" "router" "100.65.0.1/32" "192.169.20.2/24" "192.169.20.0/24" 200 4789.
Definition machine_params : UnderlayParams.t * list VNIParams.t :=
  (UnderlayParams.mk "toswitch" "100.65.0.1/32" "router", [machine_red; machine_blue]).

Lemma machine_conversion :
  APItoHostConfig 1 "router" [sample_underlay] [sample_vni; second_vni] = Ok machine_params.
Proof. vm_compute. reflexivity. Qed.

(** What every run reads. *)
Lemma machine_reads w idx pod us vs w' :
  read_all machine_reconciler w idx pod us vs w' →
  idx = 1 ∧ us = [sample_underlay] ∧ vs = [sample_vni; second_vni].
Proof.
  destruct w as [s o]. intros (w1 & w2 & w3 & H1 & _ & _ & H3 & H4). vm_compute in H1.
  injection H1 as <- _. by injection H3 as <- _; injection H4 as <- _.
Qed.
Lemma machine_ready w w' : ¬ not_ready machine_reconciler w w'.
Proof.
  destruct w as [s o]. intros (idx & pod & w1 & _ & Hp & Hnr). destruct w1 as [s1 o1].
  vm_compute in Hp. injection Hp as <- _. vm_compute in Hnr. discriminate.
Qed.
Lemma machine_namespace uid w ns w' :
  NetworkNamespace sim_unmarshal (sim_runtime Machine "full") uid w = (Ok ns, w') → ns = "router".
Proof. destruct w as [s o]. intros Hns. vm_compute in Hns. by injection Hns as <- _. Qed.

Lemma machine_canonical a ip net :
  no_char " " a = true → ParseCIDR a = Ok (ip, net) →
  IPNet_String (mkIPNet ip (IPNet_Mask net)) = a → canonical_addr Machine a.
Proof. apply canonical_of_net. Qed.

Lemma machine_possible_vni p :
  p = machine_red ∨ p = machine_blue → vni_possible (W:=Machine) p 1 (view machine_state).
Proof.
  intros Hp. split.
  - by destruct Hp as [-> | ->]; vm_compute.
  - apply (bool_decide_eq_true_1 _). vm_compute. reflexivity.
  - intros i d j e Hi Hn _ _. exfalso.
    refine (each_dev (λ _ d, dev_name d ∉ ["hostred"; "hostblue"]) _ _ i d Hi _); [by vm_compute|].
    rewrite Hn. destruct Hp as [-> | ->]; vm_compute; [left|right; left].
  - destruct Hp as [-> | ->]; split; (eapply machine_canonical; [vm_compute; reflexivity..]).
  - by destruct Hp as [-> | ->]; split; vm_compute.
Qed.

Lemma machine_possible : node_possible Machine machine_params.1 machine_params.2 1 (view (W:=Machine) machine_state).
Proof.
  split.
  - split; [vm_compute; reflexivity|eapply machine_canonical; [vm_compute; reflexivity..]
      |eapply machine_canonical; [vm_compute; reflexivity..]|split; vm_compute; discriminate|].
    intros i d (Hi & Hns & Hn). exfalso.
    refine (each_dev (λ _ d, dev_name d ≠ UnderlayLoopback) _ _ i d Hi Hn). vm_compute. reflexivity.
  - constructor; [apply machine_possible_vni; by left|].
    constructor; [apply machine_possible_vni; by right|constructor].
  - do 2 (split; [apply (bool_decide_eq_true_1 _); vm_compute; reflexivity|]). exact I.
  - intros i d Hi Hn.
    refine (each_dev (λ _ d, is_veth (dev_link d) = false ∧ is_vxlan (dev_link d) = false) _ _ i d Hi).
    vm_compute. reflexivity.
Qed.

Lemma Reconcile_configures_witness :
  machine_run.1 = Ok tt
  ∧ node_configured machine_params.1 machine_params.2 0 1 (view machine_run.2).
Proof.
  split; [exact machine_run_Ok|].
  destruct (Reconcile_configures machine_hostname sim_unmarshal machine_reconciler 1
    machine_state machine_run.2) as [Hnr|Hs].
  - reflexivity.
  - exact machine_serves.
  - intros rt Hrt. injection Hrt as <-. exact machine_runtime_apart.
  - rewrite -machine_run_Ok. apply surjective_pairing.
  - by apply machine_ready in Hnr.
  - destruct Hs as (idx & pod & us & vs & w1 & w2 & cfg & rt & ns & up & vps & w3 & Hread & _
      & _ & Hrt & Hns & Hconv & _ & _ & Hnode).
    apply machine_reads in Hread as (-> & -> & ->). injection Hrt as <-. apply machine_namespace in Hns as ->.
    rewrite machine_conversion in Hconv. injection Hconv as <- <-. exact (Hnode machine_possible machine_untroubled).
Defined.

(** The first reconciliation: no device of a VNI is there, and no command fails. *)
Definition machine_calm (w : Machine) : Prop := os_broken w.2 = [].

Lemma machine_accepts url cfg :
  url = sample_url → frr_accepts (path:=sample_conf) machine_hostname machine_calm url cfg.
Proof.
  intros ->. split.
  - intros w r w' Hc [= <- <-]. split; [by eexists|done].
  - intros text w r w' Hc. cbn. unfold sim_write. rewrite bool_decide_false //. by intros [= <- <-].
  - intros w Hc. cbn. by rewrite bool_decide_true.
  - intros host text action w r w' Hc _ _ _. cbn. unfold sim_exec, machine_calm in *. rewrite Hc.
    rewrite bool_decide_false; [|apply not_elem_of_nil]. intros [= <- <-]. split; [by eexists|done].
Qed.

Lemma machine_startable_vni p :
  p = machine_red ∨ p = machine_blue → vni_startable p 0 1 (view (W:=Machine) machine_state).
Proof.
  intros Hp. apply fresh_startable.
  - by destruct Hp as [-> | ->]; vm_compute.
  - by destruct Hp as [-> | ->]; vm_compute.
  - apply (bool_decide_eq_true_1 _). vm_compute. reflexivity.
  - intros i d Hd. refine (each_dev (λ _ d, dev_name d ∉ vni_names p ∧ is_vxlan (dev_link d) = false) _ _ i d Hd).
    by destruct Hp as [-> | ->]; vm_compute.
Qed.

Lemma machine_startable :
  node_startable Machine sim_cap machine_params.1 machine_params.2 1 (view (W:=Machine) machine_state).
Proof.
  split.
  - exact (node_underlay _ _ _ _ machine_possible).
  - vm_compute. reflexivity.
  - split.
    + exists 2%positive, (sample_dev 0 3 "toswitch" (OtherLink "device") ["192.168.11.3/24"]).
      split; [by split; vm_compute|]. right. split; [|by vm_compute].
      split_and!; vm_compute; reflexivity.
    + intros i d Hi Hns Hin. exfalso. refine (each_dev (λ _ d, special ∉ dev_addrs d) _ _ i d Hi Hin). vm_compute. reflexivity.
  - intros i d Hi _. refine (each_dev (λ _ d, is_veth (dev_link d) = false ∧ is_vxlan (dev_link d) = false) _ _ i d Hi).
    vm_compute. reflexivity.
  - constructor; [apply machine_startable_vni; by left|].
    constructor; [apply machine_startable_vni; by right|constructor].
  - do 2 (split; [apply (bool_decide_eq_true_1 _); vm_compute; reflexivity|]). exact I.
  - apply list.Forall_forall. intros p _ i d Hi _.
    refine (each_dev (λ _ d, special ∉ dev_addrs d) _ _ i d Hi). vm_compute. reflexivity.
  - apply Nat.leb_le. vm_compute. reflexivity.
Qed.

(** The cluster, FRR and the runtime answer in every state of the machine. *)
Lemma machine_answers w : machine_calm w →
  answers (path:=sample_conf) machine_hostname sim_unmarshal machine_reconciler machine_calm w 1 sample_router
    [sample_underlay] [sample_vni; second_vni] machine_params.1 machine_params.2 w.
Proof.
  intros Hcalm. split.
  - reflexivity.
  - vm_compute. reflexivity.
  - exists w, w, w. destruct w as [s o]. split_and!; vm_compute; reflexivity.
  - exact Hcalm.
  - destruct (APItoFRR 1 [sample_underlay] [sample_vni; second_vni] "info") as [cfg|e|] eqn:Hcfg;
      [|vm_compute in Hcfg; discriminate..].
    exists cfg. split; [exact Hcfg|]. apply machine_accepts. vm_compute. reflexivity.
  - exists (sim_runtime Machine "full"), "router". split; [reflexivity|]. split; [exact machine_runtime_apart|].
    split; [intros [s o]; exists (s, o); vm_compute; reflexivity|exact machine_conversion].
Qed.
Lemma machine_cur : cur_ns (view (W:=Machine) machine_state) = 0.
Proof. vm_compute. reflexivity. Qed.

Lemma Reconcile_succeeds_witness :
  ∃ w2 w', Reconcile machine_hostname sim_unmarshal machine_reconciler machine_state = (Ok tt, w')
    ∧ frr_loaded (frr_data machine_reconciler 1 sample_router [sample_underlay] [sample_vni; second_vni])
        machine_state w2
    ∧ node_configured machine_params.1 machine_params.2 0 1 (view w').
Proof.
  rewrite -machine_cur.
  apply (Reconcile_succeeds machine_hostname sim_unmarshal machine_reconciler machine_calm
    machine_state 1 sample_router [sample_underlay] [sample_vni; second_vni] machine_params.1 machine_params.2
    machine_state 1).
  - by apply machine_answers.
  - exact machine_startable.
  - exact machine_untroubled.
Defined.

(** Once configured, it stays as it is. *)
Lemma machine_off_mark : Forall off_mark machine_params.2.
Proof. apply (bool_decide_eq_true_1 (Forall (λ p, VNIParams.VethHostIP p ≠ special ∧ VNIParams.VethNSIP p ≠ special) _)). vm_compute. reflexivity. Qed.
Lemma machine_unmarked nic : only_marked nic (view (W:=Machine) machine_state).
Proof.
  intros i d Hd Hin. exfalso. refine (each_dev (λ _ d, special ∉ dev_addrs d) _ _ i d Hd Hin).
  vm_compute. reflexivity.
Qed.
Lemma machine_room : (size (devs (view (W:=Machine) machine_state)) + 2 * (2 + 18 * length machine_params.2) ≤ sim_cap)%nat.
Proof. apply Nat.leb_le. vm_compute. reflexivity. Qed.

Lemma Reconcile_settles_witness :
  ∃ w2 w', Reconcile machine_hostname sim_unmarshal machine_reconciler machine_state = (Ok tt, w')
    ∧ frr_loaded (frr_data machine_reconciler 1 sample_router [sample_underlay] [sample_vni; second_vni])
        machine_state w2
    ∧ node_steady Machine sim_cap machine_params.1 machine_params.2 1 (view w').
Proof.
  apply (Reconcile_settles machine_hostname sim_unmarshal machine_reconciler machine_calm
    machine_state 1 sample_router [sample_underlay] [sample_vni; second_vni] machine_params.1 machine_params.2
    machine_state 1).
  - by apply machine_answers.
  - exact machine_startable.
  - exact machine_off_mark.
  - apply machine_unmarked.
  - vm_compute. discriminate.
  - exact machine_room.
  - exact machine_untroubled.
Defined.

Lemma machine_steady : node_steady Machine sim_cap machine_params.1 machine_params.2 1 (view machine_run.2).
Proof.
  destruct (Reconcile_reaches machine_hostname sim_unmarshal machine_reconciler _ _ _ _ _ _ _ _ _
    (machine_answers machine_state eq_refl)) as (w2 & w3 & _ & Hk & Hrun & _).
  destruct (configure_settles machine_params.1 machine_params.2 1 w3) as (w' & Hr & Hs).
  - exact (node_startable_kept _ _ _ _ _ Hk machine_startable).
  - exact machine_off_mark.
  - exact (only_marked_devs _ _ _ (proj2 Hk) (machine_unmarked _)).
  - vm_compute. discriminate.
  - rewrite (proj2 Hk). exact machine_room.
  - unfold machine_run. by rewrite Hrun Hr.
Qed.

Lemma Reconcile_steady_witness :
  ∃ w2 w', Reconcile machine_hostname sim_unmarshal machine_reconciler machine_run.2 = (Ok tt, w')
    ∧ frr_loaded (frr_data machine_reconciler 1 sample_router [sample_underlay] [sample_vni; second_vni])
        machine_run.2 w2
    ∧ untouched (view machine_run.2) (view w')
    ∧ node_steady Machine sim_cap machine_params.1 machine_params.2 1 (view w').
Proof.
  apply (Reconcile_steady machine_hostname sim_unmarshal machine_reconciler machine_calm
    machine_run.2 1 sample_router [sample_underlay] [sample_vni; second_vni] machine_params.1 machine_params.2
    machine_run.2 1).
  - apply machine_answers. vm_compute. reflexivity.
  - exact machine_steady.
  - vm_compute. reflexivity.
Defined.

(** ** A VNI that is deleted *)
Definition present (ns : Z) (name : string) (s : NetState) : bool :=
  existsb (λ x, bool_decide (dev_name x.2 = name ∧ dev_ns x.2 = ns)) (map_to_list (devs s)).

(** The VNI blue is gone from the cluster when the controller runs again. *)
Definition reduced_client : client Machine :=
  sim_client Machine sample_nodes [other_pod; sample_router] [sample_underlay] [sample_vni].
Definition reduced_reconciler : PERouterReconciler.t Machine :=
  PERouterReconciler.mk reduced_client "worker-a" "openperouter-system" sample_conf 9080
    (Some (sim_runtime Machine "full")) "info".
Definition reduced_run : res unit * Machine :=
  Reconcile machine_hostname sim_unmarshal reduced_reconciler machine_run.2.

(** The state the second run starts in, and its devices by their numbers. *)
Definition second_state : NetState := view machine_run.2.
Definition device (id : positive) : Dev := default (sample_dev 0 1 "" Dummy []) (devs second_state !! id).

Lemma second_conversion :
  APItoHostConfig 1 "router" [sample_underlay] [sample_vni] = Ok (machine_params.1, [machine_red]).
Proof. vm_compute. reflexivity. Qed.

Lemma second_possible_vni : vni_possible (W:=Machine) machine_red 1 second_state.
Proof.
  split.
  - by vm_compute.
  - apply (bool_decide_eq_true_1 _). vm_compute. reflexivity.
  - intros i d j e Hi Hn Hp Hj.
    refine (two_devs (λ i d j e, dev_name d = "hostred" → dev_peer d = Some j → dev_name e = "pered")
      _ _ i d j e Hi Hj Hn Hp). vm_compute. reflexivity.
  - split; (eapply machine_canonical; [vm_compute; reflexivity..]).
  - by split; vm_compute.
Qed.

Lemma second_possible : node_possible Machine machine_params.1 [machine_red] 1 second_state.
Proof.
  split.
  - split; [vm_compute; reflexivity|eapply machine_canonical; [vm_compute; reflexivity..]
      |eapply machine_canonical; [vm_compute; reflexivity..]|split; vm_compute; discriminate|].
    intros i d (Hi & Hns & Hn).
    refine (each_dev (λ _ d, dev_name d = UnderlayLoopback →
      (is_veth (dev_link d) = false ∧ is_vxlan (dev_link d) = false) ∧ underlayNicSpecialAddr ∉ dev_addrs d) _ _ i d Hi Hn).
    vm_compute. reflexivity.
  - constructor; [apply second_possible_vni|constructor].
  - split; [apply (bool_decide_eq_true_1 _); vm_compute; reflexivity|exact I].
  - intros i d Hi Hn.
    refine (each_dev (λ _ d, dev_name d = UnderlayParams.MainNic machine_params.1 →
      is_veth (dev_link d) = false ∧ is_vxlan (dev_link d) = false) _ _ i d Hi Hn).
    vm_compute. reflexivity.
Qed.

Lemma second_off_underlay : off_underlay machine_blue machine_params.1 second_state.
Proof.
  split.
  - apply (bool_decide_eq_true_1 _). vm_compute. reflexivity.
  - by vm_compute.
  - intros i d Hi Hin.
    refine (each_dev (λ _ d, dev_name d ∈ vni_names machine_blue ++ [UnderlayLoopback] →
      underlayNicSpecialAddr ∉ dev_addrs d) _ _ i d Hi Hin).
    vm_compute. reflexivity.
Qed.

Lemma second_configured : vni_configured machine_blue 0 1 second_state.
Proof.
  split.
  - exists 28%positive, (device 28), 29%positive, (device 29), 30%positive, (device 30).
    split_and!; try (vm_compute; reflexivity); apply (bool_decide_eq_true_1 _); vm_compute; reflexivity.
  - exists 31%positive, (device 31), 32%positive, (device 32), 22%positive, (device 22).
    split_and!; try (vm_compute; reflexivity). eexists. split_and!; vm_compute; reflexivity.
Qed.

Lemma second_cur : cur_ns (view (W:=Machine) machine_run.2) = 0.
Proof. vm_compute. reflexivity. Qed.

(** The second cluster is read as the first one. *)
#[export] Instance reduced_apart : Apart reduced_client machine_hostname.
Proof.
  pose proof machine_apart as [_ _ _ _ _ He Hw Hp].
  split; [apply preserves_ret, _|intros; apply preserves_ret, _|apply preserves_ret, _|apply preserves_ret, _
    |apply preserves_ret, _|exact He|exact Hw|exact Hp].
Qed.

Lemma reduced_reads w idx pod us vs w' :
  read_all reduced_reconciler w idx pod us vs w' → idx = 1 ∧ us = [sample_underlay] ∧ vs = [sample_vni].
Proof.
  destruct w as [s o]. intros (w1 & w2 & w3 & H1 & _ & _ & H3 & H4). vm_compute in H1.
  injection H1 as <- _. by injection H3 as <- _; injection H4 as <- _.
Qed.
Lemma reduced_ready w w' : ¬ not_ready reduced_reconciler w w'.
Proof.
  destruct w as [s o]. intros (idx & pod & w1 & _ & Hp & Hnr). destruct w1 as [s1 o1].
  vm_compute in Hp. injection Hp as <- _. vm_compute in Hnr. discriminate.
Qed.

Lemma reduced_run_Ok : reduced_run.1 = Ok tt.
Proof. vm_compute. reflexivity. Qed.

Lemma Reconcile_keeps_vnis_witness :
  reduced_run.1 = Ok tt ∧ vni_configured machine_blue 0 1 (view reduced_run.2).
Proof.
  split; [exact reduced_run_Ok|].
  destruct (Reconcile_keeps_vnis machine_hostname sim_unmarshal reduced_reconciler 1
    machine_run.2 reduced_run.2) as [Hnr|Hs].
  - reflexivity.
  - exact machine_serves.
  - intros rt Hrt. injection Hrt as <-. exact machine_runtime_apart.
  - rewrite -reduced_run_Ok. apply surjective_pairing.
  - by apply reduced_ready in Hnr.
  - destruct Hs as (idx & pod & us & vs & w1 & w2 & rt & ns & up & vps & w3 & Hread & Hrt & Hns & Hconv & Hkeep).
    apply reduced_reads in Hread as (-> & -> & ->). injection Hrt as <-. apply machine_namespace in Hns as ->.
    rewrite second_conversion in Hconv. injection Hconv as <- <-.
    rewrite second_cur in Hkeep.
    refine (Hkeep machine_blue second_possible _ second_off_underlay _ second_configured).
    + vm_compute. reflexivity.
    + split; [|exact I]. apply (bool_decide_eq_true_1 _). vm_compute. reflexivity.
Defined.

(** Where two VNIs were set up a reconciliation after one is deleted succeeds, and all
    devices of the deleted VNI are still there.  [RemoveNonConfiguredVNIs], which
    [Reconcile] never calls, would have removed them. *)
Example Reconcile_keeps_deleted_vni :
  machine_run.1 = Ok tt ∧ reduced_run.1 = Ok tt
  ∧ (let s := view reduced_run.2 in
     present 1 "blue" s && present 1 (BridgeName 200) s && present 1 (vxLanName 200) s
     && present 1 "peblue" s && present 0 "hostblue" s = true)
  ∧ (let clean := RemoveNonConfiguredVNIs 1 [machine_red] reduced_run.2 in
     let s := view clean.2 in
     clean.1 = Ok tt
     ∧ present 1 "blue" s || present 1 (BridgeName 200) s || present 1 (vxLanName 200) s
       || present 1 "peblue" s || present 0 "hostblue" s = false).
Proof. vm_compute. split_and!; reflexivity. Qed.
