(* ===== verification/Retry.v ===== *)
(** * A kernel that refuses, and a machine that recovers

    The kernel in miniature fails as the file Faults says, and so does any kernel that
    refuses some of its calls.  With such a kernel under the machine of the file Machine a
    reconciliation stops half way; the witnesses of the theorems of Recovery run the code
    there and then again under the kernel that refuses nothing.  What an attempt that
    failed leaves for good is shown on the same machine. *)

From S2P Require Import Prelude GoStrings GoNet Api Ipam Frr HostParams Conversion.
From S2P Require Import Netlink Troubles NetLogic HostLinks LinkSpecs Progress Held Faults Origins LinkProgress VethSpecs SimKernel SimProgress.
From S2P Require Import Refusals HostNetwork HostSpecs Twins Detour VniSpecs VniProgress Underlay UnderlayProgress.
From S2P Require Import Reload Pods Cluster Controller Watched Outcome Again Live Steady Settles Lasting Recovery Machine.
Local Open Scope Z_scope.

#[export] Instance pair_fail_stop {A B : Type} `{Netlink A, View A, !FailStop A} : FailStop (A * B).
Proof.
  split; intros; apply sat_on_fst;
    (apply LinkAdd_stops || apply LinkDel_stops || apply LinkSetUp_stops || apply LinkSetMaster_stops
     || apply LinkSetNsFd_stops || apply AddrAdd_stops || apply AddrDel_stops || apply Execute_stops
     || apply File_Write_stops).
Qed.

(** ** A reconciliation that stops half way *)
Definition no_masters : Netlink Machine := refusing (mkRefusals true false (λ _, false) (λ _, false)) pair_netlink.
Definition failed_run : res unit * Machine :=
  Reconcile (H:=no_masters) machine_hostname sim_unmarshal machine_reconciler machine_state.
Definition machine_nic : string := "toswitch".
Definition machine_known : list VNIParams.t := [machine_red; machine_blue].

(** It ends with an error after the underlay and the veth pair of the first VNI are set up. *)
Lemma failed_run_stopped :
  (∃ e, failed_run.1 = Err e)
  ∧ (let s := view failed_run.2 in
     present 1 "lound" s && present 1 "toswitch" s && present 0 "hostred" s && present 1 "pered" s
     && present 1 "red" s = true ∧ present 1 "br100" s || present 0 "hostblue" s = false).
Proof. vm_compute. split; [by eexists|split; reflexivity]. Qed.

Lemma machine_plan : plan machine_nic machine_known.
Proof.
  split.
  - split; vm_compute; discriminate.
  - intros p Hp. refine (proj1 (list.Forall_forall (λ p, machine_nic ∉ vni_names p) _) _ p Hp).
    apply (bool_decide_eq_true_1 _). vm_compute. reflexivity.
  - intros p q Hp Hq. assert (Forall (λ p, Forall (λ q, alike p q ∨ Forall (λ n, n ∉ vni_names p) (vni_names q)) machine_known) machine_known) as Hall.
    { unfold alike. apply (bool_decide_eq_true_1 _). vm_compute. reflexivity. }
    rewrite list.Forall_forall in Hall. specialize (Hall p Hp). rewrite list.Forall_forall in Hall.
    destruct (Hall q Hq) as [|Hf]; [by left|right]. by rewrite list.Forall_forall in Hf.
  - exact machine_off_mark.
Qed.

Lemma machine_plain i d : devs (view (W:=Machine) machine_state) !! i = Some d → plain_link (dev_link d) = true.
Proof.
  intros Hi. apply plain_link_spec.
  refine (each_dev (λ _ d, is_veth (dev_link d) = false ∧ is_vxlan (dev_link d) = false) _ _ i d Hi).
  vm_compute. reflexivity.
Qed.
Lemma machine_node_ready : node_ready machine_nic machine_known 0 1 (view (W:=Machine) machine_state).
Proof.
  split.
  - intros p [->|[->|[]%elem_of_nil]%elem_of_cons]%elem_of_cons; apply machine_startable_vni; [by left|by right].
  - intros i d Hi Hn. by apply machine_plain in Hi.
  - intros i d Hi Hn. by apply machine_plain in Hi.
  - pose proof (new_nic _ _ _ (live_nics _ _ _ _ machine_startable)) as Hnic. rewrite machine_cur in Hnic. exact Hnic.
  - apply machine_unmarked.
Qed.

Lemma machine_asked s :
  named s = named (view (W:=Machine) machine_state) → asked machine_nic machine_known 1 s machine_params.1 machine_params.2.
Proof. intros Hn. split; [done|rewrite Hn; by vm_compute|by vm_compute|by vm_compute|done]. Qed.

Lemma machine_within : within_plan machine_nic machine_known 1 sim_unmarshal machine_reconciler machine_state.
Proof.
  intros idx pod us vs w1 rt ns w2 w3 up vps Hread Hrt _ Hns Hconv.
  apply machine_reads in Hread as (-> & -> & ->). injection Hrt as <-. apply machine_namespace in Hns as ->.
  rewrite machine_conversion in Hconv. injection Hconv as <- <-. by apply machine_asked.
Qed.

Lemma machine_runtimes rt :
  PERouterReconciler.PodRuntime machine_reconciler = Some rt → RuntimeApart rt.
Proof. intros Hrt. injection Hrt as <-. exact machine_runtime_apart. Qed.

Lemma Reconcile_retries_witness :
  (∃ e, failed_run.1 = Err e) ∧ node_ready machine_nic machine_known 0 1 (view failed_run.2).
Proof.
  split; [exact (proj1 failed_run_stopped)|]. rewrite -machine_cur.
  apply (Reconcile_retries (H:=no_masters) (H1:=refusing_laws _ _ _)
    (FailStop0:=refusing_stops _ _ _ _) machine_hostname sim_unmarshal machine_reconciler machine_nic machine_known 1
    machine_state failed_run.1 failed_run.2 machine_plan machine_runtimes machine_within).
  - rewrite machine_cur. exact machine_node_ready.
  - apply surjective_pairing.
  - vm_compute. reflexivity.
Defined.

Lemma failed_attempt : attempt machine_nic machine_known 1 machine_state failed_run.2.
Proof.
  apply (attempt_reconcile _ _ _ no_masters machine_hostname sim_unmarshal machine_reconciler _ failed_run.1).
  - apply refusing_laws, _.
  - apply refusing_stops; apply _.
  - apply machine_apart.
  - exact machine_runtimes.
  - exact machine_within.
  - apply surjective_pairing.
  - vm_compute. reflexivity.
Qed.

(** Then the kernel refuses nothing any more. *)
Lemma Reconcile_recovers_witness :
  (∃ e, failed_run.1 = Err e)
  ∧ ∃ w2 w', Reconcile machine_hostname sim_unmarshal machine_reconciler failed_run.2 = (Ok tt, w')
      ∧ frr_loaded (frr_data machine_reconciler 1 sample_router [sample_underlay] [sample_vni; second_vni])
          failed_run.2 w2
      ∧ node_steady Machine sim_cap machine_params.1 machine_params.2 1 (view w').
Proof.
  split; [exact (proj1 failed_run_stopped)|].
  apply (Reconcile_recovers machine_hostname sim_unmarshal machine_reconciler machine_calm machine_nic machine_known
    machine_state failed_run.2 1 sample_router [sample_underlay] [sample_vni; second_vni] machine_params.1
    machine_params.2 failed_run.2 1).
  - exact machine_plan.
  - rewrite machine_cur. exact machine_node_ready.
  - apply rtc_once, failed_attempt.
  - apply machine_answers. vm_compute. reflexivity.
  - apply machine_asked. vm_compute. reflexivity.
  - do 2 (split; [apply (bool_decide_eq_true_1 _); vm_compute; reflexivity|]). exact I.
  - apply Nat.leb_le. vm_compute. reflexivity.
  - vm_compute. reflexivity.
Defined.

(** ** What an attempt that failed leaves for good *)
Definition run_refused (x : refusals) : res unit * Machine :=
  Reconcile (H:=refusing x pair_netlink) machine_hostname sim_unmarshal machine_reconciler machine_state.
Definition retried (x : refusals) : res unit * Machine :=
  Reconcile machine_hostname sim_unmarshal machine_reconciler (run_refused x).2.

Definition has_address (ns : Z) (name a : string) (s : NetState) : bool :=
  existsb (λ x, bool_decide (dev_name x.2 = name ∧ dev_ns x.2 = ns ∧ a ∈ dev_addrs x.2)) (map_to_list (devs s)).
Definition enslaved (ns : Z) (name : string) (s : NetState) : bool :=
  existsb (λ x, bool_decide (dev_name x.2 = name ∧ dev_ns x.2 = ns ∧ dev_master x.2 ≠ 0)) (map_to_list (devs s)).

(** The interface is moved and its address is not restored: the next attempt finds the
    interface in the router's namespace, succeeds, and does not restore it either. *)
Example retry_loses_addresses :
  let x := mkRefusals false false (λ a, bool_decide (a = "192.168.11.3/24")) (λ _, false) in
  has_address 0 "toswitch" "192.168.11.3/24" (view machine_state) = true
  ∧ has_address 1 "toswitch" "192.168.11.3/24" (view machine_run.2) = true
  ∧ (∃ e, (run_refused x).1 = Err e) ∧ (retried x).1 = Ok tt
  ∧ present 1 "toswitch" (view (retried x).2) = true
  ∧ has_address 1 "toswitch" "192.168.11.3/24" (view (retried x).2) = false.
Proof. vm_compute. split_and!; try reflexivity. by eexists. Qed.

(** The bridge is made and not enslaved to the VRF: the next attempt uses the bridge as it
    is and succeeds. *)
Example retry_leaves_bridge :
  let x := mkRefusals false true (λ _, false) (λ _, false) in
  enslaved 1 "br100" (view machine_run.2) = true
  ∧ (∃ e, (run_refused x).1 = Err e) ∧ (retried x).1 = Ok tt
  ∧ present 1 "br100" (view (retried x).2) = true ∧ enslaved 1 "br100" (view (retried x).2) = false
  ∧ enslaved 1 (vxLanName 100) (view (retried x).2) = true.
Proof. vm_compute. split_and!; try reflexivity. by eexists. Qed.
